(* ===== verification/_CoqProject ===== *)
-Q . S2P
Prelude.v
Effects.v
Errors.v
Sodium.v
Message.v
Peer.v
Ports.v
Sockets.v
World.v
UdpTransport.v
StubTransports.v
Identity.v
CryptoManager.v
Sealing.v
Discovery.v
MessageStore.v
Sqlite.v
SqliteStorage.v
SqliteStorageSpec.v
SqliteStorageProps.v
MessageStoreProps.v
SqliteLifecycle.v
Session.v
Dedup.v
Router.v
RouterSpec.v
RouterProps.v
Mesh.v
MeshInv.v
MeshProps.v
MeshFlow.v
MeshReach.v
MeshOnce.v
MeshDemo.v
Outbound.v
Ffi.v
FfiSpec.v
FfiApi.v
FfiDemo.v
FfiProps.v
FfiLifecycle.v
Jvm.v
Jni.v
JniSpec.v
JniApi.v
JniDemo.v
JniProps.v
JniLifecycle.v
Hex.v
Stdio.v
Cli.v
CliSpec.v
CliMain.v
CliProps.v
EndToEnd.v
