(* ===== verification/Prelude.v ===== *)
(** * BitChat core: a verification development

    BitChat is a mesh messenger.  Its core is C: a message with a fixed wire
    format is sealed for its recipient, flooded from node to node with a hop
    limit, a bounded fan-out and a cache of seen ids, and kept in a database
    for later rebroadcast.  Three front ends drive it: a command-line node, a C
    API for mobile applications, and a JNI bridge on top of that API.  The
    development models all of this C code (src/src and src/include) as
    executable Rocq functions and proves what makes it correct.

    ** How C is modelled

    - Integers are [Z]; casts and unsigned arithmetic are written out
      ([to_u8] ... [to_i64], below).  Bytes are integers in 0..255, buffers
      lists of bytes; a pointer is an [option] (NULL is [None]); an output
      buffer is passed in and returned as the call leaves it.
    - A C function that can have undefined behaviour returns [res] (below): a
      value, [UB] (a read or write out of bounds, a double free, a lock misused,
      a call that a library forbids), or [NoFuel].
    - A C function with effects is a computation [M W A] on a world [W]
      ([Effects]).  The world contains the C run-time: the clock, the allocator
      with its set of live blocks, the random generator, and what uninitialized
      memory happens to hold (which is not a random draw).  Their answers are
      oracles, so every theorem covers every sequence of clock readings,
      allocation failures, random bytes and leftovers; [clock_read] and [drawn]
      say that a time or some bytes were answered in a given period.  Other parts of the world (network,
      database, standard streams and files, global variables, virtual machine)
      are lenses with laws, one class each.
    - [wp m w Q] is total correctness: [m] is defined, returns, and ends in a
      state with [Q].  A statement with [wp] thus says also that there is no
      undefined behaviour and that the fuel given is enough.
    - [silent] and [idle] say that nothing but the run-time was used between two
      worlds: no adapter, callback, stream or variable.  The specifications of
      the operations put them between the effects they name, so that each of
      these happens once and no other happens.
    - [balanced], [acquired], [released] ([Effects]) account for heap blocks; a
      world's own state may hold blocks too ([held], for instance the messages
      queued in the API's inbox).

    ** Files and what they model

    - [Prelude] (this file): machine integers, memory access on lists, the
      generic lemmas and the [bitchat] hint database.  [Effects]: the run-time,
      the monad, [wp] and its rules.  [Errors]: include/bitchat/error.h.
    - [Sodium]: libsodium's primitives as a class with their documented laws;
      [toy_sodium] is an instance.
    - [Message]: domain/message.c with the wire format as an abstract encoder
      and decoder.  [Peer]: domain/peer.c.  [Identity]: domain/identity.c.
    - [Ports]: the function tables of port/transport.h and port/storage.h, and
      the contracts the core needs of an adapter ([TransportSafe],
      [StorageSafe]), which the adapters below discharge.
    - [Sockets], [UdpTransport]: infra/transport_udp_sim.c over datagram
      sockets.  [StubTransports]: infra/transport_ble.c and transport_wifi.c.
      [World]: a concrete world for witnesses.
    - [CryptoManager]: usecase/crypto_manager.c.  [Sealing]: payloads as both
      front ends build and open them.  [Discovery]: usecase/node_discovery.c.
      [MessageStore]: usecase/message_store.c.
    - [Sqlite]: the SQLite interface as a class with its documented behaviour,
      and a small engine that meets it.  [SqliteStorage]: the code of
      infra/storage_sqlite.c.  [SqliteStorageSpec], [SqliteStorageProps],
      [SqliteLifecycle]: rules, properties, construction and destruction.
      [Session]: using an adapter between its creation and its destruction.
      [MessageStoreProps]: a session of the message store over the adapter.
    - [Dedup]: the cache of seen ids of usecase/mesh_router.c.  [Router]: the
      router itself.  [RouterSpec], [RouterProps]: its specification as
      relations between states, the rules, the theorems.
    - [Mesh]: a network of nodes, each a router with the UDP adapter and an
      optional SQLite store in a world of its own, as a step relation whose
      labels are the calls of the nodes and what the network does to a datagram
      in flight (delay, reorder, lose, duplicate, deliver), with an executable
      counterpart.  [MeshInv]: the invariant of nodes and traffic.
      [MeshProps], [MeshFlow], [MeshReach], [MeshOnce]: the theorems.
      [MeshDemo]: meshes of two and three nodes on which they apply.
    - [Outbound]: the rule of the sending path both front ends share, from a
      plaintext to the router.  [EndToEnd]: front ends, sealing and mesh
      together.
    - [Ffi]: bridge/bitchat_ffi.c.  [FfiSpec]: the inbox ring as a queue.
      [FfiApi]: the API's invariant and the rule of each function.  [FfiDemo]:
      a concrete application.  [FfiProps], [FfiLifecycle]: the theorems.
    - [Jvm]: the JNI functions as a class with the laws of the JNI
      specification.  [Jni]: bridge/bitchat_jni.c.  [JniSpec], [JniApi],
      [JniDemo], [JniProps], [JniLifecycle]: rules, demonstration, theorems.
    - [Hex], [Stdio], [Cli]: cli/main.c, its hexadecimal codec, and the part of
      the standard library it uses.  [CliSpec], [CliMain], [CliProps]: rules,
      start-up and shutdown, theorems.

    ** What the theorems show

    - Wire format: serialization is the encoder, parsing the decoder wherever
      the length field does not wrap; round trips both ways (what is written is
      read back, what was parsed is written back byte for byte); a length field
      near 2^32 defeats the bounds test.
    - Duplicate suppression: within its lifetime an id that was inserted is
      found, through every branch of the probing and overwriting; eviction is
      exact, except that freeing a slot can hide a younger id behind it.
    - Router: receiving, broadcasting, the periodic tick and the peer table
      refine relations that say who is delivered to, what is stored, forwarded
      to how many peers, and when; the next packet with the same id, or an
      echo, is dropped; the tick's receive loop ends, with fuel for the datagrams that
      the network still delivers.
    - Networks: in every reachable state of a mesh of such nodes only what some
      application broadcast circulates, applications are handed only what was
      addressed to them, and no call is undefined or runs forever; without
      storage one broadcast causes at most B + B^2 + ... + B^(t+1) datagrams
      (B copies per relay, time-to-live t); along a route of idle nodes no
      longer than its time-to-live a message reaches the addressee, and a text
      sealed for it is shown on its terminal; while ids neither expire nor fill
      a table no node delivers or relays a message twice; and a node that has
      forgotten an id delivers the message again.
    - Storage: the adapter keeps the storage contract on every path, out of
      memory and database errors included; reading pending messages returns
      exactly the rows due; creation and destruction leak nothing, but for a
      connection SQLite hands out on failure; a message store on top keeps a
      message until it is deleted.  A read error looks like an empty table.
    - Cryptography: what one party seals the other opens; forged or truncated
      input yields an error and no plaintext.
    - C API: any sequence of calls keeps the invariant; the inbox is a bounded
      queue; sending seals under a nonce drawn for it, forwards once and stores
      once, polling returns what was sealed; from initialization to shutdown
      every resource is given back.  The API's router never learns a peer, so
      what it is given is stored and goes to nobody, and calls outside that
      session are undefined.
    - JNI bridge: the same for the native methods, whatever the listener throws:
      borrowed buffers, references and the mutex are given back, and a delivered
      message reaches the listener exactly once, from a thread of the virtual
      machine or one that it lets attach itself; the bridge is not safe when the
      machine runs out of memory, so the theorems assume that it does not.
    - Command-line node: for all arguments, files, input, benign datagrams and
      schedules of its two threads the program returns with every resource given
      back once it is told to stop; commands print exactly what they should; keys
      survive a restart, but a key file that cannot be opened for reading is
      replaced.

    ** Standing hypotheses

    They appear in the statements, and are named where a theorem is documented:
    a received datagram's length field does not wrap the parser's bounds test
    ([length_field_safe], [benign], [TransportBenign]; otherwise
    [deserialize_length_wraps]); rows already in the database have the shape the
    adapter writes ([row_wf]); the adapters, callbacks and engines keep the
    contracts stated as classes; the clock is between 1970 and 2^62 seconds
    ([clock_sane]); the virtual machine has memory ([v_roomy], in [jni_ok]).
    That the allocator never refuses ([never_oom]) is assumed only where a
    theorem says so.

    ** Fuel

    Loops whose bound is in the source recurse on it.  The receive loop of a
    tick is given one more than the datagrams still to come ([inbound]), the
    inbox drain one more than its 255 messages, a run of the command-line node
    the length of its schedule, a node of a mesh one more than the datagrams
    that wait at its socket ([enough]); the theorems are proved for these.

    ** Not modelled

    - The Kotlin user interface, the unit tests, the vendored libraries (Unity,
      SQLite, libsodium, the JVM): interface classes stand for the last three.
    - Preemption inside a call: calls of the C API and native methods are
      atomic (they hold a mutex), and the two threads of the command-line node
      switch only between whole steps (a line of input, a tick), which the code
      does not enforce: it calls the router from both without a lock.
      Re-entry of the API from a callback is excluded, as its header demands.
    - In a mesh an application's callback records the message and does nothing
      else; a datagram that a full socket buffer drops is one that is lost.  The
      theorems about meshes assume that SQLite does not run out of memory when
      it binds parameters ([BindsSucceed]), which the adapter does not check.
    - Wiping of dead stack variables, which no result depends on, except where
      its bounds matter; log output of the tests; Windows variants.
*)
From stdpp Require Export prelude gmap.
From Stdlib Require Export ZArith Lia.

#[export] Set Bullet Behavior "Strict Subproofs".

Declare Scope bitchat_scope.
Delimit Scope bitchat_scope with bc.
Open Scope Z_scope.

(** ** Machine integers

    Every C integer is a [Z]; the conversions to a fixed width are written
    out where the source performs them (casts, unsigned arithmetic). *)

(** [(uint8_t)x]. *)
Definition to_u8 (x : Z) : Z := x mod 2 ^ 8.
(** [(uint16_t)x]. *)
Definition to_u16 (x : Z) : Z := x mod 2 ^ 16.
(** [(uint32_t)x]. *)
Definition to_u32 (x : Z) : Z := x mod 2 ^ 32.
(** [(uint64_t)x] and [(size_t)x]: the shipped ABIs are x86_64 and arm64. *)
Definition to_u64 (x : Z) : Z := x mod 2 ^ 64.
(** [(int)x] for a 64-bit [x]: two's complement truncation. *)
Definition to_i32 (x : Z) : Z := (x + 2 ^ 31) mod 2 ^ 32 - 2 ^ 31.
(** [(int64_t)x]. *)
Definition to_i64 (x : Z) : Z := (x + 2 ^ 63) mod 2 ^ 64 - 2 ^ 63.

#[global] Arguments to_u8 x : simpl never.
#[global] Arguments to_u16 x : simpl never.
#[global] Arguments to_u32 x : simpl never.
#[global] Arguments to_u64 x : simpl never.
#[global] Arguments to_i32 x : simpl never.
#[global] Arguments to_i64 x : simpl never.

Definition is_u8 (x : Z) : Prop := 0 <= x < 2 ^ 8.
Definition is_u32 (x : Z) : Prop := 0 <= x < 2 ^ 32.
Definition is_u64 (x : Z) : Prop := 0 <= x < 2 ^ 64.

#[export] Instance is_u8_dec x : Decision (is_u8 x).
Proof. unfold is_u8; apply _. Defined.
#[export] Instance is_u32_dec x : Decision (is_u32 x).
Proof. unfold is_u32; apply _. Defined.
#[export] Instance is_u64_dec x : Decision (is_u64 x).
Proof. unfold is_u64; apply _. Defined.

(** ** Bytes and buffers *)

(** A C byte array: every element is a [uint8_t]. *)
Definition bytes_ok (l : list Z) : Prop := Forall is_u8 l.

(** A fixed-size byte array [uint8_t x[n]]. *)
Definition bytes_n (n : nat) (l : list Z) : Prop := length l = n /\ bytes_ok l.

#[export] Instance bytes_ok_dec l : Decision (bytes_ok l).
Proof. unfold bytes_ok; apply _. Defined.
#[export] Instance bytes_n_dec n l : Decision (bytes_n n l).
Proof. unfold bytes_n; apply _. Defined.

(** The length of a buffer as a C [size_t]. *)
Definition zlen {A} (l : list A) : Z := Z.of_nat (length l).

(** ** Results of C code

    [UB] is undefined behaviour (an access out of bounds, a division by zero,
    a double free, a lock of a destroyed mutex); [NoFuel] is reported only by
    definitions that bound a loop of the source by a fuel argument. *)
Inductive res (A : Type) : Type :=
| Val (a : A)
| UB
| NoFuel.
Arguments Val {A} a.
Arguments UB {A}.
Arguments NoFuel {A}.

#[export] Instance res_ret : MRet res := fun A a => Val a.
#[export] Instance res_bind : MBind res := fun A B f m =>
  match m with Val a => f a | UB => UB | NoFuel => NoFuel end.

(** [memcpy] from [src + off]: reading outside the object is undefined. *)
Definition mem_read (src : list Z) (off n : Z) : res (list Z) :=
  if bool_decide (0 <= off /\ 0 <= n /\ off + n <= zlen src)
  then Val (take (Z.to_nat n) (drop (Z.to_nat off) src)) else UB.

(** [memcpy] to [dst + off]: writing outside the object is undefined. *)
Definition mem_write (dst : list Z) (off : Z) (src : list Z) : res (list Z) :=
  if bool_decide (0 <= off /\ off + zlen src <= zlen dst)
  then Val (take (Z.to_nat off) dst ++ src
            ++ drop (Z.to_nat off + length src) dst)
  else UB.

(** [a[i]] on an array. *)
Definition arr_get {A} (a : list A) (i : Z) : res A :=
  if bool_decide (0 <= i)
  then match a !! Z.to_nat i with Some x => Val x | None => UB end
  else UB.

(** [a[i] = x] on an array. *)
Definition arr_set {A} (a : list A) (i : Z) (x : A) : res (list A) :=
  if bool_decide (0 <= i < zlen a) then Val (<[Z.to_nat i := x]> a) else UB.

(** ** The big-endian reference encoding *)

(** The [n] bytes of [v], most significant first. *)
Fixpoint be_encode (n : nat) (v : Z) : list Z :=
  match n with
  | O => []
  | S n' => be_encode n' (v / 2 ^ 8) ++ [v mod 2 ^ 8]
  end.

(** The value of a big-endian byte string. *)
Definition be_decode (l : list Z) : Z := foldl (fun acc b => acc * 2 ^ 8 + b) 0 l.

(** ** Automation *)

Create HintDb bitchat.

(** Facts about lengths in [Z], pushed into linear arithmetic. *)
Ltac zlen_lia :=
  unfold zlen in *;
  repeat match goal with
  | H : context [length (_ ++ _)] |- _ => rewrite length_app in H
  | H : context [length (take _ _)] |- _ => rewrite length_take in H
  | H : context [length (drop _ _)] |- _ => rewrite length_drop in H
  | H : context [length (_ :: _)] |- _ => rewrite length_cons in H
  | H : context [length []] |- _ => rewrite length_nil in H
  | H : context [length (<[_:=_]> _)] |- _ => rewrite length_insert in H
  | H : context [length (replicate _ _)] |- _ => rewrite length_replicate in H
  end;
  repeat first
    [ rewrite length_app | rewrite length_take | rewrite length_drop
    | rewrite length_cons | rewrite length_nil | rewrite length_insert
    | rewrite length_replicate ];
  lia.

(** Decide the range tests of [mem_read], [mem_write], [arr_get], [arr_set]. *)
Ltac decide_true :=
  match goal with
  | |- context [bool_decide ?P] =>
      rewrite (bool_decide_eq_true_2 P) by first [done | zlen_lia]
  end.
Ltac decide_false :=
  match goal with
  | |- context [bool_decide ?P] =>
      rewrite (bool_decide_eq_false_2 P) by first [done | zlen_lia]
  end.

(** ** Lemmas on machine integers *)

Lemma to_u8_range x : is_u8 (to_u8 x).
Proof. unfold to_u8, is_u8. apply Z.mod_pos_bound. lia. Qed.
Lemma to_u32_range x : is_u32 (to_u32 x).
Proof. unfold to_u32, is_u32. apply Z.mod_pos_bound. lia. Qed.
Lemma to_u64_range x : is_u64 (to_u64 x).
Proof. unfold to_u64, is_u64. apply Z.mod_pos_bound. lia. Qed.
Lemma to_u8_id x : is_u8 x -> to_u8 x = x.
Proof. intros; by apply Z.mod_small. Qed.
Lemma to_u32_id x : is_u32 x -> to_u32 x = x.
Proof. intros; by apply Z.mod_small. Qed.
Lemma to_u64_id x : is_u64 x -> to_u64 x = x.
Proof. intros; by apply Z.mod_small. Qed.
Lemma to_i32_id x : - 2 ^ 31 <= x < 2 ^ 31 -> to_i32 x = x.
Proof. intros. unfold to_i32. rewrite Z.mod_small; lia. Qed.
Lemma to_i64_id x : - 2 ^ 63 <= x < 2 ^ 63 -> to_i64 x = x.
Proof. intros. unfold to_i64. rewrite Z.mod_small; lia. Qed.

#[export] Hint Resolve to_u8_range to_u32_range to_u64_range : bitchat.

(** [a << k | b] is [a * 2^k + b] when [b] fits below the shift. *)
Lemma lor_shiftl_add a b k :
  0 <= k -> 0 <= b < 2 ^ k -> Z.lor (Z.shiftl a k) b = a * 2 ^ k + b.
Proof.
  intros Hk Hb. rewrite <- (Z.shiftl_mul_pow2 a k Hk). symmetry.
  apply Z.add_nocarry_lor. apply Z.bits_inj'. intros n Hn.
  rewrite Z.land_spec, Z.bits_0, Z.shiftl_spec by done.
  destruct (decide (n < k)) as [Hlt|Hge].
  - rewrite (Z.testbit_neg_r a) by lia. done.
  - rewrite andb_false_iff. right.
    rewrite <- (Z.mod_small b (2 ^ k)) by done. apply Z.mod_pow2_bits_high. lia.
Qed.

(** ** Lemmas on buffers *)

Lemma zlen_nonneg {A} (l : list A) : 0 <= zlen l.
Proof. unfold zlen; lia. Qed.
Lemma zlen_app {A} (l k : list A) : zlen (l ++ k) = zlen l + zlen k.
Proof. zlen_lia. Qed.
#[export] Hint Resolve zlen_nonneg : bitchat.

Lemma mem_read_ok src off n :
  0 <= off -> 0 <= n -> off + n <= zlen src ->
  mem_read src off n = Val (take (Z.to_nat n) (drop (Z.to_nat off) src)).
Proof. intros. unfold mem_read. by decide_true. Qed.

(** Reading back a block that sits between a prefix and a suffix. *)
Lemma mem_read_mid pre mid post off n :
  zlen pre = off -> zlen mid = n ->
  mem_read (pre ++ mid ++ post) off n = Val mid.
Proof.
  intros <- <-. rewrite mem_read_ok by zlen_lia.
  unfold zlen. by rewrite !Nat2Z.id, drop_app_length, take_app_length.
Qed.

Lemma mem_write_ok dst off src :
  0 <= off -> off + zlen src <= zlen dst ->
  mem_write dst off src =
    Val (take (Z.to_nat off) dst ++ src ++ drop (Z.to_nat off + length src) dst).
Proof. intros. unfold mem_write. by decide_true. Qed.

(** Appending at the write pointer: the step of every sequential serializer. *)
Lemma mem_write_cursor pre rest off src :
  zlen pre = off -> zlen src <= zlen rest ->
  mem_write (pre ++ rest) off src = Val ((pre ++ src) ++ drop (length src) rest).
Proof.
  intros <- Hle. rewrite mem_write_ok by zlen_lia.
  unfold zlen. rewrite Nat2Z.id, take_app_length, <- drop_drop, drop_app_length.
  by rewrite (assoc_L (++)).
Qed.

Lemma arr_get_ok {A} (a : list A) (i : Z) x :
  0 <= i -> a !! Z.to_nat i = Some x -> arr_get a i = Val x.
Proof. intros Hi Hx. unfold arr_get. decide_true. by rewrite Hx. Qed.

Lemma arr_get_in_range {A} (a : list A) (i : Z) :
  0 <= i < zlen a -> exists x, a !! Z.to_nat i = Some x /\ arr_get a i = Val x.
Proof.
  intros Hi. destruct (lookup_lt_is_Some_2 a (Z.to_nat i)) as [x Hx]; [zlen_lia|].
  exists x. split; [done|]. apply arr_get_ok; [lia|done].
Qed.

Lemma arr_set_ok {A} (a : list A) (i : Z) x :
  0 <= i < zlen a -> arr_set a i x = Val (<[Z.to_nat i := x]> a).
Proof. intros. unfold arr_set. by decide_true. Qed.

Lemma bytes_ok_app l k : bytes_ok (l ++ k) <-> bytes_ok l /\ bytes_ok k.
Proof. apply Forall_app. Qed.
Lemma bytes_ok_take n l : bytes_ok l -> bytes_ok (take n l).
Proof. apply Forall_take. Qed.
Lemma bytes_ok_drop n l : bytes_ok l -> bytes_ok (drop n l).
Proof. apply Forall_drop. Qed.
Lemma bytes_ok_replicate n b : is_u8 b -> bytes_ok (replicate n b).
Proof. intros. by apply Forall_replicate. Qed.
Lemma map_to_u8_id l : bytes_ok l -> map to_u8 l = l.
Proof. induction 1 as [|x l Hx _ IH]; [done|]. cbn. by rewrite IH, to_u8_id. Qed.
#[export] Hint Resolve bytes_ok_take bytes_ok_drop bytes_ok_replicate : bitchat.

(** ** Lemmas on the reference encoding *)

Lemma be_encode_length n v : length (be_encode n v) = n.
Proof.
  revert v. induction n as [|n IH]; intros v; [done|].
  cbn [be_encode]. rewrite length_app, IH. cbn. lia.
Qed.

Lemma be_encode_bytes n v : bytes_ok (be_encode n v).
Proof.
  revert v. induction n as [|n IH]; intros v; [constructor|].
  cbn [be_encode]. apply bytes_ok_app. split; [apply IH|].
  constructor; [|done]. apply Z.mod_pos_bound; lia.
Qed.

Lemma be_decode_snoc l b : be_decode (l ++ [b]) = be_decode l * 2 ^ 8 + b.
Proof. unfold be_decode. by rewrite foldl_app. Qed.

Lemma be_decode_encode n v :
  0 <= v < 2 ^ (8 * Z.of_nat n) -> be_decode (be_encode n v) = v.
Proof.
  revert v. induction n as [|n IH]; intros v Hv.
  - change (2 ^ (8 * Z.of_nat 0)) with 1 in Hv. cbn. lia.
  - cbn [be_encode]. rewrite be_decode_snoc, IH.
    + pose proof (Z.div_mod v (2 ^ 8)). lia.
    + replace (8 * Z.of_nat (S n)) with (8 * Z.of_nat n + 8) in Hv by lia.
      rewrite Z.pow_add_r in Hv by lia.
      split; [apply Z.div_pos; lia|apply Z.div_lt_upper_bound; lia].
Qed.

(** Only the low [8 n] bits of a value reach the wire. *)
Lemma be_encode_mod n v : be_encode n (v mod 2 ^ (8 * Z.of_nat n)) = be_encode n v.
Proof.
  revert v. induction n as [|n IH]; intros v; [done|]. cbn [be_encode].
  replace (8 * Z.of_nat (S n)) with (8 + 8 * Z.of_nat n) by lia.
  rewrite Z.pow_add_r, Z.rem_mul_r by lia. f_equal; [|f_equal].
  - rewrite <- (IH (v / 2 ^ 8)). f_equal.
    rewrite (Z.mul_comm (2 ^ 8)), Z.add_comm, Z.div_add_l by lia.
    rewrite (Z.div_small (v mod 2 ^ 8)) by (apply Z.mod_pos_bound; lia). lia.
  - by rewrite (Z.mul_comm (2 ^ 8)), Z.mod_add, Z.mod_mod.
Qed.

Lemma be_decode_range l : bytes_ok l -> 0 <= be_decode l < 2 ^ (8 * zlen l).
Proof.
  induction l as [|b l IH] using rev_ind; intros Hok; [done|].
  apply bytes_ok_app in Hok as [Hl Hb]. apply Forall_cons_1 in Hb as [Hb _].
  specialize (IH Hl). rewrite be_decode_snoc, zlen_app.
  replace (8 * (zlen l + zlen [b])) with (8 * zlen l + 8) by zlen_lia.
  rewrite Z.pow_add_r by zlen_lia. unfold is_u8 in Hb. lia.
Qed.

Lemma be_encode_decode l : bytes_ok l -> be_encode (length l) (be_decode l) = l.
Proof.
  induction l as [|b l IH] using rev_ind; intros Hok; [done|].
  apply bytes_ok_app in Hok as [Hl Hb]. apply Forall_cons_1 in Hb as [Hb _].
  rewrite length_app, Nat.add_comm. cbn [length Nat.add be_encode].
  rewrite be_decode_snoc. unfold is_u8 in Hb. f_equal; [|f_equal].
  - rewrite Z.div_add_l by lia. rewrite (Z.div_small b), Z.add_0_r by done. by apply IH.
  - rewrite Z.add_comm, Z.mod_add by lia. by apply Z.mod_small.
Qed.
