(* ===== verification/Effects.v ===== *)
(** * Effects: the C run-time the core code calls

    The core is sequential C over a small run-time: the wall clock
    ([time(NULL)]), the allocator ([malloc], [calloc], [free]) and libsodium's
    random generator.  Their answers are not determined by the program, so a
    world carries them as oracles (functions of the number of calls made so
    far) and every theorem quantifies over all of them.  The allocator keeps
    the set of live blocks: freeing a block that is not live is undefined
    behaviour, and "no leak" is an equation between live sets.

    [M W A] is the monad of a C function of result [A] that may change the
    world [W]; [wp] is its total-correctness weakest precondition. *)
From S2P Require Import Prelude.

Create HintDb quiet.

(** ** The run-time state *)

(** The block numbers of the allocator. *)
Abbreviation blk := nat (only parsing).

(** A pointer to an owned heap object: its block and its contents. *)
Record box (A : Type) : Type := Box { addr : blk; contents : A }.
Arguments Box {A} addr contents.
Arguments addr {A} b.
Arguments contents {A} b.

Record os : Type := mkOS {
  os_now : nat -> Z;            (* the n-th reading of time(NULL) *)
  os_reads : nat;               (* readings made so far *)
  os_grant : nat -> bool;       (* does the n-th allocation succeed? *)
  os_next : nat;                (* allocations tried so far, and fresh block *)
  os_live : gset blk;           (* blocks allocated and not freed *)
  os_random : nat -> nat -> Z;  (* the n-th draw, byte by byte *)
  os_draws : nat;               (* draws and uninitialized buffers so far *)
  os_junk : nat -> nat -> Z     (* what an uninitialized buffer holds *)
}.

(** A world that contains the run-time state: a lens with its laws.  [inbound]
    counts the datagrams the network still delivers to this node; it bounds the
    receive loop of the router, and run-time calls do not change it. *)
Class HasOS (W : Type) : Type := {
  get_os : W -> os;
  set_os : os -> W -> W;
  inbound : W -> nat;
  get_set_os : forall o w, get_os (set_os o w) = o;
  set_get_os : forall w, set_os (get_os w) w = w;
  set_set_os : forall o o' w, set_os o (set_os o' w) = set_os o w;
  inbound_set_os : forall o w, inbound (set_os o w) = inbound w
}.

(** What a world keeps besides the run-time: an invariant of its own state
    ([world_ok]), the heap blocks that state owns ([held], for instance the
    messages queued in a global inbox), and how that state may evolve while
    other code runs ([evolves], a preorder).  None of them looks at the
    run-time part. *)
Class WorldInv (W : Type) `{!HasOS W} : Type := {
  world_ok : W -> Prop;
  held : W -> gset blk;
  evolves : relation W;
  #[global] evolves_preorder :: PreOrder evolves;
  world_ok_set_os : forall o w, world_ok (set_os o w) <-> world_ok w;
  held_set_os : forall o w, held (set_os o w) = held w;
  evolves_set_os : forall o w, evolves w (set_os o w)
}.

(** The run-time alone is a world. *)
#[export] Program Instance os_HasOS : HasOS os :=
  {| get_os := fun w => w; set_os := fun o _ => o; inbound := fun _ => 0%nat |}.
Solve All Obligations with done.
#[export] Program Instance os_inv : WorldInv os :=
  {| world_ok := fun _ => True; held := fun _ => ∅; evolves := fun _ _ => True |}.
Solve All Obligations with done.

(** ** The monad *)

Definition M (W A : Type) : Type := W -> res (A * W).

#[export] Instance M_ret W : MRet (M W) := fun A a w => Val (a, w).
#[export] Instance M_bind W : MBind (M W) := fun A B f m w =>
  match m w with
  | Val (a, w') => f a w'
  | UB => UB
  | NoFuel => NoFuel
  end.

(** A computation that does not touch the world but may be undefined. *)
Definition lift {W A} (r : res A) : M W A := fun w =>
  match r with Val a => Val (a, w) | UB => UB | NoFuel => NoFuel end.

(** ** Run-time calls *)

Section calls.
Context {W : Type} `{!HasOS W}.

(** [(uint64_t)time(NULL)]. *)
Definition c_time : M W Z := fun w =>
  let o := get_os w in
  Val (to_u64 (os_now o (os_reads o)),
       set_os (mkOS (os_now o) (S (os_reads o)) (os_grant o) (os_next o)
                 (os_live o) (os_random o) (os_draws o) (os_junk o)) w).

(** [malloc] and [calloc]: NULL ([None]) when the oracle refuses, else a
    block that was never handed out before. *)
Definition c_alloc : M W (option blk) := fun w =>
  let o := get_os w in
  let b := os_next o in
  if os_grant o b
  then Val (Some b,
            set_os (mkOS (os_now o) (os_reads o) (os_grant o) (S b)
                      ({[b]} ∪ os_live o) (os_random o) (os_draws o) (os_junk o)) w)
  else Val (None,
            set_os (mkOS (os_now o) (os_reads o) (os_grant o) (S b)
                      (os_live o) (os_random o) (os_draws o) (os_junk o)) w).

(** [free(p)]: a no-op on NULL, undefined on a block that is not live. *)
Definition c_free (p : option blk) : M W unit := fun w =>
  match p with
  | None => Val (tt, w)
  | Some b =>
      let o := get_os w in
      if bool_decide (b ∈ os_live o)
      then Val (tt, set_os (mkOS (os_now o) (os_reads o) (os_grant o)
                              (os_next o) (os_live o ∖ {[b]})
                              (os_random o) (os_draws o) (os_junk o)) w)
      else UB
  end.

(** [randombytes_buf(buf, n)]: the bytes written. *)
Definition randombytes_buf (n : nat) : M W (list Z) := fun w =>
  let o := get_os w in
  Val (map (fun i => to_u8 (os_random o (os_draws o) i)) (seq 0 n),
       set_os (mkOS (os_now o) (os_reads o) (os_grant o) (os_next o)
                 (os_live o) (os_random o) (S (os_draws o)) (os_junk o)) w).

(** What [n] uninitialized bytes of memory happen to hold; they do not come
    from the random generator. *)
Definition indeterminate (n : nat) : M W (list Z) := fun w =>
  let o := get_os w in
  Val (map (fun i => to_u8 (os_junk o (os_draws o) i)) (seq 0 n),
       set_os (mkOS (os_now o) (os_reads o) (os_grant o) (os_next o)
                 (os_live o) (os_random o) (S (os_draws o)) (os_junk o)) w).

(** [malloc(n)]: the contents of the new block are indeterminate. *)
Definition c_malloc (n : Z) : M W (option (box (list Z))) :=
  b ← c_alloc;
  match b with
  | None => mret None
  | Some b => junk ← indeterminate (Z.to_nat n); mret (Some (Box b junk))
  end.

(** An uninitialized array of the stack. *)
Definition stack_buffer (n : Z) : M W (list Z) := indeterminate (Z.to_nat n).

End calls.

(** ** Total-correctness reasoning *)

(** [wp m w Q]: run in [w], [m] is defined, returns, and establishes [Q]. *)
Definition wp {W A} (m : M W A) (w : W) (Q : A -> W -> Prop) : Prop :=
  match m w with
  | Val (a, w') => Q a w'
  | _ => False
  end.

(** The wall clock is after 1970 and far from the end of a 64-bit [time_t]. *)
Definition clock_sane (o : os) : Prop := forall n, 0 <= os_now o n < 2 ^ 62.

(** The blocks the allocator has handed out are below its counter, so a new
    block is fresh; what the world's state holds is live. *)
Definition heap_shape {W} `{!HasOS W, !WorldInv W} (w : W) : Prop :=
  (forall b, b ∈ os_live (get_os w) -> (b < os_next (get_os w))%nat) /\
  held w ⊆ os_live (get_os w).

(** Besides, the world's own invariant holds and the clock is sane.  Every
    operation preserves it. *)
Definition heap_ok {W} `{!HasOS W, !WorldInv W} (w : W) : Prop :=
  heap_shape w /\ world_ok w /\ clock_sane (get_os w).

(** Time and the allocator only move forward, the oracles never change, no
    datagram joins those the network delivers, the heap keeps its shape and the
    world its invariant. *)
Definition advances {W} `{!HasOS W, !WorldInv W} (w w' : W) : Prop :=
  os_now (get_os w') = os_now (get_os w) /\
  os_grant (get_os w') = os_grant (get_os w) /\
  os_random (get_os w') = os_random (get_os w) /\
  (os_reads (get_os w) <= os_reads (get_os w'))%nat /\
  (os_next (get_os w) <= os_next (get_os w'))%nat /\
  (inbound w' <= inbound w)%nat /\
  (heap_shape w -> heap_shape w') /\ (world_ok w -> world_ok w') /\
  (os_draws (get_os w) <= os_draws (get_os w'))%nat.

(** Besides, the world's own state evolves as it may. *)
Definition later {W} `{!HasOS W, !WorldInv W} (w w' : W) : Prop :=
  advances w w' /\ evolves w w'.

(** The live blocks that the running code must account for: all but those the
    world's own state holds. *)
Definition owned {W} `{!HasOS W, !WorldInv W} (w : W) : gset blk :=
  os_live (get_os w) ∖ held w.

(** [w'] is reached from [w] by code that frees what it allocates or leaves it
    with the world's state: the same blocks remain to be accounted for. *)
Definition balanced {W} `{!HasOS W, !WorldInv W} (w w' : W) : Prop :=
  later w w' /\ owned w' = owned w.

(** [w'] is reached from [w] by code that gives back the blocks [bs]. *)
Definition released {W} `{!HasOS W, !WorldInv W} (bs : gset blk) (w w' : W) : Prop :=
  later w w' /\ owned w' = owned w ∖ bs.

(** [w'] owns exactly the blocks [bs] on top of those of [w]. *)
Definition acquired {W} `{!HasOS W, !WorldInv W} (bs : gset blk) (w w' : W) : Prop :=
  later w w' /\
  owned w' = bs ∪ owned w /\
  bs ## owned w /\
  (forall b, b ∈ bs -> (os_next (get_os w) <= b < os_next (get_os w'))%nat).

(** [t] is what [time(NULL)] answered at some point between [w] and [w']. *)
Definition clock_read {W} `{!HasOS W} (w w' : W) (t : Z) : Prop :=
  exists n, (os_reads (get_os w) <= n < os_reads (get_os w'))%nat /\
            t = to_u64 (os_now (get_os w) n).

(** [l] is a draw of [n] bytes that the random generator made between [w] and
    [w']. *)
Definition drawn {W} `{!HasOS W} (w w' : W) (n : nat) (l : list Z) : Prop :=
  exists k, (os_draws (get_os w) <= k < os_draws (get_os w'))%nat /\
            l = map (fun i => to_u8 (os_random (get_os w) k i)) (seq 0 n).

(** Every allocation succeeds. *)
Definition never_oom {W} `{!HasOS W} (w : W) : Prop :=
  forall n, os_grant (get_os w) n = true.

Section wp.
Context {W : Type}.
Implicit Types w : W.

Lemma wp_val {A} (m : M W A) w Q :
  wp m w Q <-> exists a w', m w = Val (a, w') /\ Q a w'.
Proof.
  unfold wp. destruct (m w) as [[a w']| |]; split; try naive_solver.
Qed.

Lemma wp_outcome {A} (m : M W A) w Q a w' : wp m w Q -> m w = Val (a, w') -> Q a w'.
Proof. unfold wp. intros H He. by rewrite He in H. Qed.

Lemma wp_ret {A} (a : A) w (Q : A -> W -> Prop) : Q a w -> wp (mret a) w Q.
Proof. done. Qed.

Lemma wp_bind {A B} (m : M W A) (k : A -> M W B) w Q :
  wp m w (fun a w' => wp (k a) w' Q) -> wp (m ≫= k) w Q.
Proof.
  unfold wp, mbind, M_bind. destruct (m w) as [[a w']| |]; done.
Qed.

Lemma wp_mono {A} (m : M W A) w (Q R : A -> W -> Prop) :
  wp m w Q -> (forall a w', Q a w' -> R a w') -> wp m w R.
Proof. unfold wp. destruct (m w) as [[a w']| |]; naive_solver. Qed.

Lemma wp_lift {A} (r : res A) w (Q : A -> W -> Prop) a :
  r = Val a -> Q a w -> wp (lift r) w Q.
Proof. intros ->. done. Qed.

(** A computation that leaves a part of the world alone. *)
Definition untouched {S A} (f : W -> S) (m : M W A) : Prop :=
  forall w a w', m w = Val (a, w') -> f w' = f w.

Lemma wp_frame {S A} (f : W -> S) (m : M W A) w (Q : A -> W -> Prop) :
  untouched f m -> wp m w (fun a w' => f w' = f w -> Q a w') -> wp m w Q.
Proof.
  intros Hf. unfold wp. destruct (m w) as [[a w']| |] eqn:He; try done.
  intros HQ. by apply HQ, (Hf _ a).
Qed.

Lemma untouched_bind {S A B} (f : W -> S) (m : M W A) (k : A -> M W B) :
  untouched f m -> (forall a, untouched f (k a)) -> untouched f (m ≫= k).
Proof.
  intros Hm Hk w b w'. unfold mbind, M_bind. destruct (m w) as [[a w1]| |] eqn:He; try done.
  intros Hb. rewrite (Hk _ _ _ _ Hb). by eapply Hm.
Qed.

Lemma untouched_ret {S A} (f : W -> S) (a : A) : untouched f (mret a).
Proof. by intros w a' w' [= _ ->]. Qed.

Lemma untouched_lift {S A} (f : W -> S) (r : res A) : untouched f (lift r).
Proof. intros w a' w'. unfold lift. destruct r; [|done..]. by intros [= _ ->]. Qed.

Lemma bind_val {A B} (m : M W A) (k : A -> M W B) w a w' :
  m w = Val (a, w') -> (m ≫= k) w = k a w'.
Proof. unfold mbind, M_bind. by intros ->. Qed.

Lemma lift_val {A} (r : res A) (a : A) w :
  r = Val a -> lift r w = Val (a, w).
Proof. by intros ->. Qed.
End wp.

Section heap.
Context {W : Type} `{!HasOS W, !WorldInv W}.
Implicit Types w : W.

Lemma advances_refl w : advances w w.
Proof. unfold advances. split_and!; done. Qed.

Lemma advances_trans w1 w2 w3 : advances w1 w2 -> advances w2 w3 -> advances w1 w3.
Proof.
  intros (?&?&?&?&?&?&?&?&?) (?&?&?&?&?&?&?&?&?). unfold advances.
  split_and!; try congruence; lia || tauto.
Qed.

Lemma advances_heap_ok w w' : advances w w' -> heap_ok w -> heap_ok w'.
Proof.
  unfold heap_ok, clock_sane. intros (Hn & _ & _ & _ & _ & _ & Hs & Hw & _) (? & ? & ?).
  rewrite Hn. auto.
Qed.

Lemma advances_never_oom w w' : advances w w' -> never_oom w -> never_oom w'.
Proof. intros (_ & Hg & _) Hok n. rewrite Hg. apply Hok. Qed.

Lemma advances_inbound w w' : advances w w' -> (inbound w' <= inbound w)%nat.
Proof. unfold advances. tauto. Qed.

Lemma later_refl w : later w w.
Proof. split; [apply advances_refl|reflexivity]. Qed.

Lemma later_trans w1 w2 w3 : later w1 w2 -> later w2 w3 -> later w1 w3.
Proof. intros [] []. split; [by eapply advances_trans|by etrans]. Qed.

Lemma later_advances w w' : later w w' -> advances w w'.
Proof. by intros []. Qed.

Lemma later_next w w' : later w w' -> (os_next (get_os w) <= os_next (get_os w'))%nat.
Proof. unfold later, advances; tauto. Qed.

Lemma later_inbound w w' : later w w' -> (inbound w' <= inbound w)%nat.
Proof. intros []. by apply advances_inbound. Qed.

Lemma later_heap_ok w w' : later w w' -> heap_ok w -> heap_ok w'.
Proof. intros []. by apply advances_heap_ok. Qed.

Lemma later_never_oom w w' : later w w' -> never_oom w -> never_oom w'.
Proof. intros []. by apply advances_never_oom. Qed.

Lemma heap_world_ok w : heap_ok w -> world_ok w.
Proof. by intros (_ & ? & _). Qed.

Lemma balanced_later w w' : balanced w w' -> later w w'.
Proof. by intros []. Qed.

Lemma acquired_later bs w w' : acquired bs w w' -> later w w'.
Proof. by intros []. Qed.

Lemma balanced_refl w : balanced w w.
Proof. split; [apply later_refl|done]. Qed.

Lemma balanced_trans w1 w2 w3 :
  balanced w1 w2 -> balanced w2 w3 -> balanced w1 w3.
Proof. intros [? ?] [? ?]. split; [by eapply later_trans|congruence]. Qed.

Lemma balanced_heap_ok w w' : balanced w w' -> heap_ok w -> heap_ok w'.
Proof. intros []. by apply later_heap_ok. Qed.

Lemma acquired_heap_ok bs w w' : acquired bs w w' -> heap_ok w -> heap_ok w'.
Proof. intros []. by apply later_heap_ok. Qed.

Lemma acquired_nil w w' : balanced w w' <-> acquired ∅ w w'.
Proof.
  unfold balanced, acquired. split; [intros [? ->]|intros (? & -> & _ & _)];
    split_and?; try done; set_solver.
Qed.

(** Acquiring after balanced code, and balanced code after acquiring. *)
Lemma balanced_acquired bs w1 w2 w3 :
  balanced w1 w2 -> acquired bs w2 w3 -> acquired bs w1 w3.
Proof.
  intros [Hn Hl] (Hn' & Hl' & Hd & Hr). rewrite Hl in Hl', Hd.
  split_and!; [by eapply later_trans|done|done|].
  intros b Hb. specialize (Hr _ Hb). apply later_next in Hn. lia.
Qed.

Lemma acquired_balanced bs w1 w2 w3 :
  acquired bs w1 w2 -> balanced w2 w3 -> acquired bs w1 w3.
Proof.
  intros (Hn & Hl & Hd & Hr) [Hn' Hl'].
  split_and!; [by eapply later_trans|congruence|done|].
  intros b Hb. specialize (Hr _ Hb). apply later_next in Hn'. lia.
Qed.

Lemma acquired_union bs bs' w1 w2 w3 :
  acquired bs w1 w2 -> acquired bs' w2 w3 -> acquired (bs' ∪ bs) w1 w3.
Proof.
  intros (Hn & Hl & Hd & Hr) (Hn' & Hl' & Hd' & Hr'). rewrite Hl in Hl', Hd'.
  split_and!; [by eapply later_trans|set_solver|set_solver|].
  apply later_next in Hn, Hn'.
  intros b [Hb|Hb]%elem_of_union; [specialize (Hr' _ Hb)|specialize (Hr _ Hb)]; lia.
Qed.

(** Blocks acquired later differ from blocks acquired before. *)
Lemma acquired_disjoint bs bs' w1 w2 w3 :
  acquired bs w1 w2 -> acquired bs' w2 w3 -> bs ## bs'.
Proof. intros (_ & Hl & _) (_ & _ & Hd & _). rewrite Hl in Hd. set_solver. Qed.

Lemma clock_read_u64 w w' t : clock_read w w' t -> is_u64 t.
Proof. intros (n & _ & ->). apply to_u64_range. Qed.

(** A reading of a sane clock is the clock's value. *)
Lemma clock_read_sane w w' t : heap_ok w -> clock_read w w' t -> 0 <= t < 2 ^ 62.
Proof.
  intros (_ & _ & Hc) (n & _ & ->). specialize (Hc n). rewrite to_u64_id; [done|].
  unfold is_u64. lia.
Qed.

Lemma clock_read_before w1 w2 w3 t :
  later w1 w2 -> clock_read w2 w3 t -> clock_read w1 w3 t.
Proof.
  intros [(Hn & _ & _ & Hr & _) _] (n & Hle & ->). exists n. rewrite Hn. split; [lia|done].
Qed.

Lemma clock_read_after w1 w2 w3 t :
  clock_read w1 w2 t -> later w2 w3 -> clock_read w1 w3 t.
Proof. intros (n & Hle & ->) [(_ & _ & _ & Hr & _) _]. exists n. split; [lia|done]. Qed.

Lemma drawn_bytes w w' n l : drawn w w' n l -> bytes_n n l.
Proof.
  intros (k & _ & ->). split; [by rewrite length_map, length_seq|].
  apply Forall_map, Forall_true. intros; apply to_u8_range.
Qed.

Lemma drawn_before w1 w2 w3 n l : later w1 w2 -> drawn w2 w3 n l -> drawn w1 w3 n l.
Proof.
  intros [(_ & _ & Hr & _ & _ & _ & _ & _ & Hd) _] (k & Hle & ->). exists k. rewrite Hr.
  split; [lia|done].
Qed.

Lemma drawn_after w1 w2 w3 n l : drawn w1 w2 n l -> later w2 w3 -> drawn w1 w3 n l.
Proof.
  intros (k & Hle & ->) [(_ & _ & _ & _ & _ & _ & _ & _ & Hd) _]. exists k. split; [lia|done].
Qed.

(** A change of the run-time that moves nothing but the clock, the counter and
    the random draws. *)
Lemma set_os_balanced o w :
  os_now o = os_now (get_os w) -> os_grant o = os_grant (get_os w) ->
  os_random o = os_random (get_os w) -> os_live o = os_live (get_os w) ->
  (os_reads (get_os w) <= os_reads o)%nat -> (os_next (get_os w) <= os_next o)%nat ->
  (os_draws (get_os w) <= os_draws o)%nat -> balanced w (set_os o w).
Proof.
  intros Hn Hg Hr Hl ? ? ?. unfold balanced, later, advances, owned, heap_shape.
  rewrite ?get_set_os, ?inbound_set_os, ?held_set_os, ?world_ok_set_os, Hl.
  split_and!; try done; try tauto; [|apply evolves_set_os].
  intros (Hb & ?). split; [|done]. intros b Hin. specialize (Hb _ Hin). lia.
Qed.

(** A change of another part of the world. *)
Lemma same_os_balanced w w' :
  get_os w' = get_os w -> (inbound w' <= inbound w)%nat -> held w' = held w ->
  evolves w w' -> (world_ok w -> world_ok w') -> balanced w w'.
Proof.
  intros Ho Hi Hh He Hw. unfold balanced, later, advances, owned, heap_shape. rewrite Ho, Hh.
  by split_and!.
Qed.

(** Rules for the run-time calls. *)
Lemma wp_time w (Q : Z -> W -> Prop) :
  (forall t w', balanced w w' -> clock_read w w' t -> Q t w') -> wp c_time w Q.
Proof.
  intros HQ. unfold wp, c_time. apply HQ; [by apply set_os_balanced; cbn; auto|].
  exists (os_reads (get_os w)). rewrite get_set_os. cbn. split; [lia|done].
Qed.

Lemma wp_alloc w (Q : option blk -> W -> Prop) :
  heap_ok w ->
  (forall w', ~ never_oom w -> balanced w w' -> Q None w') ->
  (forall b w', acquired {[b]} w w' -> Q (Some b) w') ->
  wp c_alloc w Q.
Proof.
  intros [(Hlt & Hh) _] HN HS. unfold wp, c_alloc. destruct (os_grant _ _) eqn:Hg.
  - assert (Hf : os_next (get_os w) ∉ os_live (get_os w)) by (intros Hb; specialize (Hlt _ Hb); lia).
    apply HS. unfold acquired, later, advances, owned, heap_shape.
    rewrite ?get_set_os, ?inbound_set_os, ?held_set_os, ?world_ok_set_os. cbn.
    split_and!; try done; try lia; try tauto; [|apply evolves_set_os|set_solver|set_solver|set_solver].
    intros _. split; [|set_solver].
    intros b [->%elem_of_singleton|Hb]%elem_of_union; [lia|]. specialize (Hlt _ Hb). lia.
  - apply HN; [intros Hno; by rewrite Hno in Hg|]. by apply set_os_balanced; cbn; auto.
Qed.

(** Freeing an owned block gives it back. *)
Lemma wp_free_owned b w (Q : unit -> W -> Prop) :
  b ∈ owned w -> (forall w', released {[b]} w w' -> Q tt w') -> wp (c_free (Some b)) w Q.
Proof.
  intros Hin HQ. unfold wp, c_free. unfold owned in Hin.
  rewrite bool_decide_eq_true_2 by set_solver.
  apply HQ. unfold released, later, advances, heap_shape, owned.
  rewrite ?get_set_os, ?inbound_set_os, ?held_set_os, ?world_ok_set_os. cbn.
  split_and!; try done; try tauto; [|apply evolves_set_os|set_solver].
  intros (? & ?). split; set_solver.
Qed.

(** What was acquired and then released. *)
Lemma acquired_released bs bs' w0 w w' :
  acquired bs w0 w -> released bs' w w' -> bs' ⊆ bs -> acquired (bs ∖ bs') w0 w'.
Proof.
  intros (Hn & Hl & Hd & Hr) [Hlat Ho] Hsub.
  split_and!; [by eapply later_trans|rewrite Ho; set_solver|set_solver|].
  intros b Hb. apply later_next in Hlat. specialize (Hr b). set_solver by lia.
Qed.

Lemma released_trans bs bs' w1 w2 w3 :
  released bs w1 w2 -> released bs' w2 w3 -> released (bs ∪ bs') w1 w3.
Proof. intros [? H1] [? H2]. split; [by eapply later_trans|]. rewrite H2, H1. set_solver. Qed.

Lemma released_later bs w w' : released bs w w' -> later w w'.
Proof. by intros []. Qed.

(** Freeing one acquired block. *)
Lemma wp_free_acquired b bs w0 w (Q : unit -> W -> Prop) :
  acquired bs w0 w -> b ∈ bs ->
  (forall w', later w w' -> acquired (bs ∖ {[b]}) w0 w' -> Q tt w') ->
  wp (c_free (Some b)) w Q.
Proof.
  intros Ha Hb HQ. apply wp_free_owned; [destruct Ha as (_ & -> & _); set_solver|].
  intros w' Hr. apply HQ; [apply Hr|]. apply (acquired_released _ _ _ _ _ Ha Hr). set_solver.
Qed.

Lemma wp_free_null w (Q : unit -> W -> Prop) : Q tt w -> wp (c_free None) w Q.
Proof. done. Qed.

Lemma wp_random n w (Q : list Z -> W -> Prop) :
  (forall l w', drawn w w' n l -> balanced w w' -> Q l w') -> wp (randombytes_buf n) w Q.
Proof.
  intros HQ. unfold wp, randombytes_buf. apply HQ; [|by apply set_os_balanced; cbn; auto].
  exists (os_draws (get_os w)). rewrite get_set_os. cbn. split; [lia|done].
Qed.

Lemma wp_indeterminate n w (Q : list Z -> W -> Prop) :
  (forall l w', bytes_n n l -> balanced w w' -> Q l w') -> wp (indeterminate n) w Q.
Proof.
  intros HQ. unfold wp, indeterminate. apply HQ; [|by apply set_os_balanced; cbn; auto].
  split; [by rewrite length_map, length_seq|].
  apply Forall_map, Forall_true. intros; apply to_u8_range.
Qed.

Lemma wp_malloc n w (Q : option (box (list Z)) -> W -> Prop) :
  heap_ok w ->
  (forall w', ~ never_oom w -> balanced w w' -> Q None w') ->
  (forall b w', bytes_n (Z.to_nat n) (contents b) -> acquired {[addr b]} w w' ->
     Q (Some b) w') ->
  wp (c_malloc n) w Q.
Proof.
  intros Hok HN HS. unfold c_malloc. apply wp_bind, wp_alloc; [done| |].
  - intros w' Ho Hb. by apply wp_ret, HN.
  - intros b w' Ha. apply wp_bind, wp_indeterminate. intros l w2 Hl Hb.
    apply wp_ret, HS; [done|]. by eapply acquired_balanced.
Qed.

(** Run-time calls leave every other part of the world alone. *)
Lemma untouched_alloc {S} (f : W -> S) :
  (forall o w, f (set_os o w) = f w) -> untouched f c_alloc.
Proof. intros Hf w a w'. unfold c_alloc. destruct (os_grant _ _); intros [= <- <-]; apply Hf. Qed.

Lemma untouched_free {S} (f : W -> S) p :
  (forall o w, f (set_os o w) = f w) -> untouched f (c_free p).
Proof.
  intros Hf w a w'. unfold c_free. destruct p; [|by intros [= _ ->]].
  case_bool_decide; [|done]. intros [= _ <-]. apply Hf.
Qed.

Lemma untouched_time {S} (f : W -> S) :
  (forall o w, f (set_os o w) = f w) -> untouched f c_time.
Proof. intros Hf w a w'. unfold c_time. intros [= <- <-]. apply Hf. Qed.

(** Nothing but the run-time (clock, allocator, random generator) changed. *)
Definition silent w w' : Prop := exists o, w' = set_os o w.

(** Besides, it moved forward. *)
Definition idle w w' : Prop := later w w' /\ silent w w'.

(** A computation that touches nothing but the run-time. *)
Definition quiet {A} (m : M W A) : Prop :=
  forall w a w', m w = Val (a, w') -> silent w w'.

Lemma wp_quiet {A} (m : M W A) w (Q : A -> W -> Prop) :
  quiet m -> wp m w (fun a w' => silent w w' -> Q a w') -> wp m w Q.
Proof.
  intros Hm. unfold wp. destruct (m w) as [[a w']| |] eqn:He; try done.
  intros HQ. by apply HQ, (Hm _ a).
Qed.

Lemma quiet_trans w1 w2 w3 : silent w1 w2 -> silent w2 w3 -> silent w1 w3.
Proof. intros [o ->] [o' ->]. exists o'. by rewrite set_set_os. Qed.

Lemma quiet_refl w : silent w w.
Proof. exists (get_os w). by rewrite set_get_os. Qed.

(** A part of the world that does not depend on the run-time. *)
Lemma silent_untouched {S} (f : W -> S) w w' :
  (forall o w, f (set_os o w) = f w) -> silent w w' -> f w' = f w.
Proof. intros Hf [o ->]. apply Hf. Qed.

Lemma idle_refl w : idle w w.
Proof. split; [apply later_refl|apply quiet_refl]. Qed.

Lemma idle_trans w1 w2 w3 : idle w1 w2 -> idle w2 w3 -> idle w1 w3.
Proof. intros [] []. split; [by eapply later_trans|by eapply quiet_trans]. Qed.

Lemma idle_later w w' : idle w w' -> later w w'.
Proof. by intros []. Qed.

Lemma idle_silent w w' : idle w w' -> silent w w'.
Proof. by intros []. Qed.

Lemma balanced_idle w w' : balanced w w' -> silent w w' -> idle w w'.
Proof. intros [] ?. by split. Qed.

Lemma acquired_idle bs w w' : acquired bs w w' -> silent w w' -> idle w w'.
Proof. intros [] ?. by split. Qed.

Lemma quiet_bind {A B} (m : M W A) (k : A -> M W B) :
  quiet m -> (forall a, quiet (k a)) -> quiet (m ≫= k).
Proof.
  intros Hm Hk w b w'. unfold mbind, M_bind. destruct (m w) as [[a w1]| |] eqn:He; try done.
  intros Hb. eapply quiet_trans; [by eapply Hm|by eapply Hk].
Qed.

Lemma quiet_ret {A} (a : A) : quiet (mret a).
Proof. intros w a' w' [= _ ->]. apply quiet_refl. Qed.

Lemma quiet_lift {A} (r : res A) : quiet (lift r).
Proof. intros w a' w'. unfold lift. destruct r; [|done..]. intros [= _ ->]. apply quiet_refl. Qed.

Lemma quiet_untouched {S A} (f : W -> S) (m : M W A) :
  (forall o w, f (set_os o w) = f w) -> quiet m -> untouched f m.
Proof. intros Hf Hm w a w' He. destruct (Hm _ _ _ He) as [o ->]. apply Hf. Qed.

Lemma quiet_alloc : quiet c_alloc.
Proof. intros w a w'. unfold c_alloc. destruct (os_grant _ _); intros [= <- <-]; by eexists. Qed.

Lemma quiet_free p : quiet (c_free p).
Proof.
  intros w a w'. unfold c_free. destruct p; [|intros [= _ ->]; apply quiet_refl].
  case_bool_decide; [|done]. intros [= _ <-]. by eexists.
Qed.

Lemma quiet_time : quiet c_time.
Proof. intros w a w' [= <- <-]. by eexists. Qed.

Lemma quiet_random n : quiet (randombytes_buf n).
Proof. intros w a w' [= <- <-]. by eexists. Qed.

Lemma quiet_indeterminate n : quiet (indeterminate n).
Proof. intros w a w' [= <- <-]. by eexists. Qed.

Lemma quiet_stack n : quiet (stack_buffer n).
Proof. apply quiet_indeterminate. Qed.

Lemma quiet_malloc n : quiet (c_malloc n).
Proof.
  apply quiet_bind; [apply quiet_alloc|]. intros [b|]; [|apply quiet_ret].
  apply quiet_bind; [apply quiet_indeterminate|intros; apply quiet_ret].
Qed.
End heap.

#[export] Hint Resolve quiet_ret quiet_lift quiet_alloc quiet_free quiet_time quiet_random
  quiet_indeterminate quiet_stack quiet_malloc quiet_refl : quiet.

(** Code made of run-time calls is quiet. *)
Ltac solve_quiet :=
  repeat first
    [ solve [auto with quiet]
    | apply quiet_bind; [|intros]
    | case_match
    | progress cbv beta zeta ].

(** Code whose pieces leave [f] alone leaves it alone. *)
Create HintDb frame.
#[export] Hint Resolve untouched_ret untouched_lift : frame.
#[export] Hint Extern 1 (untouched _ _) =>
  apply quiet_untouched; [by eauto with frame|solve [auto with quiet]] : frame.

Ltac solve_untouched :=
  repeat first
    [ solve [auto with frame]
    | apply untouched_bind; [|intros]
    | case_match
    | progress cbv beta zeta ].

#[export] Hint Resolve advances_refl advances_heap_ok later_advances released_later
  later_refl later_trans later_heap_ok balanced_later acquired_later
  later_never_oom balanced_refl balanced_trans balanced_heap_ok
  acquired_heap_ok balanced_acquired acquired_balanced
  clock_read_u64 clock_read_before clock_read_after drawn_bytes drawn_before drawn_after
  quiet_refl quiet_trans idle_refl idle_trans idle_later idle_silent
  balanced_idle acquired_idle : bitchat.

(** A run-time for closed examples: the clock starts at [t0] and advances by a
    second per reading, memory never runs out, draws are distinct. *)
Definition demo_os (t0 : Z) : os :=
  mkOS (fun n => (t0 + Z.of_nat n) mod 2 ^ 62) 0 (fun _ => true) 0 ∅
       (fun n i => Z.of_nat n * 16 + Z.of_nat i) 0 (fun _ _ => 165).

Lemma demo_os_ok t0 : heap_ok (demo_os t0) /\ never_oom (demo_os t0).
Proof.
  split; [|done]. split; [split; [intros b Hb; set_solver|done]|].
  split; [done|]. intros n. apply Z.mod_pos_bound. lia.
Qed.
