(* ===== verification/Errors.v ===== *)
(** * Errors: the result codes of [include/bitchat/error.h] *)
From S2P Require Import Prelude.

Definition BC_OK : Z := 0.
Definition BC_ERR : Z := -1.
Definition BC_ERR_NOMEM : Z := -2.
Definition BC_ERR_INVALID : Z := -3.
Definition BC_ERR_DUPLICATE : Z := -4.
Definition BC_ERR_TTL_EXPIRED : Z := -5.
Definition BC_ERR_CRYPTO : Z := -6.
Definition BC_ERR_STORAGE : Z := -7.
Definition BC_ERR_TRANSPORT : Z := -8.
Definition BC_ERR_NOT_IMPLEMENTED : Z := -9.
Definition BC_ERR_BUFFER_TOO_SMALL : Z := -10.
