(* ===== verification/Sodium.v ===== *)
(** * Sodium: the interface of libsodium the core relies on

    libsodium is not part of the repository's sources: its primitives are the
    operations of the class [Sodium], and [SodiumSpec] states the documented
    behaviour the core uses (key agreement is symmetric, authenticated
    decryption inverts encryption, output sizes).  [toy_sodium] is an instance
    with no security at all; it only shows the laws can hold together and lets
    closed examples run.

    [sodium_memcmp] is a pure comparison and is defined here. *)
From S2P Require Import Prelude Effects.

(** The results are the C return code (0 on success) and what is written. *)
Class Sodium : Type := {
  sodium_init : Z;
  (* the key pair made from the 32 bytes the generator delivers: pk, sk *)
  crypto_box_keypair : list Z -> Z * (list Z * list Z);
  crypto_scalarmult_base : list Z -> Z * list Z;
  (* public key, secret key *)
  crypto_box_beforenm : list Z -> list Z -> Z * list Z;
  (* plaintext, nonce, key *)
  aead_encrypt : list Z -> list Z -> list Z -> Z * list Z;
  (* ciphertext and tag, nonce, key; what the call leaves in the output *)
  aead_decrypt : list Z -> list Z -> list Z -> Z * list Z
}.

Class SodiumSpec (S : Sodium) : Prop := {
  keypair_ok : forall seed, bytes_n 32 seed ->
    exists pk sk, crypto_box_keypair seed = (0, (pk, sk)) /\
                  bytes_n 32 pk /\ bytes_n 32 sk;
  keypair_base : forall seed pk sk,
    crypto_box_keypair seed = (0, (pk, sk)) -> crypto_scalarmult_base sk = (0, pk);
  base_size : forall sk rc pk,
    bytes_n 32 sk -> crypto_scalarmult_base sk = (rc, pk) -> bytes_n 32 pk;
  beforenm_size : forall pk sk rc k,
    bytes_n 32 pk -> bytes_n 32 sk -> crypto_box_beforenm pk sk = (rc, k) -> bytes_n 32 k;
  (* both sides of a Diffie-Hellman exchange derive the same key *)
  beforenm_agree : forall seed1 seed2 pk1 sk1 pk2 sk2,
    crypto_box_keypair seed1 = (0, (pk1, sk1)) ->
    crypto_box_keypair seed2 = (0, (pk2, sk2)) ->
    crypto_box_beforenm pk2 sk1 = crypto_box_beforenm pk1 sk2 /\
    fst (crypto_box_beforenm pk2 sk1) = 0;
  encrypt_ok : forall pt nonce key, bytes_ok pt -> bytes_n 24 nonce -> bytes_n 32 key ->
    exists ct, aead_encrypt pt nonce key = (0, ct) /\
               length ct = (length pt + 16)%nat /\ bytes_ok ct;
  decrypt_encrypt : forall pt nonce key ct,
    bytes_ok pt -> bytes_n 24 nonce -> bytes_n 32 key ->
    aead_encrypt pt nonce key = (0, ct) -> aead_decrypt ct nonce key = (0, pt);
  decrypt_size : forall ct nonce key rc pt,
    bytes_ok ct -> (16 <= length ct)%nat -> aead_decrypt ct nonce key = (rc, pt) ->
    length ct = (length pt + 16)%nat /\ bytes_ok pt
}.

(** [crypto_box_keypair]: a pair made from 32 fresh random bytes. *)
Definition box_keypair {W} `{!HasOS W, !Sodium} : M W (Z * (list Z * list Z)) :=
  seed ← randombytes_buf 32; mret (crypto_box_keypair seed).

(** [sodium_memcmp(a, b, n)]: 0 when the first [n] bytes agree, else -1. *)
Definition sodium_memcmp (a b : list Z) (n : Z) : res Z :=
  x ← mem_read a 0 n; y ← mem_read b 0 n;
  Val (if bool_decide (x = y) then 0 else -1).

(** ** An instance for closed examples *)

Definition toy_mix (a b : list Z) : list Z := zip_with (fun x y => to_u8 (x + y)) a b.

Definition toy_sodium : Sodium := {|
  sodium_init := 0;
  crypto_box_keypair seed := (0, (seed, seed));
  crypto_scalarmult_base sk := (0, sk);
  crypto_box_beforenm pk sk := (0, toy_mix pk sk);
  aead_encrypt pt nonce key := (0, pt ++ take 16 (toy_mix nonce key));
  aead_decrypt ct nonce key :=
    let n := (length ct - 16)%nat in
    (if bool_decide (drop n ct = take 16 (toy_mix nonce key)) then 0 else -1, take n ct)
|}.

(** ** Lemmas *)

Lemma memcmp_eq a b (n : nat) :
  length a = n -> length b = n ->
  sodium_memcmp a b (Z.of_nat n) = Val (if bool_decide (a = b) then 0 else -1).
Proof.
  intros Ha Hb. unfold sodium_memcmp.
  rewrite !mem_read_ok by zlen_lia. change (Z.to_nat 0) with 0%nat.
  cbn [mbind res_bind]. by rewrite !drop_0, !take_ge by lia.
Qed.

(** The test [sodium_memcmp(...) == 0] on that result. *)
Lemma memcmp_zero (P : Prop) `{!Decision P} :
  bool_decide ((if bool_decide P then 0 else -1) = 0) = bool_decide P.
Proof. by destruct (decide P); case_bool_decide; case_bool_decide. Qed.

Lemma toy_mix_bytes n a b : bytes_n n a -> bytes_n n b -> bytes_n n (toy_mix a b).
Proof.
  intros [Ha _] [Hb _]. unfold toy_mix. split; [rewrite length_zip_with; lia|].
  apply Forall_forall. intros x Hx. apply list_elem_of_lookup in Hx as [i Hi].
  apply lookup_zip_with_Some in Hi as (p & q & -> & _). apply to_u8_range.
Qed.

Lemma toy_mix_comm a b : toy_mix a b = toy_mix b a.
Proof.
  unfold toy_mix. revert b. induction a as [|x a IH]; intros [|y b]; cbn; try done.
  by rewrite Z.add_comm, IH.
Qed.

Lemma toy_tag_bytes nonce key :
  bytes_n 24 nonce -> bytes_n 32 key -> bytes_n 16 (take 16 (toy_mix nonce key)).
Proof.
  intros [Hn Hnb] [Hk Hkb]. split.
  - rewrite length_take. unfold toy_mix. rewrite length_zip_with. lia.
  - apply bytes_ok_take. apply Forall_forall. intros x Hx.
    apply list_elem_of_lookup in Hx as [i Hi].
    apply lookup_zip_with_Some in Hi as (p & q & -> & _). apply to_u8_range.
Qed.

(** A generated pair is a pair of 32-byte keys. *)
Lemma wp_box_keypair {W} `{!HasOS W, !WorldInv W} `{!Sodium} `{HS : !SodiumSpec _} (w : W)
    (Q : Z * (list Z * list Z) -> W -> Prop) :
  (forall seed pk sk w', balanced w w' -> bytes_n 32 seed ->
     crypto_box_keypair seed = (0, (pk, sk)) -> bytes_n 32 pk -> bytes_n 32 sk ->
     Q (0, (pk, sk)) w') ->
  wp box_keypair w Q.
Proof.
  intros HQ. unfold box_keypair. apply wp_bind, wp_random. intros seed w' Hs Hb. apply drawn_bytes in Hs.
  destruct (keypair_ok seed Hs) as (pk & sk & He & Hp & Hk). rewrite He.
  apply wp_ret. by apply (HQ seed).
Qed.

#[export] Instance toy_sodium_spec : SodiumSpec toy_sodium.
Proof.
  split; cbn.
  - intros seed Hs. by exists seed, seed.
  - intros seed pk sk [= -> ->]. done.
  - intros sk rc pk Hs [= _ <-]. done.
  - intros pk sk rc k Hp Hs [= _ <-]. by apply toy_mix_bytes.
  - intros s1 s2 pk1 sk1 pk2 sk2 [= -> ->] [= -> ->].
    split; [|done]. by rewrite toy_mix_comm.
  - intros pt nonce key Hp Hn Hk. destruct (toy_tag_bytes _ _ Hn Hk) as [Hl Ht].
    eexists. split; [done|]. split; [rewrite length_app; lia|].
    by apply bytes_ok_app.
  - intros pt nonce key ct Hp Hn Hk [= <-]. destruct (toy_tag_bytes _ _ Hn Hk) as [Hl Ht].
    rewrite length_app, Hl. replace (length pt + 16 - 16)%nat with (length pt) by lia.
    by rewrite drop_app_length, take_app_length, bool_decide_eq_true_2.
  - intros ct nonce key rc pt Hb Hl [= _ <-]. rewrite length_take.
    split; [lia|auto with bitchat].
Qed.
