(* ===== verification/Message.v ===== *)
(** * Message: the message entity and its wire format

    Models [src/domain/message.c] and [include/bitchat/domain/message.h].
    A pointer parameter is an [option] of what it points to ([None] is NULL);
    an out parameter is returned with its new contents.  A heap message is a
    [box] whose payload is a second [box].

    [packet], [encode] and [decode] are the abstract wire format of the
    header's documentation; [bc_message_serialize] and [bc_message_deserialize]
    are the C routines, with their buffer bounds and integer widths. *)
From S2P Require Import Prelude Effects Errors.

(** ** Constants *)

Definition BC_PUBKEY_SIZE : Z := 32.
Definition BC_UUID_SIZE : Z := 16.
Definition BC_DEFAULT_TTL : Z := 10.
Definition BC_MESSAGE_HEADER_SIZE : Z :=
  BC_UUID_SIZE + 1 + BC_PUBKEY_SIZE * 2 + 8 + 4.

(** ** Data *)

Record bc_message : Type := mkMessage {
  uuid : list Z;
  ttl : Z;
  sender_pubkey : list Z;
  receiver_pubkey : list Z;
  timestamp : Z;
  payload : option (box (list Z));
  payload_len : Z
}.

(** ** Big-endian helpers *)

(** The four bytes [write_u32_be] stores at [dst]. *)
Definition write_u32_be (val : Z) : list Z :=
  [ to_u8 (Z.shiftr val 24); to_u8 (Z.shiftr val 16);
    to_u8 (Z.shiftr val 8); to_u8 val ].

Definition read_u32_be (src : list Z) : res Z :=
  s0 ← arr_get src 0; s1 ← arr_get src 1; s2 ← arr_get src 2; s3 ← arr_get src 3;
  Val (Z.lor (Z.lor (Z.lor (to_u32 (Z.shiftl s0 24)) (to_u32 (Z.shiftl s1 16)))
                    (to_u32 (Z.shiftl s2 8))) s3).

(** The eight bytes [write_u64_be] stores at [dst]. *)
Definition write_u64_be (val : Z) : list Z :=
  [ to_u8 (Z.shiftr val 56); to_u8 (Z.shiftr val 48);
    to_u8 (Z.shiftr val 40); to_u8 (Z.shiftr val 32);
    to_u8 (Z.shiftr val 24); to_u8 (Z.shiftr val 16);
    to_u8 (Z.shiftr val 8); to_u8 val ].

Definition read_u64_be (src : list Z) : res Z :=
  s0 ← arr_get src 0; s1 ← arr_get src 1; s2 ← arr_get src 2; s3 ← arr_get src 3;
  s4 ← arr_get src 4; s5 ← arr_get src 5; s6 ← arr_get src 6; s7 ← arr_get src 7;
  Val (Z.lor (Z.lor (Z.lor (Z.lor (Z.lor (Z.lor (Z.lor
         (to_u64 (Z.shiftl s0 56)) (to_u64 (Z.shiftl s1 48)))
         (to_u64 (Z.shiftl s2 40))) (to_u64 (Z.shiftl s3 32)))
         (to_u64 (Z.shiftl s4 24))) (to_u64 (Z.shiftl s5 16)))
         (to_u64 (Z.shiftl s6 8))) s7).

(** ** Allocation *)

Section alloc.
Context {W : Type} `{!HasOS W, !WorldInv W}.

Definition bc_message_create (sender receiver payload : option (list Z))
    (payload_len : Z) : M W (option (box bc_message)) :=
  match sender, receiver with
  | Some sender, Some receiver =>
      msg ← c_alloc;
      match msg with
      | None => mret None
      | Some msg =>
          uuid ← randombytes_buf (Z.to_nat BC_UUID_SIZE);
          sender_pubkey ← lift (mem_read sender 0 BC_PUBKEY_SIZE);
          receiver_pubkey ← lift (mem_read receiver 0 BC_PUBKEY_SIZE);
          timestamp ← c_time;
          let fill pl len := Box msg (mkMessage uuid BC_DEFAULT_TTL sender_pubkey
                                        receiver_pubkey timestamp pl len) in
          match payload with
          | Some payload =>
              if bool_decide (payload_len > 0) then
                buf ← c_alloc;
                match buf with
                | None => c_free (Some msg);; mret None
                | Some buf =>
                    data ← lift (mem_read payload 0 payload_len);
                    mret (Some (fill (Some (Box buf data)) payload_len))
                end
              else mret (Some (fill None 0))
          | None => mret (Some (fill None 0))
          end
      end
  | _, _ => mret None
  end.

Definition bc_message_destroy (msg : option (box bc_message)) : M W unit :=
  match msg with
  | None => mret tt
  | Some msg =>
      match payload (contents msg) with
      | None => mret tt
      | Some buf =>
          (* sodium_memzero(msg->payload, msg->payload_len) *)
          lift (mem_write (contents buf) 0
                  (replicate (Z.to_nat (payload_len (contents msg))) 0));;
          c_free (Some (addr buf))
      end;;
      c_free (Some (addr msg))
  end.
End alloc.

(** ** Serialization *)

(** The cells [buf] and [out_len] are returned as the call leaves them. *)
Definition bc_message_serialize (msg : option bc_message)
    (buf : option (list Z)) (buf_len : Z) (out_len : option Z)
    : res (Z * option (list Z) * option Z) :=
  match msg, buf, out_len with
  | Some msg, Some buf0, Some _ =>
      let needed := to_u64 (BC_MESSAGE_HEADER_SIZE + payload_len msg) in
      if bool_decide (buf_len < needed)
      then Val (BC_ERR_BUFFER_TOO_SMALL, buf, Some needed)
      else
        let p := 0 in
        b ← mem_write buf0 p (uuid msg);
        let p := p + BC_UUID_SIZE in
        b ← mem_write b p [ttl msg];
        let p := p + 1 in
        b ← mem_write b p (sender_pubkey msg);
        let p := p + BC_PUBKEY_SIZE in
        b ← mem_write b p (receiver_pubkey msg);
        let p := p + BC_PUBKEY_SIZE in
        b ← mem_write b p (write_u64_be (timestamp msg));
        let p := p + 8 in
        b ← mem_write b p (write_u32_be (to_u32 (payload_len msg)));
        let p := p + 4 in
        if bool_decide (payload_len msg > 0) then
          match payload msg with
          | None => UB
          | Some pl =>
              data ← mem_read (contents pl) 0 (payload_len msg);
              b ← mem_write b p data;
              Val (BC_OK, Some b, Some (p + payload_len msg))
          end
        else Val (BC_OK, Some b, Some p)
  | _, _, _ => Val (BC_ERR_INVALID, buf, out_len)
  end.

Section parse.
Context {W : Type} `{!HasOS W, !WorldInv W}.

(** The bounds test adds an [int] constant to a [uint32_t], so the sum is
    computed modulo 2^32. *)
Definition bc_message_deserialize (data : option (list Z)) (data_len : Z)
    : M W (option (box bc_message)) :=
  match data with
  | None => mret None
  | Some data =>
      if bool_decide (data_len < BC_MESSAGE_HEADER_SIZE) then mret None else
      let uuid := 0 in
      let p := BC_UUID_SIZE in
      ttl ← lift (arr_get data p);
      let p := p + 1 in
      let sender := p in
      let p := p + BC_PUBKEY_SIZE in
      let receiver := p in
      let p := p + BC_PUBKEY_SIZE in
      ts ← lift (mem_read data p 8 ≫= read_u64_be);
      let p := p + 8 in
      payload_len ← lift (mem_read data p 4 ≫= read_u32_be);
      let p := p + 4 in
      if bool_decide (data_len < to_u32 (BC_MESSAGE_HEADER_SIZE + payload_len))
      then mret None else
      msg ← c_alloc;
      match msg with
      | None => mret None
      | Some msg =>
          uuid ← lift (mem_read data uuid BC_UUID_SIZE);
          sender ← lift (mem_read data sender BC_PUBKEY_SIZE);
          receiver ← lift (mem_read data receiver BC_PUBKEY_SIZE);
          let fill pl len := Box msg (mkMessage uuid ttl sender receiver ts pl len) in
          if bool_decide (payload_len > 0) then
            buf ← c_alloc;
            match buf with
            | None => c_free (Some msg);; mret None
            | Some buf =>
                bytes ← lift (mem_read data p payload_len);
                mret (Some (fill (Some (Box buf bytes)) payload_len))
            end
          else mret (Some (fill None 0))
      end
  end.
End parse.

(** ** Abstract wire format *)

Record packet : Type := mkPacket {
  pk_uuid : list Z;
  pk_ttl : Z;
  pk_sender : list Z;
  pk_receiver : list Z;
  pk_time : Z;
  pk_payload : list Z
}.

(** [uuid:16][ttl:1][sender:32][receiver:32][timestamp:8][payload_len:4][payload:N] *)
Definition encode (p : packet) : list Z :=
  pk_uuid p ++ [pk_ttl p] ++ pk_sender p ++ pk_receiver p
  ++ be_encode 8 (pk_time p) ++ be_encode 4 (zlen (pk_payload p)) ++ pk_payload p.

(** The length field of a packet. *)
Definition length_field (data : list Z) : Z := be_decode (take 4 (drop 89 data)).

Definition decode (data : list Z) : option packet :=
  if bool_decide (zlen data < BC_MESSAGE_HEADER_SIZE + length_field data
                  \/ zlen data < BC_MESSAGE_HEADER_SIZE) then None
  else Some (mkPacket (take 16 data) (nth 16 data 0) (take 32 (drop 17 data))
               (take 32 (drop 49 data)) (be_decode (take 8 (drop 81 data)))
               (take (Z.to_nat (length_field data)) (drop 93 data))).

(** The packet a message stands for. *)
Definition msg_payload (m : bc_message) : list Z :=
  match payload m with None => [] | Some b => contents b end.
Definition msg_packet (m : bc_message) : packet :=
  mkPacket (uuid m) (ttl m) (sender_pubkey m) (receiver_pubkey m)
    (timestamp m) (msg_payload m).

(** ** Well-formedness *)

(** The type of the C struct, and that [payload] is a block of [payload_len]
    bytes (an object is smaller than [PTRDIFF_MAX]). *)
Definition message_wf (m : bc_message) : Prop :=
  bytes_n 16 (uuid m) /\ is_u8 (ttl m) /\
  bytes_n 32 (sender_pubkey m) /\ bytes_n 32 (receiver_pubkey m) /\
  is_u64 (timestamp m) /\
  payload_len m = zlen (msg_payload m) /\ payload_len m < 2 ^ 63 /\
  bytes_ok (msg_payload m).

Definition packet_wf (p : packet) : Prop :=
  bytes_n 16 (pk_uuid p) /\ is_u8 (pk_ttl p) /\
  bytes_n 32 (pk_sender p) /\ bytes_n 32 (pk_receiver p) /\
  is_u64 (pk_time p) /\ bytes_ok (pk_payload p).

(** The blocks a heap message owns, and that they are two different blocks. *)
Definition msg_blocks (b : box bc_message) : gset blk :=
  {[addr b]} ∪ match payload (contents b) with Some pl => {[addr pl]} | None => ∅ end.
Definition msg_blocks_distinct (b : box bc_message) : Prop :=
  match payload (contents b) with Some pl => addr pl <> addr b | None => True end.

(** What parsing the byte string [d] may return: nothing when [d] is not the
    encoding of a packet or when memory ran out, else a fresh heap message that
    stands for the packet. *)
Definition owns_message {W} `{!HasOS W, !WorldInv W} (b : box bc_message) (w w' : W) : Prop :=
  message_wf (contents b) /\ msg_blocks_distinct b /\ acquired (msg_blocks b) w w'.
Definition parsed {W} `{!HasOS W, !WorldInv W} (d : list Z) (w : W)
    (r : option (box bc_message)) (w' : W) : Prop :=
  match decode d with
  | None => r = None /\ balanced w w'
  | Some p =>
      (r = None /\ balanced w w' /\ ~ never_oom w) \/
      (exists b, r = Some b /\ msg_packet (contents b) = p /\ owns_message b w w')
  end.

(** What allocating a new message may return. *)
Definition created {W} `{!HasOS W, !WorldInv W} (s r pl : list Z) (w : W)
    (res : option (box bc_message)) (w' : W) : Prop :=
  (res = None /\ balanced w w' /\ ~ never_oom w) \/
  (exists b, res = Some b /\ owns_message b w w' /\
     ttl (contents b) = BC_DEFAULT_TTL /\ sender_pubkey (contents b) = s /\
     receiver_pubkey (contents b) = r /\ msg_payload (contents b) = pl /\
     clock_read w w' (timestamp (contents b)) /\ drawn w w' 16 (uuid (contents b))).

(** The buffers for which the 32-bit sum of the bounds test is not computed, is
    exact, or is harmless. *)
Definition length_field_safe (data : list Z) (data_len : Z) : Prop :=
  data_len < BC_MESSAGE_HEADER_SIZE \/
  BC_MESSAGE_HEADER_SIZE + length_field data < 2 ^ 32 \/
  BC_MESSAGE_HEADER_SIZE + length_field data <= data_len.

#[export] Instance message_wf_dec m : Decision (message_wf m).
Proof. unfold message_wf; apply _. Defined.

(** ** Lemmas: integer encoding *)

Lemma lor_mul_add q b k a :
  a = q * 2 ^ k -> 0 <= k -> 0 <= b < 2 ^ k -> Z.lor a b = a + b.
Proof.
  intros -> Hk Hb. rewrite <- Z.shiftl_mul_pow2 at 1 by done.
  by apply lor_shiftl_add.
Qed.

Lemma write_u32_be_encode v : write_u32_be v = be_encode 4 v.
Proof.
  unfold write_u32_be, to_u8. rewrite !Z.shiftr_div_pow2 by lia.
  cbn [be_encode app]. rewrite !Z.div_div by lia. done.
Qed.

Lemma write_u64_be_encode v : write_u64_be v = be_encode 8 v.
Proof.
  unfold write_u64_be, to_u8. rewrite !Z.shiftr_div_pow2 by lia.
  cbn [be_encode app]. rewrite !Z.div_div by lia. done.
Qed.

(** Discharge the bounds of a shifted byte. *)
Ltac shift_bounds := rewrite ?Z.shiftl_mul_pow2 by lia; lia.

Lemma read_u32_be_decode l : bytes_n 4 l -> read_u32_be l = Val (be_decode l).
Proof.
  intros [Hlen Hok]. destruct l as [|s0 [|s1 [|s2 [|s3 [|]]]]]; try done.
  unfold bytes_ok in Hok. rewrite !Forall_cons in Hok. destruct Hok as (H0 & H1 & H2 & H3 & _).
  unfold is_u8 in *. unfold read_u32_be, arr_get, mbind, res_bind.
  rewrite !bool_decide_eq_true_2 by lia. cbn. f_equal.
  rewrite !to_u32_id by (unfold is_u32; shift_bounds). unfold be_decode. cbn.
  rewrite !Z.shiftl_mul_pow2 by lia.
  rewrite (lor_mul_add s0 (s1 * 2 ^ 16) 24), (lor_mul_add (s0 * 2 ^ 8 + s1) (s2 * 2 ^ 8) 16),
    (lor_mul_add (s0 * 2 ^ 16 + s1 * 2 ^ 8 + s2) s3 8); lia.
Qed.

Lemma read_u64_be_decode l : bytes_n 8 l -> read_u64_be l = Val (be_decode l).
Proof.
  intros [Hlen Hok].
  destruct l as [|s0 [|s1 [|s2 [|s3 [|s4 [|s5 [|s6 [|s7 [|]]]]]]]]]; try done.
  unfold bytes_ok in Hok. rewrite !Forall_cons in Hok. destruct Hok as (?&?&?&?&?&?&?&?&_).
  unfold is_u8 in *. unfold read_u64_be, arr_get, mbind, res_bind.
  rewrite !bool_decide_eq_true_2 by lia. cbn. f_equal.
  rewrite !to_u64_id by (unfold is_u64; shift_bounds). unfold be_decode. cbn.
  rewrite !Z.shiftl_mul_pow2 by lia.
  rewrite (lor_mul_add s0 (s1 * 2 ^ 48) 56), (lor_mul_add (s0 * 2 ^ 8 + s1) (s2 * 2 ^ 40) 48),
    (lor_mul_add (s0 * 2 ^ 16 + s1 * 2 ^ 8 + s2) (s3 * 2 ^ 32) 40),
    (lor_mul_add (s0 * 2 ^ 24 + s1 * 2 ^ 16 + s2 * 2 ^ 8 + s3) (s4 * 2 ^ 24) 32),
    (lor_mul_add (s0 * 2 ^ 32 + s1 * 2 ^ 24 + s2 * 2 ^ 16 + s3 * 2 ^ 8 + s4) (s5 * 2 ^ 16) 24),
    (lor_mul_add (s0 * 2 ^ 40 + s1 * 2 ^ 32 + s2 * 2 ^ 24 + s3 * 2 ^ 16
                  + s4 * 2 ^ 8 + s5) (s6 * 2 ^ 8) 16),
    (lor_mul_add (s0 * 2 ^ 48 + s1 * 2 ^ 40 + s2 * 2 ^ 32 + s3 * 2 ^ 24
                  + s4 * 2 ^ 16 + s5 * 2 ^ 8 + s6) s7 8); lia.
Qed.

(** ** Lemmas: the abstract format *)

Lemma message_packet_wf m : message_wf m -> packet_wf (msg_packet m).
Proof. unfold message_wf, packet_wf. cbn. tauto. Qed.

Lemma encode_length p :
  packet_wf p -> zlen (encode p) = BC_MESSAGE_HEADER_SIZE + zlen (pk_payload p).
Proof.
  intros ([Hu _] & _ & [Hs _] & [Hr _] & _). unfold encode, zlen.
  rewrite !length_app, !be_encode_length, Hu, Hs, Hr.
  unfold BC_MESSAGE_HEADER_SIZE, BC_UUID_SIZE, BC_PUBKEY_SIZE. cbn [length]. lia.
Qed.

Lemma encode_bytes p : packet_wf p -> bytes_ok (encode p).
Proof.
  intros ([_ Hu] & Ht & [_ Hs] & [_ Hr] & _ & Hp). unfold encode.
  rewrite !bytes_ok_app. split_and!; try done; try apply be_encode_bytes.
  by apply Forall_singleton.
Qed.

(** Cutting an encoded packet, followed by anything, into its fields. *)
Lemma encode_cut p rest :
  packet_wf p ->
  let data := encode p ++ rest in
  take 16 data = pk_uuid p /\ data !! 16%nat = Some (pk_ttl p) /\
  take 32 (drop 17 data) = pk_sender p /\
  take 32 (drop 49 data) = pk_receiver p /\
  take 8 (drop 81 data) = be_encode 8 (pk_time p) /\
  take 4 (drop 89 data) = be_encode 4 (zlen (pk_payload p)) /\
  drop 93 data = pk_payload p ++ rest.
Proof.
  intros ([Hu _] & _ & [Hs _] & [Hr _] & _) data.
  assert (He8 := be_encode_length 8 (pk_time p)).
  assert (He4 := be_encode_length 4 (zlen (pk_payload p))).
  assert (Hd : data = pk_uuid p ++ [pk_ttl p] ++ pk_sender p ++ pk_receiver p ++
    be_encode 8 (pk_time p) ++ be_encode 4 (zlen (pk_payload p)) ++ pk_payload p ++ rest)
    by (unfold data, encode; by rewrite <- !(assoc_L (++))).
  assert (Hd16 : drop 16 data = [pk_ttl p] ++ pk_sender p ++ pk_receiver p ++
    be_encode 8 (pk_time p) ++ be_encode 4 (zlen (pk_payload p)) ++ pk_payload p ++ rest)
    by (rewrite Hd; by apply drop_app_length').
  assert (Hd17 : drop 17 data = pk_sender p ++ pk_receiver p ++
    be_encode 8 (pk_time p) ++ be_encode 4 (zlen (pk_payload p)) ++ pk_payload p ++ rest)
    by (change 17%nat with (16 + 1)%nat; by rewrite <- drop_drop, Hd16).
  assert (Hd49 : drop 49 data = pk_receiver p ++
    be_encode 8 (pk_time p) ++ be_encode 4 (zlen (pk_payload p)) ++ pk_payload p ++ rest)
    by (change 49%nat with (17 + 32)%nat; rewrite <- drop_drop, Hd17;
        by apply drop_app_length').
  assert (Hd81 : drop 81 data =
    be_encode 8 (pk_time p) ++ be_encode 4 (zlen (pk_payload p)) ++ pk_payload p ++ rest)
    by (change 81%nat with (49 + 32)%nat; rewrite <- drop_drop, Hd49;
        by apply drop_app_length').
  assert (Hd89 : drop 89 data = be_encode 4 (zlen (pk_payload p)) ++ pk_payload p ++ rest)
    by (change 89%nat with (81 + 8)%nat; rewrite <- drop_drop, Hd81;
        by apply drop_app_length').
  rewrite Hd17, Hd49, Hd81, Hd89.
  split_and!; try by apply take_app_length'.
  - rewrite Hd. by apply take_app_length'.
  - rewrite <- (Nat.add_0_r 16), <- lookup_drop, Hd16. done.
  - change 93%nat with (89 + 4)%nat. rewrite <- drop_drop, Hd89. by apply drop_app_length'.
Qed.

Lemma encode_length_field p rest :
  packet_wf p -> zlen (pk_payload p) < 2 ^ 32 ->
  length_field (encode p ++ rest) = zlen (pk_payload p).
Proof.
  intros Hwf Hlt. unfold length_field.
  destruct (encode_cut p rest Hwf) as (_ & _ & _ & _ & _ & -> & _).
  apply be_decode_encode. zlen_lia.
Qed.

Lemma decode_encode p rest :
  packet_wf p -> zlen (pk_payload p) < 2 ^ 32 -> decode (encode p ++ rest) = Some p.
Proof.
  intros Hwf Hlt. unfold decode. rewrite encode_length_field by done.
  assert (Hl := encode_length p Hwf).
  rewrite bool_decide_eq_false_2 by (rewrite zlen_app; zlen_lia).
  destruct (encode_cut p rest Hwf) as (-> & Ht & -> & -> & -> & _ & ->).
  rewrite be_decode_encode by apply Hwf.
  rewrite (nth_lookup_Some _ _ _ _ Ht). unfold zlen.
  rewrite Nat2Z.id, take_app_length. by destruct p.
Qed.

(** Linear arithmetic after unfolding the size constants. *)
Ltac size_lia :=
  unfold BC_MESSAGE_HEADER_SIZE, BC_UUID_SIZE, BC_PUBKEY_SIZE, is_u8, is_u32, is_u64 in *;
  zlen_lia.

(** ** Lemmas: serialization *)

Lemma serialize_encode m buf buf_len out :
  message_wf m ->
  BC_MESSAGE_HEADER_SIZE + payload_len m <= buf_len <= zlen buf ->
  bc_message_serialize (Some m) (Some buf) buf_len (Some out) =
    Val (BC_OK,
         Some (encode (msg_packet m) ++ drop (length (encode (msg_packet m))) buf),
         Some (BC_MESSAGE_HEADER_SIZE + payload_len m)).
Proof.
  intros Hwf Hlen. assert (Hel := encode_length _ (message_packet_wf _ Hwf)).
  destruct Hwf as ([Hu _] & _ & [Hs _] & [Hr _] & _ & Hpl & Hlt & _).
  assert (H0 := zlen_nonneg (msg_payload m)).
  unfold bc_message_serialize. rewrite to_u64_id by size_lia.
  rewrite bool_decide_eq_false_2 by size_lia. cbv zeta.
  rewrite write_u64_be_encode, write_u32_be_encode.
  unfold to_u32. change (2 ^ 32) with (2 ^ (8 * Z.of_nat 4)). rewrite be_encode_mod.
  assert (H8 := be_encode_length 8 (timestamp m)).
  assert (H4 := be_encode_length 4 (payload_len m)).
  set (e8 := be_encode 8 _) in *. set (e4 := be_encode 4 _) in *.
  change buf with ([] ++ buf) at 1.
  do 6 (rewrite mem_write_cursor by size_lia; cbn [mbind res_bind]).
  assert (HelN : length (encode (msg_packet m)) = (93 + length (msg_payload m))%nat).
  { cbn [msg_packet pk_payload] in Hel. size_lia. }
  rewrite HelN, !drop_drop, Hu, Hs, Hr, H8, H4. cbn [length Nat.add].
  unfold encode. cbn [msg_packet pk_uuid pk_ttl pk_sender pk_receiver pk_time pk_payload].
  rewrite <- Hpl in *. fold e8 e4. rewrite <- !(assoc_L (++)).
  replace (0 + BC_UUID_SIZE + 1 + BC_PUBKEY_SIZE + BC_PUBKEY_SIZE + 8 + 4)
    with BC_MESSAGE_HEADER_SIZE by done.
  case_bool_decide as Hp.
  - unfold msg_payload in *. destruct (payload m) as [pl|]; [|zlen_lia].
    rewrite mem_read_ok by zlen_lia. cbn [mbind res_bind].
    change (Z.to_nat 0) with 0%nat. rewrite drop_0, take_ge by zlen_lia.
    rewrite !(assoc_L (++)), mem_write_cursor by size_lia. cbn [mbind res_bind].
    by rewrite drop_drop, <- !(assoc_L (++)).
  - assert (msg_payload m = []) as -> by (apply length_zero_iff_nil; zlen_lia).
    replace (payload_len m) with 0 by zlen_lia. by rewrite (left_id_L [] (++)).
Qed.

(** ** Lemmas: parsing *)

Lemma zlen_bytes_n n l : bytes_n n l -> zlen l = Z.of_nat n.
Proof. intros [Hl _]. unfold zlen. by rewrite Hl. Qed.

Lemma take_drop_take {A} (l : list A) a b n :
  (a + b <= n)%nat -> take b (drop a (take n l)) = take b (drop a l).
Proof. intros. rewrite !take_drop_commute, take_take. do 2 f_equal. lia. Qed.

Lemma length_field_take data n :
  (93 <= n)%nat -> length_field (take n data) = length_field data.
Proof. intros. unfold length_field. rewrite take_drop_take by lia. done. Qed.

Lemma length_field_range data :
  bytes_ok data -> BC_MESSAGE_HEADER_SIZE <= zlen data -> is_u32 (length_field data).
Proof.
  intros Hok Hl. unfold length_field.
  assert (Hr : bytes_ok (take 4 (drop 89 data))) by auto with bitchat.
  apply be_decode_range in Hr.
  replace (zlen (take 4 (drop 89 data))) with 4 in Hr by size_lia. exact Hr.
Qed.

(** The fields the parser reads, on a buffer that holds a whole header. *)
Lemma parse_header data :
  bytes_ok data -> BC_MESSAGE_HEADER_SIZE <= zlen data ->
  arr_get data 16 = Val (nth 16 data 0) /\ is_u8 (nth 16 data 0) /\
  mem_read data 81 8 ≫= read_u64_be = Val (be_decode (take 8 (drop 81 data))) /\
  is_u64 (be_decode (take 8 (drop 81 data))) /\
  mem_read data 89 4 ≫= read_u32_be = Val (length_field data) /\
  mem_read data 0 16 = Val (take 16 data) /\
  mem_read data 17 32 = Val (take 32 (drop 17 data)) /\
  mem_read data 49 32 = Val (take 32 (drop 49 data)) /\
  bytes_n 16 (take 16 data) /\ bytes_n 32 (take 32 (drop 17 data)) /\
  bytes_n 32 (take 32 (drop 49 data)).
Proof.
  intros Hok Hl.
  destruct (lookup_lt_is_Some_2 data 16) as [t Ht]; [size_lia|].
  assert (H8 : bytes_n 8 (take 8 (drop 81 data))) by
    (split; [size_lia|auto with bitchat]).
  rewrite (nth_lookup_Some _ _ _ _ Ht), !mem_read_ok by size_lia.
  change (Z.to_nat 0) with 0%nat. rewrite drop_0.
  split_and!; try done; try (split; [size_lia|auto with bitchat]).
  - by apply arr_get_ok.
  - by eapply Forall_lookup_1.
  - cbn [mbind res_bind]. by apply read_u64_be_decode.
  - destruct H8 as [H8 Hb]. apply be_decode_range in Hb.
    unfold zlen in Hb. rewrite H8 in Hb. apply Hb.
  - cbn [mbind res_bind]. apply read_u32_be_decode.
    split; [size_lia|auto with bitchat].
Qed.

(** The reference decoder on the part of the buffer the caller declares. *)
Lemma decode_prefix data data_len :
  let d := take (Z.to_nat data_len) data in
  BC_MESSAGE_HEADER_SIZE <= data_len <= zlen data ->
  decode d =
    if bool_decide (BC_MESSAGE_HEADER_SIZE + length_field data <= data_len)
    then Some (mkPacket (take 16 data) (nth 16 data 0)
                 (take 32 (drop 17 data)) (take 32 (drop 49 data))
                 (be_decode (take 8 (drop 81 data)))
                 (take (Z.to_nat (length_field data)) (drop 93 data)))
    else None.
Proof.
  intros d Hlen. assert (Hd : zlen d = data_len) by (unfold d; size_lia).
  assert (Hdf : length_field d = length_field data) by (apply length_field_take; size_lia).
  unfold decode. rewrite Hd, Hdf. case_bool_decide; case_bool_decide; try size_lia; [done|].
  unfold d. rewrite take_take, !take_drop_take by size_lia.
  rewrite Nat.min_l by size_lia. do 2 f_equal.
  destruct (lookup_lt_is_Some_2 data 16) as [t Htt]; [size_lia|].
  rewrite (nth_lookup_Some _ _ _ _ Htt). apply nth_lookup_Some.
  by rewrite lookup_take_lt by size_lia.
Qed.

(** A safe length field passes the 32-bit test exactly when it fits. *)
Lemma length_test data data_len :
  is_u32 (length_field data) -> BC_MESSAGE_HEADER_SIZE <= data_len ->
  length_field_safe data data_len ->
  data_len < to_u32 (BC_MESSAGE_HEADER_SIZE + length_field data) <->
  data_len < BC_MESSAGE_HEADER_SIZE + length_field data.
Proof.
  intros Hr Hl Hsafe. unfold length_field_safe in Hsafe.
  assert (to_u32 (BC_MESSAGE_HEADER_SIZE + length_field data)
          <= BC_MESSAGE_HEADER_SIZE + length_field data)
    by (apply Z.mod_le; size_lia).
  destruct Hsafe as [?|[?|?]]; [lia| |lia]. by rewrite to_u32_id by size_lia.
Qed.

Lemma difference_self (b : blk) : {[b]} ∖ {[b]} = (∅ : gset blk).
Proof. set_solver. Qed.

Section parse_lemmas.
Context {W : Type} `{!HasOS W, !WorldInv W}.
Implicit Types w : W.

(** The message the parser or the constructor builds from its two blocks. *)
Lemma owns_message_payload b b' u t s r ts pl n w w1 w2 :
  bytes_n 16 u -> is_u8 t -> bytes_n 32 s -> bytes_n 32 r -> is_u64 ts ->
  bytes_ok pl -> zlen pl = n -> n < 2 ^ 63 ->
  acquired {[b]} w w1 -> acquired {[b']} w1 w2 ->
  owns_message (Box b (mkMessage u t s r ts (Some (Box b' pl)) n)) w w2.
Proof.
  intros ??????? Hn Ha Ha'. split; [|split].
  - unfold message_wf, msg_payload; cbn. split_and!; done.
  - unfold msg_blocks_distinct; cbn. intros ->.
    apply (acquired_disjoint _ _ _ _ _ Ha Ha' b); set_solver.
  - unfold msg_blocks; cbn. rewrite union_comm_L. by eapply acquired_union.
Qed.

Lemma owns_message_empty b u t s r ts w w1 :
  bytes_n 16 u -> is_u8 t -> bytes_n 32 s -> bytes_n 32 r -> is_u64 ts ->
  acquired {[b]} w w1 ->
  owns_message (Box b (mkMessage u t s r ts None 0)) w w1.
Proof.
  intros ????? Ha. split; [|split]; [|done|].
  - unfold message_wf, msg_payload; cbn. split_and!; done || constructor.
  - unfold msg_blocks; cbn. by rewrite union_empty_r_L.
Qed.

(** Undoing the only allocation when the second one fails. *)
Lemma wp_free_only {A} b w w1 (a : A) (Q : A -> W -> Prop) :
  acquired {[b]} w w1 ->
  (forall w2, idle w1 w2 -> balanced w w2 -> Q a w2) ->
  wp (c_free (Some b);; mret a) w1 Q.
Proof.
  intros Ha HQ. apply wp_bind, wp_quiet; [apply quiet_free|].
  apply (wp_free_acquired b {[b]} w); [done|set_solver|].
  intros w2 Hl H2 Hs. apply wp_ret, HQ; [by split|]. apply acquired_nil. by rewrite <- (difference_self b).
Qed.

Lemma wp_deserialize data data_len w :
  heap_ok w -> bytes_ok data -> 0 <= data_len <= zlen data -> data_len < 2 ^ 63 ->
  length_field_safe data data_len ->
  wp (bc_message_deserialize (Some data) data_len) w
     (parsed (take (Z.to_nat data_len) data) w).
Proof.
  intros Hheap Hok Hlen Hmax Hsafe. unfold bc_message_deserialize, parsed.
  case_bool_decide as Hshort.
  { apply wp_ret. unfold decode.
    rewrite bool_decide_eq_true_2 by size_lia. split; [done|apply balanced_refl]. }
  destruct (parse_header data Hok) as
    (Ht & Ht8 & Hts & Hts8 & Hlf & Hu & Hs & Hr & Hub & Hsb & Hrb); [size_lia|].
  assert (Hlfr := length_field_range data Hok ltac:(size_lia)).
  rewrite decode_prefix by size_lia.
  cbv zeta. change (BC_UUID_SIZE + 1 + BC_PUBKEY_SIZE + BC_PUBKEY_SIZE) with 81.
  change (BC_UUID_SIZE + 1 + BC_PUBKEY_SIZE) with 49.
  change (BC_UUID_SIZE + 1) with 17. change (81 + 8 + 4) with 93. change (81 + 8) with 89.
  change BC_UUID_SIZE with 16. change BC_PUBKEY_SIZE with 32.
  apply wp_bind, (wp_lift _ _ _ _ Ht), wp_bind, (wp_lift _ _ _ _ Hts),
    wp_bind, (wp_lift _ _ _ _ Hlf).
  rewrite (bool_decide_ext _ _ (length_test data data_len Hlfr ltac:(lia) Hsafe)).
  destruct (decide (BC_MESSAGE_HEADER_SIZE + length_field data <= data_len)) as [Hfit|Hbig].
  2: { rewrite (bool_decide_eq_false_2 (_ <= _)), bool_decide_eq_true_2 by lia.
       apply wp_ret. split; [done|apply balanced_refl]. }
  rewrite (bool_decide_eq_true_2 (_ <= _)), bool_decide_eq_false_2 by lia.
  apply wp_bind, wp_alloc; [done|intros w' Hoom Hb; apply wp_ret; by left|].
  intros b w' Hacq.
  apply wp_bind, (wp_lift _ _ _ _ Hu), wp_bind, (wp_lift _ _ _ _ Hs),
    wp_bind, (wp_lift _ _ _ _ Hr).
  assert (Hpl : zlen (take (Z.to_nat (length_field data)) (drop 93 data)) =
                length_field data) by size_lia.
  case_bool_decide as Hpos.
  - apply wp_bind, wp_alloc; [by eauto with bitchat| |].
    { intros w'' Hoom Hb. apply (wp_free_only b w); [by eauto with bitchat|].
      intros w3 _ H3. left. split_and!; [done|done|].
      intros Hno. apply Hoom. by eauto with bitchat. }
    intros b' w'' Hacq'.
    apply wp_bind, (wp_lift _ _ _ (take (Z.to_nat (length_field data)) (drop 93 data)));
      [by rewrite mem_read_ok by size_lia|].
    apply wp_ret. right. eexists. split_and!; [done|done|].
    eapply owns_message_payload; try done; [auto with bitchat|size_lia].
  - apply wp_ret. right. eexists. split_and!; [done| |by apply owns_message_empty].
    assert (length_field data = 0) as -> by size_lia. done.
Qed.
(** Allocation of a new message. *)
Lemma mem_read_all l n : zlen l = n -> mem_read l 0 n = Val l.
Proof.
  intros <-. rewrite mem_read_ok by zlen_lia. change (Z.to_nat 0) with 0%nat.
  by rewrite drop_0, take_ge by zlen_lia.
Qed.

Lemma wp_create s r pl w (Q : option (box bc_message) -> W -> Prop) :
  heap_ok w -> bytes_n 32 s -> bytes_n 32 r -> bytes_ok pl -> zlen pl < 2 ^ 63 ->
  (forall res w', created s r pl w res w' -> Q res w') ->
  wp (bc_message_create (Some s) (Some r) (Some pl) (zlen pl)) w Q.
Proof.
  intros Hheap Hs Hr Hpl Hlt HQ. unfold bc_message_create.
  apply wp_bind, wp_alloc; [done|intros w' ? ?; apply wp_ret, HQ; by left|].
  intros b w' Hacq. apply wp_bind, wp_random. intros u w2 Hd Hb2. assert (Hu := drawn_bytes _ _ _ _ Hd).
  apply wp_bind, (wp_lift _ _ _ s); [exact (mem_read_all _ _ (zlen_bytes_n _ _ Hs))|].
  apply wp_bind, (wp_lift _ _ _ r); [exact (mem_read_all _ _ (zlen_bytes_n _ _ Hr))|].
  apply wp_bind, wp_time. intros now w3 Hb3 Hnow.
  assert (Hacq3 : acquired {[b]} w w3) by eauto with bitchat.
  assert (Hclk : clock_read w w3 now) by eauto with bitchat.
  assert (Hdr : drawn w w3 16 u) by eauto with bitchat.
  case_bool_decide as Hpos.
  - apply wp_bind, wp_alloc; [by eauto with bitchat| |].
    { intros w4 Hoom Hb4. apply (wp_free_only b w); [by eauto with bitchat|].
      intros w5 _ H5. apply HQ. left. split_and!; [done|done|].
      intros Hno. apply Hoom. by eauto with bitchat. }
    intros b' w4 Hacq'.
    apply wp_bind, (wp_lift _ _ _ pl); [by apply mem_read_all|].
    apply wp_ret, HQ. right. eexists. split; [done|].
    split; [eapply owns_message_payload; by eauto with bitchat|].
    split_and!; try done; eauto with bitchat.
  - apply wp_ret, HQ. right. eexists. split; [done|].
    split; [apply owns_message_empty; by eauto with bitchat|].
    split_and!; try done.
    symmetry. apply length_zero_iff_nil. zlen_lia.
Qed.

Lemma quiet_create s r pl n : quiet (bc_message_create (W := W) s r pl n).
Proof. unfold bc_message_create. solve_quiet. Qed.

Lemma quiet_destroy b : quiet (bc_message_destroy (W := W) b).
Proof. unfold bc_message_destroy. solve_quiet. Qed.

Lemma quiet_deserialize d n : quiet (bc_message_deserialize (W := W) d n).
Proof. unfold bc_message_deserialize. solve_quiet. Qed.

(** Copying a message. *)
Lemma wp_create_copy m w (Q : option (box bc_message) -> W -> Prop) :
  heap_ok w -> message_wf m ->
  (forall res w', created (sender_pubkey m) (receiver_pubkey m) (msg_payload m) w res w' ->
     Q res w') ->
  wp (bc_message_create (Some (sender_pubkey m)) (Some (receiver_pubkey m))
        (contents <$> payload m) (payload_len m)) w Q.
Proof.
  intros Hok (_ & _ & Hs & Hr & _ & Hl & Hlt & Hb) HQ. rewrite Hl.
  unfold msg_payload in *. destruct (payload m) as [pl|]; cbn [fmap option_fmap option_map].
  - apply wp_create; try done. by rewrite Hl in Hlt.
  - assert (H := wp_create _ _ [] w Q Hok Hs Hr Hb eq_refl HQ). exact H.
Qed.

(** Destroying an owned message gives back exactly its blocks. *)
Lemma wp_destroy_owned b w (Q : unit -> W -> Prop) :
  message_wf (contents b) -> msg_blocks_distinct b -> msg_blocks b ⊆ owned w ->
  (forall w', released (msg_blocks b) w w' -> Q tt w') ->
  wp (bc_message_destroy (Some b)) w Q.
Proof.
  intros Hwf Hd Hsub HQ. unfold bc_message_destroy, msg_blocks, msg_blocks_distinct in *.
  destruct Hwf as (_ & _ & _ & _ & _ & Hlen & _). unfold msg_payload in Hlen.
  destruct (payload (contents b)) as [pl|].
  - apply wp_bind, wp_bind. eapply wp_lift; [apply mem_write_ok; zlen_lia|].
    apply (wp_free_owned (addr pl)); [set_solver|]. intros w1 Hr1.
    apply (wp_free_owned (addr b)); [destruct Hr1 as [_ ->]; set_solver|].
    intros w2 Hr2. apply HQ. rewrite union_comm_L. by eapply released_trans.
  - apply wp_bind, wp_ret. apply (wp_free_owned (addr b)); [set_solver|].
    intros w2 Hr2. apply HQ. by rewrite union_empty_r_L.
Qed.

Lemma wp_destroy b bs w0 w (Q : unit -> W -> Prop) :
  message_wf (contents b) -> msg_blocks_distinct b ->
  acquired bs w0 w -> msg_blocks b ⊆ bs ->
  (forall w', later w w' -> acquired (bs ∖ msg_blocks b) w0 w' -> Q tt w') ->
  wp (bc_message_destroy (Some b)) w Q.
Proof.
  intros Hwf Hd Ha Hsub HQ. apply wp_destroy_owned; try done.
  { destruct Ha as (_ & -> & _). set_solver. }
  intros w' Hr. apply HQ; [apply Hr|]. by apply (acquired_released _ _ _ _ _ Ha Hr).
Qed.

(** The common case: the message is all that was acquired. *)
Lemma wp_destroy_only b w0 w (Q : unit -> W -> Prop) :
  owns_message b w0 w -> (forall w', later w w' -> balanced w0 w' -> Q tt w') ->
  wp (bc_message_destroy (Some b)) w Q.
Proof.
  intros (Hwf & Hd & Hacq) HQ. eapply wp_destroy; [done|done|done|done|].
  intros w' Hl Hw'. apply HQ; [done|]. apply acquired_nil. by rewrite difference_diag_L in Hw'.
Qed.
End parse_lemmas.

(** ** Properties *)

(** A message for closed examples: [n] is its payload's length. *)
Definition demo_message (n : nat) : bc_message :=
  mkMessage (replicate 16 7) 10 (replicate 32 1) (replicate 32 2) 1700000000
    (Some (Box 0%nat (replicate n 65))) (Z.of_nat n).

(** C30: [bc_message_serialize] on a well-formed message, whatever the buffer:
    a buffer shorter than the encoding is left untouched, the needed size is
    reported and the result is BC_ERR_BUFFER_TOO_SMALL; otherwise exactly the
    documented wire format is written at the start of the buffer, the bytes
    after it are not touched, and the reported length is that of the encoding.
    No write leaves the buffer. *)
Theorem serialize_refines_encode m buf buf_len out :
  message_wf m -> 0 <= buf_len <= zlen buf ->
  bc_message_serialize (Some m) (Some buf) buf_len (Some out) =
    let wire := encode (msg_packet m) in
    if bool_decide (buf_len < zlen wire)
    then Val (BC_ERR_BUFFER_TOO_SMALL, Some buf, Some (zlen wire))
    else Val (BC_OK, Some (wire ++ drop (length wire) buf), Some (zlen wire)).
Proof.
  intros Hwf Hlen. cbv zeta.
  assert (Hel : zlen (encode (msg_packet m)) = BC_MESSAGE_HEADER_SIZE + payload_len m).
  { rewrite (encode_length _ (message_packet_wf _ Hwf)). cbn.
    by destruct Hwf as (_ & _ & _ & _ & _ & <- & _). }
  rewrite Hel. case_bool_decide as Hs; [|apply serialize_encode; [done|lia]].
  assert (H0 : 0 <= payload_len m) by (destruct Hwf as (_&_&_&_&_&->&_); apply zlen_nonneg).
  assert (Hmax : payload_len m < 2 ^ 63) by apply Hwf.
  unfold bc_message_serialize. rewrite to_u64_id by size_lia.
  by rewrite bool_decide_eq_true_2 by lia.
Qed.

Lemma serialize_refines_encode_witness :
  bc_message_serialize (Some (demo_message 5)) (Some (replicate 100 0)) 100 (Some 0) =
    Val (BC_OK, Some (encode (msg_packet (demo_message 5)) ++ [0; 0]), Some 98).
Proof.
  rewrite serialize_refines_encode; [vm_compute; reflexivity| |].
  - apply (bool_decide_unpack _). vm_compute. exact I.
  - vm_compute. split; discriminate.
Defined.

(** C14: what [bc_message_serialize] writes, [bc_message_deserialize] reads
    back: for every well-formed message whose payload fits the 32-bit length
    field, serializing into a large enough buffer succeeds, and parsing the
    written bytes (with whatever follows them), when memory does not run out,
    returns a message with the same uuid, ttl, keys, timestamp and payload, owning
    only blocks it allocated. *)
Theorem serialize_deserialize_roundtrip {W} `{!HasOS W, !WorldInv W} (w : W) m buf :
  message_wf m -> payload_len m < 2 ^ 32 ->
  BC_MESSAGE_HEADER_SIZE + payload_len m <= zlen buf < 2 ^ 63 -> bytes_ok buf ->
  heap_ok w -> never_oom w ->
  exists out n,
    bc_message_serialize (Some m) (Some buf) (zlen buf) (Some 0) =
      Val (BC_OK, Some out, Some n) /\
    forall len, n <= len <= zlen out ->
    wp (bc_message_deserialize (Some out) len) w (fun r w' =>
      exists b, r = Some b /\ msg_packet (contents b) = msg_packet m /\
                owns_message b w w').
Proof.
  intros Hwf H32 Hbuf Hbok Hheap Hoom.
  assert (Hp := message_packet_wf _ Hwf). assert (Hel := encode_length _ Hp).
  assert (Hpl : payload_len m = zlen (msg_payload m)) by apply Hwf.
  cbn [msg_packet pk_payload] in Hel. rewrite <- Hpl in Hel.
  eexists _, _. split; [apply serialize_encode; [done|lia]|]. intros len Hlen.
  set (rest := drop _ buf) in *.
  assert (Hdec : decode (take (Z.to_nat len) (encode (msg_packet m) ++ rest))
                 = Some (msg_packet m)).
  { rewrite take_app_ge by zlen_lia. apply decode_encode; [done|]. cbn. lia. }
  eapply wp_mono; [apply wp_deserialize; [done| | | |]|].
  - apply bytes_ok_app. split; [by apply encode_bytes|]. unfold rest. auto with bitchat.
  - unfold rest in *. size_lia.
  - unfold rest in *. size_lia.
  - right. right. rewrite encode_length_field by (cbn; lia || done). cbn. lia.
  - intros r w'. unfold parsed. rewrite Hdec. intros [(_ & _ & H)|(b & -> & Hm & Ho)].
    + by destruct H.
    + by exists b.
Qed.

Lemma serialize_deserialize_roundtrip_witness :
  exists out n,
    bc_message_serialize (Some (demo_message 5)) (Some (replicate 98 0)) 98 (Some 0) =
      Val (BC_OK, Some out, Some n) /\
    forall len, n <= len <= zlen out ->
    wp (bc_message_deserialize (Some out) len) (demo_os 0) (fun r w' =>
      exists b, r = Some b /\ msg_packet (contents b) = msg_packet (demo_message 5) /\
                owns_message b (demo_os 0) w').
Proof.
  apply (serialize_deserialize_roundtrip (demo_os 0) (demo_message 5) (replicate 98 0)).
  - apply (bool_decide_unpack _). vm_compute. exact I.
  - vm_compute. reflexivity.
  - vm_compute. split; [discriminate|reflexivity].
  - apply (bool_decide_unpack _). vm_compute. exact I.
  - apply demo_os_ok.
  - apply demo_os_ok.
Defined.

(** C13: parsing is memory safe and exact for every input whose length field
    does not overflow the 32-bit bounds test: on any byte buffer,
    [bc_message_deserialize] reads only inside the declared length, returns
    NULL exactly when the bytes are not the encoding of a packet (or memory
    ran out), and otherwise a well-formed message standing for that packet; on
    every path it keeps no block but those of the message it returns. *)
Theorem deserialize_refines_decode {W} `{!HasOS W, !WorldInv W} (w : W) data data_len :
  heap_ok w -> bytes_ok data -> 0 <= data_len <= zlen data -> data_len < 2 ^ 63 ->
  length_field_safe data data_len ->
  wp (bc_message_deserialize (Some data) data_len) w
     (parsed (take (Z.to_nat data_len) data) w).
Proof. apply wp_deserialize. Qed.

Lemma deserialize_refines_decode_witness :
  wp (bc_message_deserialize (Some (replicate 93 0)) 93) (demo_os 0)
     (parsed (take 93 (replicate 93 0)) (demo_os 0)).
Proof.
  apply (deserialize_refines_decode (demo_os 0) (replicate 93 0) 93).
  - apply demo_os_ok.
  - apply (bool_decide_unpack _). vm_compute. exact I.
  - vm_compute. split; discriminate.
  - vm_compute. reflexivity.
  - right. left. vm_compute. reflexivity.
Defined.

(** A bare 93-byte header whose length field is 0xFFFFFFFF. *)
Definition overflow_packet : list Z := replicate 89 0 ++ replicate 4 255.

(** C39: the bounds test of [bc_message_deserialize] does not protect the read:
    93 + payload_len is computed modulo 2^32, so for a packet whose length
    field is at least 2^32 - 93 and whose declared length covers the wrapped
    sum but not the real one, the copy of the payload reads past the end of
    the received buffer (undefined behaviour) whenever both allocations
    succeed. *)
Theorem deserialize_length_wraps {W} `{!HasOS W} (w : W) data :
  bytes_ok data -> BC_MESSAGE_HEADER_SIZE <= zlen data ->
  2 ^ 32 <= BC_MESSAGE_HEADER_SIZE + length_field data ->
  zlen data < BC_MESSAGE_HEADER_SIZE + length_field data ->
  never_oom w ->
  bc_message_deserialize (Some data) (zlen data) w = UB.
Proof.
  intros Hok Hlen Hwrap Hshort Hoom.
  destruct (parse_header data Hok Hlen) as
    (Ht & _ & Hts & _ & Hlf & Hu & Hs & Hr & _).
  assert (Hlfr := length_field_range data Hok Hlen).
  assert (Hmod : to_u32 (BC_MESSAGE_HEADER_SIZE + length_field data) =
                 BC_MESSAGE_HEADER_SIZE + length_field data - 2 ^ 32).
  { unfold to_u32. symmetry. apply Z.mod_unique with 1; size_lia. }
  unfold bc_message_deserialize. rewrite bool_decide_eq_false_2 by lia. cbv zeta.
  rewrite (bind_val _ _ _ _ _ (lift_val _ _ w Ht)), (bind_val _ _ _ _ _ (lift_val _ _ w Hts)),
    (bind_val _ _ _ _ _ (lift_val _ _ w Hlf)), Hmod.
  rewrite bool_decide_eq_false_2 by size_lia.
  unfold mbind, M_bind, c_alloc. rewrite Hoom.
  rewrite (lift_val _ _ _ Hu), (lift_val _ _ _ Hs), (lift_val _ _ _ Hr).
  rewrite bool_decide_eq_true_2 by size_lia. rewrite get_set_os. cbn [os_grant]. rewrite Hoom.
  unfold mem_read. by rewrite bool_decide_eq_false_2 by size_lia.
Qed.

Lemma deserialize_length_wraps_witness :
  bc_message_deserialize (Some overflow_packet) 93 (demo_os 0) = UB.
Proof.
  apply (deserialize_length_wraps (demo_os 0) overflow_packet).
  - apply (bool_decide_unpack _). vm_compute. exact I.
  - vm_compute. discriminate.
  - vm_compute. discriminate.
  - vm_compute. reflexivity.
  - apply demo_os_ok.
Defined.

(** Cutting a buffer at the header's field boundaries. *)
Lemma cut_header data :
  BC_MESSAGE_HEADER_SIZE <= zlen data ->
  data = take 16 data ++ [nth 16 data 0] ++ take 32 (drop 17 data)
         ++ take 32 (drop 49 data) ++ take 8 (drop 81 data)
         ++ take 4 (drop 89 data) ++ drop 93 data.
Proof.
  intros Hl.
  assert (Hcut : forall k n, drop k data = take n (drop k data) ++ drop (k + n) data)
    by (intros; by rewrite <- drop_drop, take_drop).
  destruct (lookup_lt_is_Some_2 data 16) as [t Ht]; [size_lia|].
  rewrite (nth_lookup_Some _ _ _ _ Ht).
  rewrite <- (Hcut 89%nat 4%nat : _ = _ ++ drop 93 data),
    <- (Hcut 81%nat 8%nat : _ = _ ++ drop 89 data),
    <- (Hcut 49%nat 32%nat : _ = _ ++ drop 81 data),
    <- (Hcut 17%nat 32%nat : _ = _ ++ drop 49 data). cbn [app]. rewrite <- (drop_S _ _ _ Ht). by rewrite take_drop.
Qed.

Lemma be_encode_field data k n :
  bytes_ok data -> (k + n <= length data)%nat ->
  be_encode n (be_decode (take n (drop k data))) = take n (drop k data).
Proof.
  intros Hok Hl. rewrite <- (be_encode_decode (take n (drop k data))) at 2
    by auto with bitchat.
  f_equal. zlen_lia.
Qed.

(** The reference decoder accepts only encodings: a byte string that decodes to a
    packet starts with exactly that packet's encoding. *)
Lemma decode_canonical data p :
  bytes_ok data -> decode data = Some p ->
  packet_wf p /\ zlen (pk_payload p) < 2 ^ 32 /\
  take (length (encode p)) data = encode p.
Proof.
  intros Hok. unfold decode. case_bool_decide as Hb; [done|]. intros [= <-].
  assert (Hl : BC_MESSAGE_HEADER_SIZE <= zlen data) by lia.
  destruct (parse_header data Hok Hl) as (_ & Ht & _ & Hts & _ & _ & _ & _ & Hu & Hs & Hr).
  assert (Hlf := length_field_range data Hok Hl).
  assert (Hpl : zlen (take (Z.to_nat (length_field data)) (drop 93 data)) = length_field data)
    by size_lia.
  split; [|split].
  - unfold packet_wf; cbn. split_and!; done || auto with bitchat.
  - cbn. size_lia.
  - unfold encode; cbn [pk_uuid pk_ttl pk_sender pk_receiver pk_time pk_payload].
    rewrite Hpl. unfold length_field at 1 3.
    rewrite !be_encode_field by (done || size_lia).
    match goal with |- take (length ?e) _ = _ =>
      assert (Hd : data = e ++ drop (Z.to_nat (length_field data)) (drop 93 data)) end.
    { rewrite <- !(assoc_L (++)), take_drop. by apply cut_header. }
    match goal with |- take (length ?e) _ = _ => set (pre := e) in * end.
    rewrite Hd. apply take_app_length.
Qed.

(** C37: parsing accepts nothing but what serializing writes: whenever
    [bc_message_deserialize] returns a message for some bytes whose length field
    does not wrap its bounds test, serializing that message into any buffer of at
    least that many bytes succeeds, writes exactly the bytes that were parsed,
    reports their number and leaves the rest of the buffer alone.  So two wire
    images that parse to the same message differ at most behind the declared
    payload. *)
Theorem deserialize_serialize_canonical {W} `{!HasOS W, !WorldInv W} (w : W) data data_len buf :
  heap_ok w -> bytes_ok data -> 0 <= data_len <= zlen data -> data_len < 2 ^ 63 ->
  length_field_safe data data_len -> data_len <= zlen buf ->
  wp (bc_message_deserialize (Some data) data_len) w (fun r _ => forall b, r = Some b ->
    let n := BC_MESSAGE_HEADER_SIZE + payload_len (contents b) in
    n <= data_len /\
    bc_message_serialize (Some (contents b)) (Some buf) (zlen buf) (Some 0) =
      Val (BC_OK, Some (take (Z.to_nat n) data ++ drop (Z.to_nat n) buf), Some n)).
Proof.
  intros Hheap Hok Hlen Hmax Hsafe Hbuf. eapply wp_mono; [by apply wp_deserialize|].
  intros r w' Hp b ->. unfold parsed in Hp.
  destruct (decode (take (Z.to_nat data_len) data)) as [p|] eqn:Hd; [|by destruct Hp].
  destruct Hp as [[? _]|(b' & [= <-] & Hm & Hwf & _)]; [done|].
  destruct (decode_canonical _ _ (bytes_ok_take _ _ Hok) Hd) as (Hpw & _ & Hcan).
  assert (Hel := encode_length _ Hpw). rewrite <- Hm in Hel. cbn [msg_packet pk_payload] in Hel.
  assert (Hpl : payload_len (contents b) = zlen (msg_payload (contents b))) by apply Hwf.
  rewrite <- Hpl, Hm in Hel. cbv zeta. rewrite <- Hel.
  assert (Hn : (length (encode p) <= Z.to_nat data_len)%nat).
  { apply (f_equal length) in Hcan. rewrite !length_take in Hcan. lia. }
  split; [zlen_lia|]. rewrite serialize_encode; [|done|rewrite <- Hel; zlen_lia].
  rewrite Hm, <- Hel. unfold zlen. rewrite Nat2Z.id. do 3 f_equal. f_equal. f_equal.
  rewrite <- Hcan at 1. rewrite take_take. f_equal. lia.
Qed.

Lemma deserialize_serialize_canonical_witness :
  let data := encode (msg_packet (demo_message 3)) ++ [1; 2] in
  wp (bc_message_deserialize (Some data) 98) (demo_os 0) (fun r _ => forall b, r = Some b ->
    let n := BC_MESSAGE_HEADER_SIZE + payload_len (contents b) in
    n <= 98 /\
    bc_message_serialize (Some (contents b)) (Some (replicate 100 0)) 100 (Some 0) =
      Val (BC_OK, Some (take (Z.to_nat n) data ++ drop (Z.to_nat n) (replicate 100 0)), Some n)).
Proof.
  intros data. apply (deserialize_serialize_canonical (demo_os 0) data 98 (replicate 100 0)).
  - apply demo_os_ok.
  - apply (bool_decide_unpack _). vm_compute. exact I.
  - vm_compute. split; discriminate.
  - vm_compute. reflexivity.
  - right. left. vm_compute. reflexivity.
  - vm_compute. discriminate.
Defined.

(** A message made by [bc_message_create] carries the caller's keys and
    payload, a fresh 16-byte uuid, the default TTL and the current time, and
    [bc_message_destroy] gives back exactly the blocks [bc_message_create]
    took: create then destroy leaks nothing and frees nothing twice, also when
    either allocation fails. *)
Theorem create_destroy_balanced {W} `{!HasOS W, !WorldInv W} (w : W) s r pl :
  heap_ok w -> bytes_n 32 s -> bytes_n 32 r -> bytes_ok pl -> zlen pl < 2 ^ 63 ->
  wp (bc_message_create (Some s) (Some r) (Some pl) (zlen pl)) w (fun res w' =>
    created s r pl w res w' /\
    wp (bc_message_destroy res) w' (fun _ w'' => balanced w w'')).
Proof.
  intros. apply wp_create; try done. intros res w' Hc. split; [done|].
  destruct Hc as [(-> & Hb & _)|(b & -> & Ho & _)]; [by apply wp_ret|].
  by eapply wp_destroy_only.
Qed.

Lemma create_destroy_balanced_witness :
  wp (bc_message_create (Some (replicate 32 1)) (Some (replicate 32 2)) (Some [1; 2; 3]) 3)
     (demo_os 7) (fun res w' =>
    created (replicate 32 1) (replicate 32 2) [1; 2; 3] (demo_os 7) res w' /\
    wp (bc_message_destroy res) w' (fun _ w'' => balanced (demo_os 7) w'')).
Proof.
  apply (create_destroy_balanced (demo_os 7) (replicate 32 1) (replicate 32 2) [1; 2; 3]).
  - apply demo_os_ok.
  - apply (bool_decide_unpack _). vm_compute. exact I.
  - apply (bool_decide_unpack _). vm_compute. exact I.
  - apply (bool_decide_unpack _). vm_compute. exact I.
  - vm_compute. reflexivity.
Defined.
