(* ===== verification/Peer.v ===== *)
(** * Peer: known neighbours

    Models [src/domain/peer.c] and [include/bitchat/domain/peer.h]. *)
From S2P Require Import Prelude Effects Errors Sodium Message.

Definition BC_MAX_PEERS : Z := 64.

Inductive bc_transport_type : Type :=
| BC_TRANSPORT_BLE
| BC_TRANSPORT_WIFI_DIRECT.

Record bc_peer : Type := mkPeer {
  peer_pubkey : list Z;
  last_seen : Z;
  peer_transport : bc_transport_type;
  rssi : Z
}.

#[export] Instance bc_transport_type_eq : EqDecision bc_transport_type.
Proof. solve_decision. Defined.
#[export] Instance bc_peer_eq : EqDecision bc_peer.
Proof. solve_decision. Defined.

(** An all-zero peer, what [memset] or [calloc] leave. *)
Definition zero_peer : bc_peer := mkPeer (replicate 32 0) 0 BC_TRANSPORT_BLE 0.

Section peer.
Context {W : Type} `{!HasOS W, !WorldInv W}.

(** [peer] is the caller's struct, returned as the call leaves it. *)
Definition bc_peer_init (peer : option bc_peer) (pubkey : option (list Z))
    (transport : bc_transport_type) : M W (option bc_peer) :=
  match peer, pubkey with
  | Some _, Some pubkey =>
      pk ← lift (mem_read pubkey 0 BC_PUBKEY_SIZE);
      now ← c_time;
      mret (Some (mkPeer pk now transport 0))
  | _, _ => mret peer
  end.

Definition bc_peer_touch (peer : option bc_peer) : M W (option bc_peer) :=
  match peer with
  | None => mret None
  | Some peer =>
      now ← c_time;
      mret (Some (mkPeer (peer_pubkey peer) now (peer_transport peer) (rssi peer)))
  end.
End peer.

(** The search the router and the discovery manager make in their tables: the
    index of the peer with the given key among the [n] from [i] on. *)
Fixpoint find_peer (peers : list bc_peer) (key : list Z) (n : nat) (i : Z)
    : res (option Z) :=
  match n with
  | O => Val None
  | S n' =>
      p ← arr_get peers i;
      c ← sodium_memcmp (peer_pubkey p) key BC_PUBKEY_SIZE;
      if bool_decide (c = 0) then Val (Some i) else find_peer peers key n' (i + 1)
  end.

(** The type of the C struct. *)
Definition peer_wf (p : bc_peer) : Prop :=
  bytes_n 32 (peer_pubkey p) /\ is_u64 (last_seen p) /\ - 2 ^ 7 <= rssi p < 2 ^ 7.

(** A peer table: a [BC_MAX_PEERS]-entry array whose first [n] entries are in
    use, with distinct keys. *)
Definition table_peers (ps : list bc_peer) (n : Z) : list bc_peer := take (Z.to_nat n) ps.

Definition peer_table_wf (ps : list bc_peer) (n : Z) : Prop :=
  zlen ps = BC_MAX_PEERS /\ 0 <= n <= BC_MAX_PEERS /\ Forall peer_wf ps /\
  NoDup (peer_pubkey <$> table_peers ps n).

Section peer_lemmas.
Context {W : Type} `{!HasOS W, !WorldInv W}.
Implicit Types w : W.

Lemma zero_peer_wf : peer_wf zero_peer.
Proof. apply (bool_decide_unpack _). by vm_compute. Qed.

Lemma peer_table_empty : peer_table_wf (replicate (Z.to_nat BC_MAX_PEERS) zero_peer) 0.
Proof.
  unfold peer_table_wf. split_and!; try done; [apply Forall_replicate, zero_peer_wf|apply NoDup_nil_2].
Qed.

(** A peer that is initialized has the given key and transport, was seen just
    now, and nothing of the caller's struct remains. *)
Lemma wp_peer_init p pk tr w (Q : option bc_peer -> W -> Prop) :
  bytes_n 32 pk ->
  (forall t w', balanced w w' -> clock_read w w' t -> peer_wf (mkPeer pk t tr 0) ->
     Q (Some (mkPeer pk t tr 0)) w') ->
  wp (bc_peer_init (Some p) (Some pk) tr) w Q.
Proof.
  intros Hpk HQ. unfold bc_peer_init. assert (Hl : zlen pk = 32) by (unfold zlen; by rewrite (proj1 Hpk)).
  apply wp_bind. eapply wp_lift; [apply mem_read_ok; unfold BC_PUBKEY_SIZE; lia|].
  apply wp_bind, wp_time. intros t w' Hb Ht. apply wp_ret.
  change (Z.to_nat 0) with 0%nat. rewrite drop_0, take_ge by (rewrite (proj1 Hpk); done).
  apply HQ; [done|done|]. split; [done|]. split; [by eapply clock_read_u64|cbn; lia].
Qed.

Lemma wp_peer_touch p w (Q : option bc_peer -> W -> Prop) :
  (forall t w', balanced w w' -> clock_read w w' t ->
     Q (Some (mkPeer (peer_pubkey p) t (peer_transport p) (rssi p))) w') ->
  wp (bc_peer_touch (Some p)) w Q.
Proof.
  intros HQ. unfold bc_peer_touch. apply wp_bind, wp_time. intros t w' Hb Ht.
  by apply wp_ret, HQ.
Qed.

Lemma quiet_peer_touch o : quiet (bc_peer_touch (W := W) o).
Proof. unfold bc_peer_touch. solve_quiet. Qed.
End peer_lemmas.

Lemma find_peer_spec ps key n i :
  Forall peer_wf ps -> bytes_n 32 key -> 0 <= i -> i + Z.of_nat n <= zlen ps ->
  exists o, find_peer ps key n i = Val o /\
    match o with
    | Some j => i <= j < i + Z.of_nat n /\
        exists q, ps !! Z.to_nat j = Some q /\ peer_pubkey q = key
    | None => forall j q, i <= j < i + Z.of_nat n -> ps !! Z.to_nat j = Some q ->
        peer_pubkey q <> key
    end.
Proof.
  intros Hall Hk. revert i. induction n as [|n IH]; intros i Hi Hn; cbn [find_peer].
  - exists None. split; [done|]. intros j q Hj. lia.
  - destruct (arr_get_in_range ps i) as (p & Hp & ->); [lia|]. cbn [mbind res_bind].
    assert (Hpw : bytes_n 32 (peer_pubkey p)) by apply (Forall_lookup_1 _ _ _ _ Hall Hp).
    change BC_PUBKEY_SIZE with (Z.of_nat 32).
    rewrite memcmp_eq by (apply Hpw || apply Hk). cbn [mbind res_bind].
    rewrite memcmp_zero. case_bool_decide as He.
    + exists (Some i). split; [done|]. split; [lia|]. by exists p.
    + destruct (IH (i + 1)) as (o & Ho & Hspec); [lia|lia|].
      exists o. split; [done|]. destruct o as [j|].
      * destruct Hspec as [Hj Hq]. split; [lia|done].
      * intros j q Hj Hq. destruct (decide (j = i)) as [->|]; [congruence|].
        apply (Hspec j q); [lia|done].
Qed.

(** ** Lemmas: the peer table *)

Lemma table_peers_lookup ps n i q :
  table_peers ps n !! i = Some q <-> ps !! i = Some q /\ (i < Z.to_nat n)%nat.
Proof. apply lookup_take_Some. Qed.

Lemma table_peers_length ps n : peer_table_wf ps n -> zlen (table_peers ps n) = n.
Proof. intros (Hl & Hc & _). unfold table_peers. zlen_lia. Qed.

Lemma peer_table_find ps n key :
  peer_table_wf ps n -> bytes_n 32 key ->
  exists o, find_peer ps key (Z.to_nat n) 0 = Val o /\
    match o with
    | Some j => 0 <= j < n /\ exists q, table_peers ps n !! Z.to_nat j = Some q /\ peer_pubkey q = key
    | None => key ∉ peer_pubkey <$> table_peers ps n
    end.
Proof.
  intros (Hl & Hc & Hall & _) Hk.
  destruct (find_peer_spec ps key (Z.to_nat n) 0) as (o & Ho & Hspec); [done|done|lia|lia|].
  exists o. split; [done|]. destruct o as [j|].
  - destruct Hspec as [Hj (q & Hq & Hqk)]. split; [lia|]. exists q. split; [|done].
    apply table_peers_lookup. split; [done|lia].
  - intros (q & Hq & Hin)%list_elem_of_fmap. apply list_elem_of_lookup in Hin as [j Hj].
    apply table_peers_lookup in Hj as [Hj Hlt].
    apply (Hspec (Z.of_nat j) q); [lia|by rewrite Nat2Z.id|done].
Qed.

(** Overwriting the entry of a known key keeps the table well-formed. *)
Lemma peer_table_update ps n i q p :
  peer_table_wf ps n -> peer_wf p -> table_peers ps n !! i = Some q ->
  peer_pubkey q = peer_pubkey p ->
  peer_table_wf (<[i := p]> ps) n /\
  table_peers (<[i := p]> ps) n = <[i := p]> (table_peers ps n).
Proof.
  intros (Hlen & Hc & Hall & Hnd) Hp Hi Hq.
  assert (Hkn : table_peers (<[i := p]> ps) n = <[i := p]> (table_peers ps n))
    by (apply table_peers_lookup in Hi as [_ Hi]; unfold table_peers; by rewrite take_insert_lt).
  split; [|done]. unfold peer_table_wf. rewrite Hkn.
  split_and!; [zlen_lia|lia|lia|by apply Forall_insert|].
  rewrite list_fmap_insert, <- Hq, list_insert_id; [done|].
  by rewrite list_lookup_fmap, Hi.
Qed.

(** Appending an unknown key, while there is room, does too. *)
Lemma peer_table_append ps n p :
  peer_table_wf ps n -> peer_wf p -> peer_pubkey p ∉ peer_pubkey <$> table_peers ps n ->
  n < BC_MAX_PEERS ->
  peer_table_wf (<[Z.to_nat n := p]> ps) (n + 1) /\
  table_peers (<[Z.to_nat n := p]> ps) (n + 1) = table_peers ps n ++ [p].
Proof.
  intros (Hlen & Hc & Hall & Hnd) Hp Hnew Hroom.
  assert (Hkn : table_peers (<[Z.to_nat n := p]> ps) (n + 1) = table_peers ps n ++ [p]).
  { unfold table_peers. replace (Z.to_nat (n + 1)) with (S (Z.to_nat n)) by lia.
    erewrite take_S_r; [|apply list_lookup_insert_eq; zlen_lia].
    by rewrite take_insert_ge by lia. }
  split; [|done]. unfold peer_table_wf. rewrite Hkn.
  split_and!; [zlen_lia|lia|lia|by apply Forall_insert|].
  rewrite fmap_app. cbn. apply NoDup_app. split_and!; [done| |apply NoDup_singleton].
  intros x Hx Hx'. apply list_elem_of_singleton in Hx' as ->. done.
Qed.

(** Changing the entry of a key in a list of distinct keys. *)
Lemma fmap_entry (f : bc_peer -> bc_peer) (ps : list bc_peer) (i : nat) q key :
  NoDup (peer_pubkey <$> ps) -> ps !! i = Some q -> peer_pubkey q = key ->
  ((fun q => if bool_decide (peer_pubkey q = key) then f q else q) <$> ps) = <[i := f q]> ps.
Proof.
  intros Hnd Hi Hq. apply list_eq. intros j. rewrite list_lookup_fmap.
  destruct (decide (j = i)) as [->|Hne].
  - rewrite Hi, list_lookup_insert_eq by by eapply lookup_lt_Some.
    cbn. by rewrite bool_decide_eq_true_2.
  - rewrite list_lookup_insert_ne by done.
    destruct (ps !! j) as [q'|] eqn:Hj; [|done]. cbn.
    rewrite bool_decide_eq_false_2; [done|]. intros He. apply Hne.
    eapply (NoDup_lookup (peer_pubkey <$> ps)); [done| |].
    + by rewrite list_lookup_fmap, Hj.
    + rewrite list_lookup_fmap, Hi. cbn. congruence.
Qed.
