(* ===== verification/Ports.v ===== *)
(** * Ports: the transport and storage vtables

    Models [include/bitchat/port/transport.h] and [include/bitchat/port/storage.h].
    A vtable is a record of optional functions ([None] is a NULL function
    pointer); [self] and its private context are whatever part of the world the
    functions close over.  An out parameter is returned with the result code.

    [TransportSafe] and [StorageSafe] are the promises the use-case layer needs
    from an adapter to be memory safe: calls are defined, do not touch the
    caller's blocks, and hand over what they allocate. *)
From S2P Require Import Prelude Effects Errors Message Peer.

Record bc_transport (W : Type) : Type := mkTransport {
  t_init : option (M W Z);
  (* peer_pubkey, data, len *)
  t_send : option (list Z -> list Z -> Z -> M W Z);
  (* buf, buf_len, *out_len, peer_pubkey_out: the code and the three cells *)
  t_recv : option (list Z -> Z -> Z -> list Z -> M W (Z * (list Z * Z * list Z)));
  (* peers_out, max_peers, *found: the code and the two cells *)
  t_discover_peers : option (list bc_peer -> Z -> Z -> M W (Z * (list bc_peer * Z)));
  t_destroy : option (M W unit)
}.
Arguments mkTransport {W}.
Arguments t_init {W}.
Arguments t_send {W}.
Arguments t_recv {W}.
Arguments t_discover_peers {W}.
Arguments t_destroy {W}.

(** The array [get_pending] returns: NULL or a block of message pointers. *)
Definition msg_array : Type := option (box (list (box bc_message))).

Record bc_storage (W : Type) : Type := mkStorage {
  s_store_message : option (bc_message -> M W Z);
  (* peer_pubkey (NULL for all): the code, *msgs_out and *count *)
  s_get_pending : option (option (list Z) -> M W (Z * (msg_array * Z)));
  s_delete_message : option (list Z -> M W Z);
  s_evict_expired : option (Z -> M W Z);
  s_destroy : option (M W unit)
}.
Arguments mkStorage {W}.
Arguments s_store_message {W}.
Arguments s_get_pending {W}.
Arguments s_delete_message {W}.
Arguments s_evict_expired {W}.
Arguments s_destroy {W}.

(** ** Ownership of a returned array *)

Definition blocks_of (l : list (box bc_message)) : gset blk := ⋃ (msg_blocks <$> l).

Definition array_blocks (arr : msg_array) : gset blk :=
  match arr with
  | None => ∅
  | Some a => {[addr a]} ∪ blocks_of (contents a)
  end.

(** Well-formed messages, no two of which share a block. *)
Fixpoint separate (l : list (box bc_message)) : Prop :=
  match l with
  | [] => True
  | b :: l' =>
      message_wf (contents b) /\ msg_blocks_distinct b /\
      msg_blocks b ## blocks_of l' /\ separate l'
  end.

Definition array_wf (arr : msg_array) (count : Z) : Prop :=
  match arr with
  | None => count = 0
  | Some a => count = zlen (contents a) /\ separate (contents a) /\
              addr a ∉ blocks_of (contents a)
  end.

(** The packets an array of messages stands for. *)
Definition array_packets (arr : msg_array) : list packet :=
  match arr with
  | None => []
  | Some a => (fun b => msg_packet (contents b)) <$> contents a
  end.

(** ** What the use-case layer relies on *)

Section contracts.
Context {W : Type} `{!HasOS W, !WorldInv W}.

Class TransportSafe (t : bc_transport W) : Prop := {
  send_safe : forall send pk data len w,
    t_send t = Some send -> heap_ok w -> len = zlen data ->
    wp (send pk data len) w (fun _ w' => balanced w w');
  recv_safe : forall recv buf len out pk w,
    t_recv t = Some recv -> heap_ok w -> bytes_ok buf -> len = zlen buf ->
    wp (recv buf len out pk) w (fun '(rc, (buf', out', pk')) w' =>
      balanced w w' /\ bytes_ok buf' /\ zlen buf' = len /\
      (rc = BC_OK -> 0 <= out' <= len /\ (0 < out' -> (inbound w' < inbound w)%nat)));
  discover_safe : forall disc arr max n w,
    t_discover_peers t = Some disc -> heap_ok w -> max = zlen arr -> Forall peer_wf arr ->
    wp (disc arr max n) w (fun '(rc, (arr', n')) w' =>
      balanced w w' /\ zlen arr' = max /\ Forall peer_wf arr' /\
      (rc = BC_OK -> 0 <= n' <= max))
}.

(** In a world that keeps its invariant, the network delivers no packet with an
    overflowing length field. *)
Class TransportBenign (t : bc_transport W) : Prop :=
  recv_benign : forall recv buf len out pk w buf' out' pk' w',
    t_recv t = Some recv -> world_ok w -> len = zlen buf ->
    recv buf len out pk w = Val ((BC_OK, (buf', out', pk')), w') ->
    length_field_safe buf' out'.

Class StorageSafe (s : bc_storage W) : Prop := {
  store_safe : forall f m w,
    s_store_message s = Some f -> heap_ok w -> message_wf m -> payload_len m < 2 ^ 31 ->
    wp (f m) w (fun _ w' => balanced w w');
  get_pending_safe : forall f pk w,
    s_get_pending s = Some f -> heap_ok w ->
    (forall k, pk = Some k -> bytes_n 32 k) ->
    wp (f pk) w (fun '(rc, (arr, count)) w' =>
      if bool_decide (rc = BC_OK)
      then acquired (array_blocks arr) w w' /\ array_wf arr count
      else balanced w w');
  delete_safe : forall f u w,
    s_delete_message s = Some f -> heap_ok w -> bytes_n 16 u ->
    wp (f u) w (fun _ w' => balanced w w');
  evict_safe : forall f age w,
    s_evict_expired s = Some f -> heap_ok w ->
    wp (f age) w (fun _ w' => balanced w w')
}.
End contracts.
