(* ===== verification/Sockets.v ===== *)
(** * Sockets: the POSIX datagram calls

    What [src/infra/transport_udp_sim.c] uses of the sockets API.  The network
    is an oracle: [n_queue] lists every datagram it will ever deliver to the
    node's ports, in order, and the answers of [socket], [bind] and [sendto]
    are functions of the number of calls made so far.  [n_sent] logs what the
    kernel accepted for sending. *)
From S2P Require Import Prelude Effects.

Record net : Type := mkNet {
  n_socks : gmap Z (option Z);      (* open descriptors and their bound port *)
  n_next_fd : nat;                  (* the next descriptor *)
  n_queue : list (Z * list Z);      (* destination port, bytes *)
  n_sent : list (Z * list Z);       (* destination port, bytes *)
  n_can_open : nat -> bool;
  n_can_bind : nat -> bool;
  n_can_send : nat -> bool;
  n_calls : nat
}.

(** A world with sockets: the datagrams still to come bound [inbound]. *)
Class HasNet (W : Type) `{!HasOS W} : Type := {
  get_net : W -> net;
  set_net : net -> W -> W;
  get_set_net : forall n w, get_net (set_net n w) = n;
  get_os_set_net : forall n w, get_os (set_net n w) = get_os w;
  get_net_set_os : forall o w, get_net (set_os o w) = get_net w;
  inbound_net : forall w, inbound w = length (n_queue (get_net w))
}.

(** The open sockets. *)
Definition socks {W} `{!HasOS W, !HasNet W} (w : W) : gmap Z (option Z) := n_socks (get_net w).

(** The world's invariant survives sending and receiving, which open and close
    no socket and add no datagram to those still to come. *)
Class NetWorld (W : Type) `{!HasOS W, !WorldInv W, !HasNet W} : Prop := {
  net_world_set : forall n w, n_queue n ⊆ n_queue (get_net w) -> n_socks n = socks w ->
    world_ok w -> world_ok (set_net n w);
  held_set_net : forall n w, held (set_net n w) = held w;
  evolves_set_net : forall n w, evolves w (set_net n w)
}.

(** Besides, it does not constrain the sockets. *)
Class NetFree (W : Type) `{!HasOS W, !WorldInv W, !HasNet W} : Prop := {
  #[global] net_free_world :: NetWorld W;
  world_ok_set_net : forall n w, n_queue n ⊆ n_queue (get_net w) ->
    world_ok w -> world_ok (set_net n w)
}.

(** The first datagram for a port, and the queue without it. *)
Fixpoint take_datagram (port : Z) (q : list (Z * list Z))
    : option (list Z * list (Z * list Z)) :=
  match q with
  | [] => None
  | (p, d) :: q' =>
      if bool_decide (p = port) then Some (d, q')
      else '(d', q'') ← take_datagram port q'; Some (d', (p, d) :: q'')
  end.

(** Other datagrams still to come. *)
Definition set_queue (q : list (Z * list Z)) (n : net) : net :=
  mkNet (n_socks n) (n_next_fd n) q (n_sent n) (n_can_open n) (n_can_bind n) (n_can_send n) (n_calls n).

Section sockets.
Context {W : Type} `{!HasOS W, !HasNet W}.

(** [socket(AF_INET, SOCK_DGRAM, 0)]: a descriptor or -1. *)
Definition c_socket : M W Z := fun w =>
  let n := get_net w in
  let fd := Z.of_nat (n_next_fd n) in
  if n_can_open n (n_calls n)
  then Val (fd, set_net (mkNet (<[fd := None]> (n_socks n)) (S (n_next_fd n)) (n_queue n)
                   (n_sent n) (n_can_open n) (n_can_bind n) (n_can_send n) (S (n_calls n))) w)
  else Val (-1, set_net (mkNet (n_socks n) (n_next_fd n) (n_queue n) (n_sent n)
                   (n_can_open n) (n_can_bind n) (n_can_send n) (S (n_calls n))) w).

(** [bind(fd, 127.0.0.1:port)]: 0 or -1. *)
Definition c_bind (fd port : Z) : M W Z := fun w =>
  let n := get_net w in
  if n_can_bind n (n_calls n) && bool_decide (is_Some (n_socks n !! fd))
  then Val (0, set_net (mkNet (<[fd := Some port]> (n_socks n)) (n_next_fd n) (n_queue n)
                   (n_sent n) (n_can_open n) (n_can_bind n) (n_can_send n) (S (n_calls n))) w)
  else Val (-1, set_net (mkNet (n_socks n) (n_next_fd n) (n_queue n) (n_sent n)
                   (n_can_open n) (n_can_bind n) (n_can_send n) (S (n_calls n))) w).

Definition c_close (fd : Z) : M W unit := fun w =>
  let n := get_net w in
  Val (tt, set_net (mkNet (delete fd (n_socks n)) (n_next_fd n) (n_queue n) (n_sent n)
              (n_can_open n) (n_can_bind n) (n_can_send n) (n_calls n)) w).

(** [sendto(fd, data, len, 0, 127.0.0.1:port)]: a datagram is sent whole, and
    [len] is returned, or -1. *)
Definition c_sendto (fd : Z) (data : list Z) (len port : Z) : M W Z := fun w =>
  let n := get_net w in
  match mem_read data 0 len with
  | Val d =>
      if n_can_send n (n_calls n) && bool_decide (is_Some (n_socks n !! fd))
      then Val (to_i64 len,
             set_net (mkNet (n_socks n) (n_next_fd n) (n_queue n) (n_sent n ++ [(port, d)])
                (n_can_open n) (n_can_bind n) (n_can_send n) (S (n_calls n))) w)
      else Val (-1,
             set_net (mkNet (n_socks n) (n_next_fd n) (n_queue n) (n_sent n)
                (n_can_open n) (n_can_bind n) (n_can_send n) (S (n_calls n))) w)
  | UB => UB
  | NoFuel => NoFuel
  end.

(** [recvfrom(fd, buf, len, MSG_DONTWAIT)]: the first datagram for the bound
    port, truncated to [len] bytes, or -1 when there is none. *)
Definition c_recvfrom (fd : Z) (buf : list Z) (len : Z) : M W (Z * list Z) := fun w =>
  let n := get_net w in
  match mjoin (n_socks n !! fd) ≫= fun port => take_datagram port (n_queue n) with
  | None => Val ((-1, buf), w)
  | Some (d, q) =>
      let d := take (Z.to_nat len) (map to_u8 d) in
      match mem_write buf 0 d with
      | Val buf' =>
          Val ((zlen d, buf'),
               set_net (set_queue q n) w)
      | UB => UB
      | NoFuel => NoFuel
      end
  end.
End sockets.

(** ** Rules *)

Lemma take_datagram_length port q d q' :
  take_datagram port q = Some (d, q') -> length q = S (length q').
Proof.
  revert d q'. induction q as [|[p d0] q IH]; intros d q'; cbn; [done|].
  case_bool_decide; [by intros [= <- <-]|].
  destruct (take_datagram port q) as [[d1 q1]|] eqn:He; cbn; [|done].
  intros [= <- <-]. cbn. by rewrite (IH _ _ eq_refl).
Qed.

Lemma take_datagram_subseteq port q d q' :
  take_datagram port q = Some (d, q') -> q' ⊆ q /\ (port, d) ∈ q.
Proof.
  revert d q'. induction q as [|[p d0] q IH]; intros d q'; cbn; [done|].
  case_bool_decide as Hp; [subst p; intros [= <- <-]; set_solver|].
  destruct (take_datagram port q) as [[d1 q1]|] eqn:He; cbn; [|done].
  intros [= <- <-]. destruct (IH _ _ eq_refl). set_solver.
Qed.

Section use_rules.
Context {W : Type} `{!HasOS W, !WorldInv W, !HasNet W, !NetWorld W}.
Implicit Types w : W.

(** Using the network is invisible to the heap. *)
Lemma set_net_used n w :
  n_queue n ⊆ n_queue (get_net w) -> n_socks n = socks w ->
  (length (n_queue n) <= length (n_queue (get_net w)))%nat -> balanced w (set_net n w).
Proof.
  intros Hs Hk Hq. apply same_os_balanced; [apply get_os_set_net| |apply held_set_net|
    apply evolves_set_net|by apply net_world_set].
  by rewrite !inbound_net, get_set_net.
Qed.

Lemma wp_sendto fd data port w (Q : Z -> W -> Prop) :
  (forall rc w', balanced w w' -> Q rc w') -> wp (c_sendto fd data (zlen data) port) w Q.
Proof.
  intros HQ. unfold wp, c_sendto. rewrite mem_read_ok by zlen_lia.
  destruct (_ && _); apply HQ, set_net_used; done.
Qed.

Lemma wp_recvfrom fd buf len w (Q : Z * list Z -> W -> Prop) :
  bytes_ok buf -> len = zlen buf ->
  (forall w', balanced w w' -> Q (-1, buf) w') ->
  (forall n buf' w', balanced w w' -> bytes_ok buf' -> zlen buf' = len -> 0 <= n <= len ->
     (inbound w' < inbound w)%nat -> Q (n, buf') w') ->
  wp (c_recvfrom fd buf len) w Q.
Proof.
  intros Hok -> HN HS. unfold wp, c_recvfrom.
  destruct (mjoin _ ≫= _) as [[d q]|] eqn:Hq; [|by apply HN].
  apply bind_Some in Hq as (port & _ & Hq).
  destruct (take_datagram_subseteq _ _ _ _ Hq) as [Hsub _]. apply take_datagram_length in Hq.
  rewrite mem_write_ok by zlen_lia. apply HS.
  - apply set_net_used; cbn; [done|done|lia].
  - rewrite !bytes_ok_app. split_and!; auto with bitchat.
    apply bytes_ok_take, Forall_map, Forall_true. intros; apply to_u8_range.
  - zlen_lia.
  - zlen_lia.
  - rewrite !inbound_net, get_set_net. cbn. lia.
Qed.
End use_rules.

Section socket_rules.
Context {W : Type} `{!HasOS W, !WorldInv W, !HasNet W, !NetFree W}.
Implicit Types w : W.

(** Opening and closing sockets is invisible to the heap. *)
Lemma set_net_balanced n w :
  n_queue n = n_queue (get_net w) -> balanced w (set_net n w).
Proof.
  intros Hq. apply same_os_balanced; [apply get_os_set_net| |apply held_set_net|
    apply evolves_set_net|apply world_ok_set_net; by rewrite Hq].
  by rewrite !inbound_net, get_set_net, Hq.
Qed.

(** Descriptors are handed out in order, so a new one is fresh. *)
Definition fds_ok w : Prop :=
  forall fd, is_Some (n_socks (get_net w) !! fd) -> 0 <= fd < Z.of_nat (n_next_fd (get_net w)).

Lemma wp_socket w (Q : Z -> W -> Prop) :
  fds_ok w ->
  (forall w', balanced w w' -> socks w' = socks w -> Q (-1) w') ->
  (forall fd w', balanced w w' -> 0 <= fd -> socks w !! fd = None ->
     socks w' = <[fd := None]> (socks w) -> Q fd w') ->
  wp c_socket w Q.
Proof.
  intros Hok HN HS. unfold wp, c_socket. destruct (n_can_open _ _).
  - apply HS; [by apply set_net_balanced|lia| |unfold socks; by rewrite get_set_net].
    destruct (socks w !! _) eqn:He; [|done].
    specialize (Hok (Z.of_nat (n_next_fd (get_net w))) (mk_is_Some _ _ He)). lia.
  - apply HN; [by apply set_net_balanced|]. unfold socks. by rewrite get_set_net.
Qed.

Lemma wp_bind_socket fd port w (Q : Z -> W -> Prop) :
  (forall w', balanced w w' -> socks w' = socks w -> Q (-1) w') ->
  (forall w', balanced w w' -> socks w' = <[fd := Some port]> (socks w) -> Q 0 w') ->
  wp (c_bind fd port) w Q.
Proof.
  intros HN HS. unfold wp, c_bind. destruct (_ && _).
  - apply HS; [by apply set_net_balanced|]. unfold socks. by rewrite get_set_net.
  - apply HN; [by apply set_net_balanced|]. unfold socks. by rewrite get_set_net.
Qed.

Lemma wp_close fd w (Q : unit -> W -> Prop) :
  (forall w', balanced w w' -> socks w' = delete fd (socks w) -> Q tt w') ->
  wp (c_close fd) w Q.
Proof.
  intros HQ. unfold wp, c_close. apply HQ; [by apply set_net_balanced|].
  unfold socks. by rewrite get_set_net.
Qed.

Lemma wp_alloc_net w (Q : option blk -> W -> Prop) :
  heap_ok w ->
  (forall w', ~ never_oom w -> balanced w w' -> get_net w' = get_net w -> Q None w') ->
  (forall b w', acquired {[b]} w w' -> get_net w' = get_net w -> Q (Some b) w') ->
  wp c_alloc w Q.
Proof.
  intros Hok HN HS. apply (wp_frame get_net); [apply untouched_alloc, get_net_set_os|].
  apply wp_alloc; [done|by intros; apply HN|by intros; apply HS].
Qed.

Lemma wp_free_net b bs w0 w (Q : unit -> W -> Prop) :
  acquired bs w0 w -> b ∈ bs ->
  (forall w', later w w' -> acquired (bs ∖ {[b]}) w0 w' -> get_net w' = get_net w -> Q tt w') ->
  wp (c_free (Some b)) w Q.
Proof.
  intros Ha Hb HQ. apply (wp_frame get_net); [apply untouched_free, get_net_set_os|].
  eapply wp_free_acquired; [done|done|]. by intros; apply HQ.
Qed.
End socket_rules.
