(* ===== verification/World.v ===== *)
(** * World: a concrete world

    The run-time, the network and the state [X] of whatever else a program uses
    (the database, the globals of the bridge).  It is the world the closed
    examples run in, and it shows that the classes the other files assume of a
    world can be met together. *)
From S2P Require Import Prelude Effects Message Sockets.

Record world (X : Type) : Type := mkWorld { w_os : os; w_net : net; w_ext : X }.
Arguments mkWorld {X}.
Arguments w_os {X}.
Arguments w_net {X}.
Arguments w_ext {X}.

(** What the rest of the state keeps true, the blocks it holds and how it may
    evolve. *)
Class ExtInv (X : Type) : Type := {
  ext_ok : X -> Prop;
  ext_held : X -> gset blk;
  ext_evolves : relation X;
  #[global] ext_preorder :: PreOrder ext_evolves
}.

(** A state that holds no block and may change at will. *)
Program Definition free_inv {X} (P : X -> Prop) : ExtInv X :=
  {| ext_ok := P; ext_held := fun _ => ∅; ext_evolves := fun _ _ => True |}.
Solve All Obligations with by split.

(** A datagram whose length field does not overflow the parser's bounds test. *)
Definition benign (d : list Z) : Prop :=
  zlen d < BC_MESSAGE_HEADER_SIZE \/
  BC_MESSAGE_HEADER_SIZE + length_field (map to_u8 d) < 2 ^ 32.

#[export] Program Instance world_HasOS X : HasOS (world X) :=
  {| get_os := w_os; set_os := fun o w => mkWorld o (w_net w) (w_ext w);
     inbound := fun w => length (n_queue (w_net w)) |}.
Solve All Obligations with by intros; destruct_and?; repeat match goal with w : world _ |- _ => destruct w end.

#[export] Program Instance world_HasNet X : HasNet (world X) :=
  {| get_net := w_net; set_net := fun n w => mkWorld (w_os w) n (w_ext w) |}.
Solve All Obligations with done.

(** The network only carries benign datagrams, and the rest is in order. *)
#[export] Program Instance world_inv X `{!ExtInv X} : WorldInv (world X) :=
  {| world_ok := fun w => Forall (fun pd => benign pd.2) (n_queue (w_net w)) /\ ext_ok (w_ext w);
     held := fun w => ext_held (w_ext w);
     evolves := fun w w' => ext_evolves (w_ext w) (w_ext w') |}.
Next Obligation. intros X ?. split; [by intros w|intros w1 w2 w3; apply transitivity]. Qed.
Next Obligation. done. Qed.
Next Obligation. done. Qed.
Next Obligation. intros X ? o w. cbn. reflexivity. Qed.

#[export] Instance world_NetFree X `{!ExtInv X} : NetFree (world X).
Proof.
  assert (Hset : forall n (w : world X), n_queue n ⊆ n_queue (get_net w) ->
    world_ok w -> world_ok (set_net n w)).
  { intros n w Hsub [Hq He]. split; [|done]. cbn in *. apply Forall_forall.
    intros x Hx. by apply (proj1 (Forall_forall _ _) Hq), Hsub. }
  split; [split|done]; [by auto|done|intros n w; cbn; reflexivity].
Qed.

#[export] Instance unit_ext : ExtInv unit := free_inv (fun _ => True).

(** A network on which every call succeeds and [q] arrives; descriptor 3 is
    bound to port 9000. *)
Definition demo_net (q : list (Z * list Z)) : net :=
  mkNet {[3 := Some 9000]} 4 q [] (fun _ => true) (fun _ => true) (fun _ => true) 0.

Definition demo_world {X} (t0 : Z) (q : list (Z * list Z)) (x : X) : world X :=
  mkWorld (demo_os t0) (demo_net q) x.

Lemma demo_world_ok {X} `{!ExtInv X} t0 q (x : X) :
  Forall (fun pd => benign pd.2) q -> ext_ok x -> ext_held x = ∅ ->
  heap_ok (demo_world t0 q x) /\ never_oom (demo_world t0 q x) /\ fds_ok (demo_world t0 q x).
Proof.
  intros Hq Hx Hh. destruct (demo_os_ok t0) as ((_ & _ & Hc) & _).
  split; [split; [split; [intros b Hb; set_solver|cbn; by rewrite Hh]|done]|].
  split; [done|].
  intros fd [? Hfd]. cbn in Hfd. apply lookup_singleton_Some in Hfd as [<- _]. cbn. lia.
Qed.
