(* ===== verification/UdpTransport.v ===== *)
(** * UdpTransport: the UDP adapter of the transport port

    Models [src/infra/transport_udp_sim.c].  The private context is an owned
    heap object; [udp_transport] is the vtable [bc_transport_udp_create] builds
    over it.  The adapter keeps the contract of [Ports], so the
    router's theorems apply to it. *)
From S2P Require Import Prelude Effects Errors Message Peer Ports Sockets World.

Record udp_ctx : Type := mkUdpCtx {
  sockfd : Z;
  my_port : Z;
  peer_ports : option (box (list Z));
  udp_peer_count : Z
}.

Section udp.
Context {W : Type} `{!HasOS W, !HasNet W}.

Definition udp_init : M W Z := mret BC_OK.

(** The element [ctx->peer_ports[i]]. *)
Definition peer_port (ctx : udp_ctx) (i : Z) : res Z :=
  match peer_ports ctx with None => UB | Some ports => arr_get (contents ports) i end.

(** The loop of [udp_send]: [n] ports from index [i] on. *)
Fixpoint udp_send_loop (ctx : udp_ctx) (data : list Z) (len : Z) (n : nat)
    (i sent_any : Z) : M W Z :=
  match n with
  | O => mret sent_any
  | S n' =>
      port ← lift (peer_port ctx i);
      k ← c_sendto (sockfd ctx) data len port;
      udp_send_loop ctx data len n' (i + 1)
        (if bool_decide (k = to_i64 len) then 1 else sent_any)
  end.

Definition udp_send (ctx : udp_ctx) (peer_pubkey data : list Z) (len : Z) : M W Z :=
  if bool_decide (len = 0) then mret BC_ERR_INVALID else
  sent_any ← udp_send_loop ctx data len (Z.to_nat (udp_peer_count ctx)) 0 0;
  mret (if bool_decide (sent_any <> 0) then BC_OK else BC_ERR_TRANSPORT).

Definition udp_recv (ctx : udp_ctx) (buf : list Z) (buf_len out_len : Z)
    (peer_pubkey_out : list Z) : M W (Z * (list Z * Z * list Z)) :=
  '(n, buf) ← c_recvfrom (sockfd ctx) buf buf_len;
  if bool_decide (n <= 0) then mret (BC_ERR, (buf, 0, peer_pubkey_out)) else
  mret (BC_OK, (buf, to_u64 n, replicate (Z.to_nat BC_PUBKEY_SIZE) 0)).

(** The peer [udp_discover_peers] makes up for a port. *)
Definition synthetic_peer (port : Z) : bc_peer :=
  mkPeer (to_u8 (Z.land port 255) :: to_u8 (Z.land (Z.shiftr port 8) 255) :: replicate 30 0)
    0 BC_TRANSPORT_WIFI_DIRECT 0.

Fixpoint udp_discover_loop (ctx : udp_ctx) (peers_out : list bc_peer) (n : nat) (i : Z)
    : res (list bc_peer) :=
  match n with
  | O => Val peers_out
  | S n' =>
      port ← peer_port ctx i;
      peers_out ← arr_set peers_out i (synthetic_peer port);
      udp_discover_loop ctx peers_out n' (i + 1)
  end.

Definition udp_discover_peers (ctx : udp_ctx) (peers_out : list bc_peer)
    (max_peers found : Z) : M W (Z * (list bc_peer * Z)) :=
  let n := if bool_decide (udp_peer_count ctx > max_peers) then max_peers
           else udp_peer_count ctx in
  peers_out ← lift (udp_discover_loop ctx peers_out (Z.to_nat n) 0);
  mret (BC_OK, (peers_out, n)).

Definition udp_destroy (ctx : box udp_ctx) : M W unit :=
  (if bool_decide (sockfd (contents ctx) >= 0) then c_close (sockfd (contents ctx))
   else mret tt);;
  c_free (addr <$> peer_ports (contents ctx));;
  c_free (Some (addr ctx));;
  mret tt.

(** The vtable over a context. *)
Definition udp_transport (ctx : box udp_ctx) : bc_transport W :=
  mkTransport (Some udp_init) (Some (udp_send (contents ctx)))
    (Some (udp_recv (contents ctx))) (Some (udp_discover_peers (contents ctx)))
    (Some (udp_destroy ctx)).

(** [ctx->peer_ports] and [ctx->peer_count]: [None] when [malloc] fails. *)
Definition copy_ports (ports : option (list Z)) (peer_count : Z)
    : M W (option (option (box (list Z)) * Z)) :=
  match ports with
  | Some ports =>
      if bool_decide (peer_count > 0) then
        b ← c_alloc;
        match b with
        | None => mret None
        | Some b =>
            copy ← lift (mem_read ports 0 peer_count);
            mret (Some (Some (Box b copy), peer_count))
        end
      else mret (Some (None, 0))
  | None => mret (Some (None, 0))
  end.

Definition bc_transport_udp_create (my_port : Z) (ports : option (list Z))
    (peer_count : Z) : M W (option (box (bc_transport W))) :=
  ctx ← c_alloc;
  match ctx with
  | None => mret None
  | Some ctx =>
      copied ← copy_ports ports peer_count;
      match copied with
      | None => c_free (Some ctx);; mret None
      | Some (pp, count) =>
          fd ← c_socket;
          if bool_decide (fd < 0)
          then c_free (addr <$> pp);; c_free (Some ctx);; mret None else
          rc ← c_bind fd my_port;
          if bool_decide (rc < 0)
          then c_close fd;; c_free (addr <$> pp);; c_free (Some ctx);; mret None else
          t ← c_alloc;
          match t with
          | None => c_close fd;; c_free (addr <$> pp);; c_free (Some ctx);; mret None
          | Some t => mret (Some (Box t (udp_transport (Box ctx (mkUdpCtx fd my_port pp count)))))
          end
      end
  end.
End udp.

(** ** Specification *)

Definition ctx_ports (ctx : udp_ctx) : list Z :=
  match peer_ports ctx with None => [] | Some b => contents b end.

Definition udp_ctx_wf (ctx : udp_ctx) : Prop :=
  udp_peer_count ctx = zlen (ctx_ports ctx) /\ Forall (fun p => 0 <= p < 2 ^ 16) (ctx_ports ctx).

Definition ports_blocks (pp : option (box (list Z))) : gset blk :=
  match pp with None => ∅ | Some b => {[addr b]} end.

Definition udp_blocks (ctx : box udp_ctx) : gset blk :=
  {[addr ctx]} ∪ ports_blocks (peer_ports (contents ctx)).

(** What [bc_transport_udp_create] may return. *)
Definition udp_created {W} `{!HasOS W, !WorldInv W, !HasNet W} (port : Z) (ports : list Z)
    (w : W) (r : option (box (bc_transport W))) (w' : W) : Prop :=
  (r = None /\ balanced w w' /\ socks w' = socks w) \/
  (exists t ctx, r = Some (Box t (udp_transport ctx)) /\
     udp_ctx_wf (contents ctx) /\ ctx_ports (contents ctx) = ports /\
     my_port (contents ctx) = port /\ 0 <= sockfd (contents ctx) /\
     acquired ({[t]} ∪ udp_blocks ctx) w w' /\ (t ∉ udp_blocks ctx) /\
     (addr ctx ∉ ports_blocks (peer_ports (contents ctx))) /\
     socks w !! sockfd (contents ctx) = None /\
     socks w' = <[sockfd (contents ctx) := Some port]> (socks w)).

(** ** Lemmas *)

Lemma peer_port_ok ctx i :
  udp_ctx_wf ctx -> 0 <= i < udp_peer_count ctx ->
  exists p, ctx_ports ctx !! Z.to_nat i = Some p /\ peer_port ctx i = Val p.
Proof.
  unfold udp_ctx_wf, ctx_ports, peer_port. intros [Hc _] Hi.
  destruct (peer_ports ctx) as [b|]; [|zlen_lia].
  apply arr_get_in_range. lia.
Qed.

Lemma synthetic_peer_wf port : peer_wf (synthetic_peer port).
Proof.
  unfold peer_wf, synthetic_peer. cbn [peer_pubkey last_seen rssi]. split; [|done].
  split; [done|]. constructor; [apply to_u8_range|]. constructor; [apply to_u8_range|].
  apply (bytes_ok_replicate 30 0). done.
Qed.

(** The first two bytes of the key are the port, little-endian. *)
Lemma synthetic_key port :
  0 <= port < 2 ^ 16 ->
  take 2 (peer_pubkey (synthetic_peer port)) = [port mod 2 ^ 8; port / 2 ^ 8].
Proof.
  intros Hp. cbn. change 255 with (Z.ones 8). rewrite !Z.land_ones by lia.
  rewrite Z.shiftr_div_pow2 by lia. unfold to_u8. rewrite !Z.mod_mod by lia.
  rewrite (Z.mod_small (port / 2 ^ 8)); [done|].
  split; [apply Z.div_pos; lia|apply Z.div_lt_upper_bound; lia].
Qed.

Lemma synthetic_key_inj p q :
  0 <= p < 2 ^ 16 -> 0 <= q < 2 ^ 16 ->
  peer_pubkey (synthetic_peer p) = peer_pubkey (synthetic_peer q) -> p = q.
Proof.
  intros Hp Hq He. apply (f_equal (take 2)) in He.
  rewrite !synthetic_key in He by done. injection He as H1 H2.
  rewrite (Z.div_mod p (2 ^ 8)), (Z.div_mod q (2 ^ 8)) by lia. lia.
Qed.

Lemma udp_discover_loop_ok ctx done_ rest ports n :
  udp_ctx_wf ctx -> ports = drop (length done_) (ctx_ports ctx) ->
  (n <= length ports)%nat -> (n <= length rest)%nat ->
  udp_discover_loop ctx (done_ ++ rest) n (zlen done_) =
    Val (done_ ++ (synthetic_peer <$> take n ports) ++ drop n rest).
Proof.
  intros Hwf. revert done_ rest ports. induction n as [|n IH]; intros dn rest ports Hp Hn Hr;
    cbn [udp_discover_loop]; [by rewrite take_0|].
  destruct rest as [|q rest]; [cbn in Hr; lia|].
  destruct (peer_port_ok ctx (zlen dn)) as (p & Hlk & ->); [done| |].
  { destruct Hwf as [-> _]. subst ports. zlen_lia. }
  cbn [mbind res_bind]. rewrite arr_set_ok by zlen_lia. cbn [mbind res_bind].
  unfold zlen in *. rewrite Nat2Z.id in *.
  rewrite insert_app_r_alt, Nat.sub_diag by done. cbn [insert list_insert].
  assert (Hpp : ports = p :: drop (length (dn ++ [synthetic_peer p])) (ctx_ports ctx)).
  { rewrite Hp, length_app, Nat.add_comm. cbn. by apply drop_S. }
  replace (dn ++ synthetic_peer p :: rest) with ((dn ++ [synthetic_peer p]) ++ rest)
    by by rewrite <- (assoc_L (++)).
  replace (Z.of_nat (length dn) + 1) with (Z.of_nat (length (dn ++ [synthetic_peer p])))
    by (rewrite length_app; cbn; lia).
  rewrite (IH _ _ (drop (length (dn ++ [synthetic_peer p])) (ctx_ports ctx)));
    [|done|rewrite Hpp in Hn; cbn in Hn; lia|cbn in Hr; lia].
  rewrite Hpp. cbn. by rewrite <- (assoc_L (++)).
Qed.

Section udp_lemmas.
Context {W : Type} `{!HasOS W, !WorldInv W, !HasNet W, !NetWorld W}.
Implicit Types w : W.

Lemma wp_udp_send_loop ctx data n i any w :
  udp_ctx_wf ctx -> 0 <= i -> i + Z.of_nat n <= udp_peer_count ctx ->
  wp (udp_send_loop ctx data (zlen data) n i any) w (fun _ w' => balanced w w').
Proof.
  intros Hwf. revert i any w. induction n as [|n IH]; intros i any w Hi Hn; cbn [udp_send_loop].
  - apply wp_ret, balanced_refl.
  - destruct (peer_port_ok ctx i) as (p & _ & Hp); [done|lia|].
    apply wp_bind, (wp_lift _ _ _ _ Hp), wp_bind, wp_sendto. intros k w1 Hb.
    eapply wp_mono; [apply IH; lia|]. intros k' w2 Hb2. by eauto with bitchat.
Qed.

(** The adapter keeps the contract of the transport port. *)
Lemma udp_safe ctx : udp_ctx_wf (contents ctx) -> TransportSafe (udp_transport (W := W) ctx).
Proof.
  intros Hwf. assert (Hc : udp_peer_count (contents ctx) = zlen (ctx_ports (contents ctx)))
    by apply Hwf. assert (Hc0 := zlen_nonneg (ctx_ports (contents ctx))).
  split.
  - intros send pk data len w [= <-] Hok ->. unfold udp_send.
    case_bool_decide; [apply wp_ret, balanced_refl|].
    apply wp_bind. eapply wp_mono; [apply wp_udp_send_loop; [done|lia|lia]|].
    intros a w' Hb. by apply wp_ret.
  - intros recv buf len out pk w [= <-] Hok Hbuf Hlen. unfold udp_recv.
    apply wp_bind, wp_recvfrom; [done|done| |].
    + intros w' Hb. rewrite bool_decide_eq_true_2 by lia. by apply wp_ret.
    + intros n buf' w' Hb Hbuf' Hlen' Hn Hin. case_bool_decide.
      * by apply wp_ret.
      * apply wp_ret. split_and!; try done. intros _. split; [|done]. unfold to_u64.
        destruct (decide (n < 2 ^ 64)) as [Hs|Hs]; [rewrite Z.mod_small by lia; lia|].
        assert (Hm := Z.mod_pos_bound n (2 ^ 64) ltac:(lia)). lia.
  - intros disc arr max n w [= <-] Hok -> Harr. unfold udp_discover_peers. cbv zeta.
    set (k := if bool_decide _ then _ else _).
    assert (Hk : 0 <= k <= zlen arr /\ k <= udp_peer_count (contents ctx))
      by (unfold k; case_bool_decide; zlen_lia).
    apply wp_bind. eapply wp_lift.
    { apply (udp_discover_loop_ok (contents ctx) [] arr (ctx_ports (contents ctx)));
        [done|done|zlen_lia|zlen_lia]. }
    cbn [app]. apply wp_ret. split_and!.
    + apply balanced_refl.
    + unfold zlen. rewrite length_app, length_fmap. zlen_lia.
    + apply Forall_app. split; [|by apply Forall_drop].
      apply Forall_fmap, Forall_true. intros; apply synthetic_peer_wf.
    + lia.
Qed.

Lemma wp_free_ctx_of {A} pp ctx bs (a : A) w0 w (Q : A -> W -> Prop) :
  acquired bs w0 w -> {[ctx]} ∪ ports_blocks pp ⊆ bs -> ctx ∉ ports_blocks pp ->
  (forall w', acquired (bs ∖ ({[ctx]} ∪ ports_blocks pp)) w0 w' ->
     get_net w' = get_net w -> Q a w') ->
  wp (c_free (addr <$> pp);; c_free (Some ctx);; mret a) w Q.
Proof.
  intros Ha Hsub Hn HQ. apply wp_bind.
  assert (Hlast : forall w1, acquired (bs ∖ ports_blocks pp) w0 w1 -> get_net w1 = get_net w ->
    wp (c_free (Some ctx);; mret a) w1 Q).
  { intros w1 Ha1 Hs1. apply wp_bind. eapply wp_free_net; [done|set_solver|].
    intros w2 _ Ha2 Hs2. apply wp_ret, HQ; [|congruence].
    by replace (bs ∖ ({[ctx]} ∪ ports_blocks pp)) with (bs ∖ ports_blocks pp ∖ {[ctx]})
      by set_solver. }
  destruct pp as [b|]; cbn [fmap option_fmap option_map ports_blocks] in *.
  - eapply wp_free_net; [done|set_solver|]. intros w1 _ Ha1 Hs1. by apply Hlast.
  - apply wp_free_null, Hlast; [|done]. by replace (bs ∖ ∅) with bs by set_solver.
Qed.

Lemma wp_free_ctx {A} pp ctx (a : A) w0 w (Q : A -> W -> Prop) :
  acquired ({[ctx]} ∪ ports_blocks pp) w0 w -> ctx ∉ ports_blocks pp ->
  (forall w', balanced w0 w' -> get_net w' = get_net w -> Q a w') ->
  wp (c_free (addr <$> pp);; c_free (Some ctx);; mret a) w Q.
Proof.
  intros Ha Hn HQ. eapply wp_free_ctx_of; [done|done|done|]. intros w1 Ha1.
  rewrite difference_diag_L in Ha1. by apply HQ, acquired_nil.
Qed.
End udp_lemmas.

Lemma length_field_front (l rest : list Z) n :
  (93 <= n)%nat -> (93 <= length (take n l))%nat ->
  length_field (take n l ++ rest) = length_field l.
Proof.
  intros Hn Hl. unfold length_field. f_equal.
  rewrite drop_app_le, take_app_le, skipn_firstn_comm, take_take by zlen_lia.
  f_equal. lia.
Qed.

Section udp_lemmas2.
Context {W : Type} `{!HasOS W, !WorldInv W, !HasNet W, !NetWorld W}.
Implicit Types w : W.

(** When the network only carries benign datagrams, so does the adapter. *)
Lemma udp_benign ctx :
  (forall w, world_ok w -> Forall (fun pd => benign pd.2) (n_queue (get_net w))) ->
  TransportBenign (udp_transport (W := W) ctx).
Proof.
  intros Hq recv buf len out pk w buf' out' pk' w' [= <-] Hok Hlen. unfold udp_recv.
  unfold mbind, M_bind, c_recvfrom.
  destruct (mjoin _ ≫= _) as [[d q]|] eqn:Hd; [|by cbn].
  apply bind_Some in Hd as (port & _ & Hd).
  destruct (take_datagram_subseteq _ _ _ _ Hd) as [_ Hin].
  apply (proj1 (Forall_forall _ _) (Hq w Hok)) in Hin. cbn in Hin.
  subst len. rewrite mem_write_ok by zlen_lia. cbv beta iota.
  set (d' := take _ (map to_u8 d)).
  case_bool_decide; [done|]. intros [= <- <- _ _]. cbn [Z.to_nat take app Nat.add].
  unfold length_field_safe. destruct (decide (BC_MESSAGE_HEADER_SIZE <= zlen d')) as [Hh|Hh].
  - assert (Hl : (length d' <= length d)%nat)
      by (unfold d'; rewrite length_take, length_map; lia).
    destruct Hin as [Hin|Hin]; [unfold zlen in *; lia|]. right. left.
    change BC_MESSAGE_HEADER_SIZE with 93 in *.
    unfold d', zlen in *. rewrite length_take in Hh.
    rewrite length_field_front; [done|lia|]. rewrite length_take. lia.
  - left. unfold to_u64. assert (Hm := Z.mod_le (zlen d') (2 ^ 64) ltac:(zlen_lia) ltac:(lia)). lia.
Qed.

End udp_lemmas2.

Section udp_lifecycle.
Context {W : Type} `{!HasOS W, !WorldInv W, !HasNet W, !NetFree W}.
Implicit Types w : W.

Lemma wp_copy_ports op ports w (Q : _ -> W -> Prop) :
  heap_ok w -> default [] op = ports ->
  (forall w', balanced w w' -> get_net w' = get_net w -> Q None w') ->
  (forall pp w', match pp with None => [] | Some b => contents b end = ports ->
     acquired (ports_blocks pp) w w' -> get_net w' = get_net w -> Q (Some (pp, zlen ports)) w') ->
  wp (copy_ports op (zlen ports)) w Q.
Proof.
  intros Hok Hp HN HS. destruct op as [l|]; cbn in Hp; subst.
  2: { apply wp_ret, (HS None); [done| |done]. apply acquired_nil, balanced_refl. }
  unfold copy_ports. case_bool_decide.
  - apply wp_bind, wp_alloc_net; [done|by intros; apply wp_ret, HN|].
    intros b w' Ha Hs. apply wp_bind. eapply wp_lift; [by apply mem_read_all|].
    by apply wp_ret, HS.
  - apply wp_ret. assert (ports = []) as -> by (destruct ports; [done|zlen_lia]).
    apply (HS None); [done| |done]. apply acquired_nil, balanced_refl.
Qed.

(** Every failure after the socket closes it and frees the context. *)
Lemma wp_udp_create_fails fd o pp ctx port ports w w1 :
  socks w !! fd = None -> ctx ∉ ports_blocks pp ->
  acquired ({[ctx]} ∪ ports_blocks pp) w w1 -> socks w1 = <[fd := o]> (socks w) ->
  wp (c_close fd;; c_free (addr <$> pp);; c_free (Some ctx);; mret None) w1
    (udp_created port ports w).
Proof.
  intros Hfresh Hnin Ha Hs. apply wp_bind, wp_close. intros w2 Hb2 Hs2.
  apply (wp_free_ctx pp ctx _ w); [by eauto with bitchat|done|].
  intros w3 Hb3 Hn3. left. split_and!; [done|done|]. unfold socks at 1. rewrite Hn3.
  fold (socks w2). by rewrite Hs2, Hs, delete_insert_id.
Qed.

Lemma wp_udp_create port op ports w :
  heap_ok w -> fds_ok w -> default [] op = ports -> Forall (fun p => 0 <= p < 2 ^ 16) ports ->
  wp (bc_transport_udp_create port op (zlen ports)) w (udp_created port ports w).
Proof.
  intros Hok Hfd Hop Hp. unfold bc_transport_udp_create, udp_created.
  apply wp_bind, wp_alloc_net; [done|intros w1 _ Hb Hn; apply wp_ret; left|].
  { unfold socks. by rewrite Hn. }
  intros ctx w1 Ha1 Hn1. apply wp_bind, wp_copy_ports; [by eauto with bitchat|done| |].
  { intros w2 Hb2 Hn2. apply wp_bind.
    eapply (wp_free_net ctx {[ctx]} w); [by eauto with bitchat|set_solver|].
    intros w3 _ Ha3 Hn3. rewrite difference_self in Ha3. apply acquired_nil in Ha3.
    apply wp_ret. left. unfold socks. split_and!; congruence. }
  intros pp w2 Hpp Ha2 Hn2. rewrite Hn1 in Hn2.
  assert (Hdis := acquired_disjoint _ _ _ _ _ Ha1 Ha2).
  assert (Ha12 := acquired_union _ _ _ _ _ Ha1 Ha2). rewrite (union_comm_L (ports_blocks pp)) in Ha12.
  assert (Hs2 : socks w2 = socks w) by (unfold socks; by rewrite Hn2).
  apply wp_bind, wp_socket; [unfold fds_ok; by rewrite Hn2| |].
  { intros w3 Hb3 Hs3. rewrite bool_decide_eq_true_2 by lia.
    apply (wp_free_ctx pp ctx _ w); [by eauto with bitchat|set_solver|].
    intros w4 Hb4 Hn4. left. unfold socks in *. split_and!; congruence. }
  intros fd w3 Hb3 Hfd0 Hfresh Hs3. rewrite bool_decide_eq_false_2 by lia.
  rewrite Hs2 in Hfresh, Hs3.
  apply wp_bind, wp_bind_socket.
  { intros w4 Hb4 Hs4. rewrite bool_decide_eq_true_2 by lia.
    apply (wp_udp_create_fails fd None); [done|set_solver|by eauto 6 with bitchat|congruence]. }
  intros w4 Hb4 Hs4. rewrite bool_decide_eq_false_2 by lia.
  rewrite Hs3, insert_insert_eq in Hs4.
  assert (Ha4 : acquired ({[ctx]} ∪ ports_blocks pp) w w4) by by eauto 6 with bitchat.
  apply wp_bind, wp_alloc_net; [by eauto with bitchat| |].
  { intros w5 _ Hb5 Hn5. apply (wp_udp_create_fails fd (Some port)); [done|set_solver|by eauto with bitchat|].
    unfold socks. by rewrite Hn5. }
  intros t w5 Ha5 Hn5. assert (Hd5 := acquired_disjoint _ _ _ _ _ Ha4 Ha5).
  apply wp_ret. right. exists t, (Box ctx (mkUdpCtx fd port pp (zlen ports))).
  unfold udp_ctx_wf, ctx_ports, udp_blocks. cbn [contents peer_ports udp_peer_count my_port sockfd addr].
  rewrite Hpp. split_and!; try done; [by eapply acquired_union|set_solver|set_solver|].
  unfold socks at 1. by rewrite Hn5.
Qed.

(** Destroying the adapter and the struct. *)
Lemma wp_udp_destroy t ctx w (Q : unit -> W -> Prop) :
  0 <= sockfd (contents ctx) -> {[t]} ∪ udp_blocks ctx ⊆ owned w -> (t ∉ udp_blocks ctx) ->
  (addr ctx ∉ ports_blocks (peer_ports (contents ctx))) ->
  (forall w', released ({[t]} ∪ udp_blocks ctx) w w' ->
     socks w' = delete (sockfd (contents ctx)) (socks w) -> Q tt w') ->
  wp (udp_destroy ctx;; c_free (Some t)) w Q.
Proof.
  intros Hfd Hown Ht Hctx HQ. unfold udp_destroy, udp_blocks in *. rewrite bool_decide_eq_true_2 by lia.
  apply wp_bind, wp_bind, wp_close. intros w1 Hb1 Hs1.
  assert (Hfree : forall b w0 (Q : unit -> W -> Prop), b ∈ owned w0 ->
    (forall w', later w0 w' -> owned w' = owned w0 ∖ {[b]} -> get_net w' = get_net w0 -> Q tt w') ->
    wp (c_free (Some b)) w0 Q).
  { intros b w0 Q0 Hb HQ0. apply (wp_frame get_net); [apply untouched_free, get_net_set_os|].
    apply wp_free_owned; [done|]. intros w' [Hl Ho] Hn. by apply HQ0. }
  assert (Ho1 : owned w1 = owned w) by apply Hb1.
  assert (Hfin : forall w2, later w1 w2 ->
    owned w2 = owned w1 ∖ ports_blocks (peer_ports (contents ctx)) -> get_net w2 = get_net w1 ->
    wp (c_free (Some (addr ctx));; mret tt) w2 (fun _ w' => wp (c_free (Some t)) w' Q)).
  { intros w2 Hl2 Ho2 Hn2. rewrite Ho1 in Ho2.
    apply wp_bind, Hfree; [rewrite Ho2; clear -Hown Hctx; set_solver|].
    intros w3 Hl3 Ho3 Hn3. apply wp_ret, Hfree; [rewrite Ho3, Ho2; clear -Hown Ht; set_solver|].
    intros w4 Hl4 Ho4 Hn4. apply HQ.
    - split; [eapply later_trans; [apply Hb1|]; by repeat (eapply later_trans; [done|])|].
      rewrite Ho4, Ho3, Ho2. clear. set_solver.
    - unfold socks at 1. rewrite Hn4, Hn3, Hn2. exact Hs1. }
  apply wp_bind. destruct (peer_ports (contents ctx)) as [b|]; cbn [fmap option_fmap option_map ports_blocks] in *.
  - apply Hfree; [rewrite Ho1; clear -Hown; set_solver|]. auto.
  - apply wp_free_null, Hfin; [apply later_refl| |done]. clear. set_solver.
Qed.
End udp_lifecycle.

(** ** What a receive takes from the network *)

Section udp_receiving.
Context {W : Type} `{!HasOS W, !HasNet W}.
Implicit Types w : W.

(** Nothing, or the first datagram for the port: it leaves the queue and fills
    the buffer as far as it fits. *)
Lemma udp_recv_effect ctx buf pk w rc buf' out pk' w' :
  zlen buf = 4096 -> udp_recv ctx buf 4096 0 pk w = Val ((rc, (buf', out, pk')), w') ->
  (rc <> BC_OK /\ w' = w /\
   forall port, mjoin (socks w !! sockfd ctx) = Some port ->
     take_datagram port (n_queue (get_net w)) = None) \/
  exists port d q, mjoin (socks w !! sockfd ctx) = Some port /\
    take_datagram port (n_queue (get_net w)) = Some (d, q) /\
    w' = set_net (set_queue q (get_net w)) w /\
    out = Z.min (zlen d) 4096 /\ (rc = BC_OK <-> d <> []) /\
    take (Z.to_nat out) buf' = take 4096 (map to_u8 d).
Proof.
  intros Hl. unfold udp_recv, mbind, M_bind, c_recvfrom. fold (socks w).
  destruct (mjoin (socks w !! sockfd ctx)) as [port|] eqn:Hp; cbn [mbind option_bind];
    [|cbn; intros [= <- <- <- <- <-]; by left].
  destruct (take_datagram port (n_queue (get_net w))) as [[d q]|] eqn:Hq;
    [|cbn; intros [= <- <- <- <- <-]; left; split_and!; [done|done|by intros ? [= <-]]].
  rewrite mem_write_ok by zlen_lia. cbv beta iota. cbn [Z.to_nat take app Nat.add].
  set (d' := take _ (map to_u8 d)).
  assert (Hd' : zlen d' = Z.min (zlen d) 4096)
    by (unfold d', zlen; rewrite length_take, length_map; lia).
  intros Hrun. right. exists port, d, q. split; [done|]. split; [done|].
  revert Hrun. case_bool_decide as Hc; intros [= <- <- <- <- <-].
  - assert (d = []) as -> by (destruct d; [done|zlen_lia]). by split_and!.
  - assert (Hne : d <> []) by (intros ->; by apply Hc). unfold to_u64.
    rewrite Z.mod_small by zlen_lia. split_and!; try done.
    unfold zlen at 1. rewrite Nat2Z.id. by rewrite take_app_length.
Qed.
End udp_receiving.

(** ** What a send puts on the network *)

(** Every [sendto] of an open socket succeeds. *)
Definition net_up {W} `{!HasOS W, !HasNet W} (fd : Z) (w : W) : Prop :=
  (forall n, n_can_send (get_net w) n = true) /\ is_Some (socks w !! fd).

Definition to_ports (data : list Z) (ports : list Z) : list (Z * list Z) :=
  (fun p => (p, data)) <$> ports.

(** [acc] of the ports were sent [data], in order; all of them if the network
    is up. *)
Definition sent_to {W} `{!HasOS W, !HasNet W} (fd : Z) (data ports acc : list Z) (w w' : W) : Prop :=
  sublist acc ports /\ n_sent (get_net w') = n_sent (get_net w) ++ to_ports data acc /\
  get_os w' = get_os w /\ (net_up fd w -> acc = ports /\ net_up fd w').

Section udp_sending.
Context {W : Type} `{!HasOS W, !HasNet W}.
Implicit Types w : W.

Lemma sendto_effect fd data port w :
  zlen data < 2 ^ 63 -> 
  exists k w', c_sendto fd data (zlen data) port w = Val (k, w') /\
    ((k = zlen data /\ sent_to fd data [port] [port] w w') \/
     (k = -1 /\ sent_to fd data [port] [] w w')).
Proof.
  intros Hl. unfold c_sendto, sent_to, net_up, socks. rewrite (mem_read_all data (zlen data) eq_refl).
  assert (Hi : to_i64 (zlen data) = zlen data) by (apply to_i64_id; zlen_lia).
  destruct (n_can_send (get_net w) (n_calls (get_net w)) && _) eqn:Hs; eexists _, _;
    (split; [done|]); rewrite ?get_set_net, ?get_os_set_net; cbn [n_sent n_can_send n_socks].
  - left. rewrite Hi. done.
  - right. split; [done|]. split_and!; [apply sublist_nil_l|by rewrite app_nil_r|done|].
    intros [Hup Ho]. rewrite Hup in Hs. by apply bool_decide_eq_false in Hs.
Qed.

Lemma sent_to_app fd data p1 a1 p2 a2 w w1 w2 :
  sent_to fd data p1 a1 w w1 -> sent_to fd data p2 a2 w1 w2 ->
  sent_to fd data (p1 ++ p2) (a1 ++ a2) w w2.
Proof.
  intros (Hs & Hn & Ho & Hup) (Hs' & Hn' & Ho' & Hup'). unfold sent_to.
  split_and!; [by apply sublist_app| |congruence|].
  - unfold to_ports. by rewrite fmap_app, (assoc_L (++)), Hn', Hn.
  - intros [-> ?]%Hup. by apply Hup' in H as [-> ?].
Qed.

Lemma udp_send_loop_spec ctx data n i any w :
  udp_ctx_wf ctx -> zlen data < 2 ^ 63 ->
  0 <= i -> i + Z.of_nat n = udp_peer_count ctx ->
  exists any' w' acc,
    udp_send_loop ctx data (zlen data) n i any w = Val (any', w') /\
    sent_to (sockfd ctx) data (drop (Z.to_nat i) (ctx_ports ctx)) acc w w' /\
    any' = (if bool_decide (acc = []) then any else 1).
Proof.
  intros Hwf Hl. revert i any w. induction n as [|n IH]; intros i any w Hi Hn; cbn [udp_send_loop].
  - exists any, w, []. rewrite drop_ge by (destruct Hwf as [Hc _]; zlen_lia).
    split; [done|]. split; [|by rewrite bool_decide_eq_true_2].
    unfold sent_to, to_ports. by rewrite app_nil_r.
  - destruct (peer_port_ok ctx i) as (p & Hp & Hport); [done|lia|].
    rewrite (bind_val _ _ _ _ _ (lift_val _ _ w Hport)).
    destruct (sendto_effect (sockfd ctx) data p w Hl) as (k & w1 & Hs & Hk).
    rewrite (bind_val _ _ _ _ _ Hs).
    destruct (IH (i + 1) (if bool_decide (k = to_i64 (zlen data)) then 1 else any) w1)
      as (any' & w2 & acc & Hrun & Hsent & Hany); [lia|lia|].
    rewrite to_i64_id in * by zlen_lia.
    replace (Z.to_nat (i + 1)) with (S (Z.to_nat i)) in Hsent by lia.
    rewrite (drop_S _ _ _ Hp), Hrun.
    destruct Hk as [[-> Hk]|[-> Hk]]; assert (Happ := sent_to_app _ _ _ _ _ _ _ _ _ Hk Hsent);
      eexists _, _, _; (split; [done|split; [exact Happ|]]); rewrite Hany.
    + rewrite (bool_decide_eq_true_2 (zlen data = _)) by done.
      rewrite (bool_decide_eq_false_2 (_ ++ _ = [])) by done. by case_bool_decide.
    + rewrite (bool_decide_eq_false_2 (-1 = _)) by zlen_lia. done.
Qed.
End udp_sending.

(** ** Properties *)

Section udp_properties.
Context {W : Type} `{!HasOS W, !WorldInv W, !HasNet W, !NetFree W}.
Implicit Types w : W.

(** The UDP adapter leaks neither memory nor descriptors: on every error
    path [bc_transport_udp_create] gives back the blocks it took and closes the
    socket it opened; when it succeeds the vtable owns a socket bound to the
    requested port and a private copy of the peer ports, and [destroy] followed
    by the caller's [free] of the struct restores the heap and the open sockets
    exactly. *)
Theorem udp_create_destroy_balanced port ports w :
  heap_ok w -> fds_ok w -> Forall (fun p => 0 <= p < 2 ^ 16) ports ->
  wp (bc_transport_udp_create port (Some ports) (zlen ports)) w (fun r w' =>
    udp_created port ports w r w' /\
    match r with
    | None => True
    | Some t =>
        exists destroy, t_destroy (contents t) = Some destroy /\
        wp (destroy;; c_free (Some (addr t))) w' (fun _ w'' =>
          balanced w w'' /\ socks w'' = socks w)
    end).
Proof.
  intros Hok Hfd Hp. eapply wp_mono; [by apply wp_udp_create|].
  intros r w1 Hc. split; [done|].
  destruct Hc as [(-> & _)|(t & ctx & -> & _ & _ & _ & Hfd0 & Ha & Ht & Hctx & Hfresh & Hs)];
    [done|]. eexists. split; [done|]. cbn [addr].
  apply wp_udp_destroy; try done; [destruct Ha as (_ & -> & _); clear; set_solver|].
  intros w2 Hr2 Hs2. split; [|by rewrite Hs2, Hs, delete_insert_id]. apply acquired_nil.
  replace (∅ : gset blk) with (({[t]} ∪ udp_blocks ctx) ∖ ({[t]} ∪ udp_blocks ctx))
    by apply difference_diag_L.
  by apply (acquired_released _ _ _ _ _ Ha Hr2).
Qed.

(** A send of the UDP adapter is a broadcast: whatever key the router names,
    the datagram goes whole to the configured peer ports in order (to all of
    them while the network accepts them), nothing else is sent and the heap and
    the clock are untouched; the call reports [BC_OK] exactly when at least one
    port was sent to, an empty datagram is refused. *)
Theorem udp_send_broadcasts ctx key data w :
  udp_ctx_wf ctx -> zlen data < 2 ^ 63 ->
  exists rc w' acc,
    udp_send ctx key data (zlen data) w = Val (rc, w') /\
    if bool_decide (data = []) then rc = BC_ERR_INVALID /\ w' = w
    else sent_to (sockfd ctx) data (ctx_ports ctx) acc w w' /\
         rc = if bool_decide (acc = []) then BC_ERR_TRANSPORT else BC_OK.
Proof.
  intros Hwf Hl. unfold udp_send. destruct (decide (data = [])) as [->|Hd].
  { by exists BC_ERR_INVALID, w, []. }
  assert (Hne : zlen data <> 0) by (destruct data; [done|zlen_lia]).
  rewrite (bool_decide_eq_false_2 (zlen data = 0)), (bool_decide_eq_false_2 (data = [])) by done.
  assert (Hc : udp_peer_count ctx = zlen (ctx_ports ctx)) by apply Hwf.
  assert (Hc0 := zlen_nonneg (ctx_ports ctx)).
  destruct (udp_send_loop_spec ctx data (Z.to_nat (udp_peer_count ctx)) 0 0 w)
    as (any & w' & acc & Hrun & Hs & ->); [done|done|lia|lia|].
  rewrite (bind_val _ _ _ _ _ Hrun). eexists _, _, _. split; [done|]. split; [exact Hs|].
  by case_bool_decide.
Qed.

(** Discovery gives every configured port its own neighbour: the first
    min(count, max) entries of the caller's array become peers whose keys
    encode the ports in their first two bytes, the other entries are kept, and
    distinct ports get distinct keys, so the router's table holds one entry per
    port. *)
Theorem udp_discover_distinct ctx arr n w :
  udp_ctx_wf ctx -> NoDup (ctx_ports ctx) ->
  exists found, found = Z.min (udp_peer_count ctx) (zlen arr) /\
    let ports := take (Z.to_nat found) (ctx_ports ctx) in
    udp_discover_peers ctx arr (zlen arr) n w =
      Val ((BC_OK, ((synthetic_peer <$> ports) ++ drop (Z.to_nat found) arr, found)), w) /\
    NoDup (peer_pubkey <$> (synthetic_peer <$> ports)) /\
    Forall (fun p => take 2 (peer_pubkey (synthetic_peer p)) = [p mod 2 ^ 8; p / 2 ^ 8]) ports.
Proof.
  intros Hwf Hnd. assert (Hc : udp_peer_count ctx = zlen (ctx_ports ctx)) by apply Hwf.
  assert (Hr : Forall (fun p => 0 <= p < 2 ^ 16) (ctx_ports ctx)) by apply Hwf.
  eexists. split; [done|]. cbv zeta. set (k := Z.min _ _).
  assert (Hk : 0 <= k <= zlen arr /\ k <= zlen (ctx_ports ctx)) by zlen_lia.
  assert (Hrk := Forall_take _ (Z.to_nat k) _ Hr).
  split_and!.
  - unfold udp_discover_peers. replace (if bool_decide _ then _ else _) with k
      by (unfold k; case_bool_decide; lia).
    erewrite bind_val; [done|]. apply lift_val.
    apply (udp_discover_loop_ok ctx [] arr (ctx_ports ctx)); [done|done|zlen_lia|zlen_lia].
  - rewrite <- list_fmap_compose. apply NoDup_fmap_2_strong.
    + intros p q Hp Hq He. apply synthetic_key_inj; [| |exact He];
        by apply (proj1 (Forall_forall _ _) Hrk).
    + eapply sublist_NoDup; [exact Hnd|apply sublist_take].
  - eapply Forall_impl; [exact Hrk|]. apply synthetic_key.
Qed.
End udp_properties.

(** A context with two peers, on an open socket. *)
Definition demo_ctx : udp_ctx := mkUdpCtx 3 9000 (Some (Box 0%nat [9001; 9002])) 2.

Lemma demo_ctx_wf : udp_ctx_wf demo_ctx.
Proof. split; [done|]. repeat constructor; lia. Qed.

Lemma udp_create_destroy_balanced_witness :
  wp (bc_transport_udp_create 9000 (Some [9001; 9002]) 2) (demo_world 0 [] tt) (fun r w' =>
    udp_created 9000 [9001; 9002] (demo_world 0 [] tt) r w' /\
    match r with
    | None => True
    | Some t =>
        exists destroy, t_destroy (contents t) = Some destroy /\
        wp (destroy;; c_free (Some (addr t))) w' (fun _ w'' =>
          balanced (demo_world 0 [] tt) w'' /\ socks w'' = socks (demo_world 0 [] tt))
    end).
Proof.
  destruct (demo_world_ok 0 [] tt) as (Hok & _ & Hfd); [constructor|exact I|done|].
  apply (udp_create_destroy_balanced 9000 [9001; 9002]); [exact Hok|exact Hfd|].
  repeat constructor; lia.
Defined.

Lemma udp_send_broadcasts_witness :
  exists rc w' acc,
    udp_send demo_ctx (replicate 32 0) [1; 2; 3] 3 (demo_world 0 [] tt) = Val (rc, w') /\
    if bool_decide ([1; 2; 3] = []) then rc = BC_ERR_INVALID /\ w' = demo_world 0 [] tt
    else sent_to 3 [1; 2; 3] [9001; 9002] acc (demo_world 0 [] tt) w' /\
         rc = if bool_decide (acc = []) then BC_ERR_TRANSPORT else BC_OK.
Proof. apply (udp_send_broadcasts demo_ctx); [apply demo_ctx_wf|vm_compute; reflexivity]. Defined.

Lemma udp_discover_distinct_witness :
  exists found, found = 2 /\
    let ports := take (Z.to_nat found) [9001; 9002] in
    udp_discover_peers demo_ctx (replicate 3 zero_peer) 3 0 (demo_world 0 [] tt) =
      Val ((BC_OK, ((synthetic_peer <$> ports) ++ drop (Z.to_nat found) (replicate 3 zero_peer),
                    found)), demo_world 0 [] tt) /\
    NoDup (peer_pubkey <$> (synthetic_peer <$> ports)) /\
    Forall (fun p => take 2 (peer_pubkey (synthetic_peer p)) = [p mod 2 ^ 8; p / 2 ^ 8]) ports.
Proof.
  apply (udp_discover_distinct demo_ctx (replicate 3 zero_peer)); [apply demo_ctx_wf|].
  apply (bool_decide_unpack _). vm_compute. exact I.
Defined.
