(* ===== verification/StubTransports.v ===== *)
(** * StubTransports: the BLE and Wi-Fi Direct placeholders

    Models [src/infra/transport_ble.c] and [src/infra/transport_wifi.c]: every
    operation answers "not implemented" until the bridge injects a real
    transport.  [self->ctx] is NULL from creation on. *)
From S2P Require Import Prelude Effects Errors Message Peer Ports Sockets World.

Section stubs.
Context {W : Type} `{!HasOS W}.

Definition ble_init : M W Z := mret BC_ERR_NOT_IMPLEMENTED.

Definition ble_send (peer_pubkey data : list Z) (len : Z) : M W Z :=
  mret BC_ERR_NOT_IMPLEMENTED.

Definition ble_recv (buf : list Z) (buf_len out_len : Z) (peer_pubkey_out : list Z)
    : M W (Z * (list Z * Z * list Z)) :=
  mret (BC_ERR_NOT_IMPLEMENTED, (buf, out_len, peer_pubkey_out)).

Definition ble_discover (peers_out : list bc_peer) (max_peers found : Z)
    : M W (Z * (list bc_peer * Z)) :=
  mret (BC_ERR_NOT_IMPLEMENTED, (peers_out, 0)).

(** [ctx] is [self->ctx]. *)
Definition ble_destroy (ctx : option blk) : M W unit := c_free ctx.

Definition bc_transport_ble_create : M W (option (box (bc_transport W))) :=
  t ← c_alloc;
  match t with
  | None => mret None
  | Some t =>
      mret (Some (Box t (mkTransport (Some ble_init) (Some ble_send) (Some ble_recv)
        (Some ble_discover) (Some (ble_destroy None)))))
  end.

Definition wifi_init : M W Z := mret BC_ERR_NOT_IMPLEMENTED.

Definition wifi_send (peer_pubkey data : list Z) (len : Z) : M W Z :=
  mret BC_ERR_NOT_IMPLEMENTED.

Definition wifi_recv (buf : list Z) (buf_len out_len : Z) (peer_pubkey_out : list Z)
    : M W (Z * (list Z * Z * list Z)) :=
  mret (BC_ERR_NOT_IMPLEMENTED, (buf, out_len, peer_pubkey_out)).

Definition wifi_discover (peers_out : list bc_peer) (max_peers found : Z)
    : M W (Z * (list bc_peer * Z)) :=
  mret (BC_ERR_NOT_IMPLEMENTED, (peers_out, 0)).

Definition wifi_destroy (ctx : option blk) : M W unit := c_free ctx.

Definition bc_transport_wifi_create : M W (option (box (bc_transport W))) :=
  t ← c_alloc;
  match t with
  | None => mret None
  | Some t =>
      mret (Some (Box t (mkTransport (Some wifi_init) (Some wifi_send) (Some wifi_recv)
        (Some wifi_discover) (Some (wifi_destroy None)))))
  end.
End stubs.

Section stub_lemmas.
Context {W : Type} `{!HasOS W, !WorldInv W}.

(** A transport whose calls all fail without effect keeps the contract. *)
Lemma refusing_safe (t : bc_transport W) :
  (forall send, t_send t = Some send -> exists rc, forall pk d n, send pk d n = mret rc) ->
  (forall recv, t_recv t = Some recv ->
     exists rc, rc <> BC_OK /\ forall buf n out pk, recv buf n out pk = mret (rc, (buf, out, pk))) ->
  (forall disc, t_discover_peers t = Some disc ->
     exists rc, rc <> BC_OK /\ forall arr max n, disc arr max n = mret (rc, (arr, 0))) ->
  TransportSafe t /\ TransportBenign t.
Proof.
  intros Hs Hr Hd. split; [split|].
  - intros send pk data len w He _ _. destruct (Hs _ He) as [rc ->]. apply wp_ret, balanced_refl.
  - intros recv buf len out pk w He _ Hb ->. destruct (Hr _ He) as (rc & Hrc & ->).
    by apply wp_ret; split_and!; try apply balanced_refl.
  - intros disc arr max n w He _ -> Ha. destruct (Hd _ He) as (rc & Hrc & ->).
    by apply wp_ret; split_and!; try apply balanced_refl.
  - intros recv buf len out pk w buf' out' pk' w' He _ _.
    destruct (Hr _ He) as (rc & Hrc & ->). intros [= -> _ _ _ _]; done.
Qed.

(** Until a platform transport is injected, the BLE and Wi-Fi adapters are
    inert but safe: a created vtable owns one block, every call fails with
    [BC_ERR_NOT_IMPLEMENTED] and changes nothing, it keeps the transport
    contract (so the router and discovery are safe with it), and [destroy]
    plus [free] give the block back. *)
Theorem stub_transports_inert (w : W) :
  heap_ok w ->
  forall create, create = bc_transport_ble_create \/ create = bc_transport_wifi_create ->
  wp create w (fun r w1 =>
    match r with
    | None => balanced w w1 /\ ~ never_oom w
    | Some t =>
        acquired {[addr t]} w w1 /\ TransportSafe (contents t) /\ TransportBenign (contents t) /\
        (exists send, t_send (contents t) = Some send /\
           forall pk d n w2, send pk d n w2 = Val (BC_ERR_NOT_IMPLEMENTED, w2)) /\
        (exists destroy, t_destroy (contents t) = Some destroy /\
           wp (destroy;; c_free (Some (addr t))) w1 (fun _ w2 => balanced w w2))
    end).
Proof.
  intros Hok create [-> | ->].
  all: apply wp_bind, wp_alloc; [done|by intros; apply wp_ret|].
  all: intros b w1 Ha; apply wp_ret; cbn [addr contents]; split; [done|].
  all: apply and_assoc; split.
  1, 3: apply refusing_safe; intros ? [= <-]; eexists; first [done|split; [|done]; done].
  all: split; [by eexists|]; eexists; split; [done|]; apply wp_bind, wp_free_null.
  all: apply (wp_free_acquired b {[b]} w); [done|set_solver|]; intros w2 _ Ha2.
  all: rewrite difference_diag_L in Ha2; by apply acquired_nil.
Qed.
End stub_lemmas.

Lemma stub_transports_inert_witness :
  wp bc_transport_ble_create (demo_world 0 [] tt) (fun r w1 =>
    match r with
    | None => balanced (demo_world 0 [] tt) w1 /\ ~ never_oom (demo_world 0 [] tt)
    | Some t =>
        acquired {[addr t]} (demo_world 0 [] tt) w1 /\
        TransportSafe (contents t) /\ TransportBenign (contents t) /\
        (exists send, t_send (contents t) = Some send /\
           forall pk d n w2, send pk d n w2 = Val (BC_ERR_NOT_IMPLEMENTED, w2)) /\
        (exists destroy, t_destroy (contents t) = Some destroy /\
           wp (destroy;; c_free (Some (addr t))) w1 (fun _ w2 => balanced (demo_world 0 [] tt) w2))
    end).
Proof.
  apply (stub_transports_inert (demo_world 0 [] tt)); [|by left].
  apply demo_world_ok; [constructor|exact I|done].
Defined.
