(* ===== verification/Identity.v ===== *)
(** * Identity: the local key pair

    Models [src/domain/identity.c] and [include/bitchat/domain/identity.h]. *)
From S2P Require Import Prelude Effects Errors Sodium Message.

Definition BC_SECRET_KEY_SIZE : Z := 32.
Definition BC_IDENTITY_SERIALIZED_SIZE : Z := BC_PUBKEY_SIZE + BC_SECRET_KEY_SIZE.

Record bc_identity : Type := mkIdentity {
  pubkey : list Z;
  secret_key : list Z
}.

Section identity.
Context {W : Type} `{!HasOS W, !Sodium}.

Definition bc_identity_generate (id : option bc_identity) : M W (Z * option bc_identity) :=
  match id with
  | None => mret (BC_ERR_INVALID, None)
  | Some _ =>
      '(rc, (pk, sk)) ← box_keypair;
      mret (if bool_decide (rc <> 0) then BC_ERR_CRYPTO else BC_OK, Some (mkIdentity pk sk))
  end.
End identity.

Definition bc_identity_serialize (id : option bc_identity) (buf : option (list Z))
    (buf_len : Z) : res (Z * option (list Z)) :=
  match id, buf with
  | Some id, Some b =>
      if bool_decide (buf_len < BC_IDENTITY_SERIALIZED_SIZE)
      then Val (BC_ERR_BUFFER_TOO_SMALL, buf) else
      b ← mem_write b 0 (pubkey id);
      b ← mem_write b BC_PUBKEY_SIZE (secret_key id);
      Val (BC_OK, Some b)
  | _, _ => Val (BC_ERR_INVALID, buf)
  end.

Definition bc_identity_deserialize (id : option bc_identity) (data : option (list Z))
    (data_len : Z) : res (Z * option bc_identity) :=
  match id, data with
  | Some _, Some data =>
      if bool_decide (data_len < BC_IDENTITY_SERIALIZED_SIZE)
      then Val (BC_ERR_INVALID, id) else
      pk ← mem_read data 0 BC_PUBKEY_SIZE;
      sk ← mem_read data BC_PUBKEY_SIZE BC_SECRET_KEY_SIZE;
      Val (BC_OK, Some (mkIdentity pk sk))
  | _, _ => Val (BC_ERR_INVALID, id)
  end.

Definition bc_identity_wipe (id : option bc_identity) : option bc_identity :=
  match id with
  | None => None
  | Some id => Some (mkIdentity (pubkey id) (replicate (Z.to_nat BC_SECRET_KEY_SIZE) 0))
  end.

(** ** Properties *)

Definition identity_wf (id : bc_identity) : Prop :=
  bytes_n 32 (pubkey id) /\ bytes_n 32 (secret_key id).

(** The serialized form of an identity. *)
Definition identity_bytes (id : bc_identity) : list Z := pubkey id ++ secret_key id.

(** An identity survives storage: serializing into any buffer of at least
    64 bytes succeeds and writes the two keys in order, keeping the bytes
    behind them, and deserializing what was written restores exactly the same
    pair; a shorter buffer is refused and left as it was. *)
Theorem identity_roundtrip id id0 buf :
  identity_wf id ->
  exists rc out,
    bc_identity_serialize (Some id) (Some buf) (zlen buf) = Val (rc, Some out) /\
    if bool_decide (zlen buf < 64)
    then rc = BC_ERR_BUFFER_TOO_SMALL /\ out = buf
    else rc = BC_OK /\ out = identity_bytes id ++ drop 64 buf /\
         bc_identity_deserialize (Some id0) (Some out) (zlen out) = Val (BC_OK, Some id).
Proof.
  intros [[Hp _] [Hs _]]. unfold bc_identity_serialize, identity_bytes.
  change BC_IDENTITY_SERIALIZED_SIZE with 64. case_bool_decide as Hlen; [by eexists _, _|].
  rewrite (mem_write_cursor [] buf 0) by zlen_lia. cbn [app mbind res_bind].
  rewrite (mem_write_cursor (pubkey id)) by (change BC_PUBKEY_SIZE with 32; zlen_lia).
  cbn [mbind res_bind]. rewrite drop_drop, Hp, Hs. eexists _, _. split; [done|].
  split_and!; [done|done|]. unfold bc_identity_deserialize.
  change BC_IDENTITY_SERIALIZED_SIZE with 64. rewrite bool_decide_eq_false_2 by zlen_lia.
  change (32 + 32)%nat with 64%nat. rewrite <- (assoc_L (++)).
  assert (Hpk := mem_read_mid [] (pubkey id) (secret_key id ++ drop 64 buf) 0 BC_PUBKEY_SIZE).
  cbn [app] in Hpk. rewrite Hpk by (done || (unfold zlen; by rewrite Hp)).
  cbn [mbind res_bind]. rewrite mem_read_mid by (unfold zlen; rewrite ?Hp, ?Hs; done).
  cbn. by destruct id.
Qed.

Lemma identity_roundtrip_witness :
  exists rc out,
    bc_identity_serialize (Some (mkIdentity (replicate 32 7) (replicate 32 9)))
      (Some (replicate 70 0)) 70 = Val (rc, Some out) /\
    if bool_decide (70 < 64)
    then rc = BC_ERR_BUFFER_TOO_SMALL /\ out = replicate 70 0
    else rc = BC_OK /\
         out = identity_bytes (mkIdentity (replicate 32 7) (replicate 32 9))
               ++ drop 64 (replicate 70 0) /\
         bc_identity_deserialize (Some (mkIdentity [] [])) (Some out) (zlen out) =
           Val (BC_OK, Some (mkIdentity (replicate 32 7) (replicate 32 9))).
Proof.
  apply (identity_roundtrip (mkIdentity (replicate 32 7) (replicate 32 9))
           (mkIdentity [] []) (replicate 70 0)).
  split; apply (bool_decide_unpack _); vm_compute; exact I.
Defined.
