(* ===== verification/CryptoManager.v ===== *)
(** * CryptoManager: end-to-end encryption

    Models [src/usecase/crypto_manager.c] and
    [include/bitchat/usecase/crypto_manager.h] over the interface [Sodium].
    Output buffers are passed in and returned as the call leaves them. *)
From S2P Require Import Prelude Effects Errors Sodium Message.

Definition BC_SHARED_KEY_SIZE : Z := 32.
Definition BC_NONCE_SIZE : Z := 24.
Definition BC_TAG_SIZE : Z := 16.

Section crypto.
Context {W : Type} `{!HasOS W, !Sodium}.

Definition bc_crypto_init : Z :=
  if bool_decide (sodium_init < 0) then BC_ERR_CRYPTO else BC_OK.

(** The code ignores what [crypto_box_keypair] returns. *)
Definition bc_crypto_generate_keypair (pubkey_out secret_out : option (list Z))
    : M W (Z * (option (list Z) * option (list Z))) :=
  match pubkey_out, secret_out with
  | Some p, Some s =>
      '(_, (pk, sk)) ← box_keypair;
      p ← lift (mem_write p 0 pk);
      s ← lift (mem_write s 0 sk);
      mret (BC_OK, (Some p, Some s))
  | _, _ => mret (BC_ERR_INVALID, (pubkey_out, secret_out))
  end.

Definition bc_crypto_derive_shared (my_secret peer_pubkey shared_out : option (list Z))
    : res (Z * option (list Z)) :=
  match my_secret, peer_pubkey, shared_out with
  | Some sk, Some pk, Some out =>
      sk ← mem_read sk 0 BC_PUBKEY_SIZE;
      pk ← mem_read pk 0 BC_PUBKEY_SIZE;
      let '(rc, k) := crypto_box_beforenm pk sk in
      out ← mem_write out 0 k;
      Val (if bool_decide (rc <> 0) then BC_ERR_CRYPTO else BC_OK, Some out)
  | _, _, _ => Val (BC_ERR_INVALID, shared_out)
  end.

Definition bc_crypto_encrypt (plaintext : option (list Z)) (plaintext_len : Z)
    (shared_key ciphertext_out nonce_out : option (list Z))
    : M W (Z * (option (list Z) * option (list Z))) :=
  match plaintext, shared_key, ciphertext_out, nonce_out with
  | Some pt, Some key, Some ct_out, Some n_out =>
      nonce ← randombytes_buf (Z.to_nat BC_NONCE_SIZE);
      n_out ← lift (mem_write n_out 0 nonce);
      pt ← lift (mem_read pt 0 plaintext_len);
      key ← lift (mem_read key 0 BC_SHARED_KEY_SIZE);
      let '(rc, ct) := aead_encrypt pt nonce key in
      ct_out ← lift (mem_write ct_out 0 ct);
      mret (if bool_decide (rc <> 0) then BC_ERR_CRYPTO else BC_OK, (Some ct_out, Some n_out))
  | _, _, _, _ => mret (BC_ERR_INVALID, (ciphertext_out, nonce_out))
  end.

Definition bc_crypto_decrypt (ciphertext : option (list Z)) (ciphertext_len : Z)
    (shared_key nonce plaintext_out : option (list Z)) : res (Z * option (list Z)) :=
  match ciphertext, shared_key, nonce, plaintext_out with
  | Some ct, Some key, Some nonce, Some pt_out =>
      if bool_decide (ciphertext_len < BC_TAG_SIZE) then Val (BC_ERR_INVALID, plaintext_out) else
      ct ← mem_read ct 0 ciphertext_len;
      nonce ← mem_read nonce 0 BC_NONCE_SIZE;
      key ← mem_read key 0 BC_SHARED_KEY_SIZE;
      let '(rc, pt) := aead_decrypt ct nonce key in
      pt_out ← mem_write pt_out 0 pt;
      Val (if bool_decide (rc <> 0) then BC_ERR_CRYPTO else BC_OK, Some pt_out)
  | _, _, _, _ => Val (BC_ERR_INVALID, plaintext_out)
  end.
End crypto.

(** ** Lemmas *)

Lemma mem_read_n n l : length l = n -> mem_read l 0 (Z.of_nat n) = Val l.
Proof. intros <-. by apply mem_read_all. Qed.

Lemma mem_write_front dst src :
  zlen src <= zlen dst -> mem_write dst 0 src = Val (src ++ drop (length src) dst).
Proof. intros H. by rewrite (mem_write_cursor [] dst 0). Qed.

Section crypto_lemmas.
Context {W : Type} `{!HasOS W, !WorldInv W}.
Context `{!Sodium} `{!SodiumSpec _}.
Implicit Types w : W.

(** Encryption writes the tagged ciphertext and the nonce it drew. *)
Lemma wp_encrypt pt key ct_out n_out w (Q : _ -> W -> Prop) :
  bytes_ok pt -> bytes_n 32 key -> zlen pt + BC_TAG_SIZE <= zlen ct_out ->
  length n_out = 24%nat ->
  (forall nonce ct w', balanced w w' -> drawn w w' 24 nonce -> bytes_ok ct ->
     zlen ct = zlen pt + BC_TAG_SIZE -> aead_encrypt pt nonce key = (0, ct) ->
     Q (BC_OK, (Some (ct ++ drop (length ct) ct_out), Some nonce)) w') ->
  wp (bc_crypto_encrypt (Some pt) (zlen pt) (Some key) (Some ct_out) (Some n_out)) w Q.
Proof.
  intros Hpt Hkey Hct Hn HQ. unfold bc_crypto_encrypt.
  apply wp_bind, wp_random. intros nonce w' Hdr Hb.
  assert (Hnonce := drawn_bytes _ _ _ _ Hdr).
  assert (Hnl : length nonce = 24%nat) by apply Hnonce.
  destruct (encrypt_ok pt nonce key Hpt Hnonce Hkey) as (ct & Henc & Hl & Hcb).
  assert (Hcl : zlen ct = zlen pt + BC_TAG_SIZE) by (change BC_TAG_SIZE with 16; zlen_lia).
  apply wp_bind. eapply wp_lift; [apply mem_write_front; zlen_lia|].
  rewrite drop_ge, (right_id_L [] (++)) by lia.
  apply wp_bind. eapply wp_lift; [by apply mem_read_all|].
  apply wp_bind. eapply wp_lift; [apply (mem_read_n 32), Hkey|]. rewrite Henc.
  apply wp_bind. eapply wp_lift; [apply mem_write_front; lia|].
  apply wp_ret. by apply HQ.
Qed.

Lemma quiet_encrypt pt n key ct nonce : quiet (bc_crypto_encrypt (W := W) pt n key ct nonce).
Proof. unfold bc_crypto_encrypt. solve_quiet. Qed.

Lemma decrypt_val ct extra key nonce pt_out rc pt :
  bytes_n 32 key -> bytes_n 24 nonce -> bytes_ok ct ->
  BC_TAG_SIZE <= zlen ct <= zlen pt_out + BC_TAG_SIZE ->
  aead_decrypt ct nonce key = (rc, pt) ->
  bc_crypto_decrypt (Some (ct ++ extra)) (zlen ct) (Some key) (Some nonce) (Some pt_out) =
    Val (if bool_decide (rc <> 0) then BC_ERR_CRYPTO else BC_OK,
         Some (pt ++ drop (length pt) pt_out)).
Proof.
  intros Hkey Hnonce Hct Hlen Hdec. unfold bc_crypto_decrypt.
  change BC_TAG_SIZE with 16 in *.
  destruct (decrypt_size ct nonce key rc pt) as [Hl _]; [done|zlen_lia|done|].
  rewrite bool_decide_eq_false_2 by lia.
  assert (Hrd := mem_read_mid [] ct extra 0 (zlen ct) eq_refl eq_refl). cbn [app] in Hrd.
  rewrite Hrd. cbn [mbind res_bind].
  change BC_NONCE_SIZE with (Z.of_nat 24). change BC_SHARED_KEY_SIZE with (Z.of_nat 32).
  rewrite (mem_read_n 24), (mem_read_n 32) by (apply Hkey || apply Hnonce).
  cbn [mbind res_bind]. rewrite Hdec, mem_write_front by zlen_lia. done.
Qed.

Lemma derive_val sk pk out rc key :
  bytes_n 32 sk -> bytes_n 32 pk -> length out = 32%nat -> crypto_box_beforenm pk sk = (rc, key) ->
  bc_crypto_derive_shared (Some sk) (Some pk) (Some out) =
    Val (if bool_decide (rc <> 0) then BC_ERR_CRYPTO else BC_OK, Some key) /\ bytes_n 32 key.
Proof.
  intros Hsk Hpk Hout Hk. assert (Hkey := beforenm_size _ _ _ _ Hpk Hsk Hk). split; [|done].
  unfold bc_crypto_derive_shared.
  change BC_PUBKEY_SIZE with (Z.of_nat 32).
  rewrite (mem_read_n 32 sk (proj1 Hsk)). cbn [mbind res_bind].
  rewrite (mem_read_n 32 pk (proj1 Hpk)). cbn [mbind res_bind]. rewrite Hk.
  assert (Hl : length key = 32%nat) by apply Hkey.
  rewrite mem_write_front by zlen_lia. cbn [mbind res_bind].
  by rewrite drop_ge, app_nil_r by lia.
Qed.

(** Decrypting a payload: 24 bytes of nonce, then ciphertext and tag. *)
Lemma open_val pl key out rc pt :
  bytes_n 32 key -> bytes_ok pl -> BC_NONCE_SIZE + BC_TAG_SIZE <= zlen pl ->
  zlen pl - BC_NONCE_SIZE - BC_TAG_SIZE <= zlen out ->
  aead_decrypt (drop 24 pl) (take 24 pl) key = (rc, pt) ->
  bc_crypto_decrypt (Some (drop (Z.to_nat BC_NONCE_SIZE) pl)) (zlen pl - BC_NONCE_SIZE) (Some key)
    (Some pl) (Some out) =
    Val (if bool_decide (rc <> 0) then BC_ERR_CRYPTO else BC_OK,
         Some (pt ++ drop (length pt) out)) /\
  zlen pt = zlen pl - BC_NONCE_SIZE - BC_TAG_SIZE /\ bytes_ok pt.
Proof.
  change BC_NONCE_SIZE with 24. change BC_TAG_SIZE with 16. change (Z.to_nat 24) with 24%nat.
  intros Hkey Hpl Hlen Hout Hdec.
  assert (Hct : bytes_ok (drop 24 pl)) by auto with bitchat.
  destruct (decrypt_size (drop 24 pl) (take 24 pl) key rc pt) as [Hl Hpt]; [done|zlen_lia|done|].
  rewrite length_drop in Hl. split; [|split; [zlen_lia|done]].
  unfold bc_crypto_decrypt. rewrite bool_decide_eq_false_2 by (change BC_TAG_SIZE with 16; lia).
  rewrite (mem_read_all (drop 24 pl)) by zlen_lia. cbn [mbind res_bind].
  rewrite (mem_read_ok pl 0) by (change BC_NONCE_SIZE with 24; lia). cbn [mbind res_bind].
  change BC_SHARED_KEY_SIZE with (Z.of_nat 32). rewrite (mem_read_n 32 key (proj1 Hkey)).
  cbn [mbind res_bind]. change (Z.to_nat 0) with 0%nat. rewrite drop_0.
  change (Z.to_nat BC_NONCE_SIZE) with 24%nat. rewrite Hdec, mem_write_front by zlen_lia. done.
Qed.
End crypto_lemmas.

(** ** Properties *)

Section crypto_properties.
Context {W : Type} `{!HasOS W, !WorldInv W}.
Context `{!Sodium} `{!SodiumSpec _}.
Implicit Types w : W.

(** C21: end-to-end encryption is correct: two parties that generate key pairs
    and exchange public keys derive the same 32-byte shared key, and what one
    encrypts under it the other decrypts to the same plaintext; the calls stay
    inside an output buffer of plaintext + 16 bytes and leave the heap
    unchanged. *)
Theorem e2e_roundtrip w pt pa sa pb sb ka kb ct_out n_out pt_out :
  bytes_ok pt -> length pa = 32%nat -> length sa = 32%nat -> length pb = 32%nat ->
  length sb = 32%nat -> length ka = 32%nat -> length kb = 32%nat ->
  zlen ct_out = zlen pt + BC_TAG_SIZE -> length n_out = 24%nat -> zlen pt_out = zlen pt ->
  wp (alice ← bc_crypto_generate_keypair (Some pa) (Some sa);
      bob ← bc_crypto_generate_keypair (Some pb) (Some sb);
      k1 ← lift (bc_crypto_derive_shared (snd (snd alice)) (fst (snd bob)) (Some ka));
      k2 ← lift (bc_crypto_derive_shared (snd (snd bob)) (fst (snd alice)) (Some kb));
      sealed ← bc_crypto_encrypt (Some pt) (zlen pt) (snd k1) (Some ct_out) (Some n_out);
      opened ← lift (bc_crypto_decrypt (fst (snd sealed)) (zlen ct_out) (snd k2)
                       (snd (snd sealed)) (Some pt_out));
      mret (alice.1, bob.1, k1, k2, sealed.1, opened)) w
   (fun '(ra, rb, k1, k2, rs, opened) w' =>
      balanced w w' /\ ra = BC_OK /\ rb = BC_OK /\ rs = BC_OK /\
      k1 = k2 /\ fst k1 = BC_OK /\ opened = (BC_OK, Some pt)).
Proof.
  intros Hpt Hpa Hsa Hpb Hsb Hka Hkb Hct Hn Hout.
  apply wp_bind, wp_bind, wp_box_keypair. intros s1 pk1 sk1 w1 Hb1 _ He1 Hp1 Hs1.
  assert (Hw : forall dst l, length dst = 32%nat -> bytes_n 32 l -> mem_write dst 0 l = Val l).
  { intros dst l Hd [Hl _]. rewrite mem_write_front by zlen_lia.
    by rewrite drop_ge, (right_id_L [] (++)) by lia. }
  apply wp_bind. eapply wp_lift; [by apply Hw|]. apply wp_bind. eapply wp_lift; [by apply Hw|].
  apply wp_ret. apply wp_bind, wp_bind, wp_box_keypair. intros s2 pk2 sk2 w2 Hb2 _ He2 Hp2 Hs2.
  apply wp_bind. eapply wp_lift; [by apply Hw|]. apply wp_bind. eapply wp_lift; [by apply Hw|].
  apply wp_ret. cbn [fst snd].
  destruct (beforenm_agree _ _ _ _ _ _ He1 He2) as [Hag H0].
  destruct (crypto_box_beforenm pk2 sk1) as [rc k] eqn:Hk. cbn in H0. subst rc.
  assert (Hkn := beforenm_size _ _ _ _ Hp2 Hs1 Hk).
  assert (Hd : forall a b buf, length a = 32%nat -> length b = 32%nat -> length buf = 32%nat ->
    crypto_box_beforenm b a = (0, k) ->
    bc_crypto_derive_shared (Some a) (Some b) (Some buf) = Val (BC_OK, Some k)).
  { intros a b buf Ha Hb Hbuf Hak. unfold bc_crypto_derive_shared.
    change BC_PUBKEY_SIZE with (Z.of_nat 32).
    rewrite !mem_read_n by done. cbn [mbind res_bind]. by rewrite Hak, Hw. }
  apply wp_bind. eapply wp_lift; [apply Hd; [apply Hs1|apply Hp2|done|done]|].
  apply wp_bind. eapply wp_lift; [apply Hd; [apply Hs2|apply Hp1|done|done]|].
  cbn [fst snd]. apply wp_bind, wp_encrypt; [done|done|lia|done|].
  intros nonce ct w3 Hb3 Hnonce Hcb Hcl Henc. apply drawn_bytes in Hnonce. cbn [fst snd].
  apply wp_bind. eapply wp_lift.
  { rewrite Hct, <- Hcl. apply (decrypt_val ct); [done|done|done| |by apply (decrypt_encrypt pt)].
    change BC_TAG_SIZE with 16 in *. zlen_lia. }
  apply wp_ret. split_and!; try done; [by eauto with bitchat|].
  rewrite bool_decide_eq_false_2 by (intros Hne; by apply Hne).
  by rewrite drop_ge, (right_id_L [] (++)) by zlen_lia.
Qed.

(** C32: decryption is bounded and fails closed: a ciphertext shorter than the
    tag is refused and the output untouched; any other ciphertext writes
    exactly its length minus 16 bytes into the output (which the caller sized
    so), keeps the rest, and the call reports [BC_OK] only when the
    authenticated decryption accepted it. *)
Theorem decrypt_fails_closed ct key nonce pt_out :
  bytes_ok ct -> bytes_n 32 key -> bytes_n 24 nonce ->
  zlen ct <= zlen pt_out + BC_TAG_SIZE ->
  exists rc out,
    bc_crypto_decrypt (Some ct) (zlen ct) (Some key) (Some nonce) (Some pt_out) = Val (rc, Some out) /\
    zlen out = zlen pt_out /\
    if bool_decide (zlen ct < BC_TAG_SIZE)
    then rc = BC_ERR_INVALID /\ out = pt_out
    else exists code pt, aead_decrypt ct nonce key = (code, pt) /\
         zlen pt = zlen ct - BC_TAG_SIZE /\
         out = pt ++ drop (length pt) pt_out /\
         rc = if bool_decide (code = 0) then BC_OK else BC_ERR_CRYPTO.
Proof.
  intros Hct Hkey Hnonce Hlen. case_bool_decide as Hshort.
  { exists BC_ERR_INVALID, pt_out. unfold bc_crypto_decrypt.
    by rewrite bool_decide_eq_true_2. }
  destruct (aead_decrypt ct nonce key) as [code pt] eqn:Hd.
  destruct (decrypt_size ct nonce key code pt) as [Hl Hb]; [done| |done|].
  { change BC_TAG_SIZE with 16 in *. zlen_lia. }
  assert (Hv := decrypt_val ct [] key nonce pt_out code pt Hkey Hnonce Hct ltac:(lia) Hd).
  rewrite app_nil_r in Hv. eexists _, _. split; [exact Hv|].
  change BC_TAG_SIZE with 16 in *. split; [zlen_lia|].
  exists code, pt. split_and!; [done|zlen_lia|done|]. by do 2 case_bool_decide.
Qed.
End crypto_properties.

Lemma e2e_roundtrip_witness :
  let z := replicate 32 0 in
  let S := toy_sodium in
  wp (alice ← bc_crypto_generate_keypair (Some z) (Some z);
      bob ← bc_crypto_generate_keypair (Some z) (Some z);
      k1 ← lift (bc_crypto_derive_shared (snd (snd alice)) (fst (snd bob)) (Some z));
      k2 ← lift (bc_crypto_derive_shared (snd (snd bob)) (fst (snd alice)) (Some z));
      sealed ← bc_crypto_encrypt (Some [104; 105]) 2 (snd k1) (Some (replicate 18 0))
                 (Some (replicate 24 0));
      opened ← lift (bc_crypto_decrypt (fst (snd sealed)) 18 (snd k2)
                       (snd (snd sealed)) (Some [0; 0]));
      mret (alice.1, bob.1, k1, k2, sealed.1, opened)) (demo_os 0)
   (fun '(ra, rb, k1, k2, rs, opened) w' =>
      balanced (demo_os 0) w' /\ ra = BC_OK /\ rb = BC_OK /\ rs = BC_OK /\
      k1 = k2 /\ fst k1 = BC_OK /\ opened = (BC_OK, Some [104; 105])).
Proof.
  intros z S. apply (e2e_roundtrip (demo_os 0) [104; 105] z z z z z z (replicate 18 0)
    (replicate 24 0) [0; 0]); try reflexivity.
  apply (bool_decide_unpack _). vm_compute. exact I.
Defined.

Lemma decrypt_fails_closed_witness :
  let S := toy_sodium in
  exists rc out,
    bc_crypto_decrypt (Some (replicate 20 1)) 20 (Some (replicate 32 0))
      (Some (replicate 24 0)) (Some (replicate 4 9)) = Val (rc, Some out) /\
    zlen out = zlen (replicate 4 9) /\
    if bool_decide (zlen (replicate 20 1) < BC_TAG_SIZE)
    then rc = BC_ERR_INVALID /\ out = replicate 4 9
    else exists code pt, aead_decrypt (replicate 20 1) (replicate 24 0) (replicate 32 0) = (code, pt) /\
         zlen pt = zlen (replicate 20 1) - BC_TAG_SIZE /\
         out = pt ++ drop (length pt) (replicate 4 9) /\
         rc = if bool_decide (code = 0) then BC_OK else BC_ERR_CRYPTO.
Proof.
  intros S. apply (decrypt_fails_closed (replicate 20 1) (replicate 32 0) (replicate 24 0)
    (replicate 4 9)).
  - apply (bool_decide_unpack _). vm_compute. exact I.
  - apply (bool_decide_unpack _). vm_compute. exact I.
  - apply (bool_decide_unpack _). vm_compute. exact I.
  - vm_compute. discriminate.
Defined.
