(* ===== verification/Sealing.v ===== *)
(** * Sealing: the encrypted payloads of the two front ends

    The C API and the command-line node build and open payloads the same way:
    24 bytes of nonce, then ciphertext and tag under the key agreed with the
    peer.  This file states what such a payload is ([sealed], [opens]), that the
    two sides fit together, and the rule for the code that both front ends use
    to turn a plaintext into a message. *)
From S2P Require Import Prelude Effects Errors Sodium Message CryptoManager.

Section sealing.
Context `{Hna : !Sodium}.

(** [pl] carries [pt] encrypted with the secret key [sk] for [rcpt]. *)
Definition sealed (sk rcpt pt pl : list Z) : Prop :=
  exists key nonce ct, crypto_box_beforenm rcpt sk = (0, key) /\ bytes_n 24 nonce /\
    aead_encrypt pt nonce key = (0, ct) /\ pl = nonce ++ ct.

(** The same with a nonce that the random generator drew between [w] and [w']. *)
Definition sealed_afresh {W} `{!HasOS W} (w w' : W) (sk rcpt pt pl : list Z) : Prop :=
  exists key nonce ct, crypto_box_beforenm rcpt sk = (0, key) /\ drawn w w' 24 nonce /\
    aead_encrypt pt nonce key = (0, ct) /\ pl = nonce ++ ct.

(** [pt] is what the payload [pl] of a message from [sender] decrypts to under
    the secret key [sk]. *)
Definition opens (sk sender pl pt : list Z) : Prop :=
  BC_NONCE_SIZE + BC_TAG_SIZE <= zlen pl /\
  exists key, crypto_box_beforenm sender sk = (0, key) /\
    aead_decrypt (drop 24 pl) (take 24 pl) key = (0, pt).

(** [m] is the message the holder of [pk] and [sk] wrote to [rcpt] between [w]
    and [w'], saying [pt]: id and nonce are fresh, the time is the clock's. *)
Definition written {W} `{!HasOS W} (w w' : W) (pk sk rcpt pt : list Z)
    (m : bc_message) : Prop :=
  message_wf m /\ ttl m = BC_DEFAULT_TTL /\ sender_pubkey m = pk /\ receiver_pubkey m = rcpt /\
  sealed_afresh w w' sk rcpt pt (msg_payload m) /\ drawn w w' 16 (uuid m) /\
  clock_read w w' (timestamp m).

(** The pair comes from the key generator. *)
Definition generated (pk sk : list Z) : Prop :=
  exists seed, bytes_n 32 seed /\ crypto_box_keypair seed = (0, (pk, sk)).
End sealing.

Section lemmas.
Context {W : Type} `{!HasOS W, !WorldInv W}.
Context `{Hna : !Sodium} `{!SodiumSpec _}.
Implicit Types w : W.

Lemma opens_unique sk sender pl pt pt' : opens sk sender pl pt -> opens sk sender pl pt' -> pt = pt'.
Proof. intros (_ & k & Hk & Hd) (_ & k' & Hk' & Hd'). congruence. Qed.

(** A sealed payload is 40 bytes longer than the plaintext. *)
Lemma sealed_length sk rcpt pt pl :
  bytes_n 32 sk -> bytes_n 32 rcpt -> bytes_ok pt -> sealed sk rcpt pt pl ->
  zlen pl = zlen pt + BC_NONCE_SIZE + BC_TAG_SIZE.
Proof.
  intros Hsk Hrc Hpt (key & nonce & ct & Hk & [Hnl Hnb] & He & ->).
  assert (Hkey := beforenm_size _ _ _ _ Hrc Hsk Hk).
  destruct (encrypt_ok pt nonce key Hpt (conj Hnl Hnb) Hkey) as (ct' & He' & Hl & _).
  rewrite He in He'. injection He' as <-. change BC_NONCE_SIZE with 24. change BC_TAG_SIZE with 16.
  zlen_lia.
Qed.

Lemma opens_size sk sender pl pt :
  bytes_n 32 sk -> bytes_n 32 sender -> bytes_ok pl -> opens sk sender pl pt ->
  zlen pt = zlen pl - BC_NONCE_SIZE - BC_TAG_SIZE /\ bytes_ok pt.
Proof.
  intros Hsk Hs Hpl (Hle & key & Hk & Hd). assert (Hkey := beforenm_size _ _ _ _ Hs Hsk Hk).
  destruct (open_val pl key (replicate (length pl) 0) 0 pt Hkey Hpl Hle) as (_ & H); [|done|done].
  unfold BC_NONCE_SIZE, BC_TAG_SIZE, zlen. rewrite length_replicate. lia.
Qed.

Lemma generated_wf pk sk : generated pk sk -> bytes_n 32 pk /\ bytes_n 32 sk.
Proof.
  intros (seed & Hs & Hg). destruct (keypair_ok seed Hs) as (p & q & Hp & ? & ?).
  rewrite Hg in Hp. by injection Hp as <- <-.
Qed.

(** What one party seals for another, the other opens. *)
Lemma sealed_opens pk1 sk1 pk2 sk2 pt pl :
  generated pk1 sk1 -> generated pk2 sk2 -> bytes_ok pt ->
  sealed sk1 pk2 pt pl -> opens sk2 pk1 pl pt.
Proof.
  intros Hg1 Hg2 Hpt Hseal. destruct (generated_wf _ _ Hg1) as [_ Hsk1].
  destruct (generated_wf _ _ Hg2) as [Hpk2 _]. assert (Hlen := sealed_length _ _ _ _ Hsk1 Hpk2 Hpt Hseal).
  assert (H0 := zlen_nonneg pt). split; [lia|].
  destruct Hg1 as (s1 & _ & H1), Hg2 as (s2 & _ & H2), Hseal as (key & nonce & ct & Hk & Hn & He & ->).
  destruct (beforenm_agree s1 s2 pk1 sk1 pk2 sk2 H1 H2) as [Hag _].
  assert (Hkey := beforenm_size _ _ _ _ Hpk2 Hsk1 Hk).
  exists key. split; [congruence|]. rewrite take_app_length', drop_app_length' by (symmetry; apply Hn).
  by apply decrypt_encrypt.
Qed.

Lemma sealed_afresh_sealed w w' sk rcpt pt pl :
  sealed_afresh w w' sk rcpt pt pl -> sealed sk rcpt pt pl.
Proof.
  intros (key & nonce & ct & Hk & Hd & He & Hp). exists key, nonce, ct.
  split_and!; try done; by eapply drawn_bytes.
Qed.

(** What was written in a period was written in a longer one. *)
Lemma written_within w0 w w' w1 pk sk rcpt pt m :
  later w0 w -> written w w' pk sk rcpt pt m -> later w' w1 -> written w0 w1 pk sk rcpt pt m.
Proof.
  intros H0 (Hm & Ht & Hs & Hr & (key & nonce & ct & Hk & Hn & He & Hp) & Hu & Hc) H1.
  split_and!; try done; [|by eauto with bitchat..].
  exists key, nonce, ct. split_and!; by eauto with bitchat.
Qed.

Lemma written_os w0 w w' w1 pk sk rcpt pt m :
  get_os w = get_os w0 -> get_os w1 = get_os w' ->
  written w w' pk sk rcpt pt m -> written w0 w1 pk sk rcpt pt m.
Proof. unfold written, sealed_afresh, drawn, clock_read. by intros -> ->. Qed.

(** Encrypting into a fresh buffer [b], making a message of it and freeing the
    buffer. *)
Lemma wp_seal {A} pk sk rcpt key pt b (fail : Z -> M W A) (k : option (box bc_message) -> M W A)
    w0 w (Q : A -> W -> Prop) :
  heap_ok w0 -> bytes_n 32 pk -> bytes_n 32 rcpt -> bytes_n 32 key -> bytes_ok pt ->
  crypto_box_beforenm rcpt sk = (0, key) -> zlen pt + 40 < 2 ^ 31 ->
  acquired {[addr b]} w0 w -> bytes_n (Z.to_nat (24 + (zlen pt + 16))) (contents b) ->
  (forall w', ~ never_oom w0 -> balanced w0 w' -> silent w w' -> wp (k None) w' Q) ->
  (forall m w', owns_message m w0 w' -> silent w w' -> written w w' pk sk rcpt pt (contents m) ->
     payload_len (contents m) < 2 ^ 31 -> wp (k (Some m)) w' Q) ->
  wp ('(rc, (ct, nonce)) ← bc_crypto_encrypt (Some pt) (zlen pt) (Some key)
          (Some (drop (Z.to_nat BC_NONCE_SIZE) (contents b)))
          (Some (take (Z.to_nat BC_NONCE_SIZE) (contents b)));
      if bool_decide (rc <> BC_OK) then fail rc else
      msg ← bc_message_create (Some pk) (Some rcpt)
              (Some (default [] nonce ++ default [] ct)) (24 + (zlen pt + 16));
      c_free (Some (addr b));; k msg) w Q.
Proof.
  intros Hok Hpk Hrc Hkey Hpt Hk Hlen Ha [Hbl _] HN HS.
  change (Z.to_nat BC_NONCE_SIZE) with 24%nat. assert (Hp0 := zlen_nonneg pt).
  apply wp_bind, wp_quiet; [apply quiet_encrypt|].
  apply wp_encrypt; [done|done|change BC_TAG_SIZE with 16; zlen_lia|zlen_lia|].
  intros nonce ct w1 Hb1 Hdr Hct Hcl He Hs1. assert (Hn := drawn_bytes _ _ _ _ Hdr). change BC_TAG_SIZE with 16 in Hcl. cbn [fst snd from_option id].
  rewrite bool_decide_eq_false_2 by (intros Hx; by apply Hx).
  rewrite (drop_ge (drop 24 (contents b))), app_nil_r by zlen_lia.
  assert (Hnl : length nonce = 24%nat) by apply Hn.
  replace (24 + (zlen pt + 16)) with (zlen (nonce ++ ct)) by zlen_lia.
  assert (Ha1 : acquired {[addr b]} w0 w1) by by eauto with bitchat.
  apply wp_bind, wp_quiet; [apply quiet_create|].
  apply wp_create; [by eauto with bitchat|done|done| |zlen_lia|].
  { apply bytes_ok_app. split; [apply Hn|done]. }
  intros res w2 [(-> & Hb2 & Hoom)|(m & -> & Hown & Httl & Hs & Hr & Hpl & Hclk & Hu)] Hs2;
    apply wp_bind, wp_quiet; try apply quiet_free.
  - apply (wp_free_acquired (addr b) {[addr b]} w0); [by eauto with bitchat|set_solver|].
    intros w3 Hl3 Ha3 Hs3. rewrite difference_diag_L in Ha3. apply acquired_nil in Ha3.
    apply HN; [|done|by eauto with bitchat]. intros Hno. apply Hoom. by eauto with bitchat.
  - destruct Hown as (Hm & Hd & Ham). assert (Hdis := acquired_disjoint _ _ _ _ _ Ha1 Ham).
    assert (Hau := acquired_union _ _ _ _ _ Ha1 Ham).
    apply (wp_free_acquired (addr b) _ _ _ _ Hau); [set_solver|].
    intros w3 Hl3 Ha3 Hs3. replace (_ ∖ _) with (msg_blocks m) in Ha3 by set_solver.
    assert (Hml : payload_len (contents m) = zlen (msg_payload (contents m))) by apply Hm.
    assert (Hl13 : later w1 w3) by by eauto with bitchat.
    apply HS; [done|by eauto with bitchat| |rewrite Hml, Hpl; zlen_lia].
    split_and!; try done; [|by eauto with bitchat..].
    exists key, nonce, ct. rewrite Hpl. split_and!; by eauto with bitchat.
Qed.

(** Agreeing on the key with [pk] in a buffer on the stack. *)
Lemma wp_agree {A} sk pk (fail : Z -> M W A) (k : option (list Z) -> M W A) w (Q : A -> W -> Prop) :
  bytes_n 32 sk -> bytes_n 32 pk ->
  (forall w', balanced w w' -> silent w w' -> fst (crypto_box_beforenm pk sk) <> 0 ->
     wp (fail BC_ERR_CRYPTO) w' Q) ->
  (forall key w', balanced w w' -> silent w w' -> crypto_box_beforenm pk sk = (0, key) ->
     bytes_n 32 key -> wp (k (Some key)) w' Q) ->
  wp (shared_key ← stack_buffer BC_SHARED_KEY_SIZE;
      '(rc, shared_key) ← lift (bc_crypto_derive_shared (Some sk) (Some pk) (Some shared_key));
      if bool_decide (rc <> BC_OK) then fail rc else k shared_key) w Q.
Proof.
  intros Hsk Hpk HF HS. apply wp_bind, wp_quiet; [apply quiet_stack|].
  apply wp_indeterminate. intros buf w1 [Hbl _] Hb1 Hs1.
  destruct (crypto_box_beforenm pk sk) as [rc key] eqn:Hk.
  destruct (derive_val _ _ buf rc key Hsk Hpk Hbl Hk) as [Hder Hkey].
  apply wp_bind. eapply wp_lift; [exact Hder|]. cbn [fst snd].
  destruct (decide (rc = 0)) as [->|Hrc].
  - rewrite bool_decide_eq_false_2 by (intros Hx; by apply Hx). by apply HS.
  - rewrite (bool_decide_eq_true_2 (rc <> 0)), bool_decide_eq_true_2 by done. by apply HF.
Qed.

(** The use of a buffer that was allocated at [w], started at [w1]: it gives back
    what it takes, and freeing the buffer afterwards establishes [Q]. *)
Definition used_then w w1 (Q : unit -> W -> Prop) (_ : unit) w2 : Prop :=
  balanced w1 w2 /\ forall w3, balanced w w3 -> silent w2 w3 -> Q tt w3.

(** Decrypting a payload into a fresh buffer of [n] bytes, using the result and
    freeing the buffer. *)
Lemma wp_open pl key n (use : Z -> option (list Z) -> M W unit) w (Q : unit -> W -> Prop) :
  heap_ok w -> bytes_n 32 key -> bytes_ok pl -> BC_NONCE_SIZE + BC_TAG_SIZE <= zlen pl ->
  zlen pl - BC_NONCE_SIZE - BC_TAG_SIZE <= n ->
  (forall w', ~ never_oom w -> balanced w w' -> silent w w' -> Q tt w') ->
  (forall out rc pt w1, zlen out = n -> aead_decrypt (drop 24 pl) (take 24 pl) key = (rc, pt) ->
     zlen pt = zlen pl - BC_NONCE_SIZE - BC_TAG_SIZE -> bytes_ok pt ->
     later w w1 -> silent w w1 ->
     wp (use (if bool_decide (rc = 0) then BC_OK else BC_ERR_CRYPTO) (Some (pt ++ drop (length pt) out)))
       w1 (used_then w w1 Q)) ->
  wp (plaintext ← c_malloc n;
      match plaintext with
      | None => mret tt
      | Some plaintext =>
          '(rc, out) ← lift (bc_crypto_decrypt (Some (drop (Z.to_nat BC_NONCE_SIZE) pl))
             (zlen pl - BC_NONCE_SIZE) (Some key) (Some pl) (Some (contents plaintext)));
          use rc out;; c_free (Some (addr plaintext))
      end) w Q.
Proof.
  intros Hok Hkey Hpb Hlen Hn HN HS. apply wp_bind, wp_quiet; [apply quiet_malloc|].
  apply wp_malloc; [done|by intros; apply wp_ret, HN|]. intros b w1 [Hbl _] Ha1 Hs1.
  assert (Hbz : zlen (contents b) = n) by (unfold zlen; rewrite Hbl; lia).
  destruct (aead_decrypt (drop 24 pl) (take 24 pl) key) as [rc pt] eqn:Hdec.
  destruct (open_val pl key (contents b) rc pt Hkey Hpb) as (Hop & Hptl & Hptb); [done|lia|done|].
  apply wp_bind. eapply wp_lift; [exact Hop|]. cbv beta iota. apply wp_bind.
  replace (if bool_decide (rc <> 0) then BC_ERR_CRYPTO else BC_OK)
    with (if bool_decide (rc = 0) then BC_OK else BC_ERR_CRYPTO)
    by (destruct (decide (rc = 0)); repeat case_bool_decide; try done; by destruct H0).
  eapply wp_mono; [apply (HS (contents b) rc pt w1); try done; apply Ha1|].
  intros [] w2 [Hb2 HQ]. apply wp_quiet; [apply quiet_free|].
  apply (wp_free_acquired (addr b) {[addr b]} w); [by eauto with bitchat|set_solver|].
  intros w3 _ Ha3 Hs3. rewrite difference_diag_L in Ha3. apply acquired_nil in Ha3. by apply HQ.
Qed.

(** Opening a received payload as both delivery callbacks do: a payload that is
    too short is ignored, a key is agreed on with the sender, the plaintext is
    decrypted into a fresh buffer, used and freed. *)
Lemma wp_open_sealed sk pk pl n (use : Z -> option (list Z) -> M W unit) w (Q : unit -> W -> Prop) :
  heap_ok w -> bytes_n 32 sk -> bytes_n 32 pk -> bytes_ok pl ->
  (BC_NONCE_SIZE + BC_TAG_SIZE <= zlen pl -> zlen pl - BC_NONCE_SIZE - BC_TAG_SIZE <= n) ->
  (forall w', balanced w w' -> silent w w' ->
     ~ never_oom w \/ (forall pt, ~ opens sk pk pl pt) -> Q tt w') ->
  (forall out pt w1, zlen out = n -> opens sk pk pl pt ->
     zlen pt = zlen pl - BC_NONCE_SIZE - BC_TAG_SIZE -> bytes_ok pt -> later w w1 -> silent w w1 ->
     wp (use BC_OK (Some (pt ++ drop (length pt) out))) w1 (used_then w w1 Q)) ->
  (forall out w1, (forall pt, ~ opens sk pk pl pt) -> later w w1 -> silent w w1 ->
     wp (use BC_ERR_CRYPTO out) w1 (used_then w w1 Q)) ->
  wp (if bool_decide (zlen pl < BC_NONCE_SIZE + BC_TAG_SIZE) then mret tt else
      shared_key ← stack_buffer BC_SHARED_KEY_SIZE;
      '(rc, shared_key) ← lift (bc_crypto_derive_shared (Some sk) (Some pk) (Some shared_key));
      if bool_decide (rc <> BC_OK) then mret tt else
      plaintext ← c_malloc n;
      match plaintext with
      | None => mret tt
      | Some plaintext =>
          '(rc, out) ← lift (bc_crypto_decrypt (Some (drop (Z.to_nat BC_NONCE_SIZE) pl))
             (zlen pl - BC_NONCE_SIZE) shared_key (Some pl) (Some (contents plaintext)));
          use rc out;; c_free (Some (addr plaintext))
      end) w Q.
Proof.
  intros Hok Hsk Hpk Hpb Hn HN HS HF. case_bool_decide as Hshort.
  { apply wp_ret, HN; [apply balanced_refl|apply quiet_refl|right]. intros pt [Hle _]. lia. }
  apply wp_agree; [done|done| |].
  { intros w1 Hb1 Hs1 Hk. apply wp_ret, HN; [done|done|right]. intros pt (_ & k & Hk' & _).
    by rewrite Hk' in Hk. }
  intros key w1 Hb1 Hs1 Hk Hkey.
  apply wp_open; try done; [by eauto with bitchat|lia|lia| |].
  { intros w2 Ho Hb2 Hs2. apply HN; [by eauto with bitchat|by eapply quiet_trans|left].
    intros Hno. apply Ho. by eauto with bitchat. }
  intros out rc pt w2 Hout Hdec Hptl Hptb Hl2 Hs2.
  assert (Hl : later w w2) by (eapply later_trans; [apply Hb1|done]).
  assert (Hs := quiet_trans _ _ _ Hs1 Hs2).
  destruct (decide (rc = 0)) as [->|Hrc].
  - rewrite bool_decide_eq_true_2 by done.
    eapply wp_mono; [apply HS; try done; split; [lia|by exists key]|].
    intros [] w3 [Hb3 HQ]. split; [done|]. intros w4 Hb4. apply HQ. by eauto with bitchat.
  - rewrite bool_decide_eq_false_2 by done.
    eapply wp_mono; [apply HF; try done; intros pt' (_ & k & Hk' & Hd'); congruence|].
    intros [] w3 [Hb3 HQ]. split; [done|]. intros w4 Hb4. apply HQ. by eauto with bitchat.
Qed.
End lemmas.
