(* ===== verification/Discovery.v ===== *)
(** * Discovery: the peer discovery manager

    Models [src/usecase/node_discovery.c] and
    [include/bitchat/usecase/node_discovery.h].  Like the router, the manager is
    a value passed to each operation and returned as the operation leaves it. *)
From S2P Require Import Prelude Effects Errors Sodium Message Peer Ports Sockets World UdpTransport.

Record bc_discovery (W : Type) : Type := mkDiscovery {
  disc_transport : option (bc_transport W);
  disc_peers : list bc_peer;
  disc_peer_count : Z;
  on_found : option (bc_peer -> Z -> M W unit);
  disc_userdata : Z
}.
Arguments mkDiscovery {W}.
Arguments disc_transport {W}.
Arguments disc_peers {W}.
Arguments disc_peer_count {W}.
Arguments on_found {W}.
Arguments disc_userdata {W}.

Definition set_disc_peers {W} (ps : list bc_peer) (n : Z) (d : bc_discovery W) : bc_discovery W :=
  mkDiscovery (disc_transport d) ps n (on_found d) (disc_userdata d).

Section discovery.
Context {W : Type} `{!HasOS W}.

Definition bc_discovery_create (transport : option (bc_transport W))
    : M W (option (box (bc_discovery W))) :=
  d ← c_alloc;
  match d with
  | None => mret None
  | Some d =>
      mret (Some (Box d (mkDiscovery transport
        (replicate (Z.to_nat BC_MAX_PEERS) zero_peer) 0 None 0)))
  end.

Definition bc_discovery_on_peer_found (disc : option (bc_discovery W))
    (callback : option (bc_peer -> Z -> M W unit)) (userdata : Z) : option (bc_discovery W) :=
  match disc with
  | None => None
  | Some d => Some (mkDiscovery (disc_transport d) (disc_peers d) (disc_peer_count d)
                      callback userdata)
  end.

(** An uninitialized [bc_peer_t found[n]]. *)
Fixpoint stack_peers (n : nat) : M W (list bc_peer) :=
  match n with
  | O => mret []
  | S n' =>
      pk ← stack_buffer BC_PUBKEY_SIZE;
      seen ← stack_buffer 8;
      sig ← stack_buffer 1;
      rest ← stack_peers n';
      mret (mkPeer pk (be_decode seen) BC_TRANSPORT_BLE (be_decode sig - 2 ^ 7) :: rest)
  end.

(** The body of the loop of [bc_discovery_scan], for the found peer [p]. *)
Definition scan_one (p : bc_peer) (d : bc_discovery W) : M W (bc_discovery W) :=
  at_j ← lift (find_peer (disc_peers d) (peer_pubkey p) (Z.to_nat (disc_peer_count d)) 0);
  match at_j with
  | Some j =>
      q ← lift (arr_get (disc_peers d) j);
      t ← bc_peer_touch (Some q);
      let q := default q t in
      ps ← lift (arr_set (disc_peers d) j
             (mkPeer (peer_pubkey q) (last_seen q) (peer_transport q) (rssi p)));
      mret (set_disc_peers ps (disc_peer_count d) d)
  | None =>
      if bool_decide (disc_peer_count d < BC_MAX_PEERS) then
        ps ← lift (arr_set (disc_peers d) (disc_peer_count d) p);
        match on_found d with
        | None => mret tt
        | Some f => f p (disc_userdata d)
        end;;
        mret (set_disc_peers ps (disc_peer_count d + 1) d)
      else mret d
  end.

(** The loop over [found]: [n] entries from [i] on. *)
Fixpoint scan_loop (found : list bc_peer) (n : nat) (i : Z) (d : bc_discovery W)
    : M W (bc_discovery W) :=
  match n with
  | O => mret d
  | S n' =>
      p ← lift (arr_get found i);
      d ← scan_one p d;
      scan_loop found n' (i + 1) d
  end.

Definition bc_discovery_scan (disc : option (bc_discovery W)) : M W (Z * option (bc_discovery W)) :=
  match disc with
  | None => mret (BC_ERR_INVALID, None)
  | Some d =>
      match disc_transport d ≫= t_discover_peers with
      | None => mret (BC_ERR_INVALID, Some d)
      | Some discover_peers =>
          found ← stack_peers (Z.to_nat BC_MAX_PEERS);
          '(rc, (found, found_count)) ← discover_peers found BC_MAX_PEERS 0;
          if bool_decide (rc <> BC_OK) then mret (rc, Some d) else
          d ← scan_loop found (Z.to_nat found_count) 0 d;
          mret (BC_OK, Some d)
      end
  end.

(** The number of peers copied and the caller's array. *)
Definition bc_discovery_get_peers (disc : option (bc_discovery W))
    (peers_out : option (list bc_peer)) (max : Z) : res (Z * option (list bc_peer)) :=
  match disc, peers_out with
  | Some d, Some out =>
      if bool_decide (max = 0) then Val (0, peers_out) else
      let n := if bool_decide (disc_peer_count d < max) then disc_peer_count d else max in
      if bool_decide (n <= zlen (disc_peers d) /\ n <= zlen out)
      then Val (n, Some (take (Z.to_nat n) (disc_peers d) ++ drop (Z.to_nat n) out))
      else UB
  | _, _ => Val (0, peers_out)
  end.

Definition bc_discovery_destroy (disc : option blk) : M W unit := c_free disc.
End discovery.

(** ** Specification *)

Definition disc_known {W} (d : bc_discovery W) : list bc_peer :=
  table_peers (disc_peers d) (disc_peer_count d).

Definition discovery_wf {W} (d : bc_discovery W) : Prop :=
  peer_table_wf (disc_peers d) (disc_peer_count d).

(** The peers of [found] that a table of [n] entries with the keys [ks] gains,
    in order: those whose key is new, while there is room. *)
Fixpoint new_peers (ks : list (list Z)) (found : list bc_peer) : list bc_peer :=
  match found with
  | [] => []
  | p :: found' =>
      if bool_decide ((peer_pubkey p ∉ ks) /\ zlen ks < BC_MAX_PEERS)
      then p :: new_peers (ks ++ [peer_pubkey p]) found'
      else new_peers ks found'
  end.

(** One reported peer merged into the table at the time [now]: a known key
    keeps its place and its transport and gets the time and the signal strength,
    a new one is appended while there is room. *)
Definition merge_peer (ps : list bc_peer) (p : bc_peer) (now : Z) : list bc_peer :=
  if bool_decide (peer_pubkey p ∈ peer_pubkey <$> ps)
  then (fun q => if bool_decide (peer_pubkey q = peer_pubkey p)
                 then mkPeer (peer_pubkey q) now (peer_transport q) (rssi p) else q) <$> ps
  else if bool_decide (zlen ps < BC_MAX_PEERS) then ps ++ [p] else ps.

Section discovery_spec.
Context {W : Type} `{!HasOS W, !WorldInv W}.

(** The reported peers merged one after the other, each known one at a time that
    the clock answered between [w] and [w']. *)
Inductive merged (w w' : W) : list bc_peer -> list bc_peer -> list bc_peer -> Prop :=
| merged_nil ps : merged w w' ps [] ps
| merged_cons ps p found now ps' :
    (peer_pubkey p ∈ peer_pubkey <$> ps -> clock_read w w' now) ->
    merged w w' (merge_peer ps p now) found ps' -> merged w w' ps (p :: found) ps'.

(** The callback of the manager is safe to run. *)
Definition found_safe (d : bc_discovery W) : Prop :=
  forall f, on_found d = Some f -> forall p u w, heap_ok w -> peer_wf p ->
    wp (f p u) w (fun _ w' => balanced w w').

(** The callback ran for each of [ps], in order, with nothing but run-time calls
    in between. *)
Inductive notified (d : bc_discovery W) : list bc_peer -> W -> W -> Prop :=
| notified_done w w' : idle w w' -> notified d [] w w'
| notified_call p ps w w1 w2 w' :
    idle w w1 ->
    match on_found d with
    | None => w2 = w1
    | Some f => f p (disc_userdata d) w1 = Val (tt, w2)
    end ->
    notified d ps w2 w' -> notified d (p :: ps) w w'.
End discovery_spec.

(** ** Lemmas *)

Section discovery_lemmas.
Context {W : Type} `{!HasOS W, !WorldInv W}.
Implicit Types (w : W) (d : bc_discovery W).

Lemma notified_before d ps w0 w w' :
  idle w0 w -> notified d ps w w' -> notified d ps w0 w'.
Proof.
  intros Hb. destruct 1 as [w w' Hb'|p ps w w1 w2 w' Hb' Hcall Hrest].
  - apply notified_done. by eauto with bitchat.
  - eapply notified_call; [|done|done]. by eauto with bitchat.
Qed.

Lemma wp_stack_peers n w :
  wp (stack_peers n) w (fun l w' => balanced w w' /\ length l = n /\ Forall peer_wf l).
Proof.
  revert w. induction n as [|n IH]; intros w; cbn [stack_peers].
  { apply wp_ret. split_and!; try done. }
  apply wp_bind, wp_indeterminate. intros pk w1 Hpk Hb1.
  apply wp_bind, wp_indeterminate. intros seen w2 [Hsl Hsb] Hb2.
  apply wp_bind, wp_indeterminate. intros sig w3 [Hgl Hgb] Hb3.
  apply wp_bind. eapply wp_mono; [apply IH|]. intros l w4 (Hb4 & Hl & Hall). apply wp_ret.
  split_and!; [by eauto with bitchat|cbn; lia|]. constructor; [|done].
  assert (Hs := be_decode_range _ Hsb). assert (Hg := be_decode_range _ Hgb).
  unfold zlen in *. rewrite Hsl in Hs. rewrite Hgl in Hg.
  change (2 ^ (8 * _)) with (2 ^ 64) in Hs. change (2 ^ (8 * _)) with (2 ^ 8) in Hg.
  split; [done|]. cbn [last_seen rssi]. unfold is_u64. lia.
Qed.

Lemma quiet_stack_peers n : quiet (stack_peers (W := W) n).
Proof. induction n as [|n IH]; cbn [stack_peers]; solve_quiet. Qed.

Lemma merged_within w0 w w' w1 ps found ps' :
  later w0 w -> later w' w1 -> merged w w' ps found ps' -> merged w0 w1 ps found ps'.
Proof.
  intros H0 H1. induction 1 as [|ps p found now ps' Hclk _ IH]; [constructor|].
  econstructor; [|exact IH]. intros Hk. specialize (Hclk Hk). by eauto with bitchat.
Qed.

Lemma merged_app w w' ps found ps1 found' ps' :
  merged w w' ps found ps1 -> merged w w' ps1 found' ps' -> merged w w' ps (found ++ found') ps'.
Proof. induction 1; [done|]. intros. cbn. econstructor; by eauto. Qed.

Lemma merged_one w w' ps p now :
  (peer_pubkey p ∈ peer_pubkey <$> ps -> clock_read w w' now) -> merged w w' ps [p] (merge_peer ps p now).
Proof. intros. econstructor; [done|constructor]. Qed.

Lemma notified_app d ps qs w w1 w2 :
  notified d ps w w1 -> notified d qs w1 w2 -> notified d (ps ++ qs) w w2.
Proof.
  induction 1; intros; [by eapply notified_before|cbn; eapply notified_call; eauto].
Qed.

Lemma new_peers_cons ks p rest :
  new_peers ks (p :: rest) =
    new_peers ks [p] ++ new_peers (ks ++ (peer_pubkey <$> new_peers ks [p])) rest.
Proof. cbn. case_bool_decide; cbn; [done|]. by rewrite app_nil_r. Qed.

(** What one found peer, or a list of them, does to the manager. *)
Definition scanned (found : list bc_peer) d w d' w' : Prop :=
  let new := new_peers (peer_pubkey <$> disc_known d) found in
  discovery_wf d' /\ balanced w w' /\
  peer_pubkey <$> disc_known d' = (peer_pubkey <$> disc_known d) ++ (peer_pubkey <$> new) /\
  disc_transport d' = disc_transport d /\ on_found d' = on_found d /\
  disc_userdata d' = disc_userdata d /\
  merged w w' (disc_known d) found (disc_known d') /\ notified d new w w'.

Lemma disc_known_set ps n d : disc_known (set_disc_peers ps n d) = table_peers ps n.
Proof. done. Qed.

Lemma wp_scan_known p q j d w :
  discovery_wf d -> heap_ok w -> peer_wf p -> 0 <= j < disc_peer_count d ->
  disc_known d !! Z.to_nat j = Some q -> peer_pubkey q = peer_pubkey p ->
  wp (q ← lift (arr_get (disc_peers d) j);
      t ← bc_peer_touch (Some q);
      let q := default q t in
      ps ← lift (arr_set (disc_peers d) j
             (mkPeer (peer_pubkey q) (last_seen q) (peer_transport q) (rssi p)));
      mret (set_disc_peers ps (disc_peer_count d) d)) w (scanned [p] d w).
Proof.
  intros Hwf Hok Hpw Hj Hq Hqk.
  assert (Hcnt : disc_peer_count d <= BC_MAX_PEERS) by apply Hwf.
  assert (Hlen : zlen (disc_peers d) = BC_MAX_PEERS) by apply Hwf.
  assert (Hq' := Hq). apply table_peers_lookup in Hq' as [Hq' _].
  apply wp_bind. eapply wp_lift; [apply arr_get_ok; [lia|done]|].
  apply wp_bind, wp_quiet; [apply quiet_peer_touch|]. apply wp_peer_touch. intros now w1 Hb1 Hclk Hs1.
  cbn [default from_option Datatypes.id peer_pubkey last_seen peer_transport].
  apply wp_bind. eapply wp_lift; [apply arr_set_ok; lia|]. apply wp_ret.
  destruct (peer_table_update _ _ (Z.to_nat j) q
    (mkPeer (peer_pubkey q) now (peer_transport q) (rssi p)) Hwf) as [Hwf1 Hkn]; [|done|done|].
  { assert (Hqw : peer_wf q)
      by (apply (Forall_lookup_1 _ _ _ _ (proj1 (proj2 (proj2 Hwf))) Hq')).
    split; [apply Hqw|]. split; [cbn; by eauto with bitchat|apply Hpw]. }
  assert (Hin : peer_pubkey p ∈ peer_pubkey <$> disc_known d)
    by (rewrite <- Hqk; apply list_elem_of_fmap_2; by eapply list_elem_of_lookup_2).
  unfold scanned. cbn [new_peers]. rewrite bool_decide_eq_false_2 by tauto.
  rewrite disc_known_set, Hkn.
  split; [exact Hwf1|]. split; [done|]. split.
  { rewrite list_fmap_insert, app_nil_r. cbn. apply list_insert_id. by rewrite list_lookup_fmap, Hq. }
  do 3 (split; [done|]). split; [|by apply notified_done, balanced_idle].
  replace (<[_ := _]> _) with (merge_peer (disc_known d) p now); [by apply merged_one|].
  unfold merge_peer. rewrite bool_decide_eq_true_2 by done.
  by apply (fmap_entry (fun q => mkPeer (peer_pubkey q) now (peer_transport q) (rssi p))); [apply Hwf|..].
Qed.

Lemma wp_notify d p w :
  found_safe d -> heap_ok w -> peer_wf p ->
  wp (match on_found d with
      | None => mret tt
      | Some f => f p (disc_userdata d)
      end) w (fun _ w1 => balanced w w1 /\ notified d [p] w w1).
Proof.
  intros Hsafe Hok Hpw.
  assert (Hd : forall w1, match on_found d with
      | None => w1 = w | Some f => f p (disc_userdata d) w = Val (tt, w1) end ->
    notified d [p] w w1).
  { intros w1 Hc. eapply notified_call; [apply idle_refl|exact Hc|].
    apply notified_done, idle_refl. }
  destruct (on_found d) as [f|] eqn:Hf; [|by apply wp_ret; split; [apply balanced_refl|apply Hd]].
  assert (Hs := Hsafe f Hf p (disc_userdata d) w Hok Hpw).
  apply wp_val in Hs as ([] & w1 & Hrun & Ha). unfold wp. rewrite Hrun.
  split; [done|by apply Hd].
Qed.

Lemma wp_scan_one p d w :
  discovery_wf d -> found_safe d -> heap_ok w -> peer_wf p ->
  wp (scan_one p d) w (scanned [p] d w).
Proof.
  intros Hwf Hsafe Hok Hpw. unfold scan_one.
  assert (Hlen : zlen (disc_peers d) = BC_MAX_PEERS) by apply Hwf.
  assert (Hcnt : 0 <= disc_peer_count d <= BC_MAX_PEERS) by apply Hwf.
  assert (Hkl := table_peers_length _ _ Hwf). fold (disc_known d) in Hkl.
  assert (Hkk : zlen (peer_pubkey <$> disc_known d) = disc_peer_count d)
    by (unfold zlen in *; by rewrite length_fmap).
  destruct (peer_table_find _ _ (peer_pubkey p) Hwf) as (o & Ho & Hspec); [apply Hpw|].
  apply wp_bind, (wp_lift _ _ _ _ Ho). destruct o as [j|].
  { destruct Hspec as [Hj (q & Hq & Hqk)]. by eapply wp_scan_known. }
  fold (disc_known d) in Hspec. case_bool_decide as Hroom.
  - apply wp_bind. eapply wp_lift; [apply arr_set_ok; lia|].
    destruct (peer_table_append _ _ p Hwf) as [Hwf1 Hkn]; try done.
    apply wp_bind. eapply wp_mono; [by apply wp_notify|]. intros _ w1 [Hok1 Hnot].
    apply wp_ret. unfold scanned. cbn [new_peers].
    rewrite bool_decide_eq_true_2 by (split; [done|lia]).
    rewrite disc_known_set, Hkn.
    split; [exact Hwf1|]. split; [done|]. split; [by rewrite fmap_app|].
    do 3 (split; [done|]). split; [|done].
    replace (_ ++ [p]) with (merge_peer (disc_known d) p 0); [by apply merged_one|].
    unfold merge_peer. by rewrite bool_decide_eq_false_2, bool_decide_eq_true_2 by (done || lia).
  - apply wp_ret. unfold scanned. cbn [new_peers].
    rewrite bool_decide_eq_false_2 by (intros [_ ?]; lia). cbn. rewrite app_nil_r.
    do 6 (split; [done || apply balanced_refl|]). split; [|apply notified_done, idle_refl].
    replace (disc_known d) with (merge_peer (disc_known d) p 0) at 2; [by apply merged_one|].
    unfold merge_peer. by rewrite !bool_decide_eq_false_2 by (done || lia).
Qed.

Lemma scanned_cons p rest d w d1 w1 d2 w2 :
  scanned [p] d w d1 w1 -> scanned rest d1 w1 d2 w2 -> scanned (p :: rest) d w d2 w2.
Proof.
  intros (Hwf1 & Hok1 & Hk1 & Ht1 & Hf1 & Hu1 & Hm1 & Hn1)
    (Hwf2 & Hok2 & Hk2 & Ht2 & Hf2 & Hu2 & Hm2 & Hn2).
  unfold scanned. rewrite new_peers_cons, <- Hk1. split; [done|]. split; [by eauto with bitchat|].
  split_and!; try congruence.
  - by rewrite Hk2, Hk1 at 1; rewrite fmap_app, (assoc_L (++)).
  - apply (merged_app _ _ _ [p] (disc_known d1));
      [apply (merged_within w w w1)|apply (merged_within w w1 w2)];
      first [done|apply later_refl|by eauto with bitchat].
  - eapply notified_app; [done|]. revert Hn2. clear -Hf1 Hu1.
    induction 1 as [|? ? ? ? ? ? ? Hcall]; [by apply notified_done|].
    eapply notified_call; [done|by rewrite <- Hf1, <- Hu1|done].
Qed.

(** The whole scan: the table gains exactly the new peers, each announced once,
    and keeps the order of the others. *)
Lemma wp_scan_loop found n i d w :
  discovery_wf d -> found_safe d -> heap_ok w -> Forall peer_wf found ->
  0 <= i -> i + Z.of_nat n <= zlen found ->
  wp (scan_loop found n i d) w (scanned (take n (drop (Z.to_nat i) found)) d w).
Proof.
  intros Hwf Hsafe Hok Hall. revert i d w Hwf Hsafe Hok.
  induction n as [|n IH]; intros i d w Hwf Hsafe Hok Hi Hn; cbn [scan_loop].
  { apply wp_ret. unfold scanned. cbn. rewrite app_nil_r. split_and!; try done;
      [constructor|apply notified_done, idle_refl]. }
  destruct (arr_get_in_range found i) as (p & Hp & Hget); [lia|].
  assert (Hpw : peer_wf p) by apply (Forall_lookup_1 _ _ _ _ Hall Hp).
  apply wp_bind, (wp_lift _ _ _ _ Hget), wp_bind.
  eapply wp_mono; [by apply wp_scan_one|]. intros d1 w1 Hs1.
  assert (Hs1' := Hs1). destruct Hs1' as (Hwf1 & Hok1 & _ & _ & Hf1 & _ & _).
  eapply wp_mono; [apply IH; [done| |by eauto with bitchat|lia|lia]|].
  { intros f Hf. rewrite Hf1 in Hf. by apply Hsafe. }
  intros d2 w2 Hs2. rewrite (drop_S _ _ _ Hp). cbn [take].
  replace (S (Z.to_nat i)) with (Z.to_nat (i + 1)) by lia. by eapply scanned_cons.
Qed.

(** What a scan may lead to. *)
Definition scan_result d w (rc : Z) d' w' : Prop :=
  match disc_transport d ≫= t_discover_peers with
  | None => rc = BC_ERR_INVALID /\ d' = d /\ w' = w
  | Some f =>
      exists junk w0 code arr n w1,
        idle w w0 /\ f junk BC_MAX_PEERS 0 w0 = Val ((code, (arr, n)), w1) /\
        rc = code /\
        if bool_decide (code = BC_OK)
        then scanned (take (Z.to_nat n) arr) d w1 d' w'
        else d' = d /\ w' = w1
  end.

Lemma scan_result_wiring d w rc d' w' :
  scan_result d w rc d' w' -> disc_transport d' = disc_transport d /\ on_found d' = on_found d.
Proof.
  unfold scan_result. case_match; [|by intros (_ & -> & _)].
  intros (? & ? & ? & ? & ? & ? & _ & _ & _ & Hs). case_bool_decide; [|by destruct Hs as [-> _]].
  split; apply Hs.
Qed.

Lemma wp_scan d w :
  discovery_wf d -> found_safe d -> heap_ok w ->
  (forall t, disc_transport d = Some t -> TransportSafe t) ->
  wp (bc_discovery_scan (Some d)) w (fun '(rc, o) w' =>
    exists d', o = Some d' /\ discovery_wf d' /\ balanced w w' /\ scan_result d w rc d' w').
Proof.
  intros Hwf Hsafe Hok Ht. unfold bc_discovery_scan, scan_result.
  destruct (disc_transport d) as [t|] eqn:Hd; cbn [mbind option_bind].
  2: { apply wp_ret. exists d. by split_and!; try apply balanced_refl. }
  specialize (Ht t eq_refl). destruct (t_discover_peers t) as [f|] eqn:Hf.
  2: { apply wp_ret. exists d. by split_and!; try apply balanced_refl. }
  apply wp_bind, wp_quiet; [apply quiet_stack_peers|]. eapply wp_mono; [apply wp_stack_peers|].
  intros junk w0 (Hb0 & Hl & Hj) Hs0. assert (Hi0 : idle w w0) by by eauto with bitchat.
  assert (Hs := discover_safe f junk BC_MAX_PEERS 0 w0 Hf ltac:(by eauto with bitchat)
    ltac:(unfold zlen; by rewrite Hl) Hj).
  apply wp_val in Hs as ([code [arr n]] & w1 & Hrun & Hb1 & Hlen & Harr & Hn).
  apply wp_bind. unfold wp at 1. rewrite Hrun. cbn [fst snd].
  assert (Hok1 : heap_ok w1) by by eauto with bitchat.
  destruct (decide (code = BC_OK)) as [->|Hne].
  - rewrite bool_decide_eq_false_2 by tauto. specialize (Hn eq_refl).
    apply wp_bind. eapply wp_mono; [apply wp_scan_loop; try done; lia|].
    intros d' w' Hsc. apply wp_ret. exists d'.
    split; [done|]. split; [apply Hsc|].
    split; [destruct Hsc as (_ & Hb & _); by eauto with bitchat|].
    exists junk, w0, BC_OK, arr, n, w1. by split_and!.
  - rewrite bool_decide_eq_true_2 by done. apply wp_ret. exists d.
    split; [done|]. split; [done|]. split; [by eauto with bitchat|]. exists junk, w0, code, arr, n, w1.
    rewrite bool_decide_eq_false_2 by done. by split_and!.
Qed.
End discovery_lemmas.

(** ** Properties *)

Section discovery_properties.
Context {W : Type} `{!HasOS W, !WorldInv W}.
Implicit Types (w : W) (d : bc_discovery W).

(** C33: a scan refines "merge what the transport reports": against any safe
    transport it is defined and terminates; an error of the transport is
    returned and changes nothing in the manager; otherwise the reported peers are
    merged in order into the table: the known keys keep their order and their
    transport and get the reported signal strength and the time the clock
    answered, the new ones are appended up to 64, without duplicates; and the
    registered callback runs once for each new peer, in order, and for no other:
    before, between and after these calls nothing but the clock, the allocator
    and uninitialized memory is used. *)
Theorem discovery_scan_merges d w :
  discovery_wf d -> found_safe d -> heap_ok w ->
  (forall t, disc_transport d = Some t -> TransportSafe t) ->
  wp (bc_discovery_scan (Some d)) w (fun '(rc, o) w' =>
    exists d', o = Some d' /\ discovery_wf d' /\ balanced w w' /\ scan_result d w rc d' w').
Proof.
  apply wp_scan.
Qed.

(** [bc_discovery_get_peers] copies the first min(count, max) known peers
    to the front of the caller's array and touches nothing behind them; it
    never reads or writes out of bounds when the array has [max] entries. *)
Theorem discovery_get_peers_copies d out :
  discovery_wf d -> zlen out > 0 ->
  let n := Z.min (disc_peer_count d) (zlen out) in
  bc_discovery_get_peers (Some d) (Some out) (zlen out) =
    Val (n, Some (take (Z.to_nat n) (disc_known d) ++ drop (Z.to_nat n) out)).
Proof.
  intros Hwf Hout n. unfold bc_discovery_get_peers.
  assert (Hl : zlen (disc_peers d) = BC_MAX_PEERS) by apply Hwf.
  assert (Hc : 0 <= disc_peer_count d <= BC_MAX_PEERS) by apply Hwf.
  rewrite bool_decide_eq_false_2 by lia.
  replace (if bool_decide _ then _ else _) with n by (unfold n; case_bool_decide; lia).
  rewrite bool_decide_eq_true_2 by lia. unfold disc_known, table_peers.
  by rewrite take_take, Nat.min_l by lia.
Qed.
End discovery_properties.

(** A callback that reads the clock. *)
Definition demo_found (_ : bc_peer) (_ : Z) : M (world unit) unit := _ ← c_time; mret tt.

(** A manager over the UDP adapter, with room for its two peers. *)
Definition demo_discovery : bc_discovery (world unit) :=
  mkDiscovery (Some (udp_transport (Box 1%nat demo_ctx)))
    (replicate 64 zero_peer) 0 (Some demo_found) 0.

Lemma demo_discovery_wf : discovery_wf demo_discovery.
Proof. apply (bool_decide_unpack _). vm_compute. exact I. Qed.

Lemma demo_found_safe : found_safe demo_discovery.
Proof. intros f [= <-] p u w _ _. apply wp_bind, wp_time. intros t w' Hb _. by apply wp_ret. Qed.

Lemma discovery_scan_merges_witness :
  wp (bc_discovery_scan (Some demo_discovery)) (demo_world 0 [] tt) (fun '(rc, o) w' =>
    exists d', o = Some d' /\ discovery_wf d' /\ balanced (demo_world 0 [] tt) w' /\
    scan_result demo_discovery (demo_world 0 [] tt) rc d' w').
Proof.
  apply (discovery_scan_merges demo_discovery (demo_world 0 [] tt)).
  - exact demo_discovery_wf.
  - exact demo_found_safe.
  - apply demo_world_ok; [constructor|exact I|done].
  - intros t Ht. injection Ht as <-. apply udp_safe, demo_ctx_wf.
Defined.

Lemma discovery_get_peers_copies_witness :
  bc_discovery_get_peers (Some demo_discovery) (Some (replicate 3 zero_peer)) 3 =
    Val (0, Some (take 0 (disc_known demo_discovery) ++ drop 0 (replicate 3 zero_peer))).
Proof.
  apply (discovery_get_peers_copies demo_discovery (replicate 3 zero_peer));
    [exact demo_discovery_wf|reflexivity].
Defined.
