(* ===== verification/MessageStore.v ===== *)
(** * MessageStore: the store-and-forward wrapper

    Models [src/usecase/message_store.c] and
    [include/bitchat/usecase/message_store.h].  The out parameters of
    [bc_store_get_for_peer] are returned with the code; [None] there means the
    call did not write them. *)
From S2P Require Import Prelude Effects Errors Message Ports.

Definition BC_STORE_MAX_AGE_SEC : Z := 72 * 3600.

Record bc_msg_store (W : Type) : Type := mkStore {
  store_storage : bc_storage W;
  max_age_sec : Z
}.
Arguments mkStore {W}.
Arguments store_storage {W}.
Arguments max_age_sec {W}.

Section store.
Context {W : Type} `{!HasOS W}.

Definition bc_store_create (storage : option (bc_storage W)) (max_age : Z)
    : M W (option (box (bc_msg_store W))) :=
  match storage with
  | None => mret None
  | Some storage =>
      b ← c_alloc;
      match b with
      | None => mret None
      | Some b =>
          mret (Some (Box b (mkStore storage
            (if bool_decide (max_age > 0) then max_age else BC_STORE_MAX_AGE_SEC))))
      end
  end.

Definition bc_store_save (store : option (bc_msg_store W)) (msg : option bc_message) : M W Z :=
  match store, msg with
  | Some store, Some msg =>
      match s_store_message (store_storage store) with
      | None => mret BC_ERR_NOT_IMPLEMENTED
      | Some f => f msg
      end
  | _, _ => mret BC_ERR_INVALID
  end.

Definition bc_store_get_for_peer (store : option (bc_msg_store W))
    (peer_pubkey : option (list Z)) : M W (Z * option (msg_array * Z)) :=
  match store, peer_pubkey with
  | Some store, Some peer_pubkey =>
      match s_get_pending (store_storage store) with
      | None => mret (BC_ERR_NOT_IMPLEMENTED, None)
      | Some f => '(rc, out) ← f (Some peer_pubkey); mret (rc, Some out)
      end
  | _, _ => mret (BC_ERR_INVALID, None)
  end.

Definition bc_store_delete (store : option (bc_msg_store W)) (uuid : option (list Z)) : M W Z :=
  match store, uuid with
  | Some store, Some uuid =>
      match s_delete_message (store_storage store) with
      | None => mret BC_ERR_NOT_IMPLEMENTED
      | Some f => f uuid
      end
  | _, _ => mret BC_ERR_INVALID
  end.

Definition bc_store_cleanup (store : option (bc_msg_store W)) : M W Z :=
  match store with
  | None => mret BC_ERR_INVALID
  | Some store =>
      match s_evict_expired (store_storage store) with
      | None => mret BC_ERR_NOT_IMPLEMENTED
      | Some f => f (max_age_sec store)
      end
  end.

Definition bc_store_destroy (store : option blk) : M W unit := c_free store.
End store.
