(* ===== verification/Sqlite.v ===== *)
(** * Sqlite: the interface of the SQLite engine

    SQLite is a third-party library: its calls are the operations of the class
    [Sqlite] over an engine state [S], and [SqliteSpec] states the documented
    behaviour the storage adapter relies on, for the statements it uses.  The
    laws speak about a view of the engine: the rows of the one table, the
    prepared statements and the open connections.  Any call may fail with an
    error code; a failed statement changes no row.  [None] is undefined
    behaviour (a finalized statement, a closed connection).

    [mini_sqlite] is an instance: it shows the laws can hold together and runs
    the closed examples. *)
From stdpp Require Import strings.
From S2P Require Import Prelude Effects.

(** ** Values and statements *)

Inductive sql_value : Type :=
| SqlNull
| SqlBlob (b : list Z)
| SqlInt (z : Z).

#[export] Instance sql_value_eq : EqDecision sql_value.
Proof. solve_decision. Defined.

Abbreviation sql_row := (list sql_value) (only parsing).

Definition SQLITE_OK : Z := 0.
Definition SQLITE_IOERR : Z := 10.
Definition SQLITE_ROW : Z := 100.
Definition SQLITE_DONE : Z := 101.

(** The statements of [src/infra/storage_sqlite.c]. *)
Definition SQL_PRAGMA : string := "PRAGMA journal_mode=WAL;".
Definition SQL_CREATE_TABLE : string :=
  "CREATE TABLE IF NOT EXISTS pending_messages (  uuid            BLOB PRIMARY KEY,  sender_pubkey   BLOB NOT NULL,  receiver_pubkey BLOB NOT NULL,  payload         BLOB,  ttl             INTEGER NOT NULL,  expires_at      INTEGER NOT NULL);".
Definition SQL_CREATE_INDEX : string :=
  "CREATE INDEX IF NOT EXISTS idx_pending_receiver ON pending_messages (receiver_pubkey);".
Definition SQL_INSERT : string :=
  "INSERT OR IGNORE INTO pending_messages (uuid, sender_pubkey, receiver_pubkey, payload, ttl, expires_at) VALUES (?, ?, ?, ?, ?, ?);".
Definition SQL_GET_PENDING : string :=
  "SELECT uuid, sender_pubkey, receiver_pubkey, payload, ttl, expires_at FROM pending_messages WHERE receiver_pubkey = ? AND expires_at >= ?;".
Definition SQL_GET_ALL_PENDING : string :=
  "SELECT uuid, sender_pubkey, receiver_pubkey, payload, ttl, expires_at FROM pending_messages WHERE expires_at >= ?;".
Definition SQL_DELETE : string := "DELETE FROM pending_messages WHERE uuid = ?;".
Definition SQL_EVICT : string := "DELETE FROM pending_messages WHERE expires_at < ?;".

(** ** The view of the engine *)

Record stmt : Type := mkStmt {
  st_db : nat;                        (* its connection *)
  st_sql : string;
  st_args : Z -> sql_value;           (* the bound parameters, NULL by default *)
  st_cursor : option (list sql_row)   (* None: reset; else the rows from the current one on *)
}.

Record db_view : Type := mkDb {
  db_rows : list sql_row;
  db_stmts : gmap nat stmt;
  db_open : gset nat
}.

Definition no_args : Z -> sql_value := fun _ => SqlNull.
Definition set_arg (i : Z) (v : sql_value) (a : Z -> sql_value) : Z -> sql_value :=
  fun j => if bool_decide (j = i) then v else a j.

(** Column [i] of a row. *)
Definition col (r : sql_row) (i : nat) : sql_value := default SqlNull (r !! i).

(** Rows of the declared column types. *)
Definition is_blob (v : sql_value) : Prop := match v with SqlBlob _ => True | _ => False end.
Definition is_int (v : sql_value) : Prop := match v with SqlInt _ => True | _ => False end.
#[export] Instance is_blob_dec v : Decision (is_blob v).
Proof. destruct v; apply _. Defined.
#[export] Instance is_int_dec v : Decision (is_int v).
Proof. destruct v; apply _. Defined.

Definition row_typed (r : sql_row) : Prop :=
  length r = 6%nat /\ (col r 0 = SqlNull \/ is_blob (col r 0)) /\ is_blob (col r 1) /\
  is_blob (col r 2) /\ (col r 3 = SqlNull \/ is_blob (col r 3)) /\ is_int (col r 4) /\
  is_int (col r 5).

(** [a < b] on integer columns. *)
Definition sql_lt (a b : sql_value) : bool :=
  match a, b with SqlInt x, SqlInt y => bool_decide (x < y) | _, _ => false end.
(** [a >= b] on integer columns; a comparison with NULL selects nothing. *)
Definition sql_ge (a b : sql_value) : bool :=
  match a, b with SqlInt x, SqlInt y => bool_decide (x >= y) | _, _ => false end.
(** [a = b] on blob columns. *)
Definition sql_eq (a b : sql_value) : bool :=
  match a, b with SqlBlob x, SqlBlob y => bool_decide (x = y) | _, _ => false end.

(** [INSERT OR IGNORE]: a row with the same primary key, or a NULL where the
    schema forbids it, is skipped. *)
Definition insert_or_ignore (r : sql_row) (rows : list sql_row) : list sql_row :=
  if existsb (fun r' => sql_eq (col r' 0) (col r 0)) rows ||
     bool_decide (SqlNull ∈ [col r 1; col r 2; col r 4; col r 5])
  then rows else rows ++ [r].

(** The rows a query selects, and the rows a change leaves. *)
Definition selected (sql : string) (a : Z -> sql_value) (r : sql_row) : bool :=
  if bool_decide (sql = SQL_GET_PENDING) then sql_eq (col r 2) (a 1) && sql_ge (col r 5) (a 2)
  else sql_ge (col r 5) (a 1).
Definition is_query (sql : string) : Prop := sql = SQL_GET_PENDING \/ sql = SQL_GET_ALL_PENDING.
#[export] Instance is_query_dec sql : Decision (is_query sql).
Proof. unfold is_query; apply _. Defined.

Definition changed (sql : string) (a : Z -> sql_value) (rows : list sql_row) : list sql_row :=
  if bool_decide (sql = SQL_INSERT) then insert_or_ignore [a 1; a 2; a 3; a 4; a 5; a 6] rows
  else if bool_decide (sql = SQL_DELETE) then filter (fun r => sql_eq (col r 0) (a 1) = false) rows
  else if bool_decide (sql = SQL_EVICT) then filter (fun r => sql_lt (col r 5) (a 1) = false) rows
  else rows.

(** ** The engine *)

Class Sqlite (S : Type) : Type := {
  view : S -> db_view;
  sql_open : string -> Z -> S -> Z * option nat * S;
  sql_exec : nat -> string -> S -> option (Z * S);
  sql_prepare : nat -> string -> S -> option (Z * option nat * S);
  sql_reset : nat -> S -> option (Z * S);
  sql_clear : nat -> S -> option (Z * S);
  sql_bind : nat -> Z -> sql_value -> S -> option (Z * S);
  sql_step : nat -> S -> option (Z * S);
  sql_column_blob : nat -> nat -> S -> option (option (list Z));
  sql_column_bytes : nat -> nat -> S -> option Z;
  sql_column_int : nat -> nat -> S -> option Z;
  sql_column_int64 : nat -> nat -> S -> option Z;
  sql_finalize : nat -> S -> option (Z * S);
  sql_close : nat -> S -> option (Z * S)
}.

Section laws.
Context {S : Type} `{!Sqlite S}.

Definition set_stmt (s : nat) (st : stmt) (d : db_view) : db_view :=
  mkDb (db_rows d) (<[s := st]> (db_stmts d)) (db_open d).

(** What one [sqlite3_step] of a statement may do. *)
Inductive stepped (d : db_view) (s : nat) (st : stmt) : Z -> db_view -> Prop :=
| step_error rc cur :
    rc <> SQLITE_ROW -> rc <> SQLITE_DONE ->
    stepped d s st rc (set_stmt s (mkStmt (st_db st) (st_sql st) (st_args st) cur) d)
| step_change :
    ~ is_query (st_sql st) ->
    stepped d s st SQLITE_DONE
      (mkDb (changed (st_sql st) (st_args st) (db_rows d))
         (<[s := mkStmt (st_db st) (st_sql st) (st_args st) (Some [])]> (db_stmts d)) (db_open d))
| step_query rows :
    is_query (st_sql st) -> st_cursor st = None ->
    rows ≡ₚ filter (fun r => selected (st_sql st) (st_args st) r = true) (db_rows d) ->
    stepped d s st (if bool_decide (rows = []) then SQLITE_DONE else SQLITE_ROW)
      (set_stmt s (mkStmt (st_db st) (st_sql st) (st_args st) (Some rows)) d)
| step_next r rows :
    is_query (st_sql st) -> st_cursor st = Some (r :: rows) ->
    stepped d s st (if bool_decide (rows = []) then SQLITE_DONE else SQLITE_ROW)
      (set_stmt s (mkStmt (st_db st) (st_sql st) (st_args st) (Some rows)) d).

Class SqliteSpec : Prop := {
  open_spec : forall path flags x rc h x',
    sql_open path flags x = (rc, h, x') ->
    db_rows (view x') = db_rows (view x) /\ db_stmts (view x') = db_stmts (view x) /\
    (rc = SQLITE_OK -> is_Some h) /\
    match h with
    | Some db => (db ∉ db_open (view x)) /\ db_open (view x') = {[db]} ∪ db_open (view x) /\
                 (forall s st, db_stmts (view x) !! s = Some st -> st_db st <> db)
    | None => db_open (view x') = db_open (view x)
    end;
  exec_spec : forall db sql x,
    db ∈ db_open (view x) -> sql ∈ [SQL_PRAGMA; SQL_CREATE_TABLE; SQL_CREATE_INDEX] ->
    exists rc x', sql_exec db sql x = Some (rc, x') /\ view x' = view x;
  prepare_spec : forall db sql x,
    db ∈ db_open (view x) ->
    exists rc h x', sql_prepare db sql x = Some (rc, h, x') /\
    db_rows (view x') = db_rows (view x) /\ db_open (view x') = db_open (view x) /\
    if bool_decide (rc = SQLITE_OK)
    then exists s, h = Some s /\ db_stmts (view x) !! s = None /\
           db_stmts (view x') = <[s := mkStmt db sql no_args None]> (db_stmts (view x))
    else h = None /\ db_stmts (view x') = db_stmts (view x);
  reset_spec : forall s st x, db_stmts (view x) !! s = Some st ->
    exists rc x', sql_reset s x = Some (rc, x') /\
      view x' = set_stmt s (mkStmt (st_db st) (st_sql st) (st_args st) None) (view x);
  clear_spec : forall s st x, db_stmts (view x) !! s = Some st -> st_cursor st = None ->
    exists rc x', sql_clear s x = Some (rc, x') /\
      view x' = set_stmt s (mkStmt (st_db st) (st_sql st) no_args None) (view x);
  bind_spec : forall s i v st x, db_stmts (view x) !! s = Some st -> st_cursor st = None ->
    exists rc x', sql_bind s i v x = Some (rc, x') /\
      view x' = if bool_decide (rc = SQLITE_OK)
                then set_stmt s (mkStmt (st_db st) (st_sql st) (set_arg i v (st_args st)) None) (view x)
                else view x;
  step_spec : forall s st x, db_stmts (view x) !! s = Some st ->
    Forall row_typed (db_rows (view x)) ->
    (st_cursor st <> Some [] \/ ~ is_query (st_sql st)) ->
    exists rc x', sql_step s x = Some (rc, x') /\ stepped (view x) s st rc (view x');
  column_spec : forall s st i r rows x, db_stmts (view x) !! s = Some st ->
    st_cursor st = Some (r :: rows) -> (i < length r)%nat ->
    match col r i with
    | SqlNull => sql_column_blob s i x = Some None /\ sql_column_bytes s i x = Some 0
    | SqlBlob l => sql_column_blob s i x = Some (if bool_decide (l = []) then None else Some l) /\
                   sql_column_bytes s i x = Some (zlen l)
    | SqlInt z => sql_column_int s i x = Some (to_i32 z) /\ sql_column_int64 s i x = Some z
    end;
  finalize_spec : forall s st x, db_stmts (view x) !! s = Some st ->
    exists rc x', sql_finalize s x = Some (rc, x') /\
      view x' = mkDb (db_rows (view x)) (delete s (db_stmts (view x))) (db_open (view x));
  close_spec : forall db x, db ∈ db_open (view x) ->
    (forall s st, db_stmts (view x) !! s = Some st -> st_db st <> db) ->
    exists rc x', sql_close db x = Some (rc, x') /\
      view x' = mkDb (db_rows (view x)) (db_stmts (view x)) (db_open (view x) ∖ {[db]})
}.

(** The engine never runs out of memory while binding. *)
Class BindsSucceed : Prop :=
  bind_succeeds : forall s i v x rc x', sql_bind s i v x = Some (rc, x') -> rc = SQLITE_OK.
End laws.
Arguments SqliteSpec S {_}.
Arguments BindsSucceed S {_}.

(** ** An instance *)

Section mini.
Implicit Types d : db_view.

Definition mini_stmt {A} (s : nat) d (f : stmt -> A) : option A := f <$> db_stmts d !! s.

(** [code] is what opening a database answers. *)
Definition mini_open (code : Z) (path : string) (flags : Z) d : Z * option nat * db_view :=
  let db := fresh (db_open d ∪ list_to_set (st_db <$> (map_to_list (db_stmts d)).*2)) in
  (code, Some db, mkDb (db_rows d) (db_stmts d) ({[db]} ∪ db_open d)).

Definition mini_exec (db : nat) (sql : string) d : option (Z * db_view) :=
  if bool_decide (db ∈ db_open d) then Some (SQLITE_OK, d) else None.

Definition mini_prepare (db : nat) (sql : string) d : option (Z * option nat * db_view) :=
  if bool_decide (db ∈ db_open d) then
    let s := fresh (dom (db_stmts d)) in
    Some (SQLITE_OK, Some s, set_stmt s (mkStmt db sql no_args None) d)
  else None.

Definition mini_reset (s : nat) d : option (Z * db_view) :=
  mini_stmt s d (fun st =>
    (SQLITE_OK, set_stmt s (mkStmt (st_db st) (st_sql st) (st_args st) None) d)).

Definition mini_clear (s : nat) d : option (Z * db_view) :=
  mini_stmt s d (fun st => (SQLITE_OK, set_stmt s (mkStmt (st_db st) (st_sql st) no_args None) d)).

Definition mini_bind (s : nat) (i : Z) (v : sql_value) d : option (Z * db_view) :=
  mini_stmt s d (fun st =>
    (SQLITE_OK, set_stmt s (mkStmt (st_db st) (st_sql st) (set_arg i v (st_args st)) None) d)).

Definition mini_step (s : nat) d : option (Z * db_view) :=
  mini_stmt s d (fun st =>
    let move rows := (if bool_decide (rows = []) then SQLITE_DONE else SQLITE_ROW,
       set_stmt s (mkStmt (st_db st) (st_sql st) (st_args st) (Some rows)) d) in
    if bool_decide (is_query (st_sql st)) then
      match st_cursor st with
      | Some (_ :: rows) => move rows
      | _ => move (filter (fun r => selected (st_sql st) (st_args st) r = true) (db_rows d))
      end
    else (SQLITE_DONE,
          mkDb (changed (st_sql st) (st_args st) (db_rows d))
            (<[s := mkStmt (st_db st) (st_sql st) (st_args st) (Some [])]> (db_stmts d)) (db_open d))).

(** The current value of column [i]. *)
Definition mini_col (s : nat) (i : nat) d : option sql_value :=
  st ← db_stmts d !! s; rows ← st_cursor st; r ← head rows; Some (col r i).

Definition mini_finalize (s : nat) d : option (Z * db_view) :=
  mini_stmt s d (fun _ => (SQLITE_OK, mkDb (db_rows d) (delete s (db_stmts d)) (db_open d))).

Definition mini_close (db : nat) d : option (Z * db_view) :=
  if bool_decide (db ∈ db_open d)
  then Some (SQLITE_OK, mkDb (db_rows d) (db_stmts d) (db_open d ∖ {[db]})) else None.

(** An engine whose disk fails on every step. *)
Definition broken_step (s : nat) d : option (Z * db_view) :=
  mini_stmt s d (fun st =>
    (SQLITE_IOERR, set_stmt s (mkStmt (st_db st) (st_sql st) (st_args st) None) d)).

Definition mini_engine (code : Z) (broken : bool) : Sqlite db_view := {|
  view d := d;
  sql_open := mini_open code;
  sql_exec := mini_exec;
  sql_prepare := mini_prepare;
  sql_reset := mini_reset;
  sql_clear := mini_clear;
  sql_bind := mini_bind;
  sql_step := if broken then broken_step else mini_step;
  sql_column_blob s i d :=
    v ← mini_col s i d;
    Some (match v with SqlBlob [] => None | SqlBlob l => Some l | _ => None end);
  sql_column_bytes s i d :=
    v ← mini_col s i d; Some (match v with SqlBlob l => zlen l | _ => 0 end);
  sql_column_int s i d :=
    v ← mini_col s i d; Some (match v with SqlInt z => to_i32 z | _ => 0 end);
  sql_column_int64 s i d :=
    v ← mini_col s i d; Some (match v with SqlInt z => z | _ => 0 end);
  sql_finalize := mini_finalize;
  sql_close := mini_close
|}.

Lemma mini_engine_spec code broken : @SqliteSpec db_view (mini_engine code broken).
Proof.
  split; cbn.
  - intros path flags d rc h d' [= <- <- <-]. cbn. split_and!; try done.
    + intros Hin. eapply (is_fresh (db_open d ∪ list_to_set _)). apply elem_of_union_l, Hin.
    + intros s st Hst He. eapply (is_fresh (db_open d ∪ list_to_set _)).
      rewrite <- He at 1. apply elem_of_union_r, elem_of_list_to_set.
      apply list_elem_of_fmap_2, list_elem_of_fmap. exists (s, st). split; [done|].
      by apply elem_of_map_to_list.
  - intros db sql d Hin _. unfold mini_exec. rewrite bool_decide_eq_true_2 by done. by eexists _, _.
  - intros db sql d Hin. unfold mini_prepare. rewrite bool_decide_eq_true_2 by done.
    eexists _, _, _. split; [done|]. cbn. split_and!; try done. eexists. split; [done|].
    split; [|done]. apply not_elem_of_dom, is_fresh.
  - intros s st d Hs. unfold mini_reset, mini_stmt. rewrite Hs. by eexists _, _.
  - intros s st d Hs _. unfold mini_clear, mini_stmt. rewrite Hs. by eexists _, _.
  - intros s i v st d Hs _. unfold mini_bind, mini_stmt. rewrite Hs. by eexists _, _.
  - intros s st d Hs _ Hcur. destruct broken.
    { unfold broken_step, mini_stmt. rewrite Hs. eexists _, _. split; [done|]. by apply step_error. }
    unfold mini_step, mini_stmt. rewrite Hs. cbn.
    case_bool_decide as Hq; [|eexists _, _; split; [done|by apply step_change]].
    destruct (st_cursor st) as [[|r rows]|] eqn:Hc; eexists _, _; (split; [done|]).
    + by destruct Hcur.
    + by eapply step_next.
    + by apply step_query.
  - intros s st i r rows d Hs Hc Hi. unfold mini_col. rewrite Hs. cbn. rewrite Hc. cbn.
    destruct (col r i) as [|[|z l]|]; split; done.
  - intros s st d Hs. unfold mini_finalize, mini_stmt. rewrite Hs. by eexists _, _.
  - intros db d Hin _. unfold mini_close. rewrite bool_decide_eq_true_2 by done. by eexists _, _.
Qed.

#[export] Instance mini_sqlite : Sqlite db_view := mini_engine SQLITE_OK false.
#[export] Instance mini_sqlite_spec : SqliteSpec db_view := mini_engine_spec SQLITE_OK false.

#[export] Instance mini_binds_succeed : BindsSucceed db_view.
Proof. intros s i v d rc d'. cbn. unfold mini_bind, mini_stmt. by destruct (_ !! _); intros [= <- _]. Qed.
End mini.
