(* ===== verification/SqliteStorage.v ===== *)
(** * SqliteStorage: the SQLite adapter of the storage port

    Models [src/infra/storage_sqlite.c] over the engine interface [Sqlite].
    [sqlite_storage] is the vtable [bc_storage_sqlite_create] builds over its
    private context; the adapter keeps the contract of [Ports] in every world
    where the statements of the context are prepared and the table's rows have
    the sizes the adapter wrote ([sqlite_ok]). *)
From stdpp Require Import strings.
From S2P Require Import Prelude Effects Errors Message Ports Sockets World Sqlite.

(** ** A world with an engine *)

Class HasSql (W E : Type) `{!HasOS W} : Type := {
  get_sql : W -> E;
  set_sql : E -> W -> W;
  get_set_sql : forall x w, get_sql (set_sql x w) = x;
  get_os_set_sql : forall x w, get_os (set_sql x w) = get_os w;
  get_sql_set_os : forall o w, get_sql (set_os o w) = get_sql w;
  inbound_set_sql : forall x w, inbound (set_sql x w) = inbound w
}.

#[export] Program Instance world_HasSql E : HasSql (world E) E :=
  {| get_sql := w_ext; set_sql := fun x w => mkWorld (w_os w) (w_net w) x |}.
Solve All Obligations with done.

Definition STORAGE_DEFAULT_RETENTION_SEC : Z := 72 * 3600.
(** [SQLITE_OPEN_READWRITE | SQLITE_OPEN_CREATE | SQLITE_OPEN_FULLMUTEX]. *)
Definition open_flags : Z := Z.lor (Z.lor 2 4) 65536.

Record sqlite_ctx : Type := mkSqliteCtx {
  db : nat;
  stmt_insert : nat;
  stmt_get_pending : nat;
  stmt_get_all_pending : nat;
  stmt_delete : nat;
  stmt_evict : nat
}.

Section sqlite.
Context {W E : Type} `{!HasOS W, !HasSql W E, !Sqlite E}.

(** ** Calls of the engine *)

Definition sql_run {A} (f : E -> option (A * E)) : M W A := fun w =>
  match f (get_sql w) with
  | Some (a, x) => Val (a, set_sql x w)
  | None => UB
  end.

Definition sql_read {A} (f : E -> option A) : M W A := fun w =>
  match f (get_sql w) with Some a => Val (a, w) | None => UB end.

Definition sqlite3_reset (s : nat) : M W Z := sql_run (sql_reset s).
Definition sqlite3_clear_bindings (s : nat) : M W Z := sql_run (sql_clear s).
Definition sqlite3_bind_int64 (s : nat) (i v : Z) : M W Z := sql_run (sql_bind s i (SqlInt v)).
Definition sqlite3_step (s : nat) : M W Z := sql_run (sql_step s).
(** [sqlite3_finalize]: a no-op on NULL. *)
Definition sqlite3_finalize (s : option nat) : M W unit :=
  match s with None => mret tt | Some s => sql_run (sql_finalize s);; mret tt end.

(** [sqlite3_bind_blob(s, i, p, n, SQLITE_TRANSIENT)]: NULL binds NULL, a
    negative length is undefined, the bytes are copied. *)
Definition sqlite3_bind_blob (s : nat) (i : Z) (p : option (list Z)) (n : Z) : M W Z :=
  match p with
  | None => sql_run (sql_bind s i SqlNull)
  | Some p =>
      if bool_decide (n < 0) then lift UB else
      b ← lift (mem_read p 0 n);
      sql_run (sql_bind s i (SqlBlob b))
  end.

(** [(sqlite3_int64)time(NULL)]. *)
Definition time_i64 : M W Z := t ← c_time; mret (to_i64 t).

(** ** The vtable *)

Definition sqlite_store_message (ctx : sqlite_ctx) (msg : bc_message) : M W Z :=
  sqlite3_reset (stmt_insert ctx);;
  sqlite3_clear_bindings (stmt_insert ctx);;
  sqlite3_bind_blob (stmt_insert ctx) 1 (Some (uuid msg)) BC_UUID_SIZE;;
  sqlite3_bind_blob (stmt_insert ctx) 2 (Some (sender_pubkey msg)) BC_PUBKEY_SIZE;;
  sqlite3_bind_blob (stmt_insert ctx) 3 (Some (receiver_pubkey msg)) BC_PUBKEY_SIZE;;
  sqlite3_bind_blob (stmt_insert ctx) 4 (contents <$> payload msg) (to_i32 (payload_len msg));;
  sqlite3_bind_int64 (stmt_insert ctx) 5 (ttl msg);;
  now ← time_i64;
  (* signed addition *)
  expires_at ← lift (if bool_decide (now + STORAGE_DEFAULT_RETENTION_SEC < 2 ^ 63)
                     then Val (now + STORAGE_DEFAULT_RETENTION_SEC) else UB);
  sqlite3_bind_int64 (stmt_insert ctx) 6 expires_at;;
  rc ← sqlite3_step (stmt_insert ctx);
  mret (if bool_decide (rc = SQLITE_DONE) then BC_OK else BC_ERR_STORAGE).

(** [memcpy(dst, blob, n)] into a zeroed field, when the column is not NULL. *)
Definition copy_blob (blob : option (list Z)) (n : Z) : res (list Z) :=
  match blob with
  | None => Val (replicate (Z.to_nat n) 0)
  | Some l => mem_read l 0 n
  end.

(** [realloc]: on success the old block is gone and the contents move. *)
Definition grow_array (arr : msg_array) : M W (option msg_array) :=
  b ← c_alloc;
  match b with
  | None => mret None
  | Some b =>
      c_free (addr <$> arr);;
      mret (Some (Some (Box b (match arr with None => [] | Some a => contents a end))))
  end.

(** The [oom] label: destroy what was built. *)
Fixpoint destroy_all (l : list (box bc_message)) : M W unit :=
  match l with
  | [] => mret tt
  | b :: l' => bc_message_destroy (Some b);; destroy_all l'
  end.

Definition pending_oom (arr : msg_array) : M W (Z * (msg_array * Z)) :=
  destroy_all (match arr with None => [] | Some a => contents a end);;
  c_free (addr <$> arr);;
  mret (BC_ERR_NOMEM, (None, 0)).

(** Build a message from the current row: [None] when memory ran out. *)
Definition read_row (stmt : nat) : M W (option (box bc_message)) :=
  uuid_blob ← sql_read (sql_column_blob stmt 0);
  sender_blob ← sql_read (sql_column_blob stmt 1);
  receiver_blob ← sql_read (sql_column_blob stmt 2);
  payload_blob ← sql_read (sql_column_blob stmt 3);
  plen ← sql_read (sql_column_bytes stmt 3);
  ttl ← sql_read (sql_column_int stmt 4);
  expires_at ← sql_read (sql_column_int64 stmt 5);
  msg ← c_alloc;
  match msg with
  | None => mret None
  | Some msg =>
      uuid ← lift (copy_blob uuid_blob BC_UUID_SIZE);
      sender ← lift (copy_blob sender_blob BC_PUBKEY_SIZE);
      receiver ← lift (copy_blob receiver_blob BC_PUBKEY_SIZE);
      (* signed subtraction *)
      stored_at ← lift (if bool_decide (- 2 ^ 63 <= expires_at - STORAGE_DEFAULT_RETENTION_SEC)
                        then Val (expires_at - STORAGE_DEFAULT_RETENTION_SEC) else UB);
      let timestamp := to_u64 stored_at in
      match payload_blob with
      | Some blob =>
          if bool_decide (plen > 0) then
            p ← c_alloc;
            match p with
            | None => c_free (Some msg);; mret None
            | Some p =>
                data ← lift (mem_read blob 0 plen);
                mret (Some (Box msg (mkMessage uuid (to_u8 ttl) sender receiver timestamp
                               (Some (Box p data)) plen)))
            end
          else mret (Some (Box msg (mkMessage uuid (to_u8 ttl) sender receiver timestamp None 0)))
      | None => mret (Some (Box msg (mkMessage uuid (to_u8 ttl) sender receiver timestamp None 0)))
      end
  end.

(** The loop of [sqlite_get_pending]: [cap] slots, the messages in [arr]. *)
Fixpoint pending_loop (fuel : nat) (stmt : nat) (arr : msg_array) (cap n : Z)
    : M W (Z * (msg_array * Z)) :=
  match fuel with
  | O => lift NoFuel
  | S fuel' =>
      rc ← sqlite3_step stmt;
      if bool_decide (rc <> SQLITE_ROW) then mret (BC_OK, (arr, n)) else
      grown ← (if bool_decide (n >= cap)
               then a ← grow_array arr;
                    mret ((fun a => (a, if bool_decide (cap = 0) then 8 else cap * 2)) <$> a)
               else mret (Some (arr, cap)));
      match grown with
      | None => pending_oom arr
      | Some (arr, cap) =>
          msg ← read_row stmt;
          match msg, arr with
          | None, _ => pending_oom arr
          | Some msg, Some a =>
              (* arr[n++] = msg *)
              if bool_decide (n < cap /\ n = zlen (contents a))
              then pending_loop fuel' stmt (Some (Box (addr a) (contents a ++ [msg]))) cap (n + 1)
              else lift UB
          | Some _, None => lift UB
          end
      end
  end.

(** The number of rows bounds the number of steps. *)
Definition row_count : M W nat := fun w => Val (length (db_rows (view (get_sql w))), w).

Definition sqlite_get_pending (ctx : sqlite_ctx) (peer_pubkey : option (list Z))
    : M W (Z * (msg_array * Z)) :=
  stmt ← match peer_pubkey with
         | Some pk =>
             let stmt := stmt_get_pending ctx in
             sqlite3_reset stmt;;
             sqlite3_clear_bindings stmt;;
             sqlite3_bind_blob stmt 1 (Some pk) BC_PUBKEY_SIZE;;
             now ← time_i64;
             sqlite3_bind_int64 stmt 2 now;;
             mret stmt
         | None =>
             let stmt := stmt_get_all_pending ctx in
             sqlite3_reset stmt;;
             sqlite3_clear_bindings stmt;;
             now ← time_i64;
             sqlite3_bind_int64 stmt 1 now;;
             mret stmt
         end;
  rows ← row_count;
  pending_loop (S rows) stmt None 0 0.

Definition sqlite_delete_message (ctx : sqlite_ctx) (uuid : list Z) : M W Z :=
  sqlite3_reset (stmt_delete ctx);;
  sqlite3_clear_bindings (stmt_delete ctx);;
  sqlite3_bind_blob (stmt_delete ctx) 1 (Some uuid) BC_UUID_SIZE;;
  rc ← sqlite3_step (stmt_delete ctx);
  mret (if bool_decide (rc = SQLITE_DONE) then BC_OK else BC_ERR_STORAGE).

Definition sqlite_evict_expired (ctx : sqlite_ctx) (max_age_sec : Z) : M W Z :=
  sqlite3_reset (stmt_evict ctx);;
  sqlite3_clear_bindings (stmt_evict ctx);;
  now ← time_i64;
  sqlite3_bind_int64 (stmt_evict ctx) 1 now;;
  rc ← sqlite3_step (stmt_evict ctx);
  mret (if bool_decide (rc = SQLITE_DONE) then BC_OK else BC_ERR_STORAGE).

(** [self] is the block of the [bc_storage_t].  The tests of [ctx] and of
    [ctx->db] for NULL are not written out: the only constructor installs this
    function with both present. *)
Definition sqlite_destroy (self : blk) (ctx : box sqlite_ctx) : M W unit :=
  let c := contents ctx in
  sqlite3_finalize (Some (stmt_insert c));;
  sqlite3_finalize (Some (stmt_get_pending c));;
  sqlite3_finalize (Some (stmt_get_all_pending c));;
  sqlite3_finalize (Some (stmt_delete c));;
  sqlite3_finalize (Some (stmt_evict c));;
  sql_run (sql_close (db c));;
  c_free (Some (addr ctx));;
  c_free (Some self).

Definition sqlite_storage (self : blk) (ctx : box sqlite_ctx) : bc_storage W :=
  mkStorage (Some (sqlite_store_message (contents ctx)))
    (Some (sqlite_get_pending (contents ctx)))
    (Some (sqlite_delete_message (contents ctx)))
    (Some (sqlite_evict_expired (contents ctx)))
    (Some (sqlite_destroy self ctx)).

(** [ok = ok && (sqlite3_prepare_v2(...) == SQLITE_OK)]. *)
Definition prepare_if (ok : bool) (d : nat) (sql : string) : M W (bool * option nat) :=
  if ok then
    '(rc, h) ← sql_run (fun x => '(rc, h, x') ← sql_prepare d sql x; Some ((rc, h), x'));
    mret (bool_decide (rc = SQLITE_OK), h)
  else mret (false, None).

(** The error paths of the constructor: finalize, close, free the context. *)
Definition create_fails (stmts : list (option nat)) (d : nat) (ctx : blk)
    : M W (option (box (bc_storage W))) :=
  foldr (fun s m => sqlite3_finalize s;; m)
    (sql_run (sql_close d);; c_free (Some ctx);; mret None) stmts.

Definition bc_storage_sqlite_create (db_path : option string)
    : M W (option (box (bc_storage W))) :=
  match db_path with
  | None => mret None
  | Some db_path =>
      ctx ← c_alloc;
      match ctx with
      | None => mret None
      | Some ctx =>
          '(rc, h) ← sql_run (fun x => let '(rc, h, x') := sql_open db_path open_flags x in
                                       Some ((rc, h), x'));
          if bool_decide (rc <> SQLITE_OK) then c_free (Some ctx);; mret None else
          d ← lift (match h with Some d => Val d | None => UB end);
          sql_run (sql_exec d SQL_PRAGMA);;
          rc ← sql_run (sql_exec d SQL_CREATE_TABLE);
          if bool_decide (rc <> SQLITE_OK) then create_fails [] d ctx else
          rc ← sql_run (sql_exec d SQL_CREATE_INDEX);
          if bool_decide (rc <> SQLITE_OK) then create_fails [] d ctx else
          '(ok, s1) ← prepare_if true d SQL_INSERT;
          '(ok, s2) ← prepare_if ok d SQL_GET_PENDING;
          '(ok, s3) ← prepare_if ok d SQL_GET_ALL_PENDING;
          '(ok, s4) ← prepare_if ok d SQL_DELETE;
          '(ok, s5) ← prepare_if ok d SQL_EVICT;
          if negb ok then create_fails [s1; s2; s3; s4; s5] d ctx else
          match s1, s2, s3, s4, s5 with
          | Some i, Some g, Some a, Some e, Some v =>
              st ← c_alloc;
              match st with
              | None => create_fails [s1; s2; s3; s4; s5] d ctx
              | Some st => mret (Some (Box st (sqlite_storage st (Box ctx (mkSqliteCtx d i g a e v)))))
              end
          | _, _, _, _, _ => lift UB
          end
      end
  end.
End sqlite.
