(* ===== verification/SqliteStorageSpec.v ===== *)
(** * SqliteStorageSpec: what the SQLite adapter does to the table

    The adapter refines a table of pending messages: storing is insert-or-ignore
    by uuid, [get_pending] returns the unexpired rows as messages, eviction
    removes exactly the expired rows; every call keeps the rows well-formed and
    the statements prepared, and leaks nothing. *)
From stdpp Require Import strings.
From S2P Require Import Prelude Effects Errors Message Ports Sockets World Sqlite SqliteStorage.

(** ** Specification *)

(** The rows the adapter writes: the sizes its reader relies on. *)
Definition opt_blob (P : list Z -> Prop) (v : sql_value) : Prop :=
  match v with SqlNull => True | SqlBlob l => P l | SqlInt _ => False end.
Definition blob_n (n : nat) (v : sql_value) : Prop :=
  match v with SqlBlob l => bytes_n n l | _ => False end.
Definition int_in (lo hi : Z) (v : sql_value) : Prop :=
  match v with SqlInt z => lo <= z < hi | _ => False end.

Definition row_wf (r : list sql_value) : Prop :=
  length r = 6%nat /\ opt_blob (bytes_n 16) (col r 0) /\ blob_n 32 (col r 1) /\
  blob_n 32 (col r 2) /\ opt_blob (fun l => bytes_ok l /\ zlen l < 2 ^ 31) (col r 3) /\
  int_in 0 (2 ^ 8) (col r 4) /\ int_in 0 (2 ^ 63) (col r 5).

(** A statement handle stands for its text on the adapter's connection. *)
Definition prepared (d : nat) (sql : string) (v : db_view) (s : nat) : Prop :=
  exists st, db_stmts v !! s = Some st /\ st_sql st = sql /\ st_db st = d.

Definition ctx_ok (c : sqlite_ctx) (v : db_view) : Prop :=
  db c ∈ db_open v /\
  prepared (db c) SQL_INSERT v (stmt_insert c) /\
  prepared (db c) SQL_GET_PENDING v (stmt_get_pending c) /\
  prepared (db c) SQL_GET_ALL_PENDING v (stmt_get_all_pending c) /\
  prepared (db c) SQL_DELETE v (stmt_delete c) /\
  prepared (db c) SQL_EVICT v (stmt_evict c).

Definition sqlite_ok (c : sqlite_ctx) (v : db_view) : Prop :=
  ctx_ok c v /\ Forall row_wf (db_rows v).

(** The same connections and statements; bindings and cursors may differ. *)
Definition same_handles (v v' : db_view) : Prop :=
  db_open v' = db_open v /\
  (fun st => (st_db st, st_sql st)) <$> db_stmts v' = (fun st => (st_db st, st_sql st)) <$> db_stmts v.

(** Using the adapter leads from [v] to [v']. *)
Definition sqlite_used (c : sqlite_ctx) (v v' : db_view) : Prop :=
  sqlite_ok c v' /\ same_handles v v'.

Definition blob_of (v : sql_value) : list Z := match v with SqlBlob l => l | _ => [] end.
Definition int_of (v : sql_value) : Z := match v with SqlInt z => z | _ => 0 end.

(** The message a row stands for: the time is when it was stored. *)
Definition row_packet (r : list sql_value) : packet :=
  mkPacket (match col r 0 with SqlBlob l => l | _ => replicate 16 0 end) (int_of (col r 4))
    (blob_of (col r 1)) (blob_of (col r 2))
    (to_u64 (int_of (col r 5) - STORAGE_DEFAULT_RETENTION_SEC)) (blob_of (col r 3)).

(** The row a message is stored as at time [now]. *)
Definition message_row (m : bc_message) (now : Z) : list sql_value :=
  [SqlBlob (uuid m); SqlBlob (sender_pubkey m); SqlBlob (receiver_pubkey m);
   match payload m with None => SqlNull | Some b => SqlBlob (contents b) end;
   SqlInt (ttl m); SqlInt (now + STORAGE_DEFAULT_RETENTION_SEC)].

(** The engine never fails a step. *)
Class StepsSucceed (E : Type) `{!Sqlite E} : Prop :=
  step_succeeds : forall s x rc x', sql_step s x = Some (rc, x') ->
    rc = SQLITE_ROW \/ rc = SQLITE_DONE.

(** The parameters of a statement: each is NULL or what was bound to it, and
    exactly what was bound when binding cannot fail. *)
Definition bound (E : Type) `{!Sqlite E} (a : Z -> sql_value) (vals : list (Z * sql_value)) : Prop :=
  (forall i, a i = SqlNull \/ (i, a i) ∈ vals) /\
  (BindsSucceed E -> forall i v, (i, v) ∈ vals -> a i = v).

Section spec.
Context {W E : Type} `{!HasOS W, !WorldInv W, !HasSql W E, !Sqlite E}.

Definition dbv (w : W) : db_view := view (get_sql w).
Definition rows_of (w : W) : list (list sql_value) := db_rows (dbv w).

(** The world's invariant contains the adapter's and survives what it does. *)
Class SqlWorld (c : sqlite_ctx) : Prop := {
  sql_world_ok : forall w, world_ok w -> sqlite_ok c (dbv w);
  sql_world_set : forall w x, world_ok w -> sqlite_used c (dbv w) (view x) ->
    world_ok (set_sql x w);
  sql_world_held : forall x w, held (set_sql x w) = held w;
  sql_world_evolves : forall x w, evolves w (set_sql x w)
}.

(** [s] is about to run [sql] with [vals] bound, and no row has changed. *)
Definition ready (s : nat) (sql : string) (vals : list (Z * sql_value)) (w0 w : W) : Prop :=
  balanced w0 w /\ rows_of w = rows_of w0 /\
  exists d a, db_stmts (dbv w) !! s = Some (mkStmt d sql a None) /\ bound E a vals.
End spec.

(** ** Lemmas: rows *)

Lemma row_wf_typed r : row_wf r -> row_typed r.
Proof.
  unfold row_wf, row_typed. intros (Hl & H0 & H1 & H2 & H3 & H4 & H5).
  destruct (col r 0), (col r 1), (col r 2), (col r 3), (col r 4), (col r 5); cbn in *; naive_solver.
Qed.

Lemma insert_or_ignore_wf r rows :
  Forall row_wf rows -> (SqlNull ∉ [col r 1; col r 2; col r 4; col r 5] -> row_wf r) ->
  Forall row_wf (insert_or_ignore r rows).
Proof.
  intros Hall Hr. unfold insert_or_ignore. destruct (existsb _ _ || _) eqn:He; [done|].
  apply orb_false_iff in He as [_ He]. apply bool_decide_eq_false in He.
  apply Forall_app. split; [done|]. constructor; [by apply Hr|done].
Qed.

Lemma changed_filter sql a rows :
  sql <> SQL_INSERT -> sublist (changed sql a rows) rows.
Proof.
  intros Hne. unfold changed. rewrite (bool_decide_eq_false_2 (sql = SQL_INSERT)) by done.
  repeat case_bool_decide; (apply sublist_filter || done).
Qed.

Lemma row_wf_filter (P : list sql_value -> Prop) `{!forall r, Decision (P r)} rows :
  Forall row_wf rows -> Forall row_wf (filter P rows).
Proof.
  intros Hall. apply Forall_forall. intros r [_ Hr]%list_elem_of_filter.
  by apply (proj1 (Forall_forall _ _) Hall).
Qed.

Lemma changed_wf sql a rows :
  sql <> SQL_INSERT -> Forall row_wf rows -> Forall row_wf (changed sql a rows).
Proof.
  intros Hne Hall. assert (Hs := sublist_subseteq _ _ (changed_filter sql a rows Hne)).
  apply Forall_forall. intros r Hr. by apply (proj1 (Forall_forall _ _) Hall), Hs.
Qed.

Lemma prepared_set_stmt d sql s0 st st' s v :
  db_stmts v !! s0 = Some st -> st_sql st' = st_sql st -> st_db st' = st_db st ->
  prepared d sql v s -> prepared d sql (set_stmt s0 st' v) s.
Proof.
  intros H0 Hs Hd (st0 & Hst & <- & <-). unfold prepared. cbn.
  destruct (decide (s = s0)) as [->|Hne].
  - exists st'. rewrite lookup_insert_eq. rewrite H0 in Hst. injection Hst as <-. done.
  - exists st0. by rewrite lookup_insert_ne.
Qed.

Lemma ctx_ok_set_stmt c s st st' v :
  db_stmts v !! s = Some st -> st_sql st' = st_sql st -> st_db st' = st_db st ->
  ctx_ok c v -> ctx_ok c (set_stmt s st' v).
Proof.
  intros H0 Hs Hd (Ho & ? & ? & ? & ? & ?).
  split_and!; [done|by eapply prepared_set_stmt..].
Qed.

#[export] Instance same_handles_preorder : PreOrder same_handles.
Proof.
  split; [done|]. intros v1 v2 v3 [Ho Hs] [Ho' Hs']. split; congruence.
Qed.

Lemma same_handles_set_stmt s st st' rows v :
  db_stmts v !! s = Some st -> st_sql st' = st_sql st -> st_db st' = st_db st ->
  same_handles v (mkDb rows (<[s := st']> (db_stmts v)) (db_open v)).
Proof.
  intros H0 Hs Hd. split; [done|]. cbn. rewrite fmap_insert, Hs, Hd.
  apply insert_id. by rewrite lookup_fmap, H0.
Qed.

Lemma sqlite_used_set_stmt c s st st' v :
  db_stmts v !! s = Some st -> st_sql st' = st_sql st -> st_db st' = st_db st ->
  sqlite_ok c v -> sqlite_used c v (set_stmt s st' v).
Proof.
  intros H0 Hs Hd [Hc Hr]. split; [split; [by eapply ctx_ok_set_stmt|done]|].
  by eapply same_handles_set_stmt.
Qed.

Section bound_lemmas.
Context {E : Type} `{!Sqlite E}.

Lemma bound_nil : bound E no_args [].
Proof. split; [by left|]. intros _ i v Hin. by apply elem_of_nil in Hin. Qed.

Lemma bound_set i v a vals :
  i ∉ vals.*1 -> bound E a vals -> bound E (set_arg i v a) ((i, v) :: vals).
Proof.
  intros Hi [Hw He]. unfold set_arg. split.
  - intros j. case_bool_decide as Hj; [subst j; right; left|].
    destruct (Hw j) as [?|?]; [by left|right; by right].
  - intros Hb j u Hin. apply elem_of_cons in Hin as [[= -> ->]|Hin].
    + by rewrite bool_decide_eq_true_2.
    + rewrite bool_decide_eq_false_2; [by apply He|]. intros ->. apply Hi.
      apply list_elem_of_fmap. by exists (i, u).
Qed.

Lemma bound_failed i v a vals :
  ~ BindsSucceed E -> bound E a vals -> bound E a ((i, v) :: vals).
Proof.
  intros Hn [Hw He]. split; [|done]. intros j. destruct (Hw j); [by left|right; by right].
Qed.

(** A parameter is NULL or its bound value. *)
Lemma bound_value a vals i v :
  bound E a vals -> NoDup vals.*1 -> (i, v) ∈ vals -> a i = SqlNull \/ a i = v.
Proof.
  intros [Hw _] Hnd Hin. destruct (Hw i) as [?|Hi]; [by left|right].
  apply list_elem_of_lookup in Hin as [j Hj], Hi as [k Hk].
  assert (j = k) as ->.
  { eapply (NoDup_lookup vals.*1 j k i); [done| |]; by rewrite list_lookup_fmap, ?Hj, ?Hk. }
  congruence.
Qed.
End bound_lemmas.

(** ** Lemmas: engine calls in a world *)

Section calls.
Context {W E : Type} `{!HasOS W, !WorldInv W, !HasSql W E, !Sqlite E, !SqliteSpec E}.
Context (c : sqlite_ctx) `{!SqlWorld (W := W) (E := E) c}.
Implicit Types w : W.

(** An engine call that keeps the adapter's invariant is balanced. *)
Lemma set_sql_balanced x w :
  world_ok w -> sqlite_used c (dbv w) (view x) -> balanced w (set_sql x w).
Proof.
  intros Hw Hx. apply same_os_balanced; [apply get_os_set_sql|by rewrite inbound_set_sql|
    apply (sql_world_held (c := c))|apply (sql_world_evolves (c := c))|].
  intros _. by apply sql_world_set.
Qed.

Lemma dbv_set_sql (x : E) w : dbv (set_sql x w) = view x.
Proof. unfold dbv. by rewrite get_set_sql. Qed.

Lemma dbv_set_os o w : dbv (E := E) (set_os o w) = dbv w.
Proof. unfold dbv. by rewrite get_sql_set_os. Qed.

Lemma balanced_world_ok w w' : balanced w w' -> world_ok w -> world_ok w'.
Proof. intros [Hl _]. apply Hl. Qed.

(** Running an engine call whose effect on the view is known. *)
Lemma wp_sql_run {A} (f : E -> option (A * E)) w (a : A) x (Q : A -> W -> Prop) :
  world_ok w -> f (get_sql w) = Some (a, x) -> sqlite_used c (dbv w) (view x) ->
  (forall w', balanced w w' -> dbv w' = view x -> Q a w') -> wp (sql_run f) w Q.
Proof.
  intros Hw Hf Hx HQ. unfold wp, sql_run. rewrite Hf.
  apply HQ; [by apply set_sql_balanced|apply dbv_set_sql].
Qed.

Lemma wp_reset_clear {A} s sql d w (m : M W A) Q :
  world_ok w -> prepared d sql (dbv (E := E) w) s ->
  (forall w', ready (E := E) s sql [] w w' -> wp m w' Q) ->
  wp (sqlite3_reset (E := E) s;; sqlite3_clear_bindings (E := E) s;; m) w Q.
Proof.
  intros Hw (st & Hst & Hsql & Hd) HQ. assert (Hok := sql_world_ok _ Hw).
  destruct (reset_spec s st (get_sql w) Hst) as (rc & x & Hr & Hv).
  apply wp_bind. eapply wp_sql_run; [done|done| |].
  { rewrite Hv. by eapply sqlite_used_set_stmt. }
  intros w1 Hb1 Hv1. rewrite Hv in Hv1. fold (dbv (E := E) w) in Hv1.
  assert (Hw1 := balanced_world_ok _ _ Hb1 Hw).
  set (st1 := mkStmt _ _ _ None) in Hv1.
  assert (Hst1 : db_stmts (dbv (E := E) w1) !! s = Some st1) by (rewrite Hv1; apply lookup_insert_eq).
  destruct (clear_spec s st1 (get_sql w1) Hst1 eq_refl) as (rc2 & x2 & Hr2 & Hv2).
  apply wp_bind. eapply wp_sql_run; [done|done| |].
  { rewrite Hv2. eapply sqlite_used_set_stmt; [exact Hst1|done..|]. by apply sql_world_ok. }
  intros w2 Hb2 Hv3. apply HQ. rewrite Hv2 in Hv3. fold (dbv (E := E) w1) in Hv3.
  split; [by eauto with bitchat|]. unfold rows_of. rewrite Hv3. cbn. split; [by rewrite Hv1|].
  exists d, no_args. split; [|apply bound_nil]. rewrite lookup_insert_eq. cbn. by rewrite Hsql, Hd.
Qed.

Lemma ready_world_ok s sql vals w0 w :
  ready (E := E) s sql vals w0 w -> world_ok w0 -> world_ok w.
Proof. intros [Hb _]. by apply balanced_world_ok. Qed.

Lemma wp_bind_ready s sql vals i v w0 w (Q : Z -> W -> Prop) :
  world_ok w0 -> ready (E := E) s sql vals w0 w -> i ∉ vals.*1 ->
  (forall rc w', later w w' -> ready (E := E) s sql ((i, v) :: vals) w0 w' -> Q rc w') ->
  wp (sql_run (sql_bind s i v)) w Q.
Proof.
  intros Hw0 Hr Hi HQ. assert (Hw := ready_world_ok _ _ _ _ _ Hr Hw0).
  destruct Hr as (Hb & Hrows & d & a & Hst & Hbd). assert (Hok := sql_world_ok _ Hw).
  destruct (bind_spec s i v _ (get_sql w) Hst eq_refl) as (rc & x & Hf & Hv).
  eapply wp_sql_run; [done|done| |].
  { rewrite Hv. case_bool_decide; [|done]. by eapply sqlite_used_set_stmt. }
  intros w' Hb' Hv'. apply HQ; [by eauto with bitchat|]. split; [by eauto with bitchat|].
  unfold rows_of in *. rewrite Hv', Hv. case_bool_decide as Hrc; cbn.
  - split; [done|]. exists d, (set_arg i v a). split; [apply lookup_insert_eq|by apply bound_set].
  - split; [done|]. exists d, a. split; [done|]. apply bound_failed; [|done].
    intros Hbs. apply Hrc. by eapply Hbs.
Qed.

Lemma wp_bind_blob_ready s sql vals i l n w0 w (Q : Z -> W -> Prop) :
  world_ok w0 -> ready (E := E) s sql vals w0 w -> i ∉ vals.*1 -> zlen l = n ->
  (forall rc w', later w w' -> ready (E := E) s sql ((i, SqlBlob l) :: vals) w0 w' -> Q rc w') ->
  wp (sqlite3_bind_blob (E := E) s i (Some l) n) w Q.
Proof.
  intros Hw0 Hr Hi Hl HQ. unfold sqlite3_bind_blob. rewrite bool_decide_eq_false_2 by zlen_lia.
  apply wp_bind. eapply wp_lift; [by apply mem_read_all|]. by eapply wp_bind_ready.
Qed.

Lemma wp_time_ready s sql vals w0 w (Q : Z -> W -> Prop) :
  heap_ok w0 -> ready (E := E) s sql vals w0 w ->
  (forall t w', ready (E := E) s sql vals w0 w' -> clock_read w0 w' t -> 0 <= t < 2 ^ 62 ->
     Q t w') ->
  wp time_i64 w Q.
Proof.
  intros Hok (Hb & Hrows & Hst) HQ. unfold time_i64. apply wp_bind.
  apply (wp_frame (dbv (E := E))); [apply untouched_time; intros; apply dbv_set_os|].
  apply wp_time. intros t w' Hb' Hclk Hv. apply wp_ret.
  assert (Hc : clock_read w0 w' t) by by eauto with bitchat.
  assert (Ht := clock_read_sane _ _ _ Hok Hc). rewrite to_i64_id by lia. apply HQ; [|done|done].
  split; [by eauto with bitchat|]. unfold rows_of in *. by rewrite Hv.
Qed.

(** Executing a change. *)
Lemma wp_step_change s sql vals w0 w (Q : Z -> W -> Prop) :
  world_ok w0 -> ready (E := E) s sql vals w0 w -> ~ is_query sql ->
  (forall a, bound E a vals -> Forall row_wf (changed sql a (rows_of (E := E) w0))) ->
  (forall rc w', balanced w0 w' -> later w w' ->
     (rc = SQLITE_DONE /\ exists a, bound E a vals /\
        rows_of (E := E) w' = changed sql a (rows_of (E := E) w0)) \/
     (rc <> SQLITE_DONE /\ ~ StepsSucceed E /\ rows_of (E := E) w' = rows_of (E := E) w0) -> Q rc w') ->
  wp (sqlite3_step (E := E) s) w Q.
Proof.
  intros Hw0 Hr Hq Hwf HQ. assert (Hw := ready_world_ok _ _ _ _ _ Hr Hw0).
  destruct Hr as (Hb & Hrows & d & a & Hst & Hbd).
  assert (Hok := sql_world_ok _ Hw). destruct Hok as [Hctx Hall].
  destruct (step_spec s _ (get_sql w) Hst) as (rc & x & Hf & Hs);
    [eapply Forall_impl; [exact Hall|apply row_wf_typed]|by right|].
  inversion Hs as [rc' cur Hne1 Hne2 He1 He2|Hnq He1 He2|rows Hiq|r rows Hiq]; try done.
  - eapply wp_sql_run; [done|done| |].
    { rewrite <- He2. by eapply sqlite_used_set_stmt. }
    intros w' Hb' Hv'. apply HQ; [by eauto with bitchat|by eauto with bitchat|]. right.
    unfold rows_of in *. rewrite Hv', <- He2. cbn. split_and!; [done| |done].
    intros Hss. destruct (Hss _ _ _ _ Hf); done.
  - eapply wp_sql_run; [done|done| |].
    { rewrite <- He2. split; [split; cbn|by eapply same_handles_set_stmt].
      - by eapply (ctx_ok_set_stmt c s _ (mkStmt d sql a (Some [])) _ Hst eq_refl eq_refl).
      - fold (dbv (E := E) w). fold (rows_of (E := E) w). rewrite Hrows. by apply Hwf. }
    intros w' Hb' Hv'. apply HQ; [by eauto with bitchat|by eauto with bitchat|]. left. split; [done|].
    exists a. split; [done|]. unfold rows_of in *. rewrite Hv', <- He2. cbn.
    fold (dbv (E := E) w). by rewrite Hrows.
Qed.
End calls.

(** ** Lemmas: the changes *)

(** What the statement of [sqlite_store_message] is run with. *)
Definition store_args (m : bc_message) (now : Z) : list (Z * sql_value) :=
  [(6, SqlInt (now + STORAGE_DEFAULT_RETENTION_SEC)); (5, SqlInt (ttl m));
   (4, match payload m with None => SqlNull | Some b => SqlBlob (contents b) end);
   (3, SqlBlob (receiver_pubkey m)); (2, SqlBlob (sender_pubkey m)); (1, SqlBlob (uuid m))].

Definition args_row (a : Z -> sql_value) : list sql_value := [a 1; a 2; a 3; a 4; a 5; a 6].

(** Membership of a listed parameter. *)
Ltac in_args := unfold store_args; repeat first [constructor 1 | constructor 2].

Lemma store_args_exact {E} `{!Sqlite E, !BindsSucceed E} a m now :
  bound E a (store_args m now) -> args_row a = message_row m now.
Proof.
  intros [_ He]. specialize (He _). unfold args_row, message_row, store_args in *.
  rewrite (He 1 _ ltac:(in_args)), (He 2 _ ltac:(in_args)), (He 3 _ ltac:(in_args)),
    (He 4 _ ltac:(in_args)), (He 5 _ ltac:(in_args)), (He 6 _ ltac:(in_args)). done.
Qed.

Lemma args_row_wf {E} `{!Sqlite E} a m now :
  message_wf m -> payload_len m < 2 ^ 31 -> 0 <= now < 2 ^ 62 ->
  bound E a (store_args m now) ->
  SqlNull ∉ [a 2; a 3; a 5; a 6] -> row_wf (args_row a).
Proof.
  intros (Hu & Ht & Hs & Hr & _ & Hpl & _ & Hpb) Hlen Hnow Hb Hnn.
  assert (Hnd : NoDup (store_args m now).*1) by (apply (bool_decide_unpack _); by vm_compute).
  assert (Hv := fun i v => bound_value a _ i v Hb Hnd).
  rewrite !not_elem_of_cons in Hnn. destruct Hnn as (N2 & N3 & N5 & N6 & _).
  destruct (Hv 2 _ ltac:(in_args)) as [E2|E2]; [by rewrite E2 in N2|].
  destruct (Hv 3 _ ltac:(in_args)) as [E3|E3]; [by rewrite E3 in N3|].
  destruct (Hv 5 _ ltac:(in_args)) as [E5|E5]; [by rewrite E5 in N5|].
  destruct (Hv 6 _ ltac:(in_args)) as [E6|E6]; [by rewrite E6 in N6|].
  unfold row_wf, args_row, col. cbn. rewrite E2, E3, E5, E6.
  unfold is_u8 in Ht. unfold msg_payload in Hpl, Hpb.
  unfold STORAGE_DEFAULT_RETENTION_SEC.
  split_and!; try done; try (cbn; lia).
  - by destruct (Hv 1 _ ltac:(in_args)) as [-> | ->].
  - destruct (Hv 4 _ ltac:(in_args)) as [-> | ->]; [done|].
    destruct (payload m); [cbn; split; [done|lia]|done].
Qed.

Section changes.
Context {W E : Type} `{!HasOS W, !WorldInv W, !HasSql W E, !Sqlite E, !SqliteSpec E}.
Context (c : sqlite_ctx) `{!SqlWorld (W := W) (E := E) c}.
Implicit Types w : W.

(** A change of the table by one statement: done, or failed without effect. *)
Definition table_changed (sql : string) (vals : list (Z * sql_value)) w (rc : Z) w' : Prop :=
  balanced w w' /\
  ((rc = BC_OK /\ exists a, bound E a vals /\
      rows_of (E := E) w' = changed sql a (rows_of (E := E) w)) \/
   (rc = BC_ERR_STORAGE /\ ~ StepsSucceed E /\ rows_of (E := E) w' = rows_of (E := E) w)).

Lemma wp_step_result s sql vals w0 w :
  world_ok w0 -> ready (E := E) s sql vals w0 w -> ~ is_query sql ->
  (forall a, bound E a vals -> Forall row_wf (changed sql a (rows_of (E := E) w0))) ->
  wp (rc ← sqlite3_step (E := E) s;
      mret (if bool_decide (rc = SQLITE_DONE) then BC_OK else BC_ERR_STORAGE)) w
    (fun rc w' => later w w' /\ table_changed sql vals w0 rc w').
Proof.
  intros Hw0 Hr Hq Hwf. apply wp_bind. eapply (wp_step_change c); [done|done|done|done|].
  intros rc w' Hb Hl Hcase. apply wp_ret. split; [done|]. split; [done|].
  destruct Hcase as [[-> Ha]|(Hne & Hss & Hrows)].
  - left. by rewrite bool_decide_eq_true_2.
  - right. by rewrite bool_decide_eq_false_2.
Qed.

Lemma wp_store_message m w :
  heap_ok w -> message_wf m -> payload_len m < 2 ^ 31 ->
  wp (sqlite_store_message (E := E) c m) w (fun rc w' =>
    exists now, clock_read w w' now /\ table_changed SQL_INSERT (store_args m now) w rc w').
Proof.
  intros Hok Hm Hlen. assert (Hw : world_ok w) by apply Hok.
  assert (Hctx := sql_world_ok _ Hw). destruct Hctx as [(Ho & Hi & _) Hall].
  destruct Hm as (Hu & Ht & Hs & Hr & Hrest) eqn:Hm'. clear Hm'.
  assert (Hpl : payload_len m = zlen (msg_payload m)) by apply Hrest.
  unfold sqlite_store_message. eapply (wp_reset_clear c); [done|done|]. intros w1 H1.
  apply wp_bind. eapply (wp_bind_blob_ready c); [done|done|set_solver|unfold zlen; by rewrite (proj1 Hu)|].
  intros _ w2 L2 H2. apply wp_bind.
  eapply (wp_bind_blob_ready c); [done|done|cbn; set_solver|unfold zlen; by rewrite (proj1 Hs)|].
  intros _ w3 L3 H3. apply wp_bind.
  eapply (wp_bind_blob_ready c); [done|done|cbn; set_solver|unfold zlen; by rewrite (proj1 Hr)|].
  intros _ w4 L4 H4. apply wp_bind.
  assert (Hpay : forall Q : Z -> W -> Prop, (forall rc w5, later w4 w5 -> ready (E := E) (stmt_insert c) SQL_INSERT
      ((4, match payload m with None => SqlNull | Some b => SqlBlob (contents b) end) ::
       [(3, SqlBlob (receiver_pubkey m)); (2, SqlBlob (sender_pubkey m)); (1, SqlBlob (uuid m))])
      w w5 -> Q rc w5) ->
    wp (sqlite3_bind_blob (E := E) (stmt_insert c) 4 (contents <$> payload m)
          (to_i32 (payload_len m))) w4 Q).
  { intros Q HQ. unfold msg_payload in Hpl. destruct (payload m) as [b|]; cbn.
    - eapply (wp_bind_blob_ready c); [done|done|cbn; set_solver| |done].
      rewrite to_i32_id; [done|]. zlen_lia.
    - eapply (wp_bind_ready c); [done|done|cbn; set_solver|done]. }
  apply Hpay. intros _ w5 L5 H5. apply wp_bind.
  eapply (wp_bind_ready c); [done|done|cbn; set_solver|]. intros _ w6 L6 H6. apply wp_bind.
  eapply wp_time_ready; [done|done|]. intros now w7 H7 Hclk Hnow.
  apply wp_bind. eapply wp_lift.
  { rewrite bool_decide_eq_true_2; [done|]. unfold STORAGE_DEFAULT_RETENTION_SEC. lia. }
  apply wp_bind. eapply (wp_bind_ready c); [done|done|cbn; set_solver|]. intros _ w8 L8 H8.
  eapply wp_mono; [eapply wp_step_result; [done|exact H8|by intros [|]|]|].
  { intros a Ha. apply insert_or_ignore_wf; [done|]. by eapply args_row_wf. }
  intros rc w' [Hl Hch]. exists now. split; [|done].
  by eauto with bitchat.
Qed.

Lemma wp_delete_message u w :
  heap_ok w -> bytes_n 16 u ->
  wp (sqlite_delete_message (E := E) c u) w (table_changed SQL_DELETE [(1, SqlBlob u)] w).
Proof.
  intros Hok Hu. assert (Hw : world_ok w) by apply Hok.
  assert (Hctx := sql_world_ok _ Hw). destruct Hctx as [(_ & _ & _ & _ & Hd & _) Hall].
  unfold sqlite_delete_message. eapply (wp_reset_clear c); [done|done|]. intros w1 H1.
  apply wp_bind. eapply (wp_bind_blob_ready c);
    [done|done|set_solver|unfold zlen; by rewrite (proj1 Hu)|].
  intros _ w2 _ H2. eapply wp_mono; [eapply wp_step_result; [done|exact H2|by intros [|]|]|].
  { intros a Ha. by apply changed_wf. }
  by intros rc w' [_ ?].
Qed.

Lemma wp_evict_expired age w :
  heap_ok w ->
  wp (sqlite_evict_expired (E := E) c age) w (fun rc w' =>
    exists now, clock_read w w' now /\ table_changed SQL_EVICT [(1, SqlInt now)] w rc w').
Proof.
  intros Hok. assert (Hw : world_ok w) by apply Hok.
  assert (Hctx := sql_world_ok _ Hw). destruct Hctx as [(_ & _ & _ & _ & _ & He) Hall].
  unfold sqlite_evict_expired. eapply (wp_reset_clear c); [done|done|]. intros w1 H1.
  apply wp_bind. eapply wp_time_ready; [done|done|]. intros now w2 H2 Hclk _.
  apply wp_bind. eapply (wp_bind_ready c); [done|done|set_solver|]. intros _ w3 L3 H3.
  eapply wp_mono; [eapply wp_step_result; [done|exact H3|by intros [|]|]|].
  { intros a Ha. by apply changed_wf. }
  intros rc w' [Hl Hch]. exists now. split; [|done]. by eauto with bitchat.
Qed.
End changes.

(** ** Lemmas: reading the table *)

Lemma separate_snoc l b :
  separate l -> message_wf (contents b) -> msg_blocks_distinct b ->
  msg_blocks b ## blocks_of l -> separate (l ++ [b]).
Proof.
  induction l as [|x l IH]; cbn [app separate]; intros Hs Hm Hd Hdis.
  - by split_and!.
  - destruct Hs as (Hx & Hxd & Hxb & Hs). unfold blocks_of in *. cbn in Hdis.
    rewrite fmap_app, union_list_app. cbn. split_and!; try done; [set_solver|].
    apply IH; try done. set_solver.
Qed.

Lemma blocks_of_snoc l b : blocks_of (l ++ [b]) = blocks_of l ∪ msg_blocks b.
Proof. unfold blocks_of. rewrite fmap_app, union_list_app_L. cbn. set_solver. Qed.

Section reading.
Context {W E : Type} `{!HasOS W, !WorldInv W, !HasSql W E, !Sqlite E, !SqliteSpec E}.
Context (c : sqlite_ctx) `{!SqlWorld (W := W) (E := E) c}.
Implicit Types w : W.

(** The pointer [sqlite3_column_blob] returns for a value. *)
Definition blob_ptr (v : sql_value) : option (list Z) :=
  match v with SqlBlob l => if bool_decide (l = []) then None else Some l | _ => None end.

Lemma copy_blob_ok n v :
  opt_blob (bytes_n n) v ->
  exists l, copy_blob (blob_ptr v) (Z.of_nat n) = Val l /\ bytes_n n l /\
            l = match v with SqlBlob l => l | _ => replicate n 0 end.
Proof.
  intros Hv. assert (Hz : bytes_n n (replicate n 0))
    by (split; [apply length_replicate|by apply bytes_ok_replicate]).
  destruct v as [|l|]; [| |done]; cbn in *; rewrite ?Nat2Z.id; [by eexists|].
  case_bool_decide as He.
  - subst l. destruct n; [|by destruct Hv]. by exists [].
  - exists l. split; [|done]. apply mem_read_all. unfold zlen. by rewrite (proj1 Hv).
Qed.

(** The result of reading a row: a fresh message for its packet. *)
Definition row_read (r : list sql_value) w (o : option (box bc_message)) w' : Prop :=
  dbv (E := E) w' = dbv (E := E) w /\
  match o with
  | None => balanced w w' /\ ~ never_oom w
  | Some b => owns_message b w w' /\ msg_packet (contents b) = row_packet r
  end.

Lemma wp_read {A} (f : E -> option A) (a : A) w (Q : A -> W -> Prop) :
  f (get_sql w) = Some a -> Q a w -> wp (sql_read f) w Q.
Proof. intros Hf HQ. unfold wp, sql_read. by rewrite Hf. Qed.

Lemma wp_alloc_dbv w (Q : option blk -> W -> Prop) :
  heap_ok w ->
  (forall w', ~ never_oom w -> balanced w w' -> dbv (E := E) w' = dbv w -> Q None w') ->
  (forall b w', acquired {[b]} w w' -> dbv (E := E) w' = dbv w -> Q (Some b) w') ->
  wp c_alloc w Q.
Proof.
  intros Hok HN HS. apply (wp_frame (dbv (E := E)));
    [apply untouched_alloc; intros; apply dbv_set_os|].
  apply wp_alloc; [done|by intros; apply HN|by intros; apply HS].
Qed.

Lemma wp_free_dbv b bs w0 w (Q : unit -> W -> Prop) :
  acquired bs w0 w -> b ∈ bs ->
  (forall w', later w w' -> acquired (bs ∖ {[b]}) w0 w' -> dbv (E := E) w' = dbv w -> Q tt w') ->
  wp (c_free (Some b)) w Q.
Proof.
  intros Ha Hb HQ. apply (wp_frame (dbv (E := E)));
    [apply untouched_free; intros; apply dbv_set_os|].
  eapply wp_free_acquired; [done|done|]. by intros; apply HQ.
Qed.

Lemma column_blob_at s st r rest i w P :
  db_stmts (dbv (E := E) w) !! s = Some st -> st_cursor st = Some (r :: rest) ->
  (i < length r)%nat -> opt_blob P (col r i) ->
  sql_column_blob s i (get_sql w) = Some (blob_ptr (col r i)) /\
  sql_column_bytes s i (get_sql w) = Some (zlen (blob_of (col r i))).
Proof.
  intros Hst Hc Hi Hb. assert (H := column_spec s st i r rest (get_sql w) Hst Hc Hi).
  destruct (col r i); done.
Qed.

Lemma column_int_at s st r rest i w lo hi :
  db_stmts (dbv (E := E) w) !! s = Some st -> st_cursor st = Some (r :: rest) ->
  (i < length r)%nat -> int_in lo hi (col r i) ->
  sql_column_int s i (get_sql w) = Some (to_i32 (int_of (col r i))) /\
  sql_column_int64 s i (get_sql w) = Some (int_of (col r i)) /\ lo <= int_of (col r i) < hi.
Proof.
  intros Hst Hc Hi Hb. assert (H := column_spec s st i r rest (get_sql w) Hst Hc Hi).
  destruct (col r i); try done. cbn in *. tauto.
Qed.

Lemma blob_n_opt n v : blob_n n v -> opt_blob (bytes_n n) v.
Proof. by destruct v. Qed.

(** The fields of a well-formed row make a well-formed message. *)
Lemma row_message_wf r u sd rv pl :
  row_wf r -> bytes_n 16 u -> bytes_n 32 sd -> bytes_n 32 rv ->
  u = match col r 0 with SqlBlob l => l | _ => replicate 16 0 end ->
  sd = match col r 1 with SqlBlob l => l | _ => replicate 32 0 end ->
  rv = match col r 2 with SqlBlob l => l | _ => replicate 32 0 end ->
  match pl with None => [] | Some p => contents p end = blob_of (col r 3) ->
  let m := mkMessage u (int_of (col r 4)) sd rv
    (to_u64 (int_of (col r 5) - STORAGE_DEFAULT_RETENTION_SEC)) pl (zlen (blob_of (col r 3))) in
  message_wf m /\ msg_packet m = row_packet r.
Proof.
  intros (_ & H0 & H1 & H2 & H3 & H4 & H5) Wu Ws Wr Eu Es Er Hpl m. split.
  - unfold message_wf, m, msg_payload. cbn [uuid ttl sender_pubkey receiver_pubkey timestamp payload payload_len].
    rewrite Hpl. unfold is_u8.
    assert (Hpay : bytes_ok (blob_of (col r 3)) /\ zlen (blob_of (col r 3)) < 2 ^ 31)
      by (destruct (col r 3); cbn in *; [split; [constructor|done]|done|done]).
    destruct (col r 4); try done. cbn in *. split_and!; try tauto; try lia; apply to_u64_range.
  - unfold msg_packet, row_packet, m, msg_payload. cbn. rewrite Hpl, Eu, Es, Er.
    destruct (col r 1), (col r 2); done.
Qed.

(** Reading a row, on every allocation outcome. *)
Lemma wp_read_row s st r rest w :
  heap_ok w -> db_stmts (dbv (E := E) w) !! s = Some st -> st_cursor st = Some (r :: rest) ->
  row_wf r -> wp (read_row (E := E) s) w (row_read r w).
Proof.
  intros Hok Hst Hc Hrw. assert (Hrw' := Hrw).
  destruct Hrw' as (Hlen & H0 & H1 & H2 & H3 & H4 & H5). unfold read_row.
  destruct (column_blob_at s st r rest 0 w _ Hst Hc ltac:(lia) H0) as [C0 _].
  destruct (column_blob_at s st r rest 1 w _ Hst Hc ltac:(lia) (blob_n_opt _ _ H1)) as [C1 _].
  destruct (column_blob_at s st r rest 2 w _ Hst Hc ltac:(lia) (blob_n_opt _ _ H2)) as [C2 _].
  destruct (column_blob_at s st r rest 3 w _ Hst Hc ltac:(lia) H3) as [C3 C3'].
  destruct (column_int_at s st r rest 4 w _ _ Hst Hc ltac:(lia) H4) as (C4 & _ & R4).
  destruct (column_int_at s st r rest 5 w _ _ Hst Hc ltac:(lia) H5) as (_ & C5 & R5).
  do 7 (apply wp_bind; eapply wp_read; [done|]).
  destruct (copy_blob_ok 16 _ H0) as (u & Cu & Wu & Eu).
  destruct (copy_blob_ok 32 _ (blob_n_opt _ _ H1)) as (sd & Cs & Ws & Es).
  destruct (copy_blob_ok 32 _ (blob_n_opt _ _ H2)) as (rv & Cr & Wr & Er).
  apply wp_bind, wp_alloc_dbv; [done|by intros; apply wp_ret|]. intros b w1 Ha1 Hv1.
  apply wp_bind, (wp_lift _ _ _ u Cu), wp_bind, (wp_lift _ _ _ sd Cs), wp_bind,
    (wp_lift _ _ _ rv Cr), wp_bind.
  eapply wp_lift; [rewrite bool_decide_eq_true_2; [done|]; unfold STORAGE_DEFAULT_RETENTION_SEC; lia|].
  cbv zeta. rewrite (to_i32_id (int_of (col r 4))), to_u8_id by (unfold is_u8; lia).
  assert (Hown : forall pl w2, match pl with None => [] | Some p => contents p end = blob_of (col r 3) ->
    let m := Box b (mkMessage u (int_of (col r 4)) sd rv
      (to_u64 (int_of (col r 5) - STORAGE_DEFAULT_RETENTION_SEC)) pl (zlen (blob_of (col r 3)))) in
    msg_blocks_distinct m -> acquired (msg_blocks m) w w2 -> dbv (E := E) w2 = dbv w ->
    row_read r w (Some m) w2).
  { intros pl w2 Hpl m Hd Ha Hv. split; [done|].
    by destruct (row_message_wf r u sd rv pl) as [Hm Hp]. }
  destruct (col r 3) as [|l|] eqn:E3; [| |done].
  { apply wp_ret. apply (Hown None w1); [done|done| |done].
    unfold msg_blocks. cbn. by rewrite union_empty_r_L. }
  unfold blob_ptr. case_bool_decide as Hl.
  { subst l. apply wp_ret. apply (Hown None w1); [done|done| |done].
    unfold msg_blocks. cbn. by rewrite union_empty_r_L. }
  cbn [blob_of]. rewrite bool_decide_eq_true_2 by (destruct l; [done|zlen_lia]).
  apply wp_bind, wp_alloc_dbv; [by eauto with bitchat| |].
  { intros w2 Hoom Hb2 Hv2. apply wp_bind.
    apply (wp_free_dbv b {[b]} w); [by eauto with bitchat|set_solver|]. intros w3 _ Ha3 Hv3.
    rewrite difference_diag_L in Ha3. apply acquired_nil in Ha3. apply wp_ret.
    split; [congruence|]. split; [done|]. intros Hno. apply Hoom. by eauto with bitchat. }
  intros p w2 Ha2 Hv2. apply wp_bind. eapply wp_lift; [by apply mem_read_all|]. apply wp_ret.
  assert (Hdis := acquired_disjoint _ _ _ _ _ Ha1 Ha2).
  apply (Hown (Some (Box p l)) w2); [done|cbn; set_solver| |congruence].
  unfold msg_blocks. cbn. rewrite union_comm_L. by eapply acquired_union.
Qed.

Lemma untouched_destroy b : untouched (dbv (W := W) (E := E)) (bc_message_destroy b).
Proof.
  assert (Hos : forall o w, dbv (E := E) (set_os o w) = dbv w) by (intros; apply dbv_set_os).
  destruct b as [b|]; [|apply untouched_ret]. unfold bc_message_destroy.
  destruct (payload (contents b)); repeat (apply untouched_bind; [|intros]);
    first [by apply untouched_free|apply untouched_lift|apply untouched_ret].
Qed.

Lemma wp_destroy_all l bs w0 w (Q : unit -> W -> Prop) :
  separate l -> acquired bs w0 w -> blocks_of l ⊆ bs ->
  (forall w', acquired (bs ∖ blocks_of l) w0 w' -> dbv (E := E) w' = dbv w -> Q tt w') ->
  wp (destroy_all l) w Q.
Proof.
  revert bs w. induction l as [|b l IH]; intros bs w Hs Ha Hsub HQ; cbn [destroy_all].
  - apply wp_ret, HQ; [|done]. unfold blocks_of. cbn. by rewrite difference_empty_L.
  - destruct Hs as (Hm & Hd & Hdis & Hs). unfold blocks_of in Hsub. cbn in Hsub.
    apply wp_bind. apply (wp_frame (dbv (E := E))); [apply untouched_destroy|].
    eapply wp_destroy; [done|done|done|set_solver|]. intros w1 _ Ha1 Hv1.
    eapply IH; [done|exact Ha1|unfold blocks_of in *; set_solver|]. intros w2 Ha2 Hv2.
    apply HQ; [|congruence]. unfold blocks_of in *. cbn.
    by replace (bs ∖ (msg_blocks b ∪ ⋃ (msg_blocks <$> l)))
      with (bs ∖ msg_blocks b ∖ ⋃ (msg_blocks <$> l)) by set_solver.
Qed.

Lemma wp_pending_oom arr n w0 w (Q : _ -> W -> Prop) :
  array_wf arr n -> acquired (array_blocks arr) w0 w ->
  (forall w', balanced w0 w' -> dbv (E := E) w' = dbv w -> Q (BC_ERR_NOMEM, (None, 0)) w') ->
  wp (pending_oom arr) w Q.
Proof.
  intros Hwf Ha HQ. unfold pending_oom. destruct arr as [a|]; cbn in *.
  - destruct Hwf as (_ & Hs & Hna). apply wp_bind.
    eapply wp_destroy_all; [done|done|set_solver|]. intros w1 Ha1 Hv1. apply wp_bind.
    eapply (wp_free_dbv (addr a)); [exact Ha1|set_solver|]. intros w2 _ Ha2 Hv2. apply wp_ret, HQ.
    + apply acquired_nil. by replace (∅ : gset blk) with
        ((({[addr a]} ∪ blocks_of (contents a)) ∖ blocks_of (contents a)) ∖ {[addr a]}) by set_solver.
    + congruence.
  - apply wp_bind, wp_ret, wp_bind, wp_free_null, wp_ret, HQ; [by apply acquired_nil|done].
Qed.

(** Growing the array keeps its contents. *)
Lemma wp_grow_array arr n w0 w (Q : option msg_array -> W -> Prop) :
  heap_ok w -> array_wf arr n -> acquired (array_blocks arr) w0 w ->
  (forall w', ~ never_oom w -> balanced w w' -> dbv (E := E) w' = dbv w -> Q None w') ->
  (forall a w', array_wf (Some a) n -> array_packets (Some a) = array_packets arr ->
     acquired (array_blocks (Some a)) w0 w' -> dbv (E := E) w' = dbv w -> Q (Some (Some a)) w') ->
  wp (grow_array arr) w Q.
Proof.
  intros Hok Hwf Ha HN HS. unfold grow_array.
  apply wp_bind, wp_alloc_dbv; [done|by intros; apply wp_ret, HN|]. intros b w1 Ha1 Hv1.
  assert (Hdis := acquired_disjoint _ _ _ _ _ Ha Ha1).
  assert (Ha2 := acquired_union _ _ _ _ _ Ha Ha1).
  apply wp_bind. destruct arr as [a|]; cbn [array_wf array_blocks array_packets fmap option_fmap option_map] in *.
  - destruct Hwf as (Hn & Hs & Hna).
    eapply (wp_free_dbv (addr a)); [exact Ha2|set_solver|]. intros w2 _ Ha3 Hv3. apply wp_ret, HS.
    + cbn. split_and!; [done|done|set_solver].
    + done.
    + cbn. by replace ({[b]} ∪ blocks_of (contents a)) with
        (({[b]} ∪ ({[addr a]} ∪ blocks_of (contents a))) ∖ {[addr a]}) by set_solver.
    + congruence.
  - subst n. apply wp_free_null, wp_ret, HS; cbn; unfold blocks_of; cbn.
    + by split_and!.
    + done.
    + done.
    + done.
Qed.
End reading.

Section pending.
Context {W E : Type} `{!HasOS W, !WorldInv W, !HasSql W E, !Sqlite E, !SqliteSpec E}.
Context (c : sqlite_ctx) `{!SqlWorld (W := W) (E := E) c}.
Implicit Types w : W.

(** The rows a query is to deliver, and in which orders it may. *)
Definition query_rows (st : stmt) (rows : list (list sql_value)) : list (list sql_value) :=
  filter (fun r => selected (st_sql st) (st_args st) r = true) rows.

Definition comes (st : stmt) (rows l : list (list sql_value)) : Prop :=
  match st_cursor st with
  | None => l ≡ₚ query_rows st rows
  | Some (_ :: l') => l = l'
  | Some [] => False
  end.

(** The rows left after the current one. *)
Definition todo (st : stmt) (rows : list (list sql_value)) : nat :=
  match st_cursor st with None => length (query_rows st rows) | Some l => pred (length l) end.

Definition at_cursor (st : stmt) (l : list (list sql_value)) : stmt :=
  mkStmt (st_db st) (st_sql st) (st_args st) (Some l).

Definition cursor_wf (st : stmt) : Prop :=
  st_cursor st <> Some [] /\ Forall row_wf (default [] (st_cursor st)).

Lemma wp_step_query s st w (Q : Z -> W -> Prop) :
  world_ok w -> db_stmts (dbv (E := E) w) !! s = Some st -> is_query (st_sql st) ->
  cursor_wf st ->
  (forall rc w', balanced w w' -> rows_of (E := E) w' = rows_of (E := E) w -> rc <> SQLITE_ROW ->
     (StepsSucceed E -> comes st (rows_of (E := E) w) []) -> Q rc w') ->
  (forall r l w', balanced w w' -> rows_of (E := E) w' = rows_of (E := E) w ->
     db_stmts (dbv (E := E) w') !! s = Some (at_cursor st (r :: l)) ->
     comes st (rows_of (E := E) w) (r :: l) -> Q SQLITE_ROW w') ->
  wp (sqlite3_step (E := E) s) w Q.
Proof.
  intros Hw Hst Hq [Hcur Hcw] HN HS.
  assert (Hok := sql_world_ok _ Hw). destruct Hok as [Hctx Hall].
  destruct (step_spec s _ (get_sql w) Hst) as (rc & x & Hf & Hs);
    [eapply Forall_impl; [exact Hall|apply row_wf_typed]|by left|].
  assert (Hmove : forall l, comes st (rows_of (E := E) w) l ->
    view x = set_stmt s (at_cursor st l) (dbv (E := E) w) ->
    rc = (if bool_decide (l = []) then SQLITE_DONE else SQLITE_ROW) ->
    wp (sqlite3_step (E := E) s) w Q).
  { intros l Hl Hx Hrc. eapply (wp_sql_run c); [done|done| |].
    { rewrite Hx. by eapply sqlite_used_set_stmt. }
    intros w' Hb Hv. rewrite Hx in Hv. subst rc. destruct l as [|r l].
    - apply HN; [done| |done|done]. unfold rows_of. by rewrite Hv.
    - apply (HS r l); [done| | |done]; unfold rows_of; rewrite Hv; [done|apply lookup_insert_eq]. }
  inversion Hs as [rc' cur Hne1 Hne2 He1 He2|Hnq He1 He2|rows Hiq Hnone Hperm He1 He2|r rows Hiq Hsome He1 He2];
    try done.
  - eapply (wp_sql_run c); [done|done| |].
    { rewrite <- He2. by eapply sqlite_used_set_stmt. }
    intros w' Hb Hv. apply HN; [done| |done|].
    + unfold rows_of. by rewrite Hv, <- He2.
    + intros Hss. by destruct (Hss _ _ _ _ Hf).
  - apply (Hmove rows); [|by rewrite <- He2|by symmetry]. unfold comes. by rewrite Hnone.
  - apply (Hmove rows); [|by rewrite <- He2|by symmetry]. unfold comes. by rewrite Hsome.
Qed.

Lemma comes_wf st rows l :
  Forall row_wf rows -> cursor_wf st -> comes st rows l -> Forall row_wf l.
Proof.
  unfold comes, cursor_wf. intros Hall [_ Hcw]. destruct (st_cursor st) as [[|r l']|]; [done| |].
  - intros ->. by apply Forall_cons_1 in Hcw as [_ ?].
  - intros Hp. rewrite Hp. by apply row_wf_filter.
Qed.

(** The rows left, in one of the orders. *)
Definition to_come (st : stmt) (rows : list (list sql_value)) : list (list sql_value) :=
  match st_cursor st with None => query_rows st rows | Some l => tail l end.

Lemma to_come_comes st rows : cursor_wf st -> comes st rows (to_come st rows).
Proof. intros [Hc _]. unfold comes, to_come. by destruct (st_cursor st) as [[|]|]. Qed.

Lemma to_come_nil st rows : comes st rows [] -> to_come st rows = [].
Proof.
  unfold comes, to_come. destruct (st_cursor st) as [[|]|]; [done|done|].
  by intros ?%Permutation_nil_l.
Qed.

Lemma comes_todo st rows r l :
  comes st rows (r :: l) -> todo st rows = S (length l).
Proof.
  unfold comes, todo. destruct (st_cursor st) as [[|r' l']|]; [done|by intros <-|].
  intros Hp. by rewrite <- Hp.
Qed.

(** What [sqlite_get_pending] returns: the packets of rows the query delivers,
    all of them unless a step failed, or out of memory with nothing kept. *)
Definition pending_result (acc : list packet) (st : stmt) w0 w (o : Z * (msg_array * Z)) w' : Prop :=
  let '(rc, (arr, n)) := o in
  rows_of (E := E) w' = rows_of (E := E) w /\
  ((rc = BC_ERR_NOMEM /\ arr = None /\ n = 0 /\ balanced w0 w' /\ ~ never_oom w0) \/
   (rc = BC_OK /\ acquired (array_blocks arr) w0 w' /\ array_wf arr n /\
    exists ds rest, array_packets arr = acc ++ (row_packet <$> ds) /\
      comes st (rows_of (E := E) w) (ds ++ rest) /\ (StepsSucceed E -> rest = []))).

(** Reading the current row and pushing it on the array. *)
Definition read_and_push (fuel s : nat) (arr : msg_array) (cap n : Z) : M W (Z * (msg_array * Z)) :=
  msg ← read_row (E := E) s;
  match msg, arr with
  | None, _ => pending_oom arr
  | Some msg, Some a =>
      if bool_decide (n < cap /\ n = zlen (contents a))
      then pending_loop (E := E) fuel s (Some (Box (addr a) (contents a ++ [msg]))) cap (n + 1)
      else lift UB
  | Some _, None => lift UB
  end.

Lemma wp_read_and_push fuel s st r l a cap n w0 w (Q : _ -> W -> Prop) :
  heap_ok w0 -> db_stmts (dbv (E := E) w) !! s = Some (at_cursor st (r :: l)) -> row_wf r ->
  acquired (array_blocks (Some a)) w0 w -> array_wf (Some a) n -> n < cap ->
  (forall w', ~ never_oom w0 -> balanced w0 w' -> dbv (E := E) w' = dbv w ->
     Q (BC_ERR_NOMEM, (None, 0)) w') ->
  (forall a' w', array_wf (Some a') (n + 1) ->
     array_packets (Some a') = array_packets (Some a) ++ [row_packet r] ->
     acquired (array_blocks (Some a')) w0 w' -> dbv (E := E) w' = dbv w ->
     wp (pending_loop (E := E) fuel s (Some a') cap (n + 1)) w' Q) ->
  wp (read_and_push fuel s (Some a) cap n) w Q.
Proof.
  intros Hok0 Hst Hr Ha Hwf Hn HN HS. unfold read_and_push. apply wp_bind.
  eapply wp_mono; [eapply (wp_read_row c s (at_cursor st (r :: l)) r l); by eauto with bitchat|].
  intros [b|] w1 [Hv1 Hb].
  - destruct Hb as [(Hm & Hd & Hab) Hp]. destruct Hwf as (Hlen & Hs & Hna).
    rewrite bool_decide_eq_true_2 by done.
    assert (Hdis := acquired_disjoint _ _ _ _ _ Ha Hab).
    assert (Hu := acquired_union _ _ _ _ _ Ha Hab). cbn in Hdis, Hu.
    apply disjoint_union_l in Hdis as [Hd1 Hd2].
    apply HS; cbn [array_wf array_packets array_blocks addr contents]; rewrite ?blocks_of_snoc.
    + split_and!; [zlen_lia|by apply separate_snoc|].
      apply not_elem_of_union. split; [done|]. by apply disjoint_singleton_l.
    + by rewrite fmap_app, <- Hp.
    + by replace ({[addr a]} ∪ (blocks_of (contents a) ∪ msg_blocks b))
        with (msg_blocks b ∪ ({[addr a]} ∪ blocks_of (contents a))) by set_solver.
    + done.
  - destruct Hb as [Hb Hoom]. eapply (wp_pending_oom c); [done|by eauto with bitchat|].
    intros w2 Hb2 Hv2. apply HN; [|done|congruence].
    intros Hno. apply Hoom. by eauto with bitchat.
Qed.

Lemma wp_pending_loop fuel s st arr cap n w0 w :
  heap_ok w0 -> db_stmts (dbv (E := E) w) !! s = Some st -> is_query (st_sql st) ->
  cursor_wf st -> (todo st (rows_of (E := E) w) < fuel)%nat ->
  acquired (array_blocks arr) w0 w -> array_wf arr n -> n <= cap ->
  (arr = None -> cap = 0) ->
  wp (pending_loop (E := E) fuel s arr cap n) w
    (pending_result (array_packets arr) st w0 w).
Proof.
  intros Hok0. revert st arr cap n w. induction fuel as [|fuel IH];
    intros st arr cap n w Hst Hq Hcw Hfuel Ha Hwf Hcap Hnone; [lia|]. cbn [pending_loop].
  assert (Hok : heap_ok w) by by eauto with bitchat.
  assert (Hall : Forall row_wf (rows_of (E := E) w)) by (apply sql_world_ok; apply Hok).
  apply wp_bind. eapply (wp_step_query s st); [apply Hok|done|done|done| |].
  { intros rc w1 Hb1 Hr1 Hrc Hend. rewrite bool_decide_eq_true_2 by done. apply wp_ret.
    split; [done|]. right. split_and!; [done|by eauto with bitchat|done|].
    exists [], (to_come st (rows_of (E := E) w)). split_and!.
    - cbn. by rewrite app_nil_r.
    - by apply to_come_comes.
    - intros Hss. by apply to_come_nil, Hend. }
  intros r l w1 Hb1 Hr1 Hst1 Hcome. rewrite bool_decide_eq_false_2 by tauto.
  assert (Hrl := comes_wf _ _ _ Hall Hcw Hcome).
  assert (Htodo := comes_todo _ _ _ _ Hcome).
  assert (Hrow : row_wf r) by by apply Forall_cons_1 in Hrl as [? _].
  (* after a row was read and pushed, the loop goes on *)
  assert (Hnext : forall a cap' w2, array_wf (Some a) n -> array_packets (Some a) = array_packets arr ->
    n < cap' -> acquired (array_blocks (Some a)) w0 w2 -> dbv (E := E) w2 = dbv w1 ->
    wp (read_and_push fuel s (Some a) cap' n) w2 (pending_result (array_packets arr) st w0 w)).
  { intros a cap' w2 Hwf2 Hp2 Hn2 Ha2 Hv2.
    apply (wp_read_and_push fuel s st r l a cap' n w0); [done|by rewrite Hv2|done|done|done|done| |].
    - intros w3 Hoom Hb3 Hv3. split; [unfold rows_of in *; congruence|]. left. by split_and!.
    - intros a' w3 Hwf3 Hp3 Ha3 Hv3.
      assert (Hrows3 : rows_of (E := E) w3 = rows_of (E := E) w) by (unfold rows_of in *; congruence).
      eapply wp_mono; [apply (IH (at_cursor st (r :: l)));
        [by rewrite Hv3, Hv2|done|by split|unfold todo; cbn; lia|done|done|lia|done]|].
      intros [rc [arr' n']] w4 [Hr4 Hres]. split; [congruence|].
      destruct Hres as [Hres|(Hrc & Ha4 & Hwf4 & ds & rest & Hpk & Hcm & Hss)]; [by left|right].
      change (ds ++ rest = l) in Hcm.
      split_and!; try done. exists (r :: ds), rest. split_and!; [|cbn [app]; by rewrite Hcm|done].
      rewrite Hpk, Hp3, Hp2, <- (assoc_L (++)). done. }
  apply wp_bind. case_bool_decide as Hgrow.
  - apply wp_bind, (wp_grow_array c arr n w0); [by eauto with bitchat|done|by eauto with bitchat| |].
    + intros w2 Hoom Hb2 Hv2. apply wp_ret. eapply (wp_pending_oom c); [done|by eauto with bitchat|].
      intros w3 Hb3 Hv3. split; [unfold rows_of in *; congruence|]. left. split_and!; try done.
      intros Hno. apply Hoom. assert (later w0 w1) by (apply acquired_later in Ha; by eauto with bitchat).
      by eauto with bitchat.
    + intros a w2 Hwf2 Hp2 Ha2 Hv2. apply wp_ret. cbn [fmap option_fmap option_map].
      apply Hnext; try done. assert (0 <= n) by (destruct Hwf2 as [-> _]; apply zlen_nonneg).
      case_bool_decide; lia.
  - apply wp_ret. destruct arr as [a|]; [|rewrite Hnone in * by done; cbn in Hwf; lia].
    apply Hnext; try done; [lia|by eauto with bitchat].
Qed.

(** The query of [sqlite_get_pending] and its parameters. *)
Definition pending_sql (pk : option (list Z)) : string :=
  match pk with Some _ => SQL_GET_PENDING | None => SQL_GET_ALL_PENDING end.
Definition pending_args (pk : option (list Z)) (now : Z) : list (Z * sql_value) :=
  match pk with Some k => [(2, SqlInt now); (1, SqlBlob k)] | None => [(1, SqlInt now)] end.

(** From a statement that is ready to the end of the call. *)
Lemma wp_pending_ready s sql vals w0 w :
  heap_ok w0 -> ready (E := E) s sql vals w0 w -> is_query sql ->
  wp (rows ← row_count (E := E); pending_loop (E := E) (S rows) s None 0 0) w (fun o w' =>
    later w w' /\ exists d a, bound E a vals /\
    pending_result [] (mkStmt d sql a None) w0 w0 o w').
Proof.
  intros Hok (Hb & Hrows & d & a & Hst & Hbd) Hq.
  apply wp_bind. unfold wp at 1, row_count. fold (dbv (E := E) w). fold (rows_of (E := E) w).
  assert (Hlen : (length (query_rows (mkStmt d sql a None) (rows_of (E := E) w))
    <= length (rows_of (E := E) w))%nat) by apply length_filter.
  eapply wp_mono; [apply (wp_pending_loop _ s (mkStmt d sql a None) None 0 0 w); try done|].
  - by eauto with bitchat.
  - unfold todo. cbn [st_cursor]. lia.
  - apply acquired_nil, balanced_refl.
  - intros [rc [arr n]] w' [Hr Hres]. split.
    { destruct Hres as [(_ & _ & _ & Hb' & _)|(_ & Ha & _)]; by eauto with bitchat. }
    exists d, a. split; [done|]. rewrite Hrows in Hr, Hres. split; [done|].
    destruct Hres as [(-> & -> & -> & Hb' & Hoom)|(-> & Ha & Hwf & Hds)].
    + left. split_and!; try done; [by eauto with bitchat|]. intros Hno. apply Hoom.
      by eauto with bitchat.
    + right. split_and!; try done. by eauto with bitchat.
Qed.

Lemma wp_get_pending pk w :
  heap_ok w -> (forall k, pk = Some k -> bytes_n 32 k) ->
  wp (sqlite_get_pending (E := E) c pk) w (fun o w' =>
    exists now d a, clock_read w w' now /\ bound E a (pending_args pk now) /\
    pending_result [] (mkStmt d (pending_sql pk) a None) w w o w').
Proof.
  intros Hok Hpk. assert (Hw : world_ok w) by apply Hok.
  assert (Hctx := sql_world_ok _ Hw). destruct Hctx as [(_ & _ & Hg & Ha & _) _].
  unfold sqlite_get_pending. apply wp_bind. destruct pk as [k|]; cbv zeta.
  - eapply (wp_reset_clear c); [done|done|]. intros w1 H1. apply wp_bind.
    eapply (wp_bind_blob_ready c); [done|done|set_solver| |].
    { specialize (Hpk k eq_refl). unfold zlen. by rewrite (proj1 Hpk). }
    intros _ w2 _ H2. apply wp_bind. eapply wp_time_ready; [done|done|].
    intros now w3 H3 Hclk _. apply wp_bind. eapply (wp_bind_ready c); [done|done|cbn; set_solver|].
    intros _ w4 L4 H4. apply wp_ret.
    eapply wp_mono; [eapply wp_pending_ready; [done|exact H4|by left]|].
    intros o w' [Hl (d & a & Hbd & Hres)]. exists now, d, a. split_and!; [|done|done].
    by eauto with bitchat.
  - eapply (wp_reset_clear c); [done|done|]. intros w1 H1. apply wp_bind.
    eapply wp_time_ready; [done|done|].
    intros now w3 H3 Hclk _. apply wp_bind. eapply (wp_bind_ready c); [done|done|set_solver|].
    intros _ w4 L4 H4. apply wp_ret.
    eapply wp_mono; [eapply wp_pending_ready; [done|exact H4|by right]|].
    intros o w' [Hl (d & a & Hbd & Hres)]. exists now, d, a. split_and!; [|done|done].
    by eauto with bitchat.
Qed.
End pending.
