(* ===== verification/SqliteStorageProps.v ===== *)
(** * SqliteStorageProps: the properties of the SQLite adapter

    The adapter keeps the storage contract; storing, reading and evicting
    change the table as specified; the constructor and the destructor account
    for every block, statement and connection. *)
From stdpp Require Import strings.
From S2P Require Import Prelude Effects Errors Message Ports Sockets World Sqlite SqliteStorage.
From S2P Require Import SqliteStorageSpec MessageStore.

(** A row that has not expired at time [now], for the wanted receiver if any. *)
Definition pending_row (pk : option (list Z)) (now : Z) (r : list sql_value) : Prop :=
  now <= int_of (col r 5) /\ (forall k, pk = Some k -> blob_of (col r 2) = k).

#[export] Instance pending_row_dec pk now r : Decision (pending_row pk now r).
Proof.
  unfold pending_row. apply and_dec; [apply _|]. destruct pk as [k|].
  - destruct (decide (blob_of (col r 2) = k)) as [He|He]; [left|right].
    + by intros k' [= <-].
    + intros Hk. by apply He, Hk.
  - left. done.
Defined.

(** ** Lemmas *)

Lemma selected_pending {E} `{!Sqlite E, !BindsSucceed E} a pk now d r :
  bound E a (pending_args pk now) -> row_wf r ->
  (selected (st_sql (mkStmt d (pending_sql pk) a None)) a r = true <-> pending_row pk now r).
Proof.
  intros [_ He] (_ & _ & _ & H2 & _ & _ & H5). specialize (He _).
  unfold selected, pending_row, pending_sql, pending_args in *. cbn [st_sql].
  destruct (col r 2) as [|k2|] eqn:E2; try done. destruct (col r 5) as [| |z5] eqn:E5; try done.
  cbn [int_of blob_of]. destruct pk as [k|].
  - rewrite bool_decide_eq_true_2 by done.
    rewrite (He 1 (SqlBlob k)), (He 2 (SqlInt now)) by (repeat first [constructor 1|constructor 2]).
    cbn. rewrite andb_true_iff, !bool_decide_eq_true. split.
    + intros [-> ?]. split; [lia|by intros ? [= <-]].
    + intros [? Hk]. split; [by apply Hk|lia].
  - rewrite bool_decide_eq_false_2 by done.
    rewrite (He 1 (SqlInt now)) by constructor 1. cbn. rewrite bool_decide_eq_true.
    split; [intros; split; [lia|done]|intros [? _]; lia].
Qed.

Lemma filter_iff_wf (P Q : list sql_value -> Prop) `{!forall r, Decision (P r)}
    `{!forall r, Decision (Q r)} rows :
  Forall row_wf rows -> (forall r, row_wf r -> P r <-> Q r) -> filter P rows = filter Q rows.
Proof.
  intros Hall HPQ. induction Hall as [|r rows Hr Hall IH]; [done|].
  rewrite !filter_cons, IH. specialize (HPQ r Hr). do 2 case_decide; tauto.
Qed.

(** A row with a new uuid is appended. *)
Lemma insert_new m now rows :
  (forall r, r ∈ rows -> col r 0 <> SqlBlob (uuid m)) ->
  insert_or_ignore (message_row m now) rows = rows ++ [message_row m now].
Proof.
  intros Hnew. unfold insert_or_ignore. replace (existsb _ _) with false.
  - rewrite bool_decide_eq_false_2; [done|].
    cbn. intros Hn. repeat (apply elem_of_cons in Hn as [?|Hn]; [done|]). by apply elem_of_nil in Hn.
  - symmetry. apply not_true_iff_false. intros Hex. apply existsb_exists in Hex as (r & Hr & He).
    cbn in He. destruct (col r 0) eqn:E0; try done. cbn in He.
    apply bool_decide_eq_true in He as ->. apply list_elem_of_In in Hr. by apply (Hnew r).
Qed.

(** What a stored message is read back as. *)
Lemma row_packet_message m now :
  0 <= now < 2 ^ 62 ->
  row_packet (message_row m now) =
    mkPacket (uuid m) (ttl m) (sender_pubkey m) (receiver_pubkey m) now (msg_payload m).
Proof.
  intros Hnow. unfold row_packet, message_row. cbn.
  replace (now + STORAGE_DEFAULT_RETENTION_SEC - STORAGE_DEFAULT_RETENTION_SEC) with now by lia.
  rewrite to_u64_id by (unfold is_u64; lia).
  replace (blob_of _) with (msg_payload m); [done|]. unfold msg_payload. by destruct (payload m).
Qed.

Section lemmas.
Context {W E : Type} `{!HasOS W, !WorldInv W, !HasSql W E, !Sqlite E, !SqliteSpec E}.
Context (c : sqlite_ctx) `{!SqlWorld (W := W) (E := E) c}.
Implicit Types w : W.

Lemma sqlite_safe self ctx :
  contents ctx = c -> StorageSafe (sqlite_storage (W := W) (E := E) self ctx).
Proof.
  intros Hc. split; rewrite <- ?Hc.
  - intros f m w [= <-] Hok Hm Hlen. rewrite Hc.
    eapply wp_mono; [by apply wp_store_message|]. by intros rc w' (now & _ & Hb & _).
  - intros f pk w [= <-] Hok Hpk. rewrite Hc.
    eapply wp_mono; [by apply wp_get_pending|].
    intros [rc [arr n]] w' (now & d & a & _ & _ & _ & Hres).
    destruct Hres as [(-> & _ & _ & Hb & _)|(-> & Ha & Hwf & _)]; [|done].
    by rewrite bool_decide_eq_false_2.
  - intros f u w [= <-] Hok Hu. rewrite Hc.
    eapply wp_mono; [by apply wp_delete_message|]. by intros rc w' (Hb & _).
  - intros f age w [= <-] Hok. rewrite Hc.
    eapply wp_mono; [by apply wp_evict_expired|]. by intros rc w' (now & _ & Hb & _).
Qed.

Lemma wp_get_pending_exact `{!BindsSucceed E, !StepsSucceed E} pk w :
  heap_ok w -> never_oom w -> (forall k, pk = Some k -> bytes_n 32 k) ->
  wp (sqlite_get_pending (E := E) c pk) w (fun '(rc, (arr, n)) w' =>
    rc = BC_OK /\ acquired (array_blocks arr) w w' /\ array_wf arr n /\
    rows_of (E := E) w' = rows_of (E := E) w /\
    exists now, clock_read w w' now /\
      array_packets arr ≡ₚ row_packet <$> filter (pending_row pk now) (rows_of (E := E) w)).
Proof.
  intros Hok Hno Hpk. eapply wp_mono; [by apply wp_get_pending|].
  intros [rc [arr n]] w' (now & d & a & Hclk & Hbd & Hrows & Hres).
  destruct Hres as [(_ & _ & _ & _ & Hoom)|(-> & Ha & Hwf & ds & rest & Hp & Hc & Hss)]; [done|].
  split_and!; try done. exists now. split; [done|].
  rewrite (Hss _), app_nil_r in Hc. rewrite Hp. cbn [app]. apply fmap_Permutation.
  unfold comes in Hc. cbn [st_cursor] in Hc. rewrite Hc. unfold query_rows.
  erewrite (filter_iff_wf _ (pending_row pk now)); [done|apply sql_world_ok; apply Hok|].
  intros r Hr. by eapply selected_pending.
Qed.
(** A message stored at one reading of the clock is pending at another, when the
    clock stays within the retention time. *)
Lemma within_retention w w1 w2 now t :
  heap_ok w -> (forall n k, os_now (get_os w) k <= os_now (get_os w) n + STORAGE_DEFAULT_RETENTION_SEC) ->
  clock_read w w1 now -> clock_read w w2 t -> t <= now + STORAGE_DEFAULT_RETENTION_SEC.
Proof.
  intros (_ & _ & Hs) Hclock (k & _ & ->) (j & _ & ->). assert (Hk := Hs k). assert (Hj := Hs j).
  rewrite !to_u64_id by (unfold is_u64; lia). apply Hclock.
Qed.
End lemmas.

(** ** Properties *)

Section properties.
Context {W E : Type} `{!HasOS W, !WorldInv W, !HasSql W E, !Sqlite E, !SqliteSpec E}.
Context (c : sqlite_ctx) `{!SqlWorld (W := W) (E := E) c}.
Implicit Types w : W.

(** C17: the SQLite adapter discharges the storage contract the router is
    verified against: in every world where its statements are prepared and the
    table holds only rows it wrote, each call of the vtable is defined (no read
    past a blob, no overflow), returns, keeps the rows readable, and leaks
    nothing - on running out of memory half-way [get_pending] destroys every
    message it had built. *)
Theorem sqlite_keeps_contract self blk_ctx :
  StorageSafe (sqlite_storage (W := W) (E := E) self (Box blk_ctx c)).
Proof. by apply (sqlite_safe c). Qed.

(** Storing is insert-or-ignore: [BC_OK] means the table gained exactly the
    row of the message, expiring 72 hours after the reading of the clock, unless
    a row with that uuid was there, which is kept as it was; any other code
    leaves the table unchanged.  The rows stay well-formed. *)
Theorem sqlite_store_inserts m w :
  heap_ok w -> message_wf m -> payload_len m < 2 ^ 31 ->
  wp (sqlite_store_message (E := E) c m) w (fun rc w' =>
    balanced w w' /\ Forall row_wf (rows_of (E := E) w') /\
    exists now, clock_read w w' now /\
      ((rc = BC_OK /\ (BindsSucceed E ->
          rows_of (E := E) w' = insert_or_ignore (message_row m now) (rows_of (E := E) w))) \/
       (rc = BC_ERR_STORAGE /\ rows_of (E := E) w' = rows_of (E := E) w))).
Proof.
  intros Hok Hm Hlen. eapply wp_mono; [by apply wp_store_message|].
  intros rc w' (now & Hclk & Hb & Hcase). split; [done|]. split.
  { apply sql_world_ok. by apply (balanced_heap_ok _ _ Hb). }
  exists now. split; [done|].
  destruct Hcase as [(-> & a & Ha & Hrows)|(-> & _ & Hrows)]; [left|by right].
  split; [done|]. intros Hbs. rewrite Hrows. by rewrite <- (store_args_exact a m now).
Qed.

(** C18: reading returns exactly what is pending: when the engine and the
    allocator do not fail, [get_pending] answers [BC_OK] with one owned message
    per row that has not expired (all of them, or those for the given key), in
    some order, each standing for its row, and leaves the table as it was. *)
Theorem sqlite_get_pending_exact `{!BindsSucceed E, !StepsSucceed E} pk w :
  heap_ok w -> never_oom w -> (forall k, pk = Some k -> bytes_n 32 k) ->
  wp (sqlite_get_pending (E := E) c pk) w (fun '(rc, (arr, n)) w' =>
    rc = BC_OK /\ acquired (array_blocks arr) w w' /\ array_wf arr n /\
    rows_of (E := E) w' = rows_of (E := E) w /\
    exists now, clock_read w w' now /\
      array_packets arr ≡ₚ row_packet <$> filter (pending_row pk now) (rows_of (E := E) w)).
Proof. apply (wp_get_pending_exact c). Qed.

(** A stored message comes back with its uuid, time-to-live, keys and
    payload, but not with its timestamp: the returned message carries the
    moment it was stored on this node, not the moment it was created (the
    reader's comment speaks of the original timestamp). *)
Theorem sqlite_store_then_get `{!BindsSucceed E, !StepsSucceed E} m w :
  heap_ok w -> never_oom w -> message_wf m -> payload_len m < 2 ^ 31 ->
  (forall r, r ∈ rows_of (E := E) w -> col r 0 <> SqlBlob (uuid m)) ->
  (forall n k, os_now (get_os w) k <= os_now (get_os w) n + STORAGE_DEFAULT_RETENTION_SEC) ->
  wp (rc ← sqlite_store_message (E := E) c m;
      out ← sqlite_get_pending (E := E) c None;
      mret (rc, out)) w (fun '(rc, (rc2, (arr, n))) w' =>
    rc = BC_OK /\ rc2 = BC_OK /\ exists now, clock_read w w' now /\
      mkPacket (uuid m) (ttl m) (sender_pubkey m) (receiver_pubkey m) now (msg_payload m)
        ∈ array_packets arr).
Proof.
  intros Hok Hno Hm Hlen Hnew Hclock. apply wp_bind.
  eapply wp_mono; [by apply wp_store_message|].
  intros rc w1 (now & Hclk & Hb & Hcase).
  destruct Hcase as [(-> & a & Ha & Hrows)|(_ & Hss & _)]; [|by destruct Hss].
  change (changed SQL_INSERT a (rows_of (E := E) w)) with
    (insert_or_ignore (args_row a) (rows_of (E := E) w)) in Hrows.
  rewrite (store_args_exact a m now Ha) in Hrows.
  apply wp_bind. eapply wp_mono; [apply wp_get_pending_exact; by eauto with bitchat|].
  intros [rc2 [arr n]] w2 (-> & Har & _ & _ & t & Hclk2 & Hperm). apply wp_ret.
  split_and!; try done. exists now. split; [by eauto with bitchat|]. rewrite Hperm.
  assert (Hnow := clock_read_sane _ _ _ Hok Hclk).
  rewrite <- (row_packet_message m now) by done. apply list_elem_of_fmap_2, list_elem_of_filter.
  rewrite Hrows, insert_new by done. split; [|set_solver]. split; [|done].
  apply (within_retention w w1 w2); try done; by eauto with bitchat.
Qed.

(** Eviction is exact and ignores the requested age: whatever retention the
    message store was configured with, [bc_store_cleanup] through this adapter
    removes exactly the rows whose own 72-hour deadline has passed and keeps
    the order of the others; on an engine error nothing changes. *)
Theorem sqlite_cleanup_ignores_age `{!BindsSucceed E} self blk_ctx age w :
  heap_ok w ->
  wp (bc_store_cleanup (Some (mkStore (sqlite_storage (E := E) self (Box blk_ctx c)) age))) w
    (fun rc w' => balanced w w' /\ exists now, clock_read w w' now /\
      ((rc = BC_OK /\ rows_of (E := E) w' =
          filter (fun r => now <= int_of (col r 5)) (rows_of (E := E) w)) \/
       (rc = BC_ERR_STORAGE /\ rows_of (E := E) w' = rows_of (E := E) w))).
Proof.
  intros Hok. cbn. eapply wp_mono; [by apply wp_evict_expired|].
  intros rc w' (now & Hclk & Hb & Hcase). split; [done|]. exists now. split; [done|].
  destruct Hcase as [(-> & a & Ha & Hrows)|(-> & _ & Hrows)]; [left|by right].
  split; [done|]. rewrite Hrows. unfold changed. cbn.
  destruct Ha as [_ He]. rewrite (He _ 1 (SqlInt now)) by constructor 1.
  apply filter_iff_wf; [apply sql_world_ok; apply Hok|].
  intros r (_ & _ & _ & _ & _ & _ & H5). destruct (col r 5); try done. cbn.
  rewrite bool_decide_eq_false. lia.
Qed.
End properties.

(** ** Witnesses *)

(** A database with the five statements prepared and the given rows. *)
Definition demo_sql_ctx : sqlite_ctx := mkSqliteCtx 0 0 1 2 3 4.
Definition demo_db (rows : list (list sql_value)) : db_view :=
  mkDb rows
    (list_to_map (imap (fun i sql => (i, mkStmt 0 sql no_args None))
       [SQL_INSERT; SQL_GET_PENDING; SQL_GET_ALL_PENDING; SQL_DELETE; SQL_EVICT]))
    {[0%nat]}.
Definition demo_row : list sql_value :=
  message_row (mkMessage (replicate 16 9) 5 (replicate 32 1) (replicate 32 2) 0
                 (Some (Box 0%nat [1; 2])) 2) 1000.

#[export] Instance demo_sql_inv : ExtInv db_view := free_inv (sqlite_ok demo_sql_ctx).

#[export] Instance demo_sql_world : SqlWorld (W := world db_view) demo_sql_ctx.
Proof. split; [by intros w [_ Hx]|by intros w x [Hq _] [Hx _]|done|done]. Qed.

#[export] Instance mini_steps_succeed : StepsSucceed db_view.
Proof.
  intros s d rc d'. cbn. unfold mini_step, mini_stmt. destruct (_ !! _); [|done]. cbn.
  case_bool_decide; [|intros [= <- _]; by right].
  destruct (st_cursor _) as [[|]|]; intros [= <- _]; case_bool_decide; auto.
Qed.

Lemma demo_db_ok rows : Forall row_wf rows -> sqlite_ok demo_sql_ctx (demo_db rows).
Proof.
  intros Hr. split; [|done].
  split_and!; [cbn; set_solver|by eexists; split; [reflexivity|]..].
Qed.

Lemma demo_row_wf : row_wf demo_row.
Proof.
  unfold row_wf, demo_row, message_row, col. cbn.
  split_and!; try done; try lia; apply (bool_decide_unpack _); vm_compute; exact I.
Qed.

Lemma demo_rows_wf : Forall row_wf [demo_row].
Proof. constructor; [exact demo_row_wf|constructor]. Qed.

Lemma demo_sql_ok t0 rows :
  Forall row_wf rows ->
  heap_ok (demo_world t0 [] (demo_db rows)) /\ never_oom (demo_world t0 [] (demo_db rows)).
Proof.
  intros Hr. destruct (demo_world_ok t0 [] (demo_db rows)) as (? & ? & _);
    [constructor|by apply demo_db_ok|done|done].
Qed.

Definition w_demo : world db_view := demo_world 9 [] (demo_db [demo_row]).

(** A clock that stands still. *)
Definition w_still : world db_view :=
  mkWorld (mkOS (fun _ => 500) 0 (fun _ => true) 0 ∅ (fun _ _ => 0) 0 (fun _ _ => 165)) (demo_net [])
    (demo_db [demo_row]).

(** A read error looks like an empty table: on a disk that fails, with a row
    that is due, reading answers [BC_OK] and no message. *)
Theorem read_error_looks_empty :
  exists w', sqlite_get_pending (Sqlite0 := mini_engine SQLITE_OK true) demo_sql_ctx None w_still =
    Val ((BC_OK, (None, 0)), w') /\ pending_row None 500 demo_row.
Proof. eexists. split; [vm_compute; reflexivity|]. split; [vm_compute; discriminate|done]. Qed.

Lemma sqlite_store_inserts_witness :
  wp (sqlite_store_message demo_sql_ctx (demo_message 5)) w_demo
    (fun rc w' =>
    balanced w_demo w' /\ Forall row_wf (rows_of w') /\
    exists now, clock_read w_demo w' now /\
      ((rc = BC_OK /\ (BindsSucceed db_view ->
          rows_of w' = insert_or_ignore (message_row (demo_message 5) now) (rows_of w_demo))) \/
       (rc = BC_ERR_STORAGE /\ rows_of w' = rows_of w_demo))).
Proof.
  apply (sqlite_store_inserts demo_sql_ctx (demo_message 5) w_demo).
  - apply demo_sql_ok. exact demo_rows_wf.
  - apply (bool_decide_unpack _). vm_compute. exact I.
  - vm_compute. reflexivity.
Defined.

Lemma sqlite_get_pending_exact_witness :
  wp (sqlite_get_pending demo_sql_ctx (Some (replicate 32 2))) w_demo
    (fun '(rc, (arr, n)) w' =>
    rc = BC_OK /\ acquired (array_blocks arr) w_demo w' /\
    array_wf arr n /\ rows_of w' = rows_of w_demo /\
    exists now, clock_read w_demo w' now /\
      array_packets arr ≡ₚ
        row_packet <$> filter (pending_row (Some (replicate 32 2)) now) (rows_of w_demo)).
Proof.
  apply (sqlite_get_pending_exact demo_sql_ctx (Some (replicate 32 2)) w_demo).
  - apply demo_sql_ok. exact demo_rows_wf.
  - apply demo_sql_ok. exact demo_rows_wf.
  - intros k [= <-]. apply (bool_decide_unpack _). vm_compute. exact I.
Defined.

Lemma sqlite_store_then_get_witness :
  wp (rc ← sqlite_store_message demo_sql_ctx (demo_message 5);
      out ← sqlite_get_pending demo_sql_ctx None;
      mret (rc, out)) w_still (fun '(rc, (rc2, (arr, n))) w' =>
    rc = BC_OK /\ rc2 = BC_OK /\ exists now, clock_read w_still w' now /\
      mkPacket (uuid (demo_message 5)) (ttl (demo_message 5)) (sender_pubkey (demo_message 5))
        (receiver_pubkey (demo_message 5)) now (msg_payload (demo_message 5))
        ∈ array_packets arr).
Proof.
  apply (sqlite_store_then_get demo_sql_ctx (demo_message 5) w_still).
  - split; [split; [intros b Hb; cbn in Hb; set_solver|done]|]. split; [|intros n; cbn; lia].
    split; [constructor|]. apply demo_db_ok. exact demo_rows_wf.
  - intros n. reflexivity.
  - apply (bool_decide_unpack _). vm_compute. exact I.
  - vm_compute. reflexivity.
  - intros r Hr. apply list_elem_of_singleton in Hr as ->. vm_compute. discriminate.
  - intros n k. vm_compute. discriminate.
Defined.

Lemma sqlite_cleanup_ignores_age_witness :
  wp (bc_store_cleanup (Some (mkStore (sqlite_storage 1%nat (Box 0%nat demo_sql_ctx)) 1)))
    w_demo
    (fun rc w' => balanced w_demo w' /\
      exists now, clock_read w_demo w' now /\
      ((rc = BC_OK /\ rows_of w' = filter (fun r => now <= int_of (col r 5)) (rows_of w_demo)) \/
       (rc = BC_ERR_STORAGE /\ rows_of w' = rows_of w_demo))).
Proof.
  apply (sqlite_cleanup_ignores_age demo_sql_ctx 1%nat 0%nat 1 w_demo).
  apply demo_sql_ok. exact demo_rows_wf.
Defined.

Lemma sqlite_keeps_contract_witness :
  StorageSafe (W := world db_view) (sqlite_storage 1%nat (Box 0%nat demo_sql_ctx)).
Proof. apply (sqlite_keeps_contract demo_sql_ctx 1%nat 0%nat). Defined.
