(* ===== verification/MessageStoreProps.v ===== *)
(** * MessageStoreProps: the message store over the SQLite adapter

    A session of usecase/message_store.c with the SQLite adapter behind it: what
    is saved can be read by its receiver until it is deleted, and everything
    else in the table stays as it was. *)
From stdpp Require Import strings.
From S2P Require Import Prelude Effects Errors Message Ports Sockets World Sqlite SqliteStorage.
From S2P Require Import SqliteStorageSpec MessageStore SqliteStorageProps.

(** Deleting the row that was appended restores the table. *)
Lemma delete_new a m now rows :
  (forall r, r ∈ rows -> col r 0 <> SqlBlob (uuid m)) -> a 1 = SqlBlob (uuid m) ->
  changed SQL_DELETE a (rows ++ [message_row m now]) = rows.
Proof.
  intros Hnew Ha.
  change (filter (fun r => sql_eq (col r 0) (a 1) = false) (rows ++ [message_row m now]) = rows).
  rewrite Ha, filter_app, filter_cons_False, filter_nil, app_nil_r.
  - induction rows as [|r rows IH]; [done|]. rewrite filter_cons_True, IH; [done|set_solver|].
    unfold sql_eq. destruct (col r 0) as [|u|] eqn:E0; try done. apply bool_decide_eq_false.
    intros ->. by apply (Hnew r); [left|].
  - cbn. rewrite bool_decide_eq_true_2; done.
Qed.

Section store.
Context {W E : Type} `{!HasOS W, !WorldInv W, !HasSql W E, !Sqlite E, !SqliteSpec E}.
Context (c : sqlite_ctx) `{!SqlWorld (W := W) (E := E) c} `{!BindsSucceed E, !StepsSucceed E}.
Implicit Types w : W.

Lemma wp_store_new m w :
  heap_ok w -> message_wf m -> payload_len m < 2 ^ 31 ->
  (forall r, r ∈ rows_of (E := E) w -> col r 0 <> SqlBlob (uuid m)) ->
  wp (sqlite_store_message (E := E) c m) w (fun rc w' =>
    rc = BC_OK /\ balanced w w' /\ exists now, clock_read w w' now /\
      rows_of (E := E) w' = rows_of (E := E) w ++ [message_row m now]).
Proof.
  intros Hok Hm Hlen Hnew. eapply wp_mono; [by apply wp_store_message|].
  intros rc w' (now & Hclk & Hb & [(-> & a & Ha & Hrows)|(_ & Hss & _)]); [|by destruct Hss].
  split; [done|]. split; [done|]. exists now. split; [done|]. rewrite Hrows.
  change (changed SQL_INSERT a (rows_of (E := E) w)) with (insert_or_ignore (args_row a) (rows_of (E := E) w)).
  by rewrite (store_args_exact a m now Ha), insert_new.
Qed.

Lemma wp_delete_new m now rows w :
  heap_ok w -> message_wf m -> (forall r, r ∈ rows -> col r 0 <> SqlBlob (uuid m)) ->
  rows_of (E := E) w = rows ++ [message_row m now] ->
  wp (sqlite_delete_message (E := E) c (uuid m)) w (fun rc w' =>
    rc = BC_OK /\ balanced w w' /\ rows_of (E := E) w' = rows).
Proof.
  intros Hok Hm Hnew Hrows. assert (Hu : bytes_n 16 (uuid m)) by apply Hm.
  eapply wp_mono; [exact (wp_delete_message c (uuid m) w Hok Hu)|].
  intros rc w' (Hb & [(-> & a & [_ Ha] & Hr)|(_ & Hss & _)]); [|by destruct Hss].
  split; [done|]. split; [done|]. rewrite Hr, Hrows. apply delete_new; [done|].
  apply (Ha _ 1). constructor 1.
Qed.

(** A session: save, read, delete, read again. *)
Definition store_session (adapter : bc_storage W) (age : Z) (m : bc_message)
    : M W (option (list Z * option (msg_array * Z) * option (msg_array * Z))) :=
  store ← bc_store_create (Some adapter) age;
  match store with
  | None => mret None
  | Some s =>
      rc1 ← bc_store_save (Some (contents s)) (Some m);
      '(rc2, out1) ← bc_store_get_for_peer (Some (contents s)) (Some (receiver_pubkey m));
      rc3 ← bc_store_delete (Some (contents s)) (Some (uuid m));
      '(rc4, out2) ← bc_store_get_for_peer (Some (contents s)) (Some (receiver_pubkey m));
      bc_store_destroy (Some (addr s));;
      mret (Some ([rc1; rc2; rc3; rc4], out1, out2))
  end.

(** C38: the message store keeps what it is given until it is told to drop it:
    while nothing fails, a message with a new uuid that is saved through a store
    on the SQLite adapter is read back by its receiver - next to exactly the
    unexpired rows for that receiver that were there before, with the time it
    was saved as its timestamp - and after its deletion the receiver reads those
    rows alone; the table is then as it was, and the store has given back its
    own memory, so that only the two arrays it returned are left to the
    caller. *)
Theorem store_keeps_until_deleted self blk_ctx age m w :
  heap_ok w -> never_oom w -> message_wf m -> payload_len m < 2 ^ 31 ->
  (forall r, r ∈ rows_of (E := E) w -> col r 0 <> SqlBlob (uuid m)) ->
  (forall n k, os_now (get_os w) k <= os_now (get_os w) n + STORAGE_DEFAULT_RETENTION_SEC) ->
  wp (store_session (sqlite_storage (E := E) self (Box blk_ctx c)) age m) w (fun res w' =>
    exists now t1 t2 arr1 n1 arr2 n2,
      res = Some ([BC_OK; BC_OK; BC_OK; BC_OK], Some (arr1, n1), Some (arr2, n2)) /\
      clock_read w w' now /\ clock_read w w' t1 /\ clock_read w w' t2 /\
      array_wf arr1 n1 /\ array_wf arr2 n2 /\
      array_packets arr1 ≡ₚ
        (row_packet <$> filter (pending_row (Some (receiver_pubkey m)) t1) (rows_of (E := E) w)) ++
        [mkPacket (uuid m) (ttl m) (sender_pubkey m) (receiver_pubkey m) now (msg_payload m)] /\
      array_packets arr2 ≡ₚ
        row_packet <$> filter (pending_row (Some (receiver_pubkey m)) t2) (rows_of (E := E) w) /\
      rows_of (E := E) w' = rows_of (E := E) w /\
      acquired (array_blocks arr1 ∪ array_blocks arr2) w w').
Proof.
  intros Hok Hno Hm Hlen Hnew Hclock. unfold store_session, bc_store_create.
  apply wp_bind, wp_bind, wp_alloc_dbv; [done|done|]. intros b w1 Ha1 Hv1. apply wp_ret.
  assert (Hok1 : heap_ok w1) by by eauto with bitchat. assert (Hl1 : later w w1) by apply Ha1.
  assert (Hr1 : rows_of (E := E) w1 = rows_of (E := E) w) by (unfold rows_of; by rewrite Hv1).
  cbn [contents addr bc_store_save store_storage s_store_message sqlite_storage].
  apply wp_bind. eapply wp_mono; [apply wp_store_new; try done; by rewrite Hr1|].
  intros rc1 w2 (-> & Hb2 & now & Hclk2 & Hr2). rewrite Hr1 in Hr2.
  cbn [bc_store_get_for_peer store_storage s_get_pending].
  assert (Hk : forall k, Some (receiver_pubkey m) = Some k -> bytes_n 32 k) by (intros k [= <-]; apply Hm).
  apply wp_bind, wp_bind. eapply wp_mono; [apply (wp_get_pending_exact c); try done; by eauto with bitchat|].
  intros [rc2 [arr1 n1]] w3 (-> & Ha3 & Hwf3 & Hr3 & t1 & Hclk3 & Hp3). apply wp_ret.
  cbn [bc_store_delete store_storage s_delete_message].
  assert (Hok3 : heap_ok w3) by by eauto with bitchat.
  apply wp_bind. eapply wp_mono; [apply (wp_delete_new m now (rows_of (E := E) w)); try done; congruence|].
  intros rc3 w4 (-> & Hb4 & Hr4). apply wp_bind, wp_bind.
  eapply wp_mono; [apply (wp_get_pending_exact c); try done; by eauto 6 with bitchat|].
  intros [rc4 [arr2 n2]] w5 (-> & Ha5 & Hwf5 & Hr5 & t2 & Hclk5 & Hp5). apply wp_ret.
  apply wp_bind. unfold bc_store_destroy.
  assert (Ha45 := acquired_union _ _ _ _ _ Ha3 (balanced_acquired _ _ _ _ Hb4 Ha5)).
  assert (Ha15 := acquired_union _ _ _ _ _ Ha1 (balanced_acquired _ _ _ _ Hb2 Ha45)).
  assert (Hd := acquired_disjoint _ _ _ _ _ Ha1 (balanced_acquired _ _ _ _ Hb2 Ha45)).
  apply (wp_free_dbv (E := E) b _ _ _ _ Ha15); [set_solver|]. intros w6 Hl6 Ha6 Hv6. apply wp_ret.
  assert (Hclk1 : clock_read w w2 now) by by eauto with bitchat.
  assert (Hclk3' : clock_read w w3 t1) by by eauto 6 with bitchat.
  assert (Hclk5' : clock_read w w5 t2) by by eauto 8 with bitchat.
  assert (Hnow := clock_read_sane _ _ _ Hok Hclk1).
  exists now, t1, t2, arr1, n1, arr2, n2. split_and!; try done; try by eauto 8 with bitchat.
  - rewrite Hp3, Hr2, filter_app, fmap_app, filter_cons_True, filter_nil; cbn [fmap list_fmap].
    + by rewrite row_packet_message.
    + split; [|by intros k [= <-]]. by apply (within_retention w w2 w3).
  - by rewrite Hp5, Hr4.
  - unfold rows_of in *. rewrite Hv6. congruence.
  - replace (array_blocks arr1 ∪ array_blocks arr2) with (((array_blocks arr2 ∪ array_blocks arr1) ∪ {[b]}) ∖ {[b]});
      [done|]. clear -Hd. set_solver.
Qed.
End store.

Lemma store_keeps_until_deleted_witness :
  wp (store_session (sqlite_storage 1%nat (Box 0%nat demo_sql_ctx)) 0 (demo_message 5)) w_still (fun res w' =>
    exists now t1 t2 arr1 n1 arr2 n2,
      res = Some ([BC_OK; BC_OK; BC_OK; BC_OK], Some (arr1, n1), Some (arr2, n2)) /\
      clock_read w_still w' now /\ clock_read w_still w' t1 /\ clock_read w_still w' t2 /\
      array_wf arr1 n1 /\ array_wf arr2 n2 /\
      array_packets arr1 ≡ₚ
        (row_packet <$> filter (pending_row (Some (receiver_pubkey (demo_message 5))) t1) (rows_of w_still)) ++
        [mkPacket (uuid (demo_message 5)) (ttl (demo_message 5)) (sender_pubkey (demo_message 5))
           (receiver_pubkey (demo_message 5)) now (msg_payload (demo_message 5))] /\
      array_packets arr2 ≡ₚ
        row_packet <$> filter (pending_row (Some (receiver_pubkey (demo_message 5))) t2) (rows_of w_still) /\
      rows_of w' = rows_of w_still /\
      acquired (array_blocks arr1 ∪ array_blocks arr2) w_still w').
Proof.
  apply (store_keeps_until_deleted demo_sql_ctx 1%nat 0%nat 0 (demo_message 5) w_still).
  - split; [split; [intros b Hb; cbn in Hb; set_solver|done]|]. split; [|intros n; cbn; lia].
    split; [constructor|]. apply demo_db_ok. exact demo_rows_wf.
  - intros n. reflexivity.
  - apply (bool_decide_unpack _). vm_compute. exact I.
  - vm_compute. reflexivity.
  - intros r Hr. apply list_elem_of_singleton in Hr as ->. vm_compute. discriminate.
  - intros n k. vm_compute. discriminate.
Defined.
