(* ===== verification/SqliteLifecycle.v ===== *)
(** * SqliteLifecycle: creating and destroying the SQLite adapter

    The resources of [bc_storage_sqlite_create] and [sqlite_destroy]: heap
    blocks, prepared statements and the connection.  [holds] says what a call
    in progress has taken on top of where it started. *)
From stdpp Require Import strings.
From S2P Require Import Prelude Effects Errors Message Ports Sockets World Sqlite SqliteStorage.
From S2P Require Import SqliteStorageSpec.

(** The world's invariant does not depend on the engine. *)
Class SqlFree (W E : Type) `{!HasOS W, !WorldInv W, !HasSql W E} : Prop := {
  world_ok_set_sql : forall x w, world_ok w -> world_ok (set_sql x w);
  held_set_sql : forall x w, held (set_sql x w) = held w;
  evolves_set_sql : forall x w, evolves w (set_sql x w)
}.

(** ** Specification *)

Section holding.
Context {W E : Type} `{!HasOS W, !WorldInv W, !HasSql W E, !Sqlite E}.
Implicit Types w : W.

(** On top of [v0], the connection [d] is open and owns the statements [m]. *)
Definition holds (d : nat) (m : gmap nat stmt) (v0 : db_view) w : Prop :=
  (d ∉ db_open v0) /\
  db_open (dbv (E := E) w) = {[d]} ∪ db_open v0 /\
  m ##ₘ db_stmts v0 /\
  db_stmts (dbv (E := E) w) = m ∪ db_stmts v0 /\
  (forall s st, m !! s = Some st -> st_db st = d) /\
  (forall s st, db_stmts v0 !! s = Some st -> st_db st <> d) /\
  rows_of (E := E) w = db_rows v0.

(** [l] lists the handles of [m] with their texts; NULL where a preparation
    failed or was skipped. *)
Definition handles (d : nat) (l : list (option nat * string)) (m : gmap nat stmt) : Prop :=
  NoDup (omap fst l) /\ dom m = list_to_set (omap fst l) /\
  (forall s sql, (Some s, sql) ∈ l -> m !! s = Some (mkStmt d sql no_args None)).

(** The statements of a context, in the order in which they are finalized. *)
Definition ctx_handles (c : sqlite_ctx) : list nat :=
  [stmt_insert c; stmt_get_pending c; stmt_get_all_pending c; stmt_delete c; stmt_evict c].

(** In the engine [x], [sqlite3_open_v2] on [path] fails and hands out a
    connection all the same; [v'] is then what is left when nobody closes it. *)
Definition open_leaks (path : string) (x : E) (v' : db_view) : Prop :=
  exists rc d x', sql_open path open_flags x = (rc, Some d, x') /\ rc <> SQLITE_OK /\
    (d ∉ db_open (view x)) /\
    v' = mkDb (db_rows (view x)) (db_stmts (view x)) ({[d]} ∪ db_open (view x)).

(** The same, of an engine that looks like [v]. *)
Definition leaked_connection (path : string) (v v' : db_view) : Prop :=
  exists x : E, view x = v /\ open_leaks path x v'.

(** What [bc_storage_sqlite_create] on [path] may return. *)
Definition sqlite_created (path : string) w (r : option (box (bc_storage W))) w' : Prop :=
  match r with
  | None =>
      balanced w w' /\ (dbv (E := E) w' = dbv w \/ open_leaks path (get_sql w) (dbv w'))
  | Some t =>
      exists ctx m, contents t = sqlite_storage (E := E) (addr t) ctx /\
        acquired {[addr t; addr ctx]} w w' /\ addr t <> addr ctx /\
        holds (db (contents ctx)) m (dbv w) w' /\ ctx_ok (contents ctx) (dbv w') /\
        let c := contents ctx in
        handles (db c) [(Some (stmt_insert c), SQL_INSERT); (Some (stmt_get_pending c), SQL_GET_PENDING);
          (Some (stmt_get_all_pending c), SQL_GET_ALL_PENDING); (Some (stmt_delete c), SQL_DELETE);
          (Some (stmt_evict c), SQL_EVICT)] m
  end.
End holding.

(** ** Lemmas *)

Lemma db_view_eta v : v = mkDb (db_rows v) (db_stmts v) (db_open v).
Proof. by destruct v. Qed.

Section lemmas.
Context {W E : Type} `{!HasOS W, !WorldInv W, !HasSql W E, !Sqlite E, !SqliteSpec E, !SqlFree W E}.
Implicit Types w : W.

Lemma wp_engine {A} (f : E -> option (A * E)) w (a : A) x (Q : A -> W -> Prop) :
  f (get_sql w) = Some (a, x) ->
  (forall w', balanced w w' -> dbv w' = view x -> Q a w') -> wp (sql_run f) w Q.
Proof.
  intros Hf HQ. unfold wp, sql_run. rewrite Hf. apply HQ; [|apply dbv_set_sql].
  apply same_os_balanced; [apply get_os_set_sql|by rewrite inbound_set_sql|
    apply held_set_sql|apply evolves_set_sql|apply world_ok_set_sql].
Qed.

Lemma holds_open d m v0 w : holds (E := E) d m v0 w -> d ∈ db_open (dbv (E := E) w).
Proof. intros (_ & -> & _). set_solver. Qed.

Lemma wp_exec_held d m sql v0 w (Q : Z -> W -> Prop) :
  holds (E := E) d m v0 w -> sql ∈ [SQL_PRAGMA; SQL_CREATE_TABLE; SQL_CREATE_INDEX] ->
  (forall rc w', balanced w w' -> holds (E := E) d m v0 w' -> Q rc w') ->
  wp (sql_run (sql_exec d sql)) w Q.
Proof.
  intros Hh Hs HQ. destruct (exec_spec d sql (get_sql w) (holds_open _ _ _ _ Hh) Hs) as (rc & x & Hf & Hv).
  eapply wp_engine; [done|]. intros w' Hb Hv'. apply HQ; [done|].
  unfold holds, rows_of in *. rewrite Hv', Hv. exact Hh.
Qed.

Lemma wp_prepare_if ok d l m sql v0 w (Q : bool * option nat -> W -> Prop) :
  holds (E := E) d m v0 w -> handles d l m ->
  (forall ok' h m' w', balanced w w' -> holds (E := E) d m' v0 w' ->
     handles d (l ++ [(h, sql)]) m' -> (ok' = true -> ok = true /\ is_Some h) -> Q (ok', h) w') ->
  wp (prepare_if (E := E) ok d sql) w Q.
Proof.
  intros Hh (Hnd & Hdom & Hl) HQ. unfold prepare_if.
  assert (Hnone : forall w', balanced w w' -> dbv (E := E) w' = dbv w -> Q (false, None) w').
  { intros w' Hb Hv. eapply (HQ _ _ m); [done| | |done].
    - unfold holds, rows_of in *. by rewrite Hv.
    - split_and!; rewrite ?omap_app, ?app_nil_r; try done.
      intros s sql' [Hin|Hin]%elem_of_app; [by apply Hl|].
      by apply list_elem_of_singleton in Hin. }
  destruct ok; [|apply wp_ret, Hnone; [apply balanced_refl|done]].
  destruct (prepare_spec d sql (get_sql w) (holds_open _ _ _ _ Hh)) as (rc & h & x & Hf & Hr & Ho & Hcase).
  apply wp_bind. eapply wp_engine; [by rewrite Hf|]. intros w' Hb Hv. apply wp_ret.
  case_bool_decide as Hrc.
  - destruct Hcase as (s & -> & Hs & Hst).
    fold (dbv (E := E) w) in Hr, Ho, Hs, Hst.
    destruct Hh as (Hd & Hop & Hdis & Hstm & Hdb & Hdb0 & Hrows).
    rewrite Hstm in Hs, Hst. apply lookup_union_None in Hs as [Hs Hs0].
    eapply (HQ _ _ (<[s := mkStmt d sql no_args None]> m)); [done| | |by eauto].
    + unfold holds, rows_of in *. rewrite Hv, Hr, Ho, Hst. split_and!; try done.
      * by apply map_disjoint_insert_l_2.
      * by rewrite insert_union_l.
      * intros s' st'. rewrite lookup_insert_Some. intros [[_ <-]|[_ ?]]; [done|by eauto].
    + assert (Hnin : s ∉ omap fst l)
        by (apply not_elem_of_dom in Hs; rewrite Hdom in Hs; set_solver).
      split_and!; rewrite ?omap_app; cbn.
      * apply NoDup_app. split_and!; [done| |apply NoDup_singleton].
        intros s' Hs' ->%list_elem_of_singleton. done.
      * rewrite dom_insert_L, Hdom, list_to_set_app_L. set_solver.
      * intros s' sql' [Hin|Hin]%elem_of_app.
        -- rewrite lookup_insert_ne; [by apply Hl|]. intros ->. apply Hnin.
           apply list_elem_of_omap. by exists (Some s', sql').
        -- apply list_elem_of_singleton in Hin as [= -> ->]. apply lookup_insert_eq.
  - destruct Hcase as [-> Hst]. apply Hnone; [done|].
    rewrite Hv, (db_view_eta (view x)), Hr, Ho, Hst. by rewrite <- db_view_eta.
Qed.

(** Finalizing every handle, then the rest. *)
Lemma wp_finalize_all {A} d l m v0 w (k : M W A) Q :
  holds (E := E) d m v0 w -> NoDup (omap id l) -> dom m = list_to_set (omap id l) ->
  (forall w', balanced w w' -> holds (E := E) d ∅ v0 w' -> wp k w' Q) ->
  wp (foldr (fun s m => sqlite3_finalize (E := E) s;; m) k l) w Q.
Proof.
  revert m w. induction l as [|[s|] l IH]; intros m w Hh Hnd Hdom HQ; cbn [foldr].
  - cbn in Hdom. apply dom_empty_iff_L in Hdom as ->. apply HQ; [apply balanced_refl|done].
  - cbn in Hnd, Hdom. apply NoDup_cons in Hnd as [Hnin Hnd].
    destruct Hh as (Hd & Hop & Hdis & Hstm & Hdb & Hdb0 & Hrows).
    assert (Hsm : is_Some (m !! s)) by (apply elem_of_dom; rewrite Hdom; set_solver).
    destruct Hsm as [st Hst].
    assert (Hst' : db_stmts (dbv (E := E) w) !! s = Some st)
      by (rewrite Hstm; by apply lookup_union_Some_l).
    destruct (finalize_spec s st (get_sql w) Hst') as (rc & x & Hf & Hv).
    apply wp_bind, wp_bind. eapply wp_engine; [done|]. intros w' Hb Hv'. apply wp_ret.
    fold (dbv (E := E) w) in Hv. rewrite Hv in Hv'. apply (IH (delete s m)).
    + assert (Hs0 : db_stmts v0 !! s = None)
        by by eapply map_disjoint_Some_l.
      unfold holds, rows_of in *. rewrite Hv'. cbn. split_and!; try done.
      * by apply map_disjoint_delete_l.
      * rewrite Hstm, delete_union. by rewrite (delete_id (db_stmts _)).
      * intros s' st' [_ Hs']%lookup_delete_Some. by eauto.
    + done.
    + rewrite dom_delete_L, Hdom. set_solver.
    + intros w2 Hb2 Hh2. apply HQ; [by eauto with bitchat|done].
  - apply wp_bind, wp_ret. by apply (IH m).
Qed.

(** Closing a connection that holds no statement. *)
Lemma wp_close_held d v0 w (Q : Z -> W -> Prop) :
  holds (E := E) d ∅ v0 w ->
  (forall rc w', balanced w w' -> dbv (E := E) w' = v0 -> Q rc w') ->
  wp (sql_run (sql_close d)) w Q.
Proof.
  intros Hh HQ. assert (Hin := holds_open _ _ _ _ Hh).
  destruct Hh as (Hd & Hop & Hdis & Hstm & Hdb & Hdb0 & Hrows).
  rewrite (left_id_L ∅ (∪)) in Hstm.
  destruct (close_spec d (get_sql w) Hin) as (rc & x & Hf & Hv).
  { intros s st Hst. fold (dbv (E := E) w) in Hst. rewrite Hstm in Hst. by eapply Hdb0. }
  eapply wp_engine; [done|]. intros w' Hb Hv'. apply HQ; [done|].
  rewrite Hv', Hv. fold (dbv (E := E) w). rewrite Hop, Hstm. unfold rows_of in Hrows.
  rewrite Hrows, (db_view_eta v0). cbn [db_rows db_stmts db_open].
  replace (({[d]} ∪ _) ∖ {[d]}) with (db_open v0); [done|].
  clear -Hd. set_solver.
Qed.

Lemma wp_create_fails path l d m ctx w0 w :
  holds (E := E) d m (dbv w0) w -> NoDup (omap id l) -> dom m = list_to_set (omap id l) ->
  acquired {[ctx]} w0 w ->
  wp (create_fails (E := E) l d ctx) w (sqlite_created (E := E) path w0).
Proof.
  intros Hh Hnd Hdom Ha. unfold create_fails. eapply wp_finalize_all; [done|done|done|].
  intros w1 Hb1 Hh1. apply wp_bind, (wp_close_held d (dbv w0)); [done|]. intros _ w2 Hb2 Hv2.
  apply wp_bind. apply (wp_frame (dbv (E := E))); [apply untouched_free; intros; apply dbv_set_os|].
  eapply (wp_free_acquired ctx {[ctx]} w0); [by eauto with bitchat|set_solver|].
  intros w3 _ Ha3 Hv3. apply wp_ret. rewrite difference_diag_L in Ha3.
  split; [by apply acquired_nil|]. left. congruence.
Qed.

Lemma handles_failure d l m :
  handles d l m -> NoDup (omap id (l.*1)) /\ dom m = list_to_set (omap id (l.*1)).
Proof.
  intros (Hnd & Hdom & _). assert (He : omap id (l.*1) = omap fst l)
    by (clear; induction l as [|[[h|] ?] l IH]; cbn; by rewrite ?IH).
  by rewrite He.
Qed.

Lemma handles_prepared d m v0 w l s sql :
  holds (E := E) d m v0 w -> handles d l m -> (Some s, sql) ∈ l ->
  prepared d sql (dbv (E := E) w) s.
Proof.
  intros (_ & _ & _ & Hst & _) (_ & _ & Hl) Hin. exists (mkStmt d sql no_args None).
  split; [|done]. rewrite Hst. by apply lookup_union_Some_l, Hl.
Qed.

(** The last step of the constructor: all statements are prepared. *)
Lemma wp_build_storage path d i g a e v m ctx w0 w :
  heap_ok w0 -> acquired {[ctx]} w0 w -> holds (E := E) d m (dbv w0) w ->
  handles d [(Some i, SQL_INSERT); (Some g, SQL_GET_PENDING); (Some a, SQL_GET_ALL_PENDING);
             (Some e, SQL_DELETE); (Some v, SQL_EVICT)] m ->
  wp (st ← c_alloc;
      match st with
      | None => create_fails (E := E) [Some i; Some g; Some a; Some e; Some v] d ctx
      | Some st => mret (Some (Box st (sqlite_storage (E := E) st (Box ctx (mkSqliteCtx d i g a e v)))))
      end) w (sqlite_created (E := E) path w0).
Proof.
  intros Hok Ha Hh Hl. destruct (handles_failure _ _ _ Hl) as [Hnd Hdom].
  apply wp_bind. apply (wp_frame (dbv (E := E))); [apply untouched_alloc; intros; apply dbv_set_os|].
  assert (Hkeep : forall w1, dbv (E := E) w1 = dbv w -> holds (E := E) d m (dbv w0) w1)
    by (intros w1 Hv; unfold holds, rows_of in *; by rewrite Hv).
  apply wp_alloc; [by eauto with bitchat| |].
  - intros w1 _ Hb1 Hv1. eapply wp_create_fails; [by apply Hkeep|done|done|by eauto with bitchat].
  - intros st w1 Ha1 Hv1. apply wp_ret. specialize (Hkeep w1 Hv1).
    assert (Hdis := acquired_disjoint _ _ _ _ _ Ha Ha1).
    exists (Box ctx (mkSqliteCtx d i g a e v)), m. cbn.
    split_and!; [done|by eapply acquired_union|set_solver|done| |exact Hl].
    split_and!; cbn; [by eapply holds_open|..];
      (eapply handles_prepared; [exact Hkeep|exact Hl|repeat first [constructor 1|constructor 2]]).
Qed.

(** Opening the database: the connection is held, or nothing is left but a
    connection SQLite handed out although it failed. *)
Lemma wp_open_db path ctx (rest : nat -> M W (option (box (bc_storage W)))) w w1 :
  acquired {[ctx]} w w1 -> get_sql w1 = get_sql w ->
  (forall d w2, balanced w1 w2 -> holds (E := E) d ∅ (dbv w) w2 ->
     wp (rest d) w2 (sqlite_created (E := E) path w)) ->
  wp ('(rc, h) ← sql_run (E := E) (fun x => let '(rc, h, x') := sql_open path open_flags x in
                                       Some ((rc, h), x'));
      if bool_decide (rc <> SQLITE_OK) then c_free (Some ctx);; mret None else
      d ← lift (match h with Some d => Val d | None => UB end); rest d) w1 (sqlite_created (E := E) path w).
Proof.
  intros Ha1 Hx1 HK. assert (Hv1 : dbv (E := E) w1 = dbv w) by (unfold dbv; by rewrite Hx1).
  destruct (sql_open path open_flags (get_sql w1)) as [[rc h] x] eqn:Hopen.
  destruct (open_spec _ _ _ _ _ _ Hopen) as (Hrows & Hst & Hsome & Hh).
  apply wp_bind. eapply wp_engine; [by rewrite Hopen|]. intros w2 Hb2 Hv2.
  fold (dbv (E := E) w1) in Hrows, Hst, Hh. rewrite Hv1 in Hrows, Hst, Hh.
  cbv beta iota. case_bool_decide as Hrc.
  { apply wp_bind. apply (wp_frame (dbv (E := E))); [apply untouched_free; intros; apply dbv_set_os|].
    apply (wp_free_acquired ctx {[ctx]} w); [by eauto with bitchat|set_solver|].
    intros w3 _ Ha3 Hv3. rewrite difference_diag_L in Ha3. apply wp_ret.
    split; [by apply acquired_nil|]. rewrite Hv3, Hv2, (db_view_eta (view x)), Hrows, Hst.
    destruct h as [d|]; [right|left].
    - destruct Hh as (Hd & -> & _). rewrite Hx1 in Hopen. by exists rc, d, x.
    - by rewrite Hh, <- db_view_eta. }
  destruct (Hsome Hrc) as [d ->]. destruct Hh as (Hd & Hop & Hdb0).
  apply wp_bind, (wp_lift _ _ _ d eq_refl).
  apply HK; [done|].
  unfold holds, rows_of. rewrite Hv2, Hrows, Hst. split_and!; try done.
  - apply map_disjoint_empty_l.
  - by rewrite (left_id_L ∅ (∪)).
Qed.

Lemma wp_sqlite_create path w :
  heap_ok w ->
  wp (bc_storage_sqlite_create (E := E) (Some path)) w (sqlite_created (E := E) path w).
Proof.
  intros Hok. unfold bc_storage_sqlite_create. apply wp_bind.
  apply (wp_frame get_sql); [apply untouched_alloc; intros; apply get_sql_set_os|].
  apply wp_alloc; [done|intros w1 _ Hb1 Hx1; apply wp_ret; split; [done|left; unfold dbv; by rewrite Hx1]|].
  intros ctx w1 Ha1 Hx1.
  apply wp_open_db; [done|done|]. intros d w2 Hb2 Hh2.
  apply wp_bind, (wp_exec_held d ∅ _ (dbv w)); [done|set_solver|]. intros _ w3 Hb3 Hh3.
  apply wp_bind, (wp_exec_held d ∅ _ (dbv w)); [done|set_solver|]. intros rc2 w4 Hb4 Hh4.
  assert (Hfail : forall w', holds (E := E) d ∅ (dbv w) w' -> acquired {[ctx]} w w' ->
    wp (create_fails (E := E) [] d ctx) w' (sqlite_created (E := E) path w))
    by (intros w' Hh' Ha'; eapply wp_create_fails; [done|constructor|apply dom_empty_L|done]).
  case_bool_decide; [apply Hfail; by eauto 8 with bitchat|].
  apply wp_bind, (wp_exec_held d ∅ _ (dbv w)); [done|set_solver|]. intros rc3 w5 Hb5 Hh5.
  case_bool_decide; [apply Hfail; by eauto 8 with bitchat|].
  assert (Ha5 : acquired {[ctx]} w w5) by by eauto 8 with bitchat.
  apply wp_bind, (wp_prepare_if true d [] ∅ SQL_INSERT (dbv w));
    [done|split_and!; [constructor|apply dom_empty_L|by intros ? ? ?%elem_of_nil]|].
  intros ok1 s1 m1 w6 Hb6 Hh6 Hl1 Hk1.
  apply wp_bind. eapply (wp_prepare_if _ d _ m1 _ (dbv w)); [done|exact Hl1|]. intros ok2 s2 m2 w7 Hb7 Hh7 Hl2 Hk2.
  apply wp_bind. eapply (wp_prepare_if _ d _ m2 _ (dbv w)); [done|exact Hl2|]. intros ok3 s3 m3 w8 Hb8 Hh8 Hl3 Hk3.
  apply wp_bind. eapply (wp_prepare_if _ d _ m3 _ (dbv w)); [done|exact Hl3|]. intros ok4 s4 m4 w9 Hb9 Hh9 Hl4 Hk4.
  apply wp_bind. eapply (wp_prepare_if _ d _ m4 _ (dbv w)); [done|exact Hl4|]. intros ok5 s5 m5 w10 Hb10 Hh10 Hl5 Hk5.
  assert (Ha10 : acquired {[ctx]} w w10) by by eauto 10 with bitchat.
  destruct (handles_failure _ _ _ Hl5) as [Hnd Hdom].
  destruct ok5; cbn [negb]; [|by eapply wp_create_fails].
  destruct (Hk5 eq_refl) as [-> [h5 ->]]. destruct (Hk4 eq_refl) as [-> [h4 ->]].
  destruct (Hk3 eq_refl) as [-> [h3 ->]]. destruct (Hk2 eq_refl) as [-> [h2 ->]].
  destruct (Hk1 eq_refl) as [_ [h1 ->]]. by eapply wp_build_storage.
Qed.

(** Destroying an adapter whose statements [m] are those of its context. *)
Lemma wp_sqlite_destroy self ctx m v0 w (Q : unit -> W -> Prop) :
  holds (E := E) (db (contents ctx)) m v0 w -> NoDup (ctx_handles (contents ctx)) ->
  dom m = list_to_set (ctx_handles (contents ctx)) -> self <> addr ctx ->
  {[self; addr ctx]} ⊆ owned w ->
  (forall w', released {[self; addr ctx]} w w' -> dbv (E := E) w' = v0 -> Q tt w') ->
  wp (sqlite_destroy (E := E) self ctx) w Q.
Proof.
  intros Hh Hnd Hdom Hne Hown HQ. unfold sqlite_destroy. cbv zeta.
  apply (wp_finalize_all (db (contents ctx)) [Some (stmt_insert (contents ctx));
    Some (stmt_get_pending (contents ctx)); Some (stmt_get_all_pending (contents ctx));
    Some (stmt_delete (contents ctx)); Some (stmt_evict (contents ctx))] m v0 w
    (sql_run (E := E) (sql_close (db (contents ctx)));; c_free (Some (addr ctx));;
     c_free (Some self))); [done|done|done|].
  intros w2 Hb2 Hh2. apply wp_bind, (wp_close_held (db (contents ctx)) v0); [done|]. intros _ w3 Hb3 Hv3.
  assert (Hos : forall o w, dbv (E := E) (set_os o w) = dbv w) by (intros; apply dbv_set_os).
  assert (Hown3 : owned w3 = owned w) by (destruct Hb2 as [_ <-]; apply Hb3).
  apply wp_bind. apply (wp_frame (dbv (E := E))); [by apply untouched_free|].
  apply wp_free_owned; [rewrite Hown3; apply Hown; set_solver|]. intros w4 Hr4 Hv4.
  apply (wp_frame (dbv (E := E))); [by apply untouched_free|].
  apply wp_free_owned; [destruct Hr4 as [_ ->]; rewrite Hown3; clear -Hown Hne; set_solver|].
  intros w5 Hr5 Hv5. apply HQ; [|congruence].
  assert (Hl : later w w3) by (eapply later_trans; [apply Hb2|apply Hb3]).
  destruct Hr4 as [Hl4 Ho4], Hr5 as [Hl5 Ho5]. split.
  - eapply later_trans; [done|]. by eapply later_trans.
  - rewrite Ho5, Ho4, Hown3. clear. set_solver.
Qed.
End lemmas.

(** ** Properties *)

Section properties.
Context {W E : Type} `{!HasOS W, !WorldInv W, !HasSql W E, !Sqlite E, !SqliteSpec E, !SqlFree W E}.
Implicit Types w : W.

(** C31: the SQLite adapter accounts for its resources: when the constructor
    succeeds its five statements are prepared on an open connection and it owns
    two blocks, and [destroy] then finalizes every statement, closes the
    connection and frees both blocks, restoring the engine and the heap; when
    it fails, at any of its steps, it leaves no block behind and the engine as it
    was, statements and connections included; the one exception is a
    [sqlite3_open_v2] on the given path that itself fails and hands out a
    connection, which stays open. *)
Theorem sqlite_create_destroy path w :
  heap_ok w ->
  wp (bc_storage_sqlite_create (E := E) (Some path)) w (fun r w' =>
    sqlite_created (E := E) path w r w' /\
    match r with
    | None => True
    | Some t =>
        exists destroy, s_destroy (contents t) = Some destroy /\
        wp destroy w' (fun _ w'' => balanced w w'' /\ dbv (E := E) w'' = dbv w)
    end).
Proof.
  intros Hok. eapply wp_mono; [by apply wp_sqlite_create|]. intros [t|] w1 Hc; [|done].
  split; [done|]. destruct Hc as (ctx & m & Ht & Ha & Hne & Hh & _ & Hl).
  rewrite Ht. eexists. split; [done|]. destruct (handles_failure _ _ _ Hl) as [Hnd Hdom].
  eapply wp_sqlite_destroy; [done|done|done|done| |].
  { destruct Ha as (_ & -> & _). set_solver. }
  intros w2 Hr2 Hv2. split; [|done]. apply acquired_nil.
  replace (∅ : gset blk) with (({[addr t; addr ctx]} : gset blk) ∖ {[addr t; addr ctx]})
    by (clear; set_solver).
  by apply (acquired_released _ _ _ _ _ Ha Hr2).
Qed.

(** A failed open leaks the connection: SQLite hands out a handle also when
    [sqlite3_open_v2] fails and asks the caller to close it; the constructor
    returns NULL without closing it, so the connection stays open with no
    reference left to it. *)
Theorem sqlite_open_failure_leaks path w rc d x :
  never_oom w -> sql_open path open_flags (get_sql w) = (rc, Some d, x) -> rc <> SQLITE_OK ->
  exists w', bc_storage_sqlite_create (E := E) (Some path) w = Val (None, w') /\
    (d ∉ db_open (dbv (E := E) w)) /\ d ∈ db_open (dbv (E := E) w').
Proof.
  intros Hno Hopen Hrc. destruct (open_spec _ _ _ _ _ _ Hopen) as (_ & _ & _ & Hd & Ho & _).
  unfold bc_storage_sqlite_create, mbind, M_bind, c_alloc, sql_run, c_free.
  rewrite Hno, get_sql_set_os, Hopen. rewrite bool_decide_eq_true_2 by done.
  rewrite get_os_set_sql, get_set_os. cbn [os_live].
  rewrite bool_decide_eq_true_2 by set_solver. eexists. split; [done|]. split; [done|].
  rewrite dbv_set_os, dbv_set_sql, Ho. set_solver.
Qed.
End properties.

(** ** Witnesses *)

#[local] Instance free_ext : ExtInv db_view := free_inv (fun _ => True).
#[local] Instance free_world : SqlFree (world db_view) db_view.
Proof. split; [by intros x w [Hq _]|done|done]. Qed.

(** An engine that has no table yet. *)
Definition empty_db : db_view := mkDb [] ∅ ∅.

Lemma sqlite_create_destroy_witness :
  wp (bc_storage_sqlite_create (Some "/tmp/a.db")) (demo_world 0 [] empty_db) (fun r w' =>
    sqlite_created "/tmp/a.db" (demo_world 0 [] empty_db) r w' /\
    match r with
    | None => True
    | Some t =>
        exists destroy, s_destroy (contents t) = Some destroy /\
        wp destroy w' (fun _ w'' => balanced (demo_world 0 [] empty_db) w'' /\
          dbv w'' = dbv (demo_world 0 [] empty_db))
    end).
Proof.
  apply (sqlite_create_destroy "/tmp/a.db" (demo_world 0 [] empty_db)).
  apply demo_world_ok; [constructor|exact I|done].
Defined.

(** [SQLITE_CANTOPEN]. *)
Definition cantopen : Sqlite db_view := mini_engine 14 false.

Lemma sqlite_open_failure_leaks_witness :
  exists w', bc_storage_sqlite_create (Sqlite0 := cantopen) (Some "/nowhere")
               (demo_world 0 [] empty_db) = Val (None, w') /\
    (0%nat ∉ db_open (dbv (Sqlite0 := cantopen) (demo_world 0 [] empty_db))) /\
    0%nat ∈ db_open (dbv (Sqlite0 := cantopen) w').
Proof.
  assert (Hspec : @SqliteSpec db_view cantopen) by apply mini_engine_spec.
  eapply (sqlite_open_failure_leaks (Sqlite0 := cantopen) "/nowhere" (demo_world 0 [] empty_db) 14).
  - intros n. reflexivity.
  - vm_compute. reflexivity.
  - vm_compute. discriminate.
Defined.
