(* ===== verification/Session.v ===== *)
(** * Session: using an adapter between its creation and its destruction

    The adapters are created and destroyed in a world whose invariant says
    nothing about the engine's handles ([SqlFree]); in between, the router runs
    in a world whose invariant says that the handles of the one open adapter are
    in order ([SqlWorld]).  [strengthen] adds such a fact to a world's
    invariant, and the lemmas here carry the heap's state into the session and
    the session's result back out. *)
From S2P Require Import Prelude Effects Message Ports Sockets Sqlite SqliteStorage SqliteStorageSpec.
From S2P Require Import SqliteLifecycle.

Section strengthen.
Context {W : Type} `{!HasOS W} (I : WorldInv W) (P : W -> Prop).
Context (HP : forall o w, P (set_os o w) <-> P w).

(** The invariant of [I], and [P]. *)
Program Definition strengthen : WorldInv W :=
  {| world_ok w := world_ok (WorldInv := I) w /\ P w;
     held := held (WorldInv := I);
     evolves := evolves (WorldInv := I) |}.
Next Obligation. intros o w. cbn. by rewrite world_ok_set_os, HP. Qed.
Next Obligation. intros o w. apply held_set_os. Qed.
Next Obligation. intros o w. apply evolves_set_os. Qed.

Lemma strengthen_heap w : @heap_ok W _ I w -> P w -> @heap_ok W _ strengthen w.
Proof. intros (Hs & Hw & Hc) Hp. split; [exact Hs|]. by split. Qed.

Lemma weaken_heap w : @heap_ok W _ strengthen w -> @heap_ok W _ I w /\ P w.
Proof. intros (Hs & [Hw Hp] & Hc). split; [|done]. split; [exact Hs|]. by split. Qed.

(** What happened in the session, seen from outside. *)
Lemma weaken_balanced w w' :
  @heap_ok W _ strengthen w -> @balanced W _ strengthen w w' -> @balanced W _ I w w' /\ P w'.
Proof.
  intros (_ & Hok & _) [[Ha He] Ho]. destruct Ha as (? & ? & ? & ? & ? & ? & Hs & Hw & ?).
  destruct (Hw Hok) as [Hw' Hp]. split; [|done]. split; [|exact Ho]. split; [|exact He].
  unfold advances. split_and!; try done.
Qed.

Lemma weaken_advances w w' :
  @heap_ok W _ strengthen w -> @advances W _ strengthen w w' -> @advances W _ I w w'.
Proof.
  intros (_ & Hok & _) (? & ? & ? & ? & ? & ? & Hs & Hw & ?). destruct (Hw Hok) as [Hw' Hp].
  unfold advances. split_and!; try done.
Qed.

(** Code that keeps the invariant and [P] keeps both. *)
Lemma strengthen_balanced w w' : @balanced W _ I w w' -> P w' -> @balanced W _ strengthen w w'.
Proof.
  intros [[(? & ? & ? & ? & ? & ? & Hs & Hw & ?) He] Ho] Hp. split; [|exact Ho]. split; [|exact He].
  unfold advances. split_and!; try done. intros [Hok _]. split; [by apply Hw|done].
Qed.

(** Sending and receiving keep [P] if they leave alone what it looks at. *)
Lemma strengthen_net `{!HasNet W} `{!@NetWorld W _ I _} :
  (forall n w, n_socks n = socks w -> P w -> P (set_net n w)) -> @NetWorld W _ strengthen _.
Proof.
  intros Hn. split.
  - intros n w Hq Hk [Hw Hp]. split; [by apply (net_world_set (WorldInv0 := I))|by apply Hn].
  - apply (held_set_net (WorldInv0 := I)).
  - apply (evolves_set_net (WorldInv0 := I)).
Qed.
End strengthen.

Section session.
Context {W E : Type} `{!HasOS W} (I : WorldInv W).
Context `{!HasSql W E, !Sqlite E, !@SqlFree W E _ I _}.
Context (c : sqlite_ctx) (v1 : db_view) (R : W -> Prop).

(** The adapter with context [c] is open, and the engine's handles are those
    of [v1]; [R] holds besides. *)
Definition session (w : W) : Prop :=
  sqlite_ok c (dbv (E := E) w) /\ same_handles v1 (dbv (E := E) w) /\ R w.

Lemma session_set_os :
  (forall o w, R (set_os o w) <-> R w) -> forall o w, session (set_os o w) <-> session w.
Proof. intros HR o w. unfold session. by rewrite dbv_set_os, HR. Qed.

Lemma session_sql_world HP :
  (forall x w, R w -> R (set_sql x w)) -> @SqlWorld W E _ (strengthen I session HP) _ _ c.
Proof.
  intros HR. split.
  - by intros w [_ [Hok _]].
  - intros w x [Hw (_ & Hh & Hr)] [Hok Hu]. split; [by apply (world_ok_set_sql (WorldInv0 := I))|].
    unfold session. rewrite dbv_set_sql. split; [done|]. split; [by etrans|by apply HR].
  - apply (held_set_sql (WorldInv0 := I)).
  - apply (evolves_set_sql (WorldInv0 := I)).
Qed.
End session.

(** After the session the adapter's handles can be told from the others, which
    are those of before. *)
Lemma holds_used {W E : Type} `{!HasOS W, !HasSql W E, !Sqlite E} d m v0 (w1 w : W) :
  holds (E := E) d m v0 w1 -> same_handles (dbv (E := E) w1) (dbv (E := E) w) ->
  exists m' v', holds (E := E) d m' v' w /\ dom m' = dom m /\ same_handles v0 v'.
Proof.
  intros (Hd & Ho & Hdis & Hst & Hm & Hv & _) [Hop Hfs].
  set (tag := fun st : stmt => (st_db st, st_sql st)) in Hfs.
  set (stmts := db_stmts (dbv (E := E) w)) in *.
  exists (filter (fun p => p.1 ∈ dom m) stmts),
    (mkDb (db_rows (dbv w)) (filter (fun p => p.1 ∉ dom m) stmts) (db_open v0)).
  assert (Htag : forall s st, stmts !! s = Some st ->
    exists st1, db_stmts (dbv (E := E) w1) !! s = Some st1 /\ st_db st1 = st_db st).
  { intros s st Hs. assert (Hl : (tag <$> stmts) !! s = Some (tag st)) by by rewrite lookup_fmap, Hs.
    rewrite Hfs, lookup_fmap in Hl. destruct (db_stmts (dbv (E := E) w1) !! s) as [st1|]; [|done].
    exists st1. split; [done|]. by injection Hl as -> _. }
  assert (Hdom : dom stmts = dom m ∪ dom (db_stmts v0)).
  { rewrite <- (dom_fmap_L tag stmts), Hfs, dom_fmap_L, Hst. apply dom_union_L. }
  split; [|split; [|split; [done|]]].
  - unfold holds, rows_of. cbn [db_open db_stmts db_rows]. rewrite Hop, Ho.
    split; [done|]. split; [done|]. split; [apply map_disjoint_filter_complement|].
    split; [symmetry; apply map_filter_union_complement|]. split; [|split; [|done]].
    + intros s st [Hs Hin]%map_lookup_filter_Some. destruct (Htag s st Hs) as (st1 & Hs1 & <-).
      apply elem_of_dom in Hin as [st2 Hs2]. apply (Hm s). rewrite Hst in Hs1.
      rewrite (lookup_union_Some_l _ _ _ _ Hs2) in Hs1. by injection Hs1 as <-.
    + intros s st [Hs Hin]%map_lookup_filter_Some. destruct (Htag s st Hs) as (st1 & Hs1 & <-).
      apply (Hv s). rewrite Hst in Hs1. apply lookup_union_Some in Hs1 as [Hs1|Hs1]; [|done|done].
      destruct Hin. apply elem_of_dom. by exists st1.
  - apply set_eq. intros s. rewrite !elem_of_dom. split.
    + intros [st [_ Hin]%map_lookup_filter_Some]. by apply elem_of_dom.
    + intros Hin. assert (Hs : s ∈ dom stmts) by (rewrite Hdom; apply elem_of_union_l, elem_of_dom, Hin).
      apply elem_of_dom in Hs as [st Hs]. exists st. apply map_lookup_filter_Some. split; [done|].
      by apply elem_of_dom.
  - cbn. fold tag. apply map_eq. intros s. rewrite !lookup_fmap.
    destruct (decide (s ∈ dom m)) as [Hin|Hin].
    + apply elem_of_dom in Hin as [st Hs]. rewrite (map_disjoint_Some_l _ _ _ _ Hdis Hs).
      rewrite (proj2 (map_lookup_filter_None _ _ _)); [done|]. right. intros st' _ Hn. apply Hn.
      apply elem_of_dom. by exists st.
    + assert (Hs : tag <$> stmts !! s = tag <$> db_stmts v0 !! s).
      { rewrite <- (lookup_fmap tag stmts), Hfs, lookup_fmap, Hst. apply not_elem_of_dom in Hin.
        by rewrite lookup_union_r. }
      rewrite <- Hs. destruct (stmts !! s) as [st|] eqn:He.
      * by rewrite (proj2 (map_lookup_filter_Some _ stmts s st) (conj He Hin)).
      * rewrite (proj2 (map_lookup_filter_None _ _ _)); [done|]. by left.
Qed.

(** ** An open storage adapter *)

Section storage.
Context {W E : Type} `{!HasOS W, !HasSql W E, !Sqlite E}.
Implicit Types w : W.

(** The storage [st] is the SQLite adapter over [ctx], opened on top of [v0]. *)
Definition storage_open (v0 : db_view) (st : box (bc_storage W)) (ctx : box sqlite_ctx) w : Prop :=
  contents st = sqlite_storage (E := E) (addr st) ctx /\ addr st <> addr ctx /\
  NoDup (ctx_handles (contents ctx)) /\
  exists m, holds (E := E) (db (contents ctx)) m v0 w /\
    dom m = list_to_set (ctx_handles (contents ctx)).

Definition storage_blocks (st : box (bc_storage W)) (ctx : box sqlite_ctx) : gset blk :=
  {[addr st; addr ctx]}.

Lemma storage_open_ext v0 st ctx w w' :
  dbv (E := E) w' = dbv w -> storage_open v0 st ctx w -> storage_open v0 st ctx w'.
Proof. unfold storage_open, holds, rows_of. by intros ->. Qed.

Lemma storage_open_destroy v0 st ctx w :
  storage_open v0 st ctx w -> s_destroy (contents st) = Some (sqlite_destroy (E := E) (addr st) ctx).
Proof. by intros (-> & _). Qed.

(** After its use. *)
Lemma storage_open_used v0 st ctx w w' :
  storage_open v0 st ctx w -> same_handles (dbv (E := E) w) (dbv (E := E) w') ->
  exists v1, same_handles v0 v1 /\ storage_open v1 st ctx w'.
Proof.
  intros (Hc & Hne & Hnd & m & Hm & Hdom) Hh.
  destruct (holds_used _ _ _ _ _ Hm Hh) as (m' & v1 & Hm' & Hdom' & Hsame).
  exists v1. split; [done|]. split_and!; try done. exists m'. split; [done|congruence].
Qed.

Lemma sqlite_created_open `{!WorldInv W} path w st w' :
  sqlite_created (E := E) path w (Some st) w' ->
  exists ctx, storage_open (dbv w) st ctx w' /\ acquired (storage_blocks st ctx) w w' /\
    ctx_ok (contents ctx) (dbv (E := E) w') /\ rows_of (E := E) w' = rows_of (E := E) w.
Proof.
  intros (ctx & m & Hst & Ha & Hne & Hh & Hctx & Hl). destruct (handles_failure _ _ _ Hl) as [Hnd Hdom].
  exists ctx. split; [split_and!; try done; by exists m|]. split; [done|]. split; [done|]. apply Hh.
Qed.

Lemma wp_destroy_storage `{!WorldInv W, !SqliteSpec E, !SqlFree W E} v0 st ctx w (Q : unit -> W -> Prop) :
  storage_open v0 st ctx w -> storage_blocks st ctx ⊆ owned w ->
  (forall w', released (storage_blocks st ctx) w w' -> dbv (E := E) w' = v0 -> Q tt w') ->
  wp (sqlite_destroy (E := E) (addr st) ctx) w Q.
Proof.
  intros (_ & Hne & Hnd & m & Hh & Hdom) Hsub HQ.
  eapply wp_sqlite_destroy; [done|done|done|done|done|]. auto.
Qed.
End storage.
