(* ===== verification/Dedup.v ===== *)
(** * Dedup: the cache of recently seen message ids

    Models the hash-set internals of [src/usecase/mesh_router.c] (lines 14-100):
    an open-addressed table probed linearly from an FNV-1a hash.  The functions
    take the router fields they use: the table, [dedup_cap] and
    [config.dedup_max_age].  The loops of the source run over [i < cap]; here
    they recurse on the number of iterations left. *)
From S2P Require Import Prelude Effects Errors Message Sodium.

Record bc_dedup_entry : Type := mkEntry {
  e_uuid : list Z;
  seen_at : Z;
  occupied : Z
}.

#[export] Instance bc_dedup_entry_eq : EqDecision bc_dedup_entry.
Proof. solve_decision. Defined.

(** An entry as [calloc] leaves it. *)
Definition zero_entry : bc_dedup_entry := mkEntry (replicate 16 0) 0 0.

Definition fnv1a (bytes : list Z) : Z :=
  foldl (fun h b => to_u32 (Z.lxor h b * 16777619)) 2166136261 bytes.

(** [h % cap] is undefined for an empty table. *)
Definition dedup_hash (uuid : list Z) (cap : Z) : res Z :=
  bytes ← mem_read uuid 0 BC_UUID_SIZE;
  if bool_decide (cap = 0) then UB else Val (fnv1a bytes mod cap).

(** [now - e->seen_at > max_age] on [uint64_t]. *)
Definition expired (now max_age : Z) (e : bc_dedup_entry) : bool :=
  bool_decide (to_u64 (now - seen_at e) > max_age).

(** [(idx + i) % cap] on [size_t]. *)
Definition probe (idx i cap : Z) : Z := to_u64 (idx + i) mod cap.

Fixpoint dedup_contains_loop (table : list bc_dedup_entry) (cap idx : Z)
    (uuid : list Z) (n : nat) (i : Z) : res Z :=
  match n with
  | O => Val 0
  | S n' =>
      e ← arr_get table (probe idx i cap);
      if bool_decide (occupied e = 0) then Val 0 else
      c ← sodium_memcmp (e_uuid e) uuid BC_UUID_SIZE;
      if bool_decide (c = 0) then Val 1
      else dedup_contains_loop table cap idx uuid n' (i + 1)
  end.

Definition dedup_contains (table : list bc_dedup_entry) (cap : Z) (uuid : list Z)
    : res Z :=
  idx ← dedup_hash uuid cap;
  dedup_contains_loop table cap idx uuid (Z.to_nat cap) 0.

(** [Some table'] when the loop stored the uuid, [None] when it ran through. *)
Fixpoint dedup_insert_loop (table : list bc_dedup_entry) (cap max_age idx now : Z)
    (uuid : list Z) (n : nat) (i : Z) : res (option (list bc_dedup_entry)) :=
  match n with
  | O => Val None
  | S n' =>
      let slot := probe idx i cap in
      e ← arr_get table slot;
      if bool_decide (occupied e = 0) then
        u ← mem_read uuid 0 BC_UUID_SIZE;
        t ← arr_set table slot (mkEntry u now 1);
        Val (Some t)
      else if expired now max_age e then
        u ← mem_read uuid 0 BC_UUID_SIZE;
        t ← arr_set table slot (mkEntry u now (occupied e));
        Val (Some t)
      else dedup_insert_loop table cap max_age idx now uuid n' (i + 1)
  end.

(** What [dedup_insert] does once the hash and the clock are read. *)
Definition dedup_insert_from (table : list bc_dedup_entry) (cap max_age idx now : Z)
    (uuid : list Z) : res (list bc_dedup_entry) :=
  r ← dedup_insert_loop table cap max_age idx now uuid (Z.to_nat cap) 0;
  match r with
  | Some t => Val t
  | None =>
      let slot := idx mod cap in
      e ← arr_get table slot;
      u ← mem_read uuid 0 BC_UUID_SIZE;
      arr_set table slot (mkEntry u now (occupied e))
  end.

Fixpoint dedup_evict_loop (table : list bc_dedup_entry) (max_age now : Z)
    (n : nat) (i : Z) : res (list bc_dedup_entry) :=
  match n with
  | O => Val table
  | S n' =>
      e ← arr_get table i;
      if bool_decide (occupied e <> 0) && expired now max_age e then
        t ← arr_set table i (mkEntry (e_uuid e) (seen_at e) 0);
        dedup_evict_loop t max_age now n' (i + 1)
      else dedup_evict_loop table max_age now n' (i + 1)
  end.

Section dedup.
Context {W : Type} `{!HasOS W, !WorldInv W}.

Definition dedup_insert (table : list bc_dedup_entry) (cap max_age : Z)
    (uuid : list Z) : M W (list bc_dedup_entry) :=
  idx ← lift (dedup_hash uuid cap);
  now ← c_time;
  lift (dedup_insert_from table cap max_age idx now uuid).

Definition dedup_evict (table : list bc_dedup_entry) (cap max_age : Z)
    : M W (list bc_dedup_entry) :=
  now ← c_time;
  lift (dedup_evict_loop table max_age now (Z.to_nat cap) 0).
End dedup.

(** ** Well-formed tables and the set they stand for *)

Definition entry_wf (e : bc_dedup_entry) : Prop :=
  bytes_n 16 (e_uuid e) /\ is_u64 (seen_at e) /\ (occupied e = 0 \/ occupied e = 1).

(** [cap] entries of 32 bytes fit in memory. *)
Definition table_wf (table : list bc_dedup_entry) (cap : Z) : Prop :=
  zlen table = cap /\ 0 < cap < 2 ^ 59 /\ Forall entry_wf table.

(** Where the probe sequence of [uuid] starts, and its [i]-th slot and entry. *)
Definition home (cap : Z) (uuid : list Z) : Z := fnv1a uuid mod cap.
Definition probe_slot (cap : Z) (uuid : list Z) (i : Z) : nat :=
  Z.to_nat (probe (home cap uuid) i cap).
Definition probe_entry (table : list bc_dedup_entry) (cap : Z) (uuid : list Z) (i : Z)
    : bc_dedup_entry :=
  default zero_entry (table !! probe_slot cap uuid i).

(** [uuid] is found at step [i]: its entry is met before any free slot. *)
Definition found_at (table : list bc_dedup_entry) (cap : Z) (uuid : list Z) (i : Z) : Prop :=
  0 <= i < cap /\ e_uuid (probe_entry table cap uuid i) = uuid /\
  forall j, 0 <= j <= i -> occupied (probe_entry table cap uuid j) <> 0.
Definition reachable (table : list bc_dedup_entry) (cap : Z) (uuid : list Z) : Prop :=
  exists i, found_at table cap uuid i.

(** The invariant of linear probing: between the home slot of an occupied entry
    and the entry itself no slot is free. *)
Definition probe_inv (table : list bc_dedup_entry) (cap : Z) : Prop :=
  forall u i, 0 <= i < cap -> occupied (probe_entry table cap u i) <> 0 ->
    e_uuid (probe_entry table cap u i) = u -> found_at table cap u i.

(** No occupied entry has expired. *)
Definition none_expired (table : list bc_dedup_entry) (max_age now : Z) : Prop :=
  Forall (fun e => occupied e <> 0 -> expired now max_age e = false) table.

(** No slot can be reused: every entry is occupied and has not expired. *)
Definition all_fresh (table : list bc_dedup_entry) (max_age now : Z) : Prop :=
  Forall (fun e => occupied e <> 0 /\ expired now max_age e = false) table.

(** The slot [dedup_insert] overwrites: the first of the probe sequence that is
    free or expired, or the home slot when there is none. *)
Definition reusable (now max_age : Z) (e : bc_dedup_entry) : Prop :=
  occupied e = 0 \/ expired now max_age e = true.
Definition insert_step (table : list bc_dedup_entry) (cap max_age now : Z)
    (uuid : list Z) (k : Z) : Prop :=
  0 <= k < cap /\
  (forall j, 0 <= j < k -> ~ reusable now max_age (probe_entry table cap uuid j)) /\
  (reusable now max_age (probe_entry table cap uuid k) \/
   (k = 0 /\ all_fresh table max_age now)).

(** The table [dedup_insert] leaves. *)
Definition inserted (table : list bc_dedup_entry) (cap max_age now : Z)
    (uuid : list Z) (table' : list bc_dedup_entry) : Prop :=
  exists k, insert_step table cap max_age now uuid k /\
            table' = <[probe_slot cap uuid k := mkEntry uuid now 1]> table.

(** The table [dedup_evict] leaves: expired entries are marked free. *)
Definition evict_entry (max_age now : Z) (e : bc_dedup_entry) : bc_dedup_entry :=
  if bool_decide (occupied e <> 0) && expired now max_age e
  then mkEntry (e_uuid e) (seen_at e) 0 else e.

#[export] Instance all_fresh_dec t m n : Decision (all_fresh t m n).
Proof. unfold all_fresh; apply _. Defined.
#[export] Instance entry_wf_dec e : Decision (entry_wf e).
Proof. unfold entry_wf; apply _. Defined.
#[export] Instance table_wf_dec t c : Decision (table_wf t c).
Proof. unfold table_wf; apply _. Defined.

(** ** Lemmas: probing *)

Section probing.
Context (table : list bc_dedup_entry) (cap : Z).
Hypothesis Hwf : table_wf table cap.

Lemma cap_pos : 0 < cap < 2 ^ 59.
Proof. apply Hwf. Qed.

Lemma home_range u : 0 <= home cap u < cap.
Proof. apply Z.mod_pos_bound. apply Hwf. Qed.

Lemma probe_eq u i : 0 <= i < cap -> probe (home cap u) i cap = (home cap u + i) mod cap.
Proof.
  intros Hi. assert (H := home_range u). assert (Hc := cap_pos).
  unfold probe. rewrite to_u64_id; [done|]. unfold is_u64. lia.
Qed.

Lemma probe_range u i : 0 <= i < cap -> 0 <= probe (home cap u) i cap < cap.
Proof. intros Hi. rewrite probe_eq by done. apply Z.mod_pos_bound, Hwf. Qed.

Lemma probe_slot_lt u i : 0 <= i < cap -> (probe_slot cap u i < length table)%nat.
Proof.
  intros Hi. unfold probe_slot. assert (H := probe_range u i Hi).
  destruct Hwf as [Hl _]. zlen_lia.
Qed.

Lemma probe_lookup u i :
  0 <= i < cap -> table !! probe_slot cap u i = Some (probe_entry table cap u i).
Proof.
  intros Hi. unfold probe_entry.
  destruct (lookup_lt_is_Some_2 table (probe_slot cap u i)) as [e He];
    [by apply probe_slot_lt|]. by rewrite He.
Qed.

Lemma probe_get u i :
  0 <= i < cap ->
  arr_get table (probe (home cap u) i cap) = Val (probe_entry table cap u i).
Proof.
  intros Hi. apply arr_get_ok; [apply probe_range, Hi|]. by apply probe_lookup.
Qed.

Lemma probe_entry_wf u i : 0 <= i < cap -> entry_wf (probe_entry table cap u i).
Proof.
  intros Hi. destruct Hwf as (_ & _ & Hall). eapply Forall_lookup_1; [exact Hall|].
  by apply probe_lookup.
Qed.

Lemma hash_home u : bytes_n 16 u -> dedup_hash u cap = Val (home cap u).
Proof.
  intros [Hu _]. unfold dedup_hash. rewrite mem_read_all by (unfold zlen; by rewrite Hu).
  cbn [mbind res_bind]. rewrite bool_decide_eq_false_2 by (pose proof cap_pos; lia). done.
Qed.

Lemma entry_memcmp e u :
  entry_wf e -> bytes_n 16 u ->
  sodium_memcmp (e_uuid e) u BC_UUID_SIZE = Val (if bool_decide (e_uuid e = u) then 0 else -1).
Proof. intros [[He _] _] [Hu _]. by apply (memcmp_eq _ _ 16). Qed.

(** The whole table is visited by the probe sequence of any uuid. *)
Lemma probe_covers u s :
  (s < length table)%nat -> exists i, 0 <= i < cap /\ probe_slot cap u i = s.
Proof.
  intros Hs. assert (H := home_range u). assert (Hc := cap_pos).
  destruct Hwf as [Hl _].
  exists ((Z.of_nat s - home cap u) mod cap).
  assert (Hr := Z.mod_pos_bound (Z.of_nat s - home cap u) cap ltac:(lia)).
  split; [done|]. unfold probe_slot. rewrite probe_eq by done.
  rewrite Zplus_mod_idemp_r. replace (home cap u + (Z.of_nat s - home cap u)) with (Z.of_nat s) by lia.
  rewrite Z.mod_small by zlen_lia. lia.
Qed.

Lemma probe_slot_inj u i j :
  0 <= i < cap -> 0 <= j < cap -> probe_slot cap u i = probe_slot cap u j -> i = j.
Proof.
  intros Hi Hj Heq. unfold probe_slot in Heq.
  assert (Ri := probe_range u i Hi). assert (Rj := probe_range u j Hj).
  apply Z2Nat.inj in Heq; [|lia|lia]. rewrite !probe_eq in Heq by done.
  assert (H := home_range u).
  assert (Hm : forall k, 0 <= k < cap -> (home cap u + k) mod cap =
    if bool_decide (home cap u + k < cap) then home cap u + k else home cap u + k - cap).
  { intros k Hk. case_bool_decide; [by apply Z.mod_small; lia|].
    symmetry. apply Z.mod_unique with 1; lia. }
  rewrite !Hm in Heq by done. repeat case_bool_decide; lia.
Qed.

Lemma contains_loop_spec u n i :
  bytes_n 16 u -> 0 <= i -> i + Z.of_nat n = cap ->
  (forall j, 0 <= j < i -> occupied (probe_entry table cap u j) <> 0) ->
  exists r, dedup_contains_loop table cap (home cap u) u n i = Val r /\
    (r = 0 \/ r = 1) /\
    (r = 1 <-> exists k, i <= k /\ found_at table cap u k).
Proof.
  intros Hu. revert i. induction n as [|n IH]; intros i Hi Hn Hocc; cbn [dedup_contains_loop].
  - exists 0. split_and!; [done|by left|]. split; [done|].
    intros (k & Hk & Hk' & _). lia.
  - rewrite probe_get by lia. cbn [mbind res_bind].
    case_bool_decide as Ho.
    { exists 0. split_and!; [done|by left|]. split; [done|].
      intros (k & Hk & _ & _ & Hall). by destruct (Hall i). }
    rewrite entry_memcmp by (done || apply probe_entry_wf; lia). cbn [mbind res_bind].
    rewrite memcmp_zero. case_bool_decide as He.
    { exists 1. split_and!; [done|by right|]. split; [intros _|done].
      exists i. split; [done|]. split; [lia|]. split; [done|].
      intros j Hj. destruct (decide (j = i)) as [->|]; [done|]. apply Hocc. lia. }
    destruct (IH (i + 1)) as (r & Hr & H01 & Hiff); [lia|lia| |].
    { intros j Hj. destruct (decide (j = i)) as [->|]; [done|]. apply Hocc. lia. }
    exists r. split_and!; [done|done|]. rewrite Hiff. split.
    + intros (k & Hk & Hf). exists k. split; [lia|done].
    + intros (k & Hk & Hf). exists k. split; [|done].
      destruct (decide (k = i)) as [->|]; [|lia]. by destruct Hf as (_ & Hf & _).
Qed.

(** [dedup_contains] answers 1 exactly for the reachable uuids. *)
Lemma contains_spec u :
  bytes_n 16 u ->
  exists r, dedup_contains table cap u = Val r /\ (r = 0 \/ r = 1) /\
            (r = 1 <-> reachable table cap u).
Proof.
  intros Hu. unfold dedup_contains. rewrite hash_home by done. cbn [mbind res_bind].
  destruct (contains_loop_spec u (Z.to_nat cap) 0) as (r & -> & H01 & Hiff);
    [done|lia|pose proof cap_pos; lia|lia|].
  exists r. split_and!; [done|done|]. rewrite Hiff. split.
  - intros (k & _ & Hk). by exists k.
  - intros [k Hk]. exists k. split; [|done]. apply Hk.
Qed.

Lemma insert_loop_spec max_age now u n i :
  bytes_n 16 u -> 0 <= i -> i + Z.of_nat n = cap ->
  (forall j, 0 <= j < i -> ~ reusable now max_age (probe_entry table cap u j)) ->
  exists r, dedup_insert_loop table cap max_age (home cap u) now u n i = Val r /\
    match r with
    | Some t => exists k, insert_step table cap max_age now u k /\
                  t = <[probe_slot cap u k := mkEntry u now 1]> table
    | None => forall j, 0 <= j < cap -> ~ reusable now max_age (probe_entry table cap u j)
    end.
Proof.
  intros Hu. revert i. induction n as [|n IH]; intros i Hi Hn Hno; cbn [dedup_insert_loop].
  - exists None. split; [done|]. intros j Hj. apply Hno. lia.
  - rewrite probe_get by lia. cbn [mbind res_bind].
    rewrite mem_read_all by (destruct Hu as [Hu _]; unfold zlen; by rewrite Hu).
    assert (Hset : forall e, arr_set table (probe (home cap u) i cap) e =
      Val (<[probe_slot cap u i := e]> table)).
    { intros e. apply arr_set_ok. assert (Hr := probe_range u i).
      destruct Hwf as [-> _]. apply Hr. lia. }
    destruct (probe_entry_wf u i) as (_ & _ & H01); [lia|].
    case_bool_decide as Ho.
    { cbn [mbind res_bind]. rewrite Hset. eexists. split; [done|].
      exists i. split; [|done]. split_and!; [lia|lia|done|]. left. by left. }
    destruct (expired now max_age _) eqn:He.
    { cbn [mbind res_bind]. rewrite Hset. eexists. split; [done|].
      destruct H01 as [H0|H1]; [done|]. rewrite H1.
      exists i. split; [|done]. split_and!; [lia|lia|done|]. left. by right. }
    apply IH; [lia|lia|]. intros j Hj.
    destruct (decide (j = i)) as [->|]; [|apply Hno; lia].
    intros [?|?]; congruence.
Qed.

Lemma none_reusable_all_fresh max_age now u :
  (forall j, 0 <= j < cap -> ~ reusable now max_age (probe_entry table cap u j)) ->
  all_fresh table max_age now.
Proof.
  intros Hno. apply Forall_lookup_2. intros s e He.
  destruct (probe_covers u s) as (i & Hi & <-); [by eapply lookup_lt_Some|].
  rewrite probe_lookup in He by done. injection He as <-.
  specialize (Hno _ Hi). unfold reusable in Hno.
  split; [tauto|]. by destruct (expired _ _ _); [destruct Hno; right|].
Qed.

(** [dedup_insert] is defined and overwrites exactly one slot. *)
Lemma insert_from_spec max_age now u :
  bytes_n 16 u ->
  exists t, dedup_insert_from table cap max_age (home cap u) now u = Val t /\
            inserted table cap max_age now u t.
Proof.
  intros Hu. assert (Hc := cap_pos). unfold dedup_insert_from.
  destruct (insert_loop_spec max_age now u (Z.to_nat cap) 0) as (r & -> & Hr);
    [done|lia|lia|lia|].
  cbn [mbind res_bind]. destruct r as [t|]; [by exists t|].
  assert (Hf := none_reusable_all_fresh _ _ _ Hr).
  rewrite mem_read_all by (destruct Hu as [Hu _]; unfold zlen; by rewrite Hu).
  replace (home cap u mod cap) with (probe (home cap u) 0 cap)
    by (rewrite probe_eq by lia; by rewrite Z.add_0_r).
  rewrite probe_get by lia. cbn [mbind res_bind].
  rewrite arr_set_ok by (destruct Hwf as [-> _]; apply probe_range; lia).
  eexists. split; [done|]. exists 0. split; [split_and!; [lia|lia|lia|by right]|].
  destruct (probe_entry_wf u 0) as (_ & _ & [H0| ->]); [lia| |done].
  exfalso. apply (Hr 0); [lia|]. by left.
Qed.

Lemma probe_entry_insert v s e i :
  (s < length table)%nat -> 0 <= i < cap ->
  probe_entry (<[s := e]> table) cap v i =
    if decide (s = probe_slot cap v i) then e else probe_entry table cap v i.
Proof.
  intros Hs Hi. unfold probe_entry. case_decide as Heq.
  - subst s. by rewrite list_lookup_insert_eq.
  - by rewrite list_lookup_insert_ne.
Qed.

Lemma inserted_wf max_age now u t :
  bytes_n 16 u -> is_u64 now -> inserted table cap max_age now u t -> table_wf t cap.
Proof.
  intros Hu Hn (k & _ & ->). destruct Hwf as (Hl & Hc & Hall).
  split_and!; [zlen_lia|lia|lia|]. apply Forall_insert; [done|].
  split_and!; [done|done|by right].
Qed.

(** The inserted uuid is found from then on. *)
Lemma inserted_reachable max_age now u t :
  inserted table cap max_age now u t -> reachable t cap u.
Proof.
  intros (k & (Hk & Hno & Hre) & ->).
  assert (Hs := probe_slot_lt u k Hk).
  exists k. split; [done|]. split.
  - rewrite probe_entry_insert by done. by case_decide.
  - intros j Hj. rewrite probe_entry_insert by (done || lia). case_decide as Heq; [done|].
    destruct (decide (j = k)) as [->|]; [done|].
    intros H0. apply (Hno j); [lia|]. by left.
Qed.

(** An entry that is neither expired nor displaced by a full table stays. *)
Lemma inserted_keeps max_age now u t v i :
  inserted table cap max_age now u t -> ~ all_fresh table max_age now ->
  found_at table cap v i -> expired now max_age (probe_entry table cap v i) = false ->
  found_at t cap v i.
Proof.
  intros (k & (Hk & Hno & Hre) & ->) Hnf (Hi & Hv & Hocc) Hex.
  assert (Hs := probe_slot_lt u k Hk).
  assert (Hne : probe_slot cap u k <> probe_slot cap v i).
  { intros Heq. destruct Hre as [[H0|H1]|[_ Hf]]; [| |done].
    - apply (Hocc i); [lia|]. unfold probe_entry in *. by rewrite <- Heq.
    - unfold probe_entry in *. rewrite <- Heq in Hex. congruence. }
  split; [done|]. split.
  - rewrite probe_entry_insert by done. by case_decide.
  - intros j Hj. rewrite probe_entry_insert by (done || lia).
    case_decide; [done|]. by apply Hocc.
Qed.

Lemma inserted_probe_inv max_age now u t :
  probe_inv table cap -> inserted table cap max_age now u t -> probe_inv t cap.
Proof.
  intros Hinv Hins v i Hi. assert (Hr := inserted_reachable _ _ _ _ Hins).
  destruct Hins as (k & (Hk & Hno & Hre) & ->). assert (Hs := probe_slot_lt u k Hk).
  rewrite probe_entry_insert by done. case_decide as Heq; cbn.
  - intros _ <-. apply probe_slot_inj in Heq as <-; [|done|done].
    split; [done|]. split; [rewrite probe_entry_insert by done; by case_decide|].
    intros j Hj. rewrite probe_entry_insert by (done || lia). case_decide; [done|].
    destruct (decide (j = k)) as [->|]; [done|].
    intros H0. apply (Hno j); [lia|]. by left.
  - intros Ho Hu. destruct (Hinv v i Hi Ho Hu) as (_ & _ & Hocc).
    split; [done|]. split; [rewrite probe_entry_insert by done; by case_decide|].
    intros j Hj. rewrite probe_entry_insert by (done || lia).
    case_decide; [done|by apply Hocc].
Qed.

(** What is found after an insertion was inserted or was there before. *)
Lemma inserted_origin max_age now u t v :
  probe_inv table cap -> inserted table cap max_age now u t ->
  reachable t cap v -> v = u \/ reachable table cap v.
Proof.
  intros Hinv (k & (Hk & _) & ->) (i & Hi & Hv & Hocc).
  assert (Hs := probe_slot_lt u k Hk).
  specialize (Hocc i ltac:(lia)). rewrite probe_entry_insert in Hv, Hocc by done.
  case_decide; [by left|]. right. exists i. by apply Hinv.
Qed.
End probing.

(** ** Lemmas: eviction *)

Lemma evict_loop_spec max_age now pre rest :
  dedup_evict_loop (pre ++ rest) max_age now (length rest) (zlen pre) =
    Val (pre ++ (evict_entry max_age now <$> rest)).
Proof.
  revert pre. induction rest as [|e rest IH]; intros pre; [done|].
  cbn [length dedup_evict_loop]. rewrite (arr_get_ok _ _ e); cycle 1.
  { apply zlen_nonneg. } { unfold zlen. rewrite Nat2Z.id. by apply list_lookup_middle. }
  cbn [mbind res_bind fmap list_fmap].
  specialize (IH (pre ++ [evict_entry max_age now e])).
  rewrite zlen_app in IH. change (zlen [_]) with 1 in IH.
  rewrite <- !(assoc_L (++)) in IH. cbn [app] in IH.
  remember (evict_entry max_age now e) as e' eqn:He'. unfold evict_entry in He'.
  destruct (_ && _); subst e'; [|done].
  rewrite arr_set_ok by zlen_lia. cbn [mbind res_bind].
  unfold zlen at 1. rewrite Nat2Z.id, insert_app_r_alt, Nat.sub_diag by done. done.
Qed.

Section eviction.
Context (table : list bc_dedup_entry) (cap : Z).
Hypothesis Hwf : table_wf table cap.

Lemma evict_spec max_age now :
  dedup_evict_loop table max_age now (Z.to_nat cap) 0 =
    Val (evict_entry max_age now <$> table).
Proof.
  destruct Hwf as [<- _]. unfold zlen. rewrite Nat2Z.id.
  exact (evict_loop_spec max_age now [] table).
Qed.

Lemma evict_entry_wf max_age now e : entry_wf e -> entry_wf (evict_entry max_age now e).
Proof.
  intros (Hu & Hs & Ho). unfold evict_entry. destruct (_ && _); [|done].
  split_and!; [done|done|by left].
Qed.

Lemma evicted_wf max_age now : table_wf (evict_entry max_age now <$> table) cap.
Proof.
  destruct Hwf as (Hl & Hc & Hall). split_and!; [|lia|lia|].
  - unfold zlen in *. by rewrite length_fmap.
  - apply Forall_fmap. eapply Forall_impl; [done|]. intros e. apply evict_entry_wf.
Qed.

Lemma probe_entry_evict max_age now u i :
  0 <= i < cap ->
  probe_entry (evict_entry max_age now <$> table) cap u i =
    evict_entry max_age now (probe_entry table cap u i).
Proof.
  intros Hi. unfold probe_entry at 1. by rewrite list_lookup_fmap, (probe_lookup table cap Hwf).
Qed.

(** After an eviction exactly the uuids behind an unbroken run of entries that
    have not expired are found. *)
Lemma evicted_found max_age now u i :
  found_at (evict_entry max_age now <$> table) cap u i <->
  found_at table cap u i /\
  forall j, 0 <= j <= i -> expired now max_age (probe_entry table cap u j) = false.
Proof.
  assert (Hev : forall j, 0 <= j < cap ->
    occupied (probe_entry (evict_entry max_age now <$> table) cap u j) <> 0 <->
    occupied (probe_entry table cap u j) <> 0 /\
    expired now max_age (probe_entry table cap u j) = false).
  { intros j Hj. rewrite probe_entry_evict by done. unfold evict_entry.
    case_bool_decide; destruct (expired _ _ _); cbn; split; try tauto; try done.
    by intros []. }
  assert (Hid : 0 <= i < cap ->
    e_uuid (probe_entry (evict_entry max_age now <$> table) cap u i) =
    e_uuid (probe_entry table cap u i)).
  { intros Hi. rewrite probe_entry_evict by done. unfold evict_entry. by destruct (_ && _). }
  unfold found_at. split.
  - intros (Hi & Hu & Hocc). rewrite Hid in Hu by done.
    split; [split; [done|]; split; [done|]|]; intros j Hj; apply (Hev j); try lia; by apply Hocc.
  - intros [(Hi & Hu & Hocc) Hex]. rewrite Hid by done. split; [done|]. split; [done|].
    intros j Hj. apply Hev; [lia|]. split; [by apply Hocc|by apply Hex].
Qed.
End eviction.

(** ** Properties *)

Section dedup_rules.
Context {W : Type} `{!HasOS W, !WorldInv W}.
Implicit Types w : W.

Lemma wp_dedup_insert table cap max_age u w (Q : list bc_dedup_entry -> W -> Prop) :
  table_wf table cap -> bytes_n 16 u ->
  (forall now t w', balanced w w' -> clock_read w w' now ->
     inserted table cap max_age now u t -> Q t w') ->
  wp (dedup_insert table cap max_age u) w Q.
Proof.
  intros Hwf Hu HQ. unfold dedup_insert.
  apply wp_bind, (wp_lift _ _ _ _ (hash_home _ _ Hwf u Hu)), wp_bind, wp_time.
  intros now w' Hb Hn. destruct (insert_from_spec _ _ Hwf max_age now u Hu) as (t & Ht & Hins).
  apply (wp_lift _ _ _ _ Ht). by eapply HQ.
Qed.

Lemma wp_dedup_evict table cap max_age w (Q : list bc_dedup_entry -> W -> Prop) :
  table_wf table cap ->
  (forall now w', balanced w w' -> clock_read w w' now ->
     Q (evict_entry max_age now <$> table) w') ->
  wp (dedup_evict table cap max_age) w Q.
Proof.
  intros Hwf HQ. unfold dedup_evict. apply wp_bind, wp_time. intros now w' Hb Hn.
  apply (wp_lift _ _ _ _ (evict_spec _ _ Hwf max_age now)). by apply HQ.
Qed.

Lemma quiet_dedup_insert table cap max_age u : quiet (dedup_insert (W := W) table cap max_age u).
Proof. unfold dedup_insert. solve_quiet. Qed.

Lemma quiet_dedup_evict table cap max_age : quiet (dedup_evict (W := W) table cap max_age).
Proof. unfold dedup_evict. solve_quiet. Qed.

Lemma contains_reachable table cap u :
  table_wf table cap -> bytes_n 16 u ->
  dedup_contains table cap u = Val 1 <-> reachable table cap u.
Proof.
  intros Hwf Hu. destruct (contains_spec _ _ Hwf u Hu) as (r & -> & _ & Hiff).
  rewrite <- Hiff. split; [by intros [= ->]|by intros ->].
Qed.

Lemma contains_unreachable table cap u :
  table_wf table cap -> bytes_n 16 u ->
  dedup_contains table cap u = Val 0 <-> ~ reachable table cap u.
Proof.
  intros Hwf Hu. destruct (contains_spec _ _ Hwf u Hu) as (r & -> & [-> | ->] & Hiff).
  - split; [|done]. intros _ Hr. by apply Hiff in Hr.
  - split; [done|]. intros Hr. destruct Hr. by apply Hiff.
Qed.

Lemma not_expired_lookup table max_age now s e :
  none_expired table max_age now -> table !! s = Some e -> occupied e <> 0 ->
  expired now max_age e = false.
Proof. intros Hn He. by apply (Forall_lookup_1 _ _ _ _ Hn He). Qed.

(** Inserting a uuid makes it found: whatever the table holds (free slots,
    expired entries, or a table full of fresh entries), after [dedup_insert]
    the very next [dedup_contains] answers 1, and the table keeps its size and
    well-formedness; neither call is ever undefined. *)
Theorem dedup_insert_then_contains table cap max_age u w :
  table_wf table cap -> bytes_n 16 u ->
  wp (dedup_insert table cap max_age u) w (fun t w' =>
    balanced w w' /\ table_wf t cap /\ dedup_contains t cap u = Val 1).
Proof.
  intros Hwf Hu. apply wp_dedup_insert; try done. intros now t w' Hb Hc Hins.
  assert (Hwf' : table_wf t cap) by exact (inserted_wf _ _ Hwf max_age now u t Hu (clock_read_u64 _ _ _ Hc) Hins).
  split; [done|]. split; [done|].
  apply contains_reachable; try done. exact (inserted_reachable _ _ Hwf _ _ _ _ Hins).
Qed.

(** C15: while no entry has expired and a slot is left, the table implements a
    set of uuids: after [dedup_insert u], [dedup_contains] answers 1 for [u] and
    for exactly the uuids it answered 1 for before, and the linear-probing
    invariant (no free slot between an entry and its home) is kept. *)
Theorem dedup_refines_set table cap max_age u w :
  table_wf table cap -> probe_inv table cap -> bytes_n 16 u ->
  wp (dedup_insert table cap max_age u) w (fun t w' =>
    table_wf t cap /\ probe_inv t cap /\
    exists now, clock_read w w' now /\
      (none_expired table max_age now -> ~ all_fresh table max_age now ->
       forall v, bytes_n 16 v ->
         dedup_contains t cap v = Val 1 <->
         v = u \/ dedup_contains table cap v = Val 1)).
Proof.
  intros Hwf Hinv Hu. apply wp_dedup_insert; try done. intros now t w' Hb Hc Hins.
  assert (Hwf' : table_wf t cap) by exact (inserted_wf _ _ Hwf max_age now u t Hu (clock_read_u64 _ _ _ Hc) Hins).
  split; [done|]. split; [exact (inserted_probe_inv _ _ Hwf _ _ _ _ Hinv Hins)|]. exists now. split; [done|].
  intros Hne Hnf v Hv. rewrite !contains_reachable by done. split.
  - exact (inserted_origin _ _ Hwf _ _ _ _ v Hinv Hins).
  - intros [-> |[i Hi]]; [exact (inserted_reachable _ _ Hwf _ _ _ _ Hins)|]. exists i.
    apply (inserted_keeps _ _ Hwf _ _ _ _ v i Hins Hnf Hi). destruct Hi as (Hi & _ & Hocc).
    eapply not_expired_lookup; [done|by apply (probe_lookup _ _ Hwf)|apply Hocc; lia].
Qed.

(** An insertion never loses an unexpired uuid while a slot can be reused,
    even if the table holds expired entries: a uuid found at an entry that has
    not expired at the time of the insertion is still found after it. *)
Theorem dedup_insert_keeps_fresh table cap max_age u w :
  table_wf table cap -> bytes_n 16 u ->
  wp (dedup_insert table cap max_age u) w (fun t w' =>
    exists now, clock_read w w' now /\
      forall v i, bytes_n 16 v -> ~ all_fresh table max_age now ->
        found_at table cap v i ->
        expired now max_age (probe_entry table cap v i) = false ->
        dedup_contains t cap v = Val 1).
Proof.
  intros Hwf Hu. apply wp_dedup_insert; try done. intros now t w' Hb Hc Hins.
  assert (Hwf' : table_wf t cap) by exact (inserted_wf _ _ Hwf max_age now u t Hu (clock_read_u64 _ _ _ Hc) Hins).
  exists now. split; [done|]. intros v i Hv Hnf Hf Hex.
  apply contains_reachable; try done. exists i. exact (inserted_keeps _ _ Hwf _ _ _ _ v i Hins Hnf Hf Hex).
Qed.

(** What an eviction leaves: [dedup_evict] keeps the table well-formed and
    frees exactly the expired entries; afterwards [dedup_contains] answers 1
    exactly for the uuids found behind a run of entries none of which has
    expired. *)
Theorem dedup_evict_exact table cap max_age w :
  table_wf table cap ->
  wp (dedup_evict table cap max_age) w (fun t w' =>
    table_wf t cap /\
    exists now, clock_read w w' now /\ t = (evict_entry max_age now <$> table) /\
      forall u, bytes_n 16 u ->
        dedup_contains t cap u = Val 1 <->
        exists i, found_at table cap u i /\
          forall j, 0 <= j <= i -> expired now max_age (probe_entry table cap u j) = false).
Proof.
  intros Hwf. apply wp_dedup_evict; [done|]. intros now w' Hb Hc.
  assert (Hwf' := evicted_wf _ _ Hwf max_age now). split; [done|].
  exists now. split; [done|]. split; [done|]. intros u Hu.
  rewrite contains_reachable by done. unfold reachable. by setoid_rewrite evicted_found.
Qed.

(** Eviction can forget a uuid that has not expired: when the entry in the
    home slot of [u] has expired, [dedup_evict] frees that slot, and from then
    on [dedup_contains] answers 0 for [u], although the table still holds an
    occupied, unexpired entry for it further along the probe sequence. *)
Theorem dedup_evict_forgets_fresh table cap max_age u i w :
  table_wf table cap -> bytes_n 16 u -> found_at table cap u i ->
  wp (dedup_evict table cap max_age) w (fun t w' =>
    exists now, clock_read w w' now /\
      (expired now max_age (probe_entry table cap u 0) = true ->
       expired now max_age (probe_entry table cap u i) = false ->
       probe_entry t cap u i = probe_entry table cap u i /\
       dedup_contains table cap u = Val 1 /\ dedup_contains t cap u = Val 0)).
Proof.
  intros Hwf Hu Hf. apply wp_dedup_evict; [done|]. intros now w' Hb Hc.
  assert (Hwf' := evicted_wf _ _ Hwf max_age now). exists now. split; [done|].
  intros H0 Hi. split; [|split].
  - destruct Hf as (Hr & _). rewrite probe_entry_evict by done.
    unfold evict_entry. by rewrite Hi, andb_false_r.
  - apply contains_reachable; try done. by exists i.
  - apply contains_unreachable; try done. intros [k [(Hk & _) Hex]%evicted_found]; [|done].
    specialize (Hex 0 ltac:(lia)). congruence.
Qed.
(** Insertions by two threads at once lose an id: when both have chosen their
    slot before either has written it, and chose the same one - as they do for
    two ids with the same home slot - the table forgets the id written first. *)
Theorem racing_inserts_lose_id table cap max_age now u v k j :
  table_wf table cap -> probe_inv table cap -> u <> v -> ~ reachable table cap u ->
  insert_step table cap max_age now u k -> insert_step table cap max_age now v j ->
  probe_slot cap u k = probe_slot cap v j ->
  ~ reachable (<[probe_slot cap v j := mkEntry v now 1]>
                 (<[probe_slot cap u k := mkEntry u now 1]> table)) cap u.
Proof.
  intros Hwf Hinv Huv Hno _ Hv Heq. rewrite Heq, list_insert_insert_eq. intros Hr.
  destruct (inserted_origin table cap Hwf max_age now v (<[probe_slot cap v j := mkEntry v now 1]> table) u)
    as [?|?]; try done. by exists j.
Qed.
End dedup_rules.

(** Closed examples: two uuids whose home is slot 1 of a table of 4. *)
Definition demo_uuid (n : Z) : list Z := n :: replicate 15 0.
Definition demo_table : list bc_dedup_entry :=
  [zero_entry; mkEntry (demo_uuid 0) 100 1; mkEntry (demo_uuid 4) 5000 1; zero_entry].

Lemma demo_table_found : found_at demo_table 4 (demo_uuid 4) 1.
Proof.
  split; [lia|]. split; [by vm_compute|]. intros j Hj.
  assert (j = 0 \/ j = 1) as [-> | ->] by lia; by vm_compute.
Qed.

Lemma dedup_insert_then_contains_witness :
  wp (dedup_insert demo_table 4 600 (demo_uuid 8)) (demo_os 5001) (fun t w' =>
    balanced (demo_os 5001) w' /\ table_wf t 4 /\ dedup_contains t 4 (demo_uuid 8) = Val 1).
Proof.
  apply (dedup_insert_then_contains demo_table 4 600 (demo_uuid 8) (demo_os 5001));
    apply (bool_decide_unpack _); by vm_compute.
Defined.

Lemma demo_probe_inv : probe_inv (replicate 4 zero_entry) 4.
Proof.
  intros u i Hi Ho. exfalso. apply Ho. unfold probe_entry.
  destruct (replicate 4 zero_entry !! _) as [e|] eqn:He; [|done].
  apply lookup_replicate in He as [-> _]. done.
Qed.

Lemma dedup_refines_set_witness :
  wp (dedup_insert (replicate 4 zero_entry) 4 600 (demo_uuid 8)) (demo_os 5001) (fun t w' =>
    table_wf t 4 /\ probe_inv t 4 /\
    exists now, clock_read (demo_os 5001) w' now /\
      (none_expired (replicate 4 zero_entry) 600 now ->
       ~ all_fresh (replicate 4 zero_entry) 600 now ->
       forall v, bytes_n 16 v ->
         dedup_contains t 4 v = Val 1 <->
         v = demo_uuid 8 \/ dedup_contains (replicate 4 zero_entry) 4 v = Val 1)).
Proof.
  apply (dedup_refines_set (replicate 4 zero_entry) 4 600 (demo_uuid 8) (demo_os 5001)).
  - apply (bool_decide_unpack _); by vm_compute.
  - apply demo_probe_inv.
  - apply (bool_decide_unpack _); by vm_compute.
Defined.

Lemma dedup_insert_keeps_fresh_witness :
  wp (dedup_insert demo_table 4 600 (demo_uuid 8)) (demo_os 5001) (fun t w' =>
    exists now, clock_read (demo_os 5001) w' now /\
      forall v i, bytes_n 16 v -> ~ all_fresh demo_table 600 now ->
        found_at demo_table 4 v i ->
        expired now 600 (probe_entry demo_table 4 v i) = false ->
        dedup_contains t 4 v = Val 1).
Proof.
  apply (dedup_insert_keeps_fresh demo_table 4 600 (demo_uuid 8) (demo_os 5001));
    apply (bool_decide_unpack _); by vm_compute.
Defined.

Lemma dedup_evict_exact_witness :
  wp (dedup_evict demo_table 4 600) (demo_os 5001) (fun t w' =>
    table_wf t 4 /\
    exists now, clock_read (demo_os 5001) w' now /\
      t = (evict_entry 600 now <$> demo_table) /\
      forall u, bytes_n 16 u ->
        dedup_contains t 4 u = Val 1 <->
        exists i, found_at demo_table 4 u i /\
          forall j, 0 <= j <= i -> expired now 600 (probe_entry demo_table 4 u j) = false).
Proof.
  apply (dedup_evict_exact demo_table 4 600 (demo_os 5001)).
  apply (bool_decide_unpack _); by vm_compute.
Defined.

(** The expired entry of uuid 0 hides the fresh one of uuid 4. *)
Lemma dedup_evict_forgets_fresh_witness :
  dedup_contains demo_table 4 (demo_uuid 4) = Val 1 /\
  wp (dedup_evict demo_table 4 600) (demo_os 5001) (fun t w' =>
    exists now, clock_read (demo_os 5001) w' now /\
      (expired now 600 (probe_entry demo_table 4 (demo_uuid 4) 0) = true ->
       expired now 600 (probe_entry demo_table 4 (demo_uuid 4) 1) = false ->
       probe_entry t 4 (demo_uuid 4) 1 = probe_entry demo_table 4 (demo_uuid 4) 1 /\
       dedup_contains demo_table 4 (demo_uuid 4) = Val 1 /\
       dedup_contains t 4 (demo_uuid 4) = Val 0)) /\
  expired 5001 600 (probe_entry demo_table 4 (demo_uuid 4) 0) = true /\
  expired 5001 600 (probe_entry demo_table 4 (demo_uuid 4) 1) = false.
Proof.
  split; [by vm_compute|]. split; [|by vm_compute].
  apply (dedup_evict_forgets_fresh demo_table 4 600 (demo_uuid 4) 1 (demo_os 5001)).
  - apply (bool_decide_unpack _); by vm_compute.
  - apply (bool_decide_unpack _); by vm_compute.
  - apply demo_table_found.
Defined.

Lemma racing_inserts_lose_id_witness :
  ~ reachable (<[probe_slot 4 (demo_uuid 4) 0 := mkEntry (demo_uuid 4) 9 1]>
                 (<[probe_slot 4 (demo_uuid 0) 0 := mkEntry (demo_uuid 0) 9 1]> (replicate 4 zero_entry))) 4 (demo_uuid 0).
Proof.
  apply (racing_inserts_lose_id (replicate 4 zero_entry) 4 600 9 (demo_uuid 0) (demo_uuid 4) 0 0).
  - apply (bool_decide_unpack _). vm_compute. exact I.
  - exact demo_probe_inv.
  - vm_compute. discriminate.
  - intros (i & Hi & _ & Ho). apply (Ho 0); [lia|]. by vm_compute.
  - split; [lia|]. split; [intros j Hj; lia|]. left. left. by vm_compute.
  - split; [lia|]. split; [intros j Hj; lia|]. left. left. by vm_compute.
  - by vm_compute.
Defined.
