(* ===== verification/Router.v ===== *)
(** * Router: the gossip engine

    Models [src/usecase/mesh_router.c] (from line 102) and
    [include/bitchat/usecase/mesh_router.h].  The router is a value passed to
    each operation and returned as the operation leaves it; the transport, the
    storage and the delivery callback act on the world through their function
    pointers. *)
From S2P Require Import Prelude Effects Errors Sodium Message Peer Ports Dedup.

Definition BC_DEFAULT_FANOUT : Z := 3.
Definition BC_DEFAULT_DEDUP_CAP : Z := 10000.
Definition BC_DEFAULT_DEDUP_AGE : Z := 600.
Definition BC_SF_REBROADCAST_SEC : Z := 3.

Record bc_router_config : Type := mkConfig {
  fanout : Z;
  cfg_dedup_cap : Z;
  dedup_max_age : Z
}.

Record bc_router (W : Type) : Type := mkRouter {
  transport : option (bc_transport W);
  storage : option (bc_storage W);
  config : bc_router_config;
  local_pubkey : list Z;
  dedup_table : box (list bc_dedup_entry);
  dedup_cap : Z;
  peers : list bc_peer;            (* bc_peer_t peers[BC_MAX_PEERS] *)
  peer_count : Z;
  on_message : option (bc_message -> Z -> M W unit);
  on_message_userdata : Z;         (* an opaque address *)
  last_sf_tick : Z
}.
Arguments mkRouter {W}.
Arguments transport {W}.
Arguments storage {W}.
Arguments config {W}.
Arguments local_pubkey {W}.
Arguments dedup_table {W}.
Arguments dedup_cap {W}.
Arguments peers {W}.
Arguments peer_count {W}.
Arguments on_message {W}.
Arguments on_message_userdata {W}.
Arguments last_sf_tick {W}.

(** Field updates. *)
Definition set_table {W} (t : list bc_dedup_entry) (r : bc_router W) : bc_router W :=
  mkRouter (transport r) (storage r) (config r) (local_pubkey r)
    (Box (addr (dedup_table r)) t) (dedup_cap r) (peers r) (peer_count r)
    (on_message r) (on_message_userdata r) (last_sf_tick r).
Definition set_peers {W} (ps : list bc_peer) (n : Z) (r : bc_router W) : bc_router W :=
  mkRouter (transport r) (storage r) (config r) (local_pubkey r) (dedup_table r)
    (dedup_cap r) ps n (on_message r) (on_message_userdata r) (last_sf_tick r).
Definition set_last_sf_tick {W} (t : Z) (r : bc_router W) : bc_router W :=
  mkRouter (transport r) (storage r) (config r) (local_pubkey r) (dedup_table r)
    (dedup_cap r) (peers r) (peer_count r) (on_message r) (on_message_userdata r) t.
Definition set_ttl (t : Z) (m : bc_message) : bc_message :=
  mkMessage (uuid m) t (sender_pubkey m) (receiver_pubkey m) (timestamp m)
    (payload m) (payload_len m).

Section router.
Context {W : Type} `{!HasOS W}.

(** ** Forwarding *)

(** The loop of [forward_to_peers]: [n] peers from index [i] on. *)
Fixpoint forward_loop (send : list Z -> list Z -> Z -> M W Z)
    (peers : list bc_peer) (fanout : Z) (data : list Z) (len : Z)
    (n : nat) (i sent : Z) : M W Z :=
  match n with
  | O => mret sent
  | S n' =>
      if bool_decide (sent < fanout) then
        p ← lift (arr_get peers i);
        rc ← send (peer_pubkey p) data len;
        forward_loop send peers fanout data len n' (i + 1)
          (if bool_decide (rc = BC_OK) then sent + 1 else sent)
      else mret sent
  end.

Definition forward_to_peers (router : bc_router W) (data : list Z) (len : Z) : M W Z :=
  match transport router ≫= t_send with
  | None => mret BC_ERR_TRANSPORT
  | Some send =>
      sent ← forward_loop send (peers router) (fanout (config router)) data len
               (Z.to_nat (peer_count router)) 0 0;
      mret (if bool_decide (sent > 0) then BC_OK else BC_ERR_TRANSPORT)
  end.

(** Serialize into a fresh buffer and forward; every error is ignored. *)
Definition serialize_and_forward (router : bc_router W) (msg : bc_message) : M W unit :=
  let needed := to_u64 (BC_MESSAGE_HEADER_SIZE + payload_len msg) in
  buf ← c_malloc needed;
  match buf with
  | None => mret tt
  | Some buf =>
      '(rc, b, out_len) ← lift (bc_message_serialize (Some msg) (Some (contents buf))
                                   needed (Some 0));
      (if bool_decide (rc = BC_OK)
       then forward_to_peers router (default [] b) (default 0 out_len);; mret tt
       else mret tt);;
      c_free (Some (addr buf))
  end.

(** [if (router->storage && router->storage->store_message) ...]. *)
Definition store_if_possible (router : bc_router W) (msg : bc_message) : M W unit :=
  match storage router ≫= s_store_message with
  | None => mret tt
  | Some store => store msg;; mret tt
  end.

(** ** Public operations *)

Definition default_config : bc_router_config :=
  mkConfig BC_DEFAULT_FANOUT BC_DEFAULT_DEDUP_CAP BC_DEFAULT_DEDUP_AGE.

Definition bc_router_create (transport : option (bc_transport W))
    (storage : option (bc_storage W)) (local_pubkey : option (list Z))
    (config : option bc_router_config) : M W (option (box (bc_router W))) :=
  match local_pubkey with
  | None => mret None
  | Some local_pubkey =>
      r ← c_alloc;
      match r with
      | None => mret None
      | Some r =>
          pk ← lift (mem_read local_pubkey 0 BC_PUBKEY_SIZE);
          let cfg := default default_config config in
          let cap := cfg_dedup_cap cfg in
          t ← c_alloc;
          match t with
          | None => c_free (Some r);; mret None
          | Some t =>
              mret (Some (Box r (mkRouter transport storage cfg pk
                (Box t (replicate (Z.to_nat cap) zero_entry)) cap
                (replicate (Z.to_nat BC_MAX_PEERS) zero_peer) 0 None 0 0)))
          end
      end
  end.

Definition bc_router_set_on_message (router : option (bc_router W))
    (callback : option (bc_message -> Z -> M W unit)) (userdata : Z)
    : option (bc_router W) :=
  match router with
  | None => None
  | Some r =>
      Some (mkRouter (transport r) (storage r) (config r) (local_pubkey r)
              (dedup_table r) (dedup_cap r) (peers r) (peer_count r)
              callback userdata (last_sf_tick r))
  end.

Definition bc_router_broadcast (router : option (bc_router W))
    (msg : option bc_message) : M W (Z * option (bc_router W)) :=
  match router, msg with
  | Some r, Some msg =>
      t ← dedup_insert (contents (dedup_table r)) (dedup_cap r)
            (dedup_max_age (config r)) (uuid msg);
      let r := set_table t r in
      let needed := to_u64 (BC_MESSAGE_HEADER_SIZE + payload_len msg) in
      buf ← c_malloc needed;
      match buf with
      | None => mret (BC_ERR_NOMEM, Some r)
      | Some buf =>
          '(rc, b, out_len) ← lift (bc_message_serialize (Some msg)
                                      (Some (contents buf)) needed (Some 0));
          if bool_decide (rc <> BC_OK)
          then c_free (Some (addr buf));; mret (rc, Some r)
          else
            forward_to_peers r (default [] b) (default 0 out_len);;
            store_if_possible r msg;;
            c_free (Some (addr buf));;
            mret (BC_OK, Some r)
      end
  | _, _ => mret (BC_ERR_INVALID, router)
  end.

Definition bc_router_receive (router : option (bc_router W))
    (data : option (list Z)) (len : Z) : M W (Z * option (bc_router W)) :=
  match router, data with
  | Some r, Some data =>
      if bool_decide (len = 0) then mret (BC_ERR_INVALID, router) else
      msg ← bc_message_deserialize (Some data) len;
      match msg with
      | None => mret (BC_ERR_INVALID, router)
      | Some msg =>
          dup ← lift (dedup_contains (contents (dedup_table r)) (dedup_cap r)
                        (uuid (contents msg)));
          if bool_decide (dup <> 0)
          then bc_message_destroy (Some msg);; mret (BC_ERR_DUPLICATE, router)
          else
          t ← dedup_insert (contents (dedup_table r)) (dedup_cap r)
                (dedup_max_age (config r)) (uuid (contents msg));
          let r := set_table t r in
          if bool_decide (ttl (contents msg) = 0)
          then bc_message_destroy (Some msg);; mret (BC_ERR_TTL_EXPIRED, Some r)
          else
          let msg := Box (addr msg) (set_ttl (to_u8 (ttl (contents msg) - 1))
                                       (contents msg)) in
          c ← lift (sodium_memcmp (receiver_pubkey (contents msg))
                      (local_pubkey r) BC_PUBKEY_SIZE);
          if bool_decide (c = 0) then
            match on_message r with
            | None => mret tt
            | Some f => f (contents msg) (on_message_userdata r)
            end;;
            bc_message_destroy (Some msg);;
            mret (BC_OK, Some r)
          else
            store_if_possible r (contents msg);;
            serialize_and_forward r (contents msg);;
            bc_message_destroy (Some msg);;
            mret (BC_OK, Some r)
      end
  | _, _ => mret (BC_ERR_INVALID, router)
  end.

Definition bc_router_add_peer (router : option (bc_router W)) (peer : option bc_peer)
    : M W (option (bc_router W)) :=
  match router, peer with
  | Some r, Some peer =>
      at_i ← lift (find_peer (peers r) (peer_pubkey peer) (Z.to_nat (peer_count r)) 0);
      match at_i with
      | Some i =>
          touched ← bc_peer_touch (Some peer);
          ps ← lift (arr_set (peers r) i (default peer touched));
          mret (Some (set_peers ps (peer_count r) r))
      | None =>
          if bool_decide (peer_count r < BC_MAX_PEERS) then
            ps ← lift (arr_set (peers r) (peer_count r) peer);
            mret (Some (set_peers ps (peer_count r + 1) r))
          else mret router
      end
  | _, _ => mret router
  end.

(** ** The maintenance tick *)

(** Step 2: drain the transport.  [fuel] bounds the number of datagrams. *)
Fixpoint recv_loop (recv : list Z -> Z -> Z -> list Z -> M W (Z * (list Z * Z * list Z)))
    (fuel : nat) (r : bc_router W) (buf sender : list Z) : M W (bc_router W) :=
  match fuel with
  | O => lift NoFuel
  | S fuel' =>
      '(rc, (buf, out_len, sender)) ← recv buf 4096 0 sender;
      if bool_decide (rc = BC_OK) && bool_decide (out_len > 0) then
        '(_, r') ← bc_router_receive (Some r) (Some buf) out_len;
        recv_loop recv fuel' (default r r') buf sender
      else mret r
  end.

(** Step 3: forward and destroy the stored messages, from index [j] on. *)
Fixpoint rebroadcast_loop (r : bc_router W) (msgs : msg_array) (n : nat) (j : Z) : M W unit :=
  match n with
  | O => mret tt
  | S n' =>
      msg ← lift (match msgs with None => UB | Some a => arr_get (contents a) j end);
      serialize_and_forward r (contents msg);;
      bc_message_destroy (Some msg);;
      rebroadcast_loop r msgs n' (j + 1)
  end.

Definition rebroadcast (r : bc_router W) : M W (bc_router W) :=
  now ← c_time;
  match storage r ≫= s_get_pending with
  | None => mret r
  | Some get_pending =>
      if bool_decide (peer_count r > 0) &&
         bool_decide (to_u64 (now - last_sf_tick r) >= BC_SF_REBROADCAST_SEC) then
        let r := set_last_sf_tick now r in
        '(rc, (msgs, count)) ← get_pending None;
        (if bool_decide (rc = BC_OK)
         then rebroadcast_loop r msgs (Z.to_nat count) 0;; c_free (addr <$> msgs)
         else mret tt);;
        mret r
      else mret r
  end.

Definition bc_router_tick (fuel : nat) (router : option (bc_router W))
    : M W (option (bc_router W)) :=
  match router with
  | None => mret None
  | Some r =>
      t ← dedup_evict (contents (dedup_table r)) (dedup_cap r) (dedup_max_age (config r));
      let r := set_table t r in
      r ← match transport r ≫= t_recv with
          | None => mret r
          | Some recv =>
              buf ← stack_buffer 4096;
              sender ← stack_buffer BC_PUBKEY_SIZE;
              recv_loop recv fuel r buf sender
          end;
      r ← rebroadcast r;
      match storage r ≫= s_evict_expired with
      | None => mret tt
      | Some evict => evict (72 * 3600);; mret tt
      end;;
      mret (Some r)
  end.

Definition bc_router_destroy (router : option (box (bc_router W))) : M W unit :=
  match router with
  | None => mret tt
  | Some r => c_free (Some (addr (dedup_table (contents r))));; c_free (Some (addr r))
  end.
End router.
