(* ===== verification/RouterSpec.v ===== *)
(** * RouterSpec: what the gossip engine does, and that it does it

    The specification of the router's operations and the proofs that the code
    of [Router] implements it: which peers a message is sent to ([forwarded]),
    what receiving a datagram may lead to ([received]), the peer table, and the
    safety of every operation against any adapter that keeps its contract. *)
From S2P Require Import Prelude Effects Errors Sodium Message Peer Ports Dedup Router.

(** ** Well-formed routers *)

Definition known_peers {W} (r : bc_router W) : list bc_peer :=
  table_peers (peers r) (peer_count r).

Definition router_wf {W} (r : bc_router W) : Prop :=
  table_wf (contents (dedup_table r)) (dedup_cap r) /\
  bytes_n 32 (local_pubkey r) /\
  peer_table_wf (peers r) (peer_count r) /\
  is_u8 (fanout (config r)) /\ is_u64 (last_sf_tick r).

(** The number of calls that answered [BC_OK]. *)
Definition ok_count (rcs : list Z) : Z := zlen (filter (fun rc => rc = BC_OK) rcs).

(** One hop: the time-to-live drops by one. *)
Definition hop (p : packet) : packet :=
  mkPacket (pk_uuid p) (pk_ttl p - 1) (pk_sender p) (pk_receiver p) (pk_time p) (pk_payload p).

Section spec.
Context {W : Type} `{!HasOS W, !WorldInv W}.

(** The delivery callback gives back what it allocates or leaves it with the
    world's own state. *)
Class CallbackSafe (f : bc_message -> Z -> M W unit) : Prop :=
  callback_safe : forall m u w, heap_ok w -> message_wf m -> payload_len m < 2 ^ 31 ->
    wp (f m u) w (fun _ w' => balanced w w').

(** The adapters wired into a router keep their contracts. *)
Definition ports_safe (r : bc_router W) : Prop :=
  (forall t, transport r = Some t -> TransportSafe t) /\
  (forall s, storage r = Some s -> StorageSafe s) /\
  (forall f, on_message r = Some f -> CallbackSafe f).

(** A sequence of [send] calls to the peers [ps] in order, with their codes. *)
Inductive sends (send : list Z -> list Z -> Z -> M W Z) (data : list Z)
    : list bc_peer -> W -> list Z -> W -> Prop :=
| sends_nil w : sends send data [] w [] w
| sends_cons p ps w rc w1 rcs w2 :
    send (peer_pubkey p) data (zlen data) w = Val (rc, w1) ->
    sends send data ps w1 rcs w2 ->
    sends send data (p :: ps) w (rc :: rcs) w2.

(** Forwarding [data]: an initial segment of the known peers is tried in table
    order; the segment ends with the table or as soon as [fanout] sends have
    succeeded, so at most [fanout] succeed. *)
Definition forwarded (r : bc_router W) (data : list Z) (w : W) (rc : Z) (w' : W) : Prop :=
  match transport r ≫= t_send with
  | None => rc = BC_ERR_TRANSPORT /\ w' = w
  | Some send =>
      exists k rcs,
        sends send data (take k (known_peers r)) w rcs w' /\
        (k <= length (known_peers r))%nat /\
        ok_count rcs <= fanout (config r) /\
        (k = length (known_peers r) \/ ok_count rcs = fanout (config r)) /\
        (forall j, (j < k)%nat -> ok_count (take j rcs) < fanout (config r)) /\
        rc = if bool_decide (ok_count rcs > 0) then BC_OK else BC_ERR_TRANSPORT
  end.

(** The message was offered to the storage, once. *)
Definition stored (r : bc_router W) (m : bc_message) (w w' : W) : Prop :=
  match storage r ≫= s_store_message with
  | None => w' = w
  | Some f => exists rc, f m w = Val (rc, w')
  end.

(** The message was handed to the callback, once. *)
Definition delivered (r : bc_router W) (m : bc_message) (w w' : W) : Prop :=
  match on_message r with
  | None => w' = w
  | Some f => f m (on_message_userdata r) w = Val (tt, w')
  end.

(** The encoding of the message was forwarded, unless memory ran out; nothing
    else happened. *)
Definition relayed (r : bc_router W) (p : packet) (w w' : W) : Prop :=
  (~ never_oom w /\ idle w w') \/
  exists w1 rc w2, idle w w1 /\ forwarded r (encode p) w1 rc w2 /\ idle w2 w'.

(** What a datagram [d] leads to.  Between the calls named here nothing but the
    run-time moves ([silent], [idle]): no other call of an adapter or of the
    callback takes place. *)
Inductive received (r : bc_router W) (d : list Z) (w : W)
    : Z -> bc_router W -> W -> Prop :=
| RcvInvalid w' :
    decode d = None -> silent w w' -> balanced w w' -> received r d w BC_ERR_INVALID r w'
| RcvNoMemory p w' :
    decode d = Some p -> ~ never_oom w -> silent w w' -> balanced w w' ->
    received r d w BC_ERR_INVALID r w'
| RcvDuplicate p w' :
    decode d = Some p ->
    reachable (contents (dedup_table r)) (dedup_cap r) (pk_uuid p) ->
    silent w w' -> balanced w w' -> received r d w BC_ERR_DUPLICATE r w'
| RcvExpired p now t w' :
    decode d = Some p ->
    ~ reachable (contents (dedup_table r)) (dedup_cap r) (pk_uuid p) ->
    inserted (contents (dedup_table r)) (dedup_cap r) (dedup_max_age (config r)) now
      (pk_uuid p) t ->
    clock_read w w' now -> pk_ttl p = 0 -> silent w w' -> balanced w w' ->
    received r d w BC_ERR_TTL_EXPIRED (set_table t r) w'
| RcvDelivered p now t m w1 w2 w' :
    decode d = Some p ->
    ~ reachable (contents (dedup_table r)) (dedup_cap r) (pk_uuid p) ->
    inserted (contents (dedup_table r)) (dedup_cap r) (dedup_max_age (config r)) now
      (pk_uuid p) t ->
    clock_read w w' now -> 0 < pk_ttl p -> pk_receiver p = local_pubkey r ->
    message_wf m -> msg_packet m = hop p ->
    idle w w1 -> delivered r m w1 w2 -> idle w2 w' -> balanced w w' ->
    received r d w BC_OK (set_table t r) w'
| RcvRelayed p now t m w1 w2 w3 w4 w' :
    decode d = Some p ->
    ~ reachable (contents (dedup_table r)) (dedup_cap r) (pk_uuid p) ->
    inserted (contents (dedup_table r)) (dedup_cap r) (dedup_max_age (config r)) now
      (pk_uuid p) t ->
    clock_read w w' now -> 0 < pk_ttl p -> pk_receiver p <> local_pubkey r ->
    message_wf m -> msg_packet m = hop p ->
    idle w w1 -> stored r m w1 w2 -> idle w2 w3 ->
    relayed r (hop p) w3 w4 -> idle w4 w' -> balanced w w' ->
    received r d w BC_OK (set_table t r) w'.

(** The packets [ps] were forwarded one after the other. *)
Inductive resent (r : bc_router W) : list packet -> W -> W -> Prop :=
| resent_nil w w' : idle w w' -> resent r [] w w'
| resent_cons p ps w w1 w2 w' :
    relayed r p w w1 -> idle w1 w2 -> resent r ps w2 w' -> resent r (p :: ps) w w'.

(** The rate limit of store-and-forward. *)
Definition resend_due (r : bc_router W) (now : Z) : Prop :=
  0 < peer_count r /\ BC_SF_REBROADCAST_SEC <= to_u64 (now - last_sf_tick r).

(** One round of store-and-forward. *)
Definition rebroadcasted (r : bc_router W) (w : W) (r' : bc_router W) (w' : W) : Prop :=
  exists now w1, clock_read w w1 now /\ idle w w1 /\
  match storage r ≫= s_get_pending with
  | None => r' = r /\ w' = w1
  | Some f =>
      (~ resend_due r now /\ r' = r /\ w' = w1) \/
      (resend_due r now /\ r' = set_last_sf_tick now r /\
       exists rc arr count w2, f None w1 = Val ((rc, (arr, count)), w2) /\
         if bool_decide (rc = BC_OK) then resent r (array_packets arr) w2 w' else w' = w2)
  end.

(** Polling: each datagram the transport hands over is received, in order, until
    the transport has none. *)
Inductive polled (recv : list Z -> Z -> Z -> list Z -> M W (Z * (list Z * Z * list Z)))
    : bc_router W -> W -> bc_router W -> W -> Prop :=
| polled_stop r buf pk w rc buf' out pk' w' :
    bytes_ok buf -> zlen buf = 4096 -> recv buf 4096 0 pk w = Val ((rc, (buf', out, pk')), w') ->
    rc <> BC_OK \/ out <= 0 -> polled recv r w r w'
| polled_step r buf pk w buf' out pk' w1 rc r1 w2 r2 w3 :
    bytes_ok buf -> zlen buf = 4096 -> recv buf 4096 0 pk w = Val ((BC_OK, (buf', out, pk')), w1) -> 0 < out ->
    received r (take (Z.to_nat out) buf') w1 rc r1 w2 ->
    polled recv r1 w2 r2 w3 -> polled recv r w r2 w3.

(** One tick: expired ids are dropped, the transport is polled, the stored
    messages are forwarded when due, the storage evicts. *)
Definition ticked (r : bc_router W) (w : W) (r' : bc_router W) (w' : W) : Prop :=
  exists now r1 w1 w2 r2 w3,
    clock_read w w1 now /\ idle w w1 /\
    (let r0 := set_table (evict_entry (dedup_max_age (config r)) now
                            <$> contents (dedup_table r)) r in
     match transport r ≫= t_recv with
     | None => r1 = r0 /\ w2 = w1
     | Some recv => polled recv r0 w1 r1 w2
     end) /\
    rebroadcasted r1 w2 r2 w3 /\ r' = r2 /\ later w2 w' /\
    match storage r ≫= s_evict_expired with
    | None => w' = w3
    | Some f => exists rc, f (72 * 3600) w3 = Val (rc, w')
    end.

(** The peer table as a list: a known key is replaced by the new data with the
    current time, an unknown key is appended while there is room. *)
Definition upsert_peer (ps : list bc_peer) (p : bc_peer) (now : Z) : list bc_peer :=
  if bool_decide (peer_pubkey p ∈ peer_pubkey <$> ps)
  then (fun q => if bool_decide (peer_pubkey q = peer_pubkey p)
                 then mkPeer (peer_pubkey p) now (peer_transport p) (rssi p) else q) <$> ps
  else if bool_decide (zlen ps < BC_MAX_PEERS) then ps ++ [p] else ps.
End spec.

(** ** Lemmas: forwarding *)

Lemma ok_count_nil : ok_count [] = 0.
Proof. done. Qed.

Lemma ok_count_cons rc rcs :
  ok_count (rc :: rcs) = (if bool_decide (rc = BC_OK) then 1 else 0) + ok_count rcs.
Proof.
  unfold ok_count. rewrite filter_cons. unfold zlen.
  case_decide; case_bool_decide; try done; cbn [length]; lia.
Qed.

Section forwarding.
Context {W : Type} `{!HasOS W, !WorldInv W}.
Implicit Types (w : W) (r : bc_router W).

Lemma wp_forward_loop send ps f data n i sent w :
  (forall pk w, heap_ok w ->
     wp (send pk data (zlen data)) w (fun _ w' => balanced w w')) ->
  heap_ok w -> 0 <= i -> i + Z.of_nat n <= zlen ps ->
  wp (forward_loop send ps f data (zlen data) n i sent) w (fun sent' w' =>
    balanced w w' /\
    exists k rcs,
      sends send data (take k (drop (Z.to_nat i) ps)) w rcs w' /\ (k <= n)%nat /\
      sent' = sent + ok_count rcs /\ sent' <= Z.max sent f /\
      (k = n \/ f <= sent') /\
      (forall j, (j < k)%nat -> sent + ok_count (take j rcs) < f)).
Proof.
  intros Hsend. revert i sent w. induction n as [|n IH]; intros i sent w Hok Hi Hn;
    cbn [forward_loop].
  - apply wp_ret. split; [apply balanced_refl|]. exists 0%nat, [].
    split_and!; [apply sends_nil|lia|rewrite ok_count_nil; lia|lia|by left|lia].
  - case_bool_decide as Hf.
    2: { apply wp_ret. split; [apply balanced_refl|]. exists 0%nat, [].
         split_and!; [apply sends_nil|lia|rewrite ok_count_nil; lia|lia|right; lia|lia]. }
    destruct (arr_get_in_range ps i) as (p & Hp & Hget); [lia|].
    apply wp_bind, (wp_lift _ _ _ _ Hget), wp_bind.
    specialize (Hsend (peer_pubkey p) w Hok). apply wp_val in Hsend as (rc & w1 & Hs & Hb).
    unfold wp at 1. rewrite Hs.
    eapply wp_mono; [apply IH; [by eauto with bitchat|lia|lia]|].
    intros sent' w' (Hb' & k & rcs & Hsends & Hk & Hsum & Hmax & Hend & Hpre).
    split; [by eauto with bitchat|]. exists (S k), (rc :: rcs).
    rewrite (drop_S _ _ _ Hp). replace (S (Z.to_nat i)) with (Z.to_nat (i + 1)) by lia.
    split_and!; [cbn; by eapply sends_cons|lia| | | |].
    + rewrite ok_count_cons, Hsum. case_bool_decide; lia.
    + case_bool_decide; lia.
    + destruct Hend as [-> |?]; [by left|by right].
    + intros [|j] Hj; [rewrite take_0, ok_count_nil; lia|]. specialize (Hpre j ltac:(lia)).
      cbn [take]. rewrite ok_count_cons. case_bool_decide; lia.
Qed.

Lemma wp_forward r data w :
  router_wf r -> ports_safe r -> heap_ok w ->
  wp (forward_to_peers r data (zlen data)) w (fun rc w' =>
    balanced w w' /\ forwarded r data w rc w').
Proof.
  intros Hwf [Ht _] Hok. unfold forward_to_peers, forwarded.
  destruct (transport r) as [t|]; [|by apply wp_ret; split; [apply balanced_refl|]].
  cbn [mbind option_bind]. specialize (Ht t eq_refl).
  destruct (t_send t) as [send|] eqn:Hs; [|by apply wp_ret; split; [apply balanced_refl|]].
  destruct Hwf as (_ & _ & Hpt & Hf & _). assert (Hkl := table_peers_length _ _ Hpt).
  destruct Hpt as (Hl & Hc & _).
  apply wp_bind. eapply wp_mono.
  { apply wp_forward_loop; [|done|lia|lia]. intros pk w0 Hok0. by eapply send_safe. }
  intros sent w' (Hb & k & rcs & Hsends & Hk & -> & Hmax & Hend & Hpre).
  apply wp_ret. split; [done|]. exists k, rcs.
  fold (known_peers r) in Hkl. unfold zlen in Hkl.
  unfold is_u8 in Hf. unfold known_peers at 1, table_peers. rewrite take_take, Nat.min_l by lia.
  split_and!; [done|lia|lia| |intros j Hj; specialize (Hpre j Hj); lia|done].
  destruct Hend as [-> |?]; [left; lia|right; lia].
Qed.

Lemma wp_serialize_and_forward r m w :
  router_wf r -> ports_safe r -> heap_ok w -> message_wf m ->
  wp (serialize_and_forward r m) w (fun _ w' =>
    balanced w w' /\ relayed r (msg_packet m) w w').
Proof.
  intros Hwf Hp Hok Hm. unfold serialize_and_forward, relayed.
  assert (Hlen : payload_len m = zlen (msg_payload m)) by apply Hm.
  assert (Hmax : payload_len m < 2 ^ 63) by apply Hm.
  assert (H0 := zlen_nonneg (msg_payload m)).
  assert (Hel := encode_length _ (message_packet_wf _ Hm)).
  cbn [msg_packet pk_payload] in Hel. rewrite <- Hlen in Hel.
  rewrite to_u64_id by size_lia.
  apply wp_bind, wp_quiet; [apply quiet_malloc|].
  apply wp_malloc; [done|intros w' Hoom Hb Hs; apply wp_ret; by auto with bitchat|].
  intros b w1 [Hbl _] Ha Hs1.
  apply wp_bind. eapply wp_lift; [apply serialize_encode; [done|size_lia]|].
  cbn [default]. rewrite bool_decide_eq_true_2 by done.
  rewrite drop_ge, (right_id_L [] (++)) by size_lia. rewrite <- Hel.
  apply wp_bind, wp_bind. eapply wp_mono; [apply wp_forward; by eauto with bitchat|].
  intros rc w2 [Hb2 Hf]. apply wp_ret, wp_quiet; [apply quiet_free|].
  apply (wp_free_acquired (addr b) {[addr b]} w); [by eauto with bitchat|set_solver|].
  intros w3 Hl3 Ha3 Hs3. rewrite difference_self in Ha3. apply acquired_nil in Ha3.
  split; [done|]. right. exists w1, rc, w2. split_and!; by eauto with bitchat.
Qed.

Lemma wp_store r m w :
  ports_safe r -> heap_ok w -> message_wf m -> payload_len m < 2 ^ 31 ->
  wp (store_if_possible r m) w (fun _ w' => balanced w w' /\ stored r m w w').
Proof.
  intros (_ & Hs & _) Hok Hm Hl31. unfold store_if_possible, stored.
  destruct (storage r) as [s|]; [|by apply wp_ret; split; [apply balanced_refl|]].
  specialize (Hs s eq_refl). cbn [mbind option_bind].
  destruct (s_store_message s) as [f|] eqn:Hf;
    [|by apply wp_ret; split; [apply balanced_refl|]].
  apply wp_bind. assert (H := store_safe f m w Hf Hok Hm Hl31).
  apply wp_val in H as (rc & w' & Hrun & Hb). unfold wp. rewrite Hrun. split; [done|by exists rc].
Qed.

Lemma wp_deliver r m w :
  ports_safe r -> heap_ok w -> message_wf m -> payload_len m < 2 ^ 31 ->
  wp (match on_message r with
      | None => mret tt
      | Some f => f m (on_message_userdata r)
      end) w (fun _ w' => delivered r m w w' /\ balanced w w').
Proof.
  intros (_ & _ & Hc) Hok Hm Hl31. unfold delivered.
  destruct (on_message r) as [f|].
  - assert (H := Hc f eq_refl m (on_message_userdata r) w Hok Hm Hl31).
    apply wp_val in H as ([] & w' & Hrun & Hb). unfold wp. by rewrite Hrun.
  - apply wp_ret. split; [done|apply balanced_refl].
Qed.

Lemma router_wf_set_table r t :
  router_wf r -> table_wf t (dedup_cap r) -> router_wf (set_table t r).
Proof. intros (_ & Hr) Ht. split; [exact Ht|exact Hr]. Qed.

Lemma ports_safe_set_table r t : ports_safe r -> ports_safe (set_table t r).
Proof. done. Qed.

(** The message as the router passes it on. *)
Lemma hop_message m :
  message_wf m -> 0 < ttl m ->
  message_wf (set_ttl (to_u8 (ttl m - 1)) m) /\
  msg_packet (set_ttl (to_u8 (ttl m - 1)) m) = hop (msg_packet m).
Proof.
  intros Hm Ht. assert (Hu : is_u8 (ttl m)) by apply Hm.
  rewrite to_u8_id by size_lia. split; [|done].
  destruct Hm as (Hid & _ & Hrest). split; [exact Hid|]. split; [cbn; size_lia|exact Hrest].
Qed.
End forwarding.

(** ** Lemmas: receiving *)

(** A packet is no longer than the bytes it was read from. *)
Lemma decode_payload_length d p : decode d = Some p -> zlen (pk_payload p) <= zlen d.
Proof. unfold decode. case_bool_decide; [done|]. intros [= <-]. cbn. zlen_lia. Qed.

Section receiving.
Context {W : Type} `{!HasOS W, !WorldInv W}.
Implicit Types (w : W) (r : bc_router W).

(** Destroying the received message after code that acquired [bs]. *)
Lemma wp_destroy_after {A} b bs w w1 w2 (a : A) (Q : A -> W -> Prop) :
  owns_message b w w1 -> acquired bs w1 w2 ->
  (forall w3, idle w2 w3 -> acquired bs w w3 -> Q a w3) ->
  wp (bc_message_destroy (Some b);; mret a) w2 Q.
Proof.
  intros (Hwf & Hd & Ha) Hbs HQ. apply wp_bind, wp_quiet; [apply quiet_destroy|].
  assert (Hdis := acquired_disjoint _ _ _ _ _ Ha Hbs).
  apply (wp_destroy b (bs ∪ msg_blocks b) w); try done;
    [by eapply acquired_union|set_solver|].
  intros w3 Hl Ha3 Hs3. apply wp_ret, HQ; [by split|].
  by replace bs with ((bs ∪ msg_blocks b) ∖ msg_blocks b) by set_solver.
Qed.

Lemma wp_destroy_balanced {A} b w w1 w2 (a : A) (Q : A -> W -> Prop) :
  owns_message b w w1 -> balanced w1 w2 ->
  (forall w3, idle w2 w3 -> balanced w w3 -> Q a w3) ->
  wp (bc_message_destroy (Some b);; mret a) w2 Q.
Proof.
  intros Ho Hb HQ. eapply wp_destroy_after; [done|by apply acquired_nil|].
  intros w3 Hl Ha. apply HQ; [done|]. by apply acquired_nil.
Qed.

Lemma owns_set_ttl b t w w' :
  is_u8 t -> owns_message b w w' ->
  owns_message (Box (addr b) (set_ttl t (contents b))) w w'.
Proof.
  intros Ht ((Hu & _ & Hrest) & Hd & Ha). split; [|done].
  split; [exact Hu|]. by split.
Qed.

(** Everything after the duplicate check of a message that parsed. *)
Lemma wp_receive_new r d p b w w1 :
  router_wf r -> ports_safe r -> heap_ok w ->
  decode d = Some p -> zlen d < 2 ^ 31 ->
  msg_packet (contents b) = p -> owns_message b w w1 ->
  silent w w1 -> ~ reachable (contents (dedup_table r)) (dedup_cap r) (pk_uuid p) ->
  wp (t ← dedup_insert (contents (dedup_table r)) (dedup_cap r)
            (dedup_max_age (config r)) (uuid (contents b));
      let r := set_table t r in
      if bool_decide (ttl (contents b) = 0)
      then bc_message_destroy (Some b);; mret (BC_ERR_TTL_EXPIRED, Some r)
      else
      let msg := Box (addr b) (set_ttl (to_u8 (ttl (contents b) - 1)) (contents b)) in
      c ← lift (sodium_memcmp (receiver_pubkey (contents msg))
                  (local_pubkey r) BC_PUBKEY_SIZE);
      if bool_decide (c = 0) then
        match on_message r with
        | None => mret tt
        | Some f => f (contents msg) (on_message_userdata r)
        end;;
        bc_message_destroy (Some msg);;
        mret (BC_OK, Some r)
      else
        store_if_possible r (contents msg);;
        serialize_and_forward r (contents msg);;
        bc_message_destroy (Some msg);;
        mret (BC_OK, Some r)) w1
   (fun '(rc, r') w' => exists r1, r' = Some r1 /\ router_wf r1 /\ received r d w rc r1 w').
Proof.
  intros Hwf Hp Hok Hd Hd31 Hpk Ho Hs1 Hnr. destruct Ho as (Hm & Hdist & Ha). subst p.
  assert (Hl31 : payload_len (contents b) < 2 ^ 31).
  { assert (Hle := decode_payload_length _ _ Hd). cbn [msg_packet pk_payload] in Hle.
    assert (Hpl : payload_len (contents b) = zlen (msg_payload (contents b))) by apply Hm. size_lia. }
  assert (Hu : bytes_n 16 (uuid (contents b))) by apply Hm.
  assert (Ht8 : is_u8 (ttl (contents b))) by apply Hm.
  assert (Hrk : bytes_n 32 (receiver_pubkey (contents b))) by apply Hm.
  assert (Htw : table_wf (contents (dedup_table r)) (dedup_cap r)) by apply Hwf.
  assert (Hlk : bytes_n 32 (local_pubkey r)) by apply Hwf.
  apply wp_bind, wp_quiet; [apply quiet_dedup_insert|].
  apply wp_dedup_insert; try done. intros now t w2 Hb2 Hclk Hins Hs2.
  assert (Hwf' : router_wf (set_table t r)).
  { apply router_wf_set_table; [done|].
    exact (inserted_wf _ _ Htw _ _ _ _ Hu (clock_read_u64 _ _ _ Hclk) Hins). }
  assert (Hclk' : clock_read w w2 now) by eauto with bitchat.
  cbv zeta. case_bool_decide as Ht0.
  { eapply wp_destroy_balanced; [by split|done|]. intros w3 Hl Hb3.
    eexists. split; [done|]. split; [done|]. eapply RcvExpired; by eauto with bitchat. }
  destruct (hop_message (contents b) Hm) as [Hm' Hpk']; [size_lia|].
  set (b' := Box (addr b) _). change (msg_packet (contents b') = hop (msg_packet (contents b))) in Hpk'.
  assert (Ho' : owns_message b' w w1) by (apply owns_set_ttl; [auto with bitchat|by split]).
  apply wp_bind. eapply wp_lift.
  { cbn [contents receiver_pubkey set_ttl local_pubkey set_table b'].
    apply (memcmp_eq _ _ 32); [apply Hrk|apply Hlk]. }
  rewrite memcmp_zero. case_bool_decide as Hme.
  - apply wp_bind. eapply wp_mono; [apply wp_deliver; [done|by eauto with bitchat|done|done]|].
    intros _ w3 (Hdel & Hb3).
    eapply wp_destroy_balanced; [exact Ho'|by eauto with bitchat|].
    intros w4 Hl4 Hb4. eexists. split; [done|]. split; [done|].
    eapply (RcvDelivered r d w _ now t (contents b') w2 w3); eauto with bitchat.
    cbn. size_lia.
  - apply wp_bind. eapply wp_mono; [apply wp_store; [done|by eauto with bitchat|done|done]|].
    intros _ w3 [Hb3 Hst]. apply wp_bind.
    eapply wp_mono; [apply wp_serialize_and_forward; by eauto with bitchat|].
    intros _ w4 [Hb4 Hrel].
    eapply wp_destroy_balanced; [exact Ho'|by eauto with bitchat|].
    intros w5 Hl5 Hb5. eexists. split; [done|]. split; [done|].
    eapply (RcvRelayed r d w _ now t (contents b') w2 w3 w3 w4); eauto 6 with bitchat.
    + cbn. size_lia.
    + by rewrite Hpk' in Hrel.
Qed.

Lemma wp_receive r data len w :
  router_wf r -> ports_safe r -> heap_ok w -> bytes_ok data ->
  0 < len <= zlen data -> len < 2 ^ 31 -> length_field_safe data len ->
  wp (bc_router_receive (Some r) (Some data) len) w (fun '(rc, r') w' =>
    exists r1, r' = Some r1 /\ router_wf r1 /\
      received r (take (Z.to_nat len) data) w rc r1 w').
Proof.
  intros Hwf Hp Hok Hbytes Hlen Hmax Hsafe. unfold bc_router_receive.
  rewrite bool_decide_eq_false_2 by lia.
  apply wp_bind, wp_quiet; [apply quiet_deserialize|].
  eapply wp_mono; [apply wp_deserialize; try done; lia|]. intros msg w1 Hpar Hs1. unfold parsed in Hpar.
  destruct (decode _) as [p|] eqn:Hd.
  2: { destruct Hpar as [-> Hb]. apply wp_ret. eexists. split; [done|]. split; [done|].
       by apply RcvInvalid. }
  destruct Hpar as [(-> & Hb & Hoom)|(b & -> & Hpk & Ho)].
  { apply wp_ret. eexists. split; [done|]. split; [done|]. by eapply RcvNoMemory. }
  assert (Hu : bytes_n 16 (uuid (contents b))) by apply Ho.
  assert (Htw : table_wf (contents (dedup_table r)) (dedup_cap r)) by apply Hwf.
  destruct (contains_spec _ _ Htw _ Hu) as (dup & Hdup & H01 & Hiff).
  apply wp_bind, (wp_lift _ _ _ _ Hdup).
  assert (Hpu : pk_uuid p = uuid (contents b)) by by subst p.
  case_bool_decide as Hd0.
  - eapply wp_destroy_balanced; [done|apply balanced_refl|]. intros w2 Hl Hb.
    eexists. split; [done|]. split; [done|]. eapply RcvDuplicate; [done| |by eauto with bitchat|done].
    rewrite Hpu. apply Hiff. lia.
  - eapply wp_receive_new; try done; [zlen_lia|]. rewrite Hpu. intros Hr. apply Hiff in Hr. lia.
Qed.
End receiving.

(** ** Lemmas: broadcasting and rebroadcasting *)

Section broadcasting.
Context {W : Type} `{!HasOS W, !WorldInv W}.
Implicit Types (w : W) (r : bc_router W).

Lemma wp_broadcast r m w :
  router_wf r -> ports_safe r -> heap_ok w -> message_wf m -> payload_len m < 2 ^ 31 ->
  wp (bc_router_broadcast (Some r) (Some m)) w (fun '(rc, r') w' =>
    balanced w w' /\
    exists now t, clock_read w w' now /\
      inserted (contents (dedup_table r)) (dedup_cap r) (dedup_max_age (config r)) now (uuid m) t /\
      r' = Some (set_table t r) /\ router_wf (set_table t r) /\
      ((rc = BC_ERR_NOMEM /\ ~ never_oom w /\ silent w w') \/
       (rc = BC_OK /\ exists w1 frc w2 w3, idle w w1 /\
          forwarded r (encode (msg_packet m)) w1 frc w2 /\
          stored r m w2 w3 /\ idle w3 w'))).
Proof.
  intros Hwf Hp Hok Hm Hl31. unfold bc_router_broadcast.
  assert (Htw : table_wf (contents (dedup_table r)) (dedup_cap r)) by apply Hwf.
  assert (Hu : bytes_n 16 (uuid m)) by apply Hm.
  apply wp_bind, wp_quiet; [apply quiet_dedup_insert|].
  apply wp_dedup_insert; try done. intros now t w1 Hb1 Hclk Hins Hs1.
  assert (Hwf' : router_wf (set_table t r)).
  { apply router_wf_set_table; [done|].
    exact (inserted_wf _ _ Htw _ _ _ _ Hu (clock_read_u64 _ _ _ Hclk) Hins). }
  assert (Hlen : payload_len m = zlen (msg_payload m)) by apply Hm.
  assert (Hmax : payload_len m < 2 ^ 63) by apply Hm.
  assert (H0 := zlen_nonneg (msg_payload m)).
  assert (Hel := encode_length _ (message_packet_wf _ Hm)).
  cbn [msg_packet pk_payload] in Hel. rewrite <- Hlen in Hel.
  cbv zeta. rewrite to_u64_id by size_lia.
  apply wp_bind, wp_quiet; [apply quiet_malloc|]. apply wp_malloc; [by eauto with bitchat| |].
  { intros w2 Hoom Hb2 Hs2. apply wp_ret. split; [by eauto with bitchat|].
    exists now, t. split_and!; try done; [by eauto with bitchat|]. left. split_and!; [done| |by eauto with bitchat].
    intros Hno. apply Hoom. by eauto with bitchat. }
  intros b w2 [Hbl _] Ha Hs2.
  apply wp_bind. eapply wp_lift; [apply serialize_encode; [done|size_lia]|].
  cbn [default]. rewrite bool_decide_eq_false_2 by (intros Hn; by apply Hn).
  rewrite drop_ge, (right_id_L [] (++)) by size_lia. rewrite <- Hel.
  apply wp_bind. eapply wp_mono; [apply wp_forward; by eauto with bitchat|].
  intros rc w3 [Hb3 Hf].
  apply wp_bind. eapply wp_mono; [apply wp_store; [done|by eauto with bitchat|done|done]|].
  intros _ w4 [Hb4 Hst]. apply (wp_free_only (addr b) w); [by eauto 6 with bitchat|].
  intros w5 Hi5 Hb5. split; [done|]. exists now, t.
  split_and!; try done; [by eauto 7 with bitchat|]. right. split; [done|].
  exists w2, rc, w3, w4. split_and!; by eauto with bitchat.
Qed.

(** The loop of the tick over an owned array. *)
Lemma wp_rebroadcast_loop r a pre rest w0 w :
  router_wf r -> ports_safe r -> heap_ok w0 ->
  contents a = pre ++ rest -> separate rest -> addr a ∉ blocks_of rest ->
  acquired ({[addr a]} ∪ blocks_of rest) w0 w ->
  wp (rebroadcast_loop r (Some a) (length rest) (zlen pre)) w (fun _ w' =>
    acquired {[addr a]} w0 w' /\
    resent r ((fun b => msg_packet (contents b)) <$> rest) w w').
Proof.
  intros Hwf Hp Hok. revert pre w. induction rest as [|b rest IH];
    intros pre w Hc Hsep Hna Ha; cbn [length rebroadcast_loop].
  - apply wp_ret. unfold blocks_of in Ha. cbn in Ha. rewrite union_empty_r_L in Ha.
    split; [done|]. apply resent_nil, idle_refl.
  - destruct Hsep as (Hm & Hd & Hdis & Hsep).
    assert (Hbl : blocks_of (b :: rest) = msg_blocks b ∪ blocks_of rest) by done.
    rewrite Hbl in Ha, Hna.
    apply wp_bind. eapply wp_lift.
    { rewrite Hc. apply (arr_get_ok _ _ b); [apply zlen_nonneg|].
      unfold zlen. rewrite Nat2Z.id. by apply list_lookup_middle. }
    apply wp_bind. eapply wp_mono; [apply wp_serialize_and_forward; by eauto with bitchat|].
    intros _ w1 [Hb1 Hrel]. apply wp_bind, wp_quiet; [apply quiet_destroy|].
    eapply (wp_destroy b _ w0); [done|done|by eapply acquired_balanced|set_solver|].
    intros w2 Hl2 Ha2 Hs2.
    replace (zlen pre + 1) with (zlen (pre ++ [b])) by zlen_lia.
    eapply wp_mono; [apply IH|].
    + by rewrite Hc, <- (assoc_L (++)).
    + done.
    + set_solver.
    + by replace ({[addr a]} ∪ blocks_of rest) with
        (({[addr a]} ∪ (msg_blocks b ∪ blocks_of rest)) ∖ msg_blocks b) by set_solver.
    + intros _ w3 [Ha3 Hres]. split; [done|]. cbn. by eapply resent_cons; [|split|].
Qed.

Lemma resent_idle r ps w w1 w2 : resent r ps w w1 -> idle w1 w2 -> resent r ps w w2.
Proof.
  induction 1; intros; [apply resent_nil|eapply resent_cons]; by eauto with bitchat.
Qed.

Lemma resent_set_last_sf_tick r n ps w w' :
  resent (set_last_sf_tick n r) ps w w' -> resent r ps w w'.
Proof. induction 1; [by apply resent_nil|by eapply resent_cons]. Qed.

Lemma wp_resend_pending r arr count w0 w :
  router_wf r -> ports_safe r -> heap_ok w0 ->
  acquired (array_blocks arr) w0 w -> array_wf arr count ->
  wp (rebroadcast_loop r arr (Z.to_nat count) 0;; c_free (addr <$> arr)) w (fun _ w' =>
    balanced w0 w' /\ resent r (array_packets arr) w w').
Proof.
  intros Hwf Hp Hok Ha Haw. apply wp_bind. destruct arr as [a|].
  - destruct Haw as (-> & Hsep & Hna). unfold zlen. rewrite Nat2Z.id.
    eapply wp_mono; [by apply (wp_rebroadcast_loop _ a [] (contents a) w0)|].
    intros _ w3 [Ha3 Hres]. cbn [fmap option_fmap option_map].
    apply wp_quiet; [apply quiet_free|].
    apply (wp_free_acquired (addr a) {[addr a]} w0); [done|set_solver|].
    intros w4 Hl4 Ha4 Hs4. rewrite difference_self in Ha4. apply acquired_nil in Ha4.
    split; [done|]. by eapply resent_idle; [|split].
  - cbn in Haw. subst count. apply wp_ret, wp_free_null. split; [by apply acquired_nil|].
    apply resent_nil, idle_refl.
Qed.

Lemma router_wf_set_last_sf_tick r n :
  router_wf r -> is_u64 n -> router_wf (set_last_sf_tick n r).
Proof. intros (?&?&?&?&_) Hn. repeat (split; [done|]). done. Qed.

Lemma wp_rebroadcast r w :
  router_wf r -> ports_safe r -> heap_ok w ->
  wp (rebroadcast r) w (fun r' w' =>
    balanced w w' /\ router_wf r' /\ ports_safe r' /\ rebroadcasted r w r' w').
Proof.
  intros Hwf Hp Hok. unfold rebroadcast, rebroadcasted.
  apply wp_bind, wp_quiet; [apply quiet_time|]. apply wp_time. intros now w1 Hb1 Hclk Hs1.
  assert (Hi1 : idle w w1) by by eauto with bitchat.
  destruct (storage r) as [s|] eqn:Hs; cbn [mbind option_bind].
  2: { apply wp_ret. split_and!; try done. by exists now, w1. }
  destruct (s_get_pending s) as [f|] eqn:Hf.
  2: { apply wp_ret. split_and!; try done. by exists now, w1. }
  destruct (bool_decide _ && bool_decide _) eqn:Hg.
  2: { apply wp_ret. split_and!; try done. exists now, w1. do 2 (split; [done|]). left.
       split; [|done]. intros [H1 H2].
       apply andb_false_iff in Hg as [Hg|Hg]; apply bool_decide_eq_false in Hg; lia. }
  apply andb_true_iff in Hg as [Hg1%bool_decide_eq_true Hg2%bool_decide_eq_true].
  assert (Hwf' : router_wf (set_last_sf_tick now r))
    by (apply router_wf_set_last_sf_tick; by eauto with bitchat).
  assert (Hss : StorageSafe s) by by apply Hp.
  assert (Hget := get_pending_safe f None w1 Hf ltac:(by eauto with bitchat) ltac:(done)).
  apply wp_val in Hget as ((rc & arr & count) & w2 & Hrun & Hpost).
  cbv zeta. apply wp_bind. unfold wp at 1. rewrite Hrun. apply wp_bind.
  assert (Hdue : resend_due r now) by (split; lia).
  case_bool_decide as Hrc.
  - destruct Hpost as [Ha Haw].
    eapply wp_mono; [apply (wp_resend_pending _ arr count w1); by eauto with bitchat|].
    intros _ w3 [Hb3 Hres]. apply wp_ret. split_and!; [by eauto with bitchat|done|done|].
    exists now, w1. do 2 (split; [done|]). right. split_and!; [done|done|].
    exists rc, arr, count, w2. rewrite bool_decide_eq_true_2 by done. split; [done|].
    by eapply resent_set_last_sf_tick.
  - apply wp_ret, wp_ret. split_and!; [by eauto with bitchat|done|done|].
    exists now, w1. do 2 (split; [done|]). right. split_and!; [done|done|].
    exists rc, arr, count, w2. by rewrite bool_decide_eq_false_2.
Qed.
End broadcasting.

(** ** Lemmas: the tick *)

Section ticking.
Context {W : Type} `{!HasOS W, !WorldInv W}.
Implicit Types (w : W) (r : bc_router W).

(** The router after an operation: the same wiring. *)
Definition same_wiring (r r' : bc_router W) : Prop :=
  transport r' = transport r /\ storage r' = storage r /\ config r' = config r /\
  local_pubkey r' = local_pubkey r /\ dedup_cap r' = dedup_cap r /\
  addr (dedup_table r') = addr (dedup_table r) /\
  peers r' = peers r /\ peer_count r' = peer_count r /\
  on_message r' = on_message r /\ on_message_userdata r' = on_message_userdata r.

Lemma received_wiring r d w rc r' w' : received r d w rc r' w' -> same_wiring r r'.
Proof. by destruct 1. Qed.

Lemma received_balanced r d w rc r' w' : received r d w rc r' w' -> balanced w w'.
Proof. by destruct 1. Qed.

Lemma ports_safe_wiring r r' : same_wiring r r' -> ports_safe r -> ports_safe r'.
Proof. unfold ports_safe. by intros (-> & -> & _ & _ & _ & _ & _ & _ & -> & _). Qed.

Lemma same_wiring_trans r1 r2 r3 : same_wiring r1 r2 -> same_wiring r2 r3 -> same_wiring r1 r3.
Proof. unfold same_wiring. intuition congruence. Qed.

Lemma polled_wiring recv r w r' w' : polled recv r w r' w' -> same_wiring r r'.
Proof.
  induction 1; [done|]. eapply same_wiring_trans; [by eapply received_wiring|done].
Qed.

(** With more fuel than datagrams the loop ends, having received each. *)
Lemma wp_recv_loop t recv fuel r buf sender w :
  TransportSafe t -> TransportBenign t -> t_recv t = Some recv ->
  router_wf r -> ports_safe r -> heap_ok w -> bytes_ok buf -> zlen buf = 4096 ->
  (inbound w < fuel)%nat ->
  wp (recv_loop recv fuel r buf sender) w (fun r' w' =>
    router_wf r' /\ same_wiring r r' /\ balanced w w' /\ polled recv r w r' w').
Proof.
  intros Hts Htb Hrecv. revert r buf sender w. induction fuel as [|fuel IH];
    intros r buf sender w Hwf Hp Hok Hbuf Hlen Hfuel; [lia|]. cbn [recv_loop].
  assert (H := recv_safe recv buf 4096 0 sender w Hrecv Hok Hbuf ltac:(done)).
  apply wp_val in H as ((rc & [buf1 out] & pk1) & w1 & Hrun & Hb & Hbuf1 & Hlen1 & Hout).
  apply wp_bind. unfold wp at 1. rewrite Hrun. cbn [fst snd].
  destruct (bool_decide _ && bool_decide _) eqn:Hgo.
  - apply andb_true_iff in Hgo as [->%bool_decide_eq_true Hpos%bool_decide_eq_true].
    destruct (Hout eq_refl) as [Hrange Hdec]. specialize (Hdec ltac:(lia)).
    apply wp_bind. eapply wp_mono.
    { apply wp_receive; [done|done|by eauto with bitchat|done|lia|lia|].
      eapply Htb; [done|apply Hok|..|done]. done. }
    intros [rc r'] w2 (r1 & -> & Hwf1 & Hrcv). cbn [default].
    assert (Hw := received_wiring _ _ _ _ _ _ Hrcv).
    assert (Hk := received_balanced _ _ _ _ _ _ Hrcv).
    assert (Hin : (inbound w2 < fuel)%nat).
    { assert (H := later_inbound _ _ (balanced_later _ _ Hk)). lia. }
    eapply wp_mono; [apply IH; try done|].
    + by eapply ports_safe_wiring.
    + by eauto with bitchat.
    + intros r2 w3 (Hwf2 & Hw2 & Hk2 & Hpoll). split_and!; [done| | |].
      * by eapply same_wiring_trans.
      * by eauto with bitchat.
      * eapply polled_step; [exact Hbuf|done|exact Hrun|lia|exact Hrcv|done].
  - apply wp_ret. split_and!; [done|done|done|].
    eapply polled_stop; [exact Hbuf|done|exact Hrun|]. apply andb_false_iff in Hgo as [Hg|Hg];
      apply bool_decide_eq_false in Hg; [by left|right; lia].
Qed.

Lemma wp_poll fuel r w :
  router_wf r -> ports_safe r -> heap_ok w ->
  (forall t, transport r = Some t -> TransportBenign t) -> (inbound w < fuel)%nat ->
  wp (match transport r ≫= t_recv with
      | None => mret r
      | Some recv =>
          buf ← stack_buffer 4096;
          sender ← stack_buffer BC_PUBKEY_SIZE;
          recv_loop recv fuel r buf sender
      end) w (fun r' w' =>
    router_wf r' /\ same_wiring r r' /\ balanced w w' /\
    match transport r ≫= t_recv with
    | None => r' = r /\ w' = w
    | Some recv => exists w1, idle w w1 /\ polled recv r w1 r' w'
    end).
Proof.
  intros Hwf Hp Hok Hben Hfuel. destruct (transport r) as [t|] eqn:Ht; cbn [mbind option_bind].
  2: { apply wp_ret. split_and!; (done || apply balanced_refl). }
  destruct (t_recv t) as [recv|] eqn:Hr.
  2: { apply wp_ret. split_and!; (done || apply balanced_refl). }
  apply wp_bind, wp_quiet; [apply quiet_indeterminate|]. apply wp_indeterminate. intros buf w1 [Hl Hb] Hb1 Hs1.
  apply wp_bind, wp_quiet; [apply quiet_indeterminate|]. apply wp_indeterminate. intros sender w2 _ Hb2 Hs2.
  assert (Hb12 : balanced w w2) by by eauto with bitchat.
  assert (Hts : TransportSafe t) by by apply Hp.
  assert (Hin := later_inbound _ _ (balanced_later _ _ Hb12)).
  eapply wp_mono; [apply (wp_recv_loop t); try done; [by apply Hben|by eauto with bitchat| |lia]|].
  { unfold zlen. rewrite Hl. done. }
  intros r' w3 (? & ? & Hk & ?). split_and!; try done.
  - by eauto with bitchat.
  - exists w2. split; [by eauto with bitchat|done].
Qed.

Lemma wp_evict_storage r w :
  ports_safe r -> heap_ok w ->
  wp (match storage r ≫= s_evict_expired with
      | None => mret tt
      | Some evict => evict (72 * 3600);; mret tt
      end) w (fun _ w' => balanced w w' /\
    match storage r ≫= s_evict_expired with
    | None => w' = w
    | Some f => exists rc, f (72 * 3600) w = Val (rc, w')
    end).
Proof.
  intros (_ & Hs & _) Hok. destruct (storage r) as [s|]; cbn [mbind option_bind].
  2: { by apply wp_ret; split; [apply balanced_refl|]. }
  specialize (Hs s eq_refl). destruct (s_evict_expired s) as [f|] eqn:Hf.
  2: { by apply wp_ret; split; [apply balanced_refl|]. }
  apply wp_bind. assert (H := evict_safe f (72 * 3600) w Hf Hok).
  apply wp_val in H as (rc & w' & Hrun & Hb). unfold wp. rewrite Hrun.
  split; [done|by exists rc].
Qed.

Lemma wp_tick fuel r w :
  router_wf r -> ports_safe r -> heap_ok w ->
  (forall t, transport r = Some t -> TransportBenign t) -> (inbound w < fuel)%nat ->
  wp (bc_router_tick fuel (Some r)) w (fun o w' =>
    exists r1, o = Some r1 /\ router_wf r1 /\ same_wiring r r1 /\ balanced w w' /\ ticked r w r1 w').
Proof.
  intros Hwf Hp Hok Hben Hfuel. unfold bc_router_tick.
  assert (Htw : table_wf (contents (dedup_table r)) (dedup_cap r)) by apply Hwf.
  apply wp_bind, wp_quiet; [apply quiet_dedup_evict|].
  apply wp_dedup_evict; [done|]. intros now w1 Hb1 Hclk Hs1. cbv zeta.
  set (r0 := set_table _ r).
  assert (Hwf0 : router_wf r0) by (apply router_wf_set_table; [done|by apply evicted_wf]).
  assert (Hin := later_inbound _ _ (balanced_later _ _ Hb1)).
  apply wp_bind. eapply wp_mono; [apply wp_poll; try done; [by eauto with bitchat|lia]|].
  intros r1 w2 (Hwf1 & Hw1 & Hk1 & Hpoll).
  assert (Hp1 : ports_safe r1) by by eapply (ports_safe_wiring r0).
  assert (Hok2 : heap_ok w2) by by eauto with bitchat.
  apply wp_bind. eapply wp_mono; [by apply wp_rebroadcast|].
  intros r2 w3 (Hb3 & Hwf2 & Hp2 & Hreb).
  assert (Hw2 : same_wiring r r2).
  { eapply (same_wiring_trans _ r1); [apply Hw1|]. unfold rebroadcasted in Hreb.
    destruct Hreb as (n & w' & _ & _ & Hreb). case_match; [|by destruct Hreb as [-> _]].
    destruct Hreb as [(_ & -> & _)|(_ & -> & _)]; done. }
  assert (Hst : storage r2 = storage r) by apply Hw2.
  apply wp_bind. eapply wp_mono; [apply wp_evict_storage; by eauto with bitchat|].
  intros _ w4 [Hb4 Hev]. apply wp_ret. exists r2. split_and!; [done|done|done| |].
  - by eauto 6 with bitchat.
  - rewrite Hst in Hev. unfold ticked. change (transport r) with (transport r0).
    destruct (transport r0 ≫= t_recv) as [recv|].
    + destruct Hpoll as (w1' & Hl & Hpoll). exists now, r1, w1', w2, r2, w3.
      split_and!; try done; by eauto with bitchat.
    + destruct Hpoll as [-> ->]. exists now, r0, w1, w1, r2, w3.
      split_and!; try done; by eauto with bitchat.
Qed.
End ticking.

(** ** Lemmas: the peer table *)

Section peer_table.
Context {W : Type} `{!HasOS W, !WorldInv W}.
Implicit Types (w : W) (r : bc_router W).

Lemma router_wf_set_peers r ps n :
  router_wf r -> peer_table_wf ps n -> router_wf (set_peers ps n r).
Proof. intros (?&?&_&?&?) Hn. by repeat (split; [done|]). Qed.

Lemma set_peers_self r : set_peers (peers r) (peer_count r) r = r.
Proof. by destruct r. Qed.

Lemma quiet_add_peer o p : quiet (bc_router_add_peer (W := W) o p).
Proof. unfold bc_router_add_peer, bc_peer_touch. solve_quiet. Qed.

Lemma wp_add_peer r p w :
  router_wf r -> peer_wf p ->
  wp (bc_router_add_peer (Some r) (Some p)) w (fun o w' =>
    balanced w w' /\ silent w w' /\
    exists ps n now, o = Some (set_peers ps n r) /\ router_wf (set_peers ps n r) /\
      (peer_pubkey p ∈ peer_pubkey <$> known_peers r -> clock_read w w' now) /\
      known_peers (set_peers ps n r) = upsert_peer (known_peers r) p now).
Proof.
  intros Hwf Hp. assert (Hpt : peer_table_wf (peers r) (peer_count r)) by apply Hwf.
  assert (Hkl := table_peers_length _ _ Hpt). fold (known_peers r) in Hkl.
  assert (Hlen : zlen (peers r) = BC_MAX_PEERS) by apply Hpt.
  assert (Hc : 0 <= peer_count r <= BC_MAX_PEERS) by apply Hpt.
  apply wp_quiet; [apply quiet_add_peer|]. unfold bc_router_add_peer, upsert_peer.
  destruct (peer_table_find _ _ (peer_pubkey p) Hpt) as (o & Ho & Hspec); [apply Hp|].
  apply wp_bind, (wp_lift _ _ _ _ Ho). destruct o as [i|].
  - destruct Hspec as [Hi (q & Hq & Hqk)].
    apply wp_bind, wp_peer_touch. intros now w' Hb Hclk. cbn [default from_option].
    apply wp_bind. eapply wp_lift; [apply arr_set_ok; lia|]. apply wp_ret. intros Hs.
    destruct (peer_table_update _ _ (Z.to_nat i) q
      (mkPeer (peer_pubkey p) now (peer_transport p) (rssi p)) Hpt) as [Hwf1 Hkn];
      [|done|exact Hqk|].
    { destruct Hp as (? & ? & ?). split; [done|]. split; [by eauto with bitchat|done]. }
    split; [done|]. split; [done|]. eexists _, _, now. split; [done|].
    split; [by apply router_wf_set_peers|]. split; [done|]. etransitivity; [exact Hkn|].
    rewrite bool_decide_eq_true_2 by (rewrite <- Hqk; apply list_elem_of_fmap_2;
      by eapply list_elem_of_lookup_2).
    symmetry. by apply (fmap_entry _ _ _ q); [apply Hpt|..].
  - rewrite (bool_decide_eq_false_2 (_ ∈ _)) by done. rewrite Hkl.
    case_bool_decide as Hroom.
    + apply wp_bind. eapply wp_lift; [apply arr_set_ok; lia|]. apply wp_ret. intros Hs.
      destruct (peer_table_append _ _ p Hpt) as [Hwf1 Hkn]; try done.
      split; [apply balanced_refl|]. split; [done|]. eexists _, _, (last_seen p). split; [done|].
      split; [by apply router_wf_set_peers|]. split; [done|exact Hkn].
    + apply wp_ret. intros Hs. split; [apply balanced_refl|]. split; [done|].
      exists (peers r), (peer_count r), (last_seen p). rewrite set_peers_self. by split_and!.
Qed.
End peer_table.

(** ** Lemmas: the life of a router *)

Section life.
Context {W : Type} `{!HasOS W, !WorldInv W}.
Implicit Types (w : W) (r : bc_router W).

(** The constructor's router is well-formed. *)
Lemma created_wf t s pk cfg blk_t :
  bytes_n 32 pk -> 0 < cfg_dedup_cap cfg < 2 ^ 59 -> is_u8 (fanout cfg) ->
  router_wf (W := W) (mkRouter t s cfg pk
    (Box blk_t (replicate (Z.to_nat (cfg_dedup_cap cfg)) zero_entry)) (cfg_dedup_cap cfg)
    (replicate (Z.to_nat BC_MAX_PEERS) zero_peer) 0 None 0 0).
Proof.
  intros Hpk Hcap Hf. unfold router_wf. cbn [contents dedup_table dedup_cap local_pubkey peers
    peer_count config last_sf_tick fanout]. split_and!; try done.
  - unfold table_wf. split_and!; try lia; [zlen_lia|]. apply Forall_replicate.
    unfold entry_wf. apply (bool_decide_unpack _). vm_compute. exact I.
  - apply peer_table_empty.
Qed.

(** The two blocks of a router. *)
Definition router_blocks (b : box (bc_router W)) : gset blk :=
  {[addr b; addr (dedup_table (contents b))]}.

Lemma wp_router_create t s pk cfg w :
  heap_ok w -> bytes_n 32 pk ->
  (forall c, cfg = Some c -> 0 < cfg_dedup_cap c < 2 ^ 59 /\ is_u8 (fanout c)) ->
  wp (bc_router_create t s (Some pk) cfg) w (fun o w' =>
    match o with
    | None => balanced w w' /\ ~ never_oom w
    | Some b =>
        router_wf (contents b) /\ addr b <> addr (dedup_table (contents b)) /\
        acquired (router_blocks b) w w' /\
        transport (contents b) = t /\ storage (contents b) = s /\
        config (contents b) = default default_config cfg /\ local_pubkey (contents b) = pk /\
        peer_count (contents b) = 0 /\ on_message (contents b) = None
    end).
Proof.
  intros Hok Hpk Hcfg. unfold bc_router_create.
  apply wp_bind, wp_alloc; [done|by intros; apply wp_ret|]. intros b1 w1 Ha1.
  apply wp_bind. eapply wp_lift.
  { apply mem_read_all. unfold zlen. by rewrite (proj1 Hpk). }
  cbv zeta. apply wp_bind, wp_alloc; [by eauto with bitchat| |].
  { intros w2 Hoom Hb2. apply (wp_free_only b1 w); [by eauto with bitchat|].
    intros w3 _ Hb3. split; [done|]. intros Hno. apply Hoom. by eauto with bitchat. }
  intros b2 w2 Ha2. apply wp_ret. unfold router_blocks. cbn [contents addr dedup_table config local_pubkey].
  assert (Hdis := acquired_disjoint _ _ _ _ _ Ha1 Ha2).
  assert (Ha := acquired_union _ _ _ _ _ Ha1 Ha2). rewrite (union_comm_L {[b2]}) in Ha.
  split_and!; try done; [|set_solver].
  destruct cfg as [c|]; apply created_wf; try done; by destruct (Hcfg c eq_refl).
Qed.

Lemma wp_router_destroy b w :
  addr b <> addr (dedup_table (contents b)) -> router_blocks b ⊆ owned w ->
  wp (bc_router_destroy (Some b)) w (fun _ w' => released (router_blocks b) w w').
Proof.
  unfold router_blocks. intros Hne Hsub. apply wp_bind, wp_free_owned; [set_solver|].
  intros w1 Hr1. apply wp_free_owned; [destruct Hr1 as [_ ->]; set_solver|].
  intros w2 Hr2. rewrite union_comm_L. by eapply released_trans.
Qed.
End life.
