(* ===== verification/RouterProps.v ===== *)
(** * RouterProps: the properties of the gossip engine

    The router's operations refine their specification against any adapters
    that keep the contracts of [Ports]; the witnesses wire it to the UDP and
    the SQLite adapters. *)
From S2P Require Import Prelude Effects Errors Sodium Message Peer Ports Sockets World.
From S2P Require Import UdpTransport Sqlite SqliteStorage SqliteStorageSpec SqliteStorageProps Dedup Router RouterSpec.

(** ** Lemmas *)

Section lemmas.
Context {W : Type} `{!HasOS W, !WorldInv W}.
Implicit Types (w : W) (r : bc_router W).

(** A datagram that was accepted, refused for its age or seen before leaves its
    uuid in the table. *)
Lemma received_seen r d w rc r1 w1 p :
  router_wf r -> decode d = Some p -> received r d w rc r1 w1 -> rc <> BC_ERR_INVALID ->
  reachable (contents (dedup_table r1)) (dedup_cap r1) (pk_uuid p).
Proof.
  intros (Ht & _) Hd Hr Hrc.
  destruct Hr as [? ?|? ?|? ? Hd' Hre|? ? ? ? Hd' ? Hins|? ? ? ? ? ? ? Hd' ? Hins
    |? ? ? ? ? ? ? ? ? Hd' ? Hins]; try done; rewrite Hd in Hd'; injection Hd' as <-; [done|..];
    exact (inserted_reachable _ _ Ht _ _ _ _ Hins).
Qed.

Lemma received_heap_ok r d w rc r1 w1 : heap_ok w -> received r d w rc r1 w1 -> heap_ok w1.
Proof. intros Hok Hr. apply received_balanced in Hr. eauto with bitchat. Qed.

(** A datagram whose uuid is in the table is dropped. *)
Lemma received_duplicate r d w rc r1 w1 p :
  decode d = Some p -> reachable (contents (dedup_table r)) (dedup_cap r) (pk_uuid p) ->
  received r d w rc r1 w1 ->
  (rc = BC_ERR_DUPLICATE \/ (rc = BC_ERR_INVALID /\ ~ never_oom w)) /\ r1 = r /\
  silent w w1 /\ balanced w w1.
Proof.
  intros Hd Hre Hr.
  destruct Hr as [? Hd'|? ? Hd' ?|? ? Hd' ?|? ? ? ? Hd' Hnr|? ? ? ? ? ? ? Hd' Hnr
    |? ? ? ? ? ? ? ? ? Hd' Hnr]; rewrite Hd in Hd'; try done; injection Hd' as <-; try done;
    split_and!; by auto.
Qed.

End lemmas.

(** ** Lemmas: forwarding over UDP *)

Section udp_forwarding.
Context {W : Type} `{!HasOS W, !HasNet W}.
Implicit Types (w : W) (r : bc_router W).

(** [k] broadcasts of [data]. *)
Definition copies (k : nat) (data ports : list Z) : list (Z * list Z) :=
  concat (replicate k (to_ports data ports)).

Lemma udp_send_up ctx key data w :
  udp_ctx_wf ctx -> zlen data < 2 ^ 63 -> data <> [] -> ctx_ports ctx <> [] ->
  net_up (sockfd ctx) w ->
  exists w', udp_send ctx key data (zlen data) w = Val (BC_OK, w') /\ net_up (sockfd ctx) w' /\
    n_sent (get_net w') = n_sent (get_net w) ++ to_ports data (ctx_ports ctx).
Proof.
  intros Hwf Hl Hd Hp Hup. unfold udp_send.
  rewrite bool_decide_eq_false_2 by (destruct data; [done|zlen_lia]).
  assert (Hc : udp_peer_count ctx = zlen (ctx_ports ctx)) by apply Hwf.
  assert (Hc0 := zlen_nonneg (ctx_ports ctx)).
  destruct (udp_send_loop_spec ctx data (Z.to_nat (udp_peer_count ctx)) 0 0 w)
    as (any & w' & acc & Hrun & (_ & Hsent & _ & Hacc) & ->); [done|done|lia|lia|].
  destruct (Hacc Hup) as [-> Hup']. rewrite (bind_val _ _ _ _ _ Hrun).
  rewrite drop_0 in *. rewrite (bool_decide_eq_false_2 (ctx_ports ctx = [])) by done.
  by exists w'.
Qed.

Lemma udp_forward_loop ctx ps f data n i sent w :
  udp_ctx_wf ctx -> zlen data < 2 ^ 63 -> data <> [] -> ctx_ports ctx <> [] ->
  net_up (sockfd ctx) w -> 0 <= i -> i + Z.of_nat n <= zlen ps ->
  exists w', let k := Z.max 0 (Z.min (Z.of_nat n) (f - sent)) in
    forward_loop (udp_send ctx) ps f data (zlen data) n i sent w = Val (sent + k, w') /\
    n_sent (get_net w') = n_sent (get_net w) ++ copies (Z.to_nat k) data (ctx_ports ctx).
Proof.
  intros Hwf Hl Hd Hp. revert i sent w. induction n as [|n IH]; intros i sent w Hup Hi Hn;
    cbn [forward_loop].
  { exists w. replace (Z.max _ _) with 0 by lia. unfold copies. cbn.
    by rewrite Z.add_0_r, app_nil_r. }
  case_bool_decide as Hf.
  2: { exists w. replace (Z.max _ _) with 0 by lia. unfold copies. cbn.
       by rewrite Z.add_0_r, app_nil_r. }
  destruct (arr_get_in_range ps i) as (p & _ & Hget); [lia|].
  rewrite (bind_val _ _ _ _ _ (lift_val _ _ w Hget)).
  destruct (udp_send_up ctx (peer_pubkey p) data w) as (w1 & Hs & Hup1 & Hsent); try done.
  rewrite (bind_val _ _ _ _ _ Hs). rewrite bool_decide_eq_true_2 by done.
  destruct (IH (i + 1) (sent + 1) w1) as (w2 & Hrun & Hsent2); [done|lia|lia|].
  exists w2. cbv zeta in *. rewrite Hrun. split; [f_equal; f_equal; lia|].
  rewrite Hsent2, Hsent, <- (assoc_L (++)). f_equal. unfold copies.
  replace (Z.to_nat (Z.max 0 (Z.min (Z.of_nat (S n)) (f - sent)))) with
    (S (Z.to_nat (Z.max 0 (Z.min (Z.of_nat n) (f - (sent + 1)))))) by lia. done.
Qed.
End udp_forwarding.

(** ** Properties *)

Section properties.
Context {W : Type} `{!HasOS W, !WorldInv W}.
Implicit Types (w : W) (r : bc_router W).

(** C1: receiving a datagram refines the gossip specification on every branch,
    for a datagram of less than 2^31 bytes whose length field does not wrap the
    32-bit bounds test of the parser ([length_field_safe]; a field that does is
    the undefined behaviour of [deserialize_length_wraps]).  For any well-formed
    router and any adapters and callback that keep their contracts,
    [bc_router_receive] is then defined, returns, keeps the router
    well-formed and does exactly one of: refuse (not a packet, or out of
    memory), drop a duplicate without any effect, record and drop a packet with
    TTL 0, deliver the packet once to the callback, or store it once and
    forward it with its TTL decremented - and every block it took is freed. *)
Theorem receive_refines r data len w :
  router_wf r -> ports_safe r -> heap_ok w -> bytes_ok data ->
  0 < len <= zlen data -> len < 2 ^ 31 -> length_field_safe data len ->
  wp (bc_router_receive (Some r) (Some data) len) w (fun '(rc, r') w' =>
    exists r1, r' = Some r1 /\ router_wf r1 /\ same_wiring r r1 /\ balanced w w' /\
      received r (take (Z.to_nat len) data) w rc r1 w').
Proof.
  intros. eapply wp_mono; [by apply wp_receive|]. intros [rc r'] w' (r1 & -> & Hwf & Hr).
  exists r1. split_and!; try done; [by eapply received_wiring|].
  by eapply received_balanced.
Qed.

(** C12: gossip does not loop through a node.  Suppose the router receives a
    datagram and answers anything but [BC_ERR_INVALID], and the next datagram
    handed to it, at any later time and in whatever state the network and the
    storage are by then, carries the same message id (the same bytes, or a copy
    that came by another route with another TTL).  Then that datagram is dropped
    as a duplicate, or refused when memory runs out while it is parsed: no
    delivery, no storage, no forwarding, the router unchanged and every block
    freed.  Both datagrams must be shorter than 2^31 bytes with a length field
    that does not wrap the bounds test, and no other call of the router comes
    between the two. *)
Theorem receive_twice_is_duplicate r data len data2 len2 w :
  router_wf r -> ports_safe r -> heap_ok w ->
  bytes_ok data -> 0 < len <= zlen data -> len < 2 ^ 31 -> length_field_safe data len ->
  bytes_ok data2 -> 0 < len2 <= zlen data2 -> len2 < 2 ^ 31 -> length_field_safe data2 len2 ->
  pk_uuid <$> decode (take (Z.to_nat len2) data2) = pk_uuid <$> decode (take (Z.to_nat len) data) ->
  wp (bc_router_receive (Some r) (Some data) len) w (fun '(rc1, o1) w1 =>
    exists r1, o1 = Some r1 /\ received r (take (Z.to_nat len) data) w rc1 r1 w1 /\
      (rc1 <> BC_ERR_INVALID -> forall w2, heap_ok w2 ->
       wp (bc_router_receive (Some r1) (Some data2) len2) w2 (fun '(rc2, o2) w3 =>
         (rc2 = BC_ERR_DUPLICATE \/ (rc2 = BC_ERR_INVALID /\ ~ never_oom w2)) /\
         o2 = Some r1 /\ silent w2 w3 /\ balanced w2 w3))).
Proof.
  intros Hwf Hp Hok Hb Hlen Hmax Hsafe Hb2 Hlen2 Hmax2 Hsafe2 Hid.
  eapply wp_mono; [by apply wp_receive|]. intros [rc1 o1] w1 (r1 & -> & Hwf1 & Hr1).
  exists r1. split; [done|]. split; [done|]. intros Hrc w2 Hok2.
  assert (Hw1 := received_wiring _ _ _ _ _ _ Hr1).
  eapply wp_mono; [apply wp_receive; try done; by eapply ports_safe_wiring|].
  intros [rc2 o2] w3 (r2 & -> & Hwf2 & Hr2).
  destruct (decode (take (Z.to_nat len) data)) as [p|] eqn:Hd; [|by destruct Hr1; congruence].
  destruct (decode (take (Z.to_nat len2) data2)) as [p2|] eqn:Hd2; [|done]. injection Hid as Hid.
  assert (Hre := received_seen _ _ _ _ _ _ _ Hwf Hd Hr1 Hrc). rewrite <- Hid in Hre.
  by destruct (received_duplicate _ _ _ _ _ _ _ Hd2 Hre Hr2) as (Hcode & -> & Hsil & Hbal).
Qed.

(** C19: broadcasting refines "mark, forward, store": the message's uuid is
    recorded as seen, its encoding is offered to the known peers under the
    fan-out rule and the message is offered to the storage whatever the sends
    answered; the call fails only for lack of memory, and frees its buffer on
    every path. *)
Theorem broadcast_refines r m w :
  router_wf r -> ports_safe r -> heap_ok w -> message_wf m -> payload_len m < 2 ^ 31 ->
  wp (bc_router_broadcast (Some r) (Some m)) w (fun '(rc, r') w' =>
    balanced w w' /\
    exists now t, clock_read w w' now /\
      inserted (contents (dedup_table r)) (dedup_cap r) (dedup_max_age (config r)) now (uuid m) t /\
      r' = Some (set_table t r) /\ router_wf (set_table t r) /\
      ((rc = BC_ERR_NOMEM /\ ~ never_oom w /\ silent w w') \/
       (rc = BC_OK /\ exists w1 frc w2 w3, idle w w1 /\
          forwarded r (encode (msg_packet m)) w1 frc w2 /\
          stored r m w2 w3 /\ idle w3 w'))).
Proof. apply wp_broadcast. Qed.

(** A node ignores its own messages when the mesh echoes them: after
    [bc_router_broadcast m], receiving the encoding of [m] is a duplicate: the
    router is unchanged, nothing is sent, stored or delivered. *)
Theorem broadcast_echo_dropped r m w :
  router_wf r -> ports_safe r -> heap_ok w -> never_oom w -> message_wf m ->
  payload_len m < 2 ^ 30 ->
  wp ('(rc1, r1) ← bc_router_broadcast (Some r) (Some m);
      '(rc2, r2) ← bc_router_receive r1 (Some (encode (msg_packet m)))
                     (zlen (encode (msg_packet m)));
      mret (rc1, r1, rc2, r2)) w (fun '(rc1, o1, rc2, o2) w2 =>
    rc1 = BC_OK /\ rc2 = BC_ERR_DUPLICATE /\ o2 = o1 /\ balanced w w2 /\
    exists w1, bc_router_broadcast (Some r) (Some m) w = Val ((rc1, o1), w1) /\ silent w1 w2).
Proof.
  intros Hwf Hp Hok Hno Hm Hlen. apply wp_bind.
  destruct (proj1 (wp_val _ _ _) (wp_broadcast r m w Hwf Hp Hok Hm ltac:(lia)))
    as ([rc1 o1] & w1 & Hrun & Hb1 & now & t & Hclk & Hins & -> & Hwf1 & Hcase).
  unfold wp at 1. rewrite Hrun.
  assert (Hpw := message_packet_wf _ Hm). assert (Hel := encode_length _ Hpw).
  assert (Hpl : payload_len m = zlen (msg_payload m)) by apply Hm.
  cbn [msg_packet pk_payload] in Hel. rewrite <- Hpl in Hel.
  change BC_MESSAGE_HEADER_SIZE with 93 in Hel.
  assert (H0 := zlen_nonneg (msg_payload m)).
  assert (Hdec : decode (encode (msg_packet m)) = Some (msg_packet m)).
  { assert (Hde := decode_encode (msg_packet m) [] Hpw). rewrite app_nil_r in Hde.
    apply Hde. cbn. lia. }
  apply wp_bind. eapply wp_mono.
  { apply wp_receive; [done|by apply ports_safe_set_table|by eauto with bitchat
      |by apply encode_bytes|lia|lia|]. right. right.
    assert (Hlf := encode_length_field (msg_packet m) [] Hpw). rewrite app_nil_r in Hlf.
    cbn [msg_packet pk_payload] in Hlf. rewrite Hlf by lia.
    change BC_MESSAGE_HEADER_SIZE with 93. lia. }
  intros [rc2 o2] w2 (r2 & -> & Hwf2 & Hr2). rewrite take_ge in Hr2 by zlen_lia.
  assert (Hre := inserted_reachable _ _ (proj1 Hwf) _ _ _ _ Hins).
  assert (Hno1 : never_oom w1) by by eauto with bitchat.
  destruct (received_duplicate (set_table t r) _ _ _ _ _ _ Hdec Hre Hr2) as ([->|[_ ?]] & -> & Hs2 & Hb2); [|done].
  apply wp_ret. destruct Hcase as [(_ & ? & _)|[-> _]]; [done|].
  split_and!; try done; [by eauto with bitchat|by exists w1].
Qed.

(** Forwarding respects the fan-out: the peers are tried in table order, an
    initial segment of the table, until [fanout] sends have succeeded or the
    table ends, so at most [fanout] copies leave through successful sends and a
    peer behind a failed one still gets its chance; the code is [BC_OK] exactly
    when some send succeeded. *)
Theorem forward_respects_fanout r data w :
  router_wf r -> ports_safe r -> heap_ok w ->
  wp (forward_to_peers r data (zlen data)) w (fun rc w' =>
    balanced w w' /\ forwarded r data w rc w').
Proof. apply wp_forward. Qed.

(** C36: the peer table refines an association list of distinct keys: adding a
    known peer replaces its entry by the new data, with the time that the clock
    answered during the call, and keeps the order, adding a new one appends it while there are fewer than 64,
    and a full table is left as it was; the rest of the router is unchanged. *)
Theorem add_peer_refines_upsert r p w :
  router_wf r -> peer_wf p ->
  wp (bc_router_add_peer (Some r) (Some p)) w (fun o w' =>
    balanced w w' /\ silent w w' /\
    exists ps n now, o = Some (set_peers ps n r) /\ router_wf (set_peers ps n r) /\
      (peer_pubkey p ∈ peer_pubkey <$> known_peers r -> clock_read w w' now) /\
      known_peers (set_peers ps n r) = upsert_peer (known_peers r) p now).
Proof. apply wp_add_peer. Qed.

(** C2: the maintenance tick terminates and refines its four steps, over a
    transport that hands over only datagrams whose length field does not wrap
    the bounds test of the parser ([TransportBenign]) and any safe storage and
    callback: with any fuel above the number of datagrams the network still
    delivers, it evicts
    expired ids, receives every datagram the transport hands over in order,
    forwards each stored message once when the 3-second rate limit allows, lets
    the storage evict, keeps the router well-formed and its wiring, and frees
    everything it allocated (what the callback keeps belongs to the world's
    own state). *)
Theorem tick_refines fuel r w :
  router_wf r -> ports_safe r -> heap_ok w ->
  (forall t, transport r = Some t -> TransportBenign t) -> (inbound w < fuel)%nat ->
  wp (bc_router_tick fuel (Some r)) w (fun o w' =>
    exists r1, o = Some r1 /\ router_wf r1 /\ same_wiring r r1 /\ balanced w w' /\ ticked r w r1 w').
Proof. apply wp_tick. Qed.

(** A long message is sent but never received: the tick reads datagrams into
    4096 bytes, the adapter cuts longer ones, and what is left of the encoding
    of a packet with more than 4003 bytes of payload is refused, whatever the
    router's state. *)
Theorem oversized_is_refused r p w :
  router_wf r -> ports_safe r -> heap_ok w -> packet_wf p ->
  4096 - BC_MESSAGE_HEADER_SIZE < zlen (pk_payload p) < 2 ^ 31 ->
  wp (bc_router_receive (Some r) (Some (take 4096 (encode p))) 4096) w (fun '(rc, r') w' =>
    rc = BC_ERR_INVALID /\ r' = Some r /\ silent w w' /\ balanced w w').
Proof.
  change (4096 - BC_MESSAGE_HEADER_SIZE) with 4003. intros Hwf Hps Hok Hp Hl.
  assert (Hel := encode_length _ Hp). change BC_MESSAGE_HEADER_SIZE with 93 in Hel.
  assert (Ht : zlen (take 4096 (encode p)) = 4096) by (unfold zlen in *; rewrite length_take; lia).
  assert (Hlf := encode_length_field p [] Hp). rewrite app_nil_r in Hlf.
  assert (Hf : length_field (take 4096 (encode p)) = zlen (pk_payload p)).
  { rewrite <- (app_nil_r (take 4096 (encode p))), length_field_front;
      [apply Hlf; lia|lia|unfold zlen in Ht; lia]. }
  assert (Hd : decode (take 4096 (encode p)) = None).
  { unfold decode. rewrite bool_decide_eq_true_2; [done|]. left. rewrite Hf, Ht.
    change BC_MESSAGE_HEADER_SIZE with 93. lia. }
  eapply wp_mono.
  { apply wp_receive; try done; [by apply bytes_ok_take, encode_bytes|lia|].
    right. left. rewrite Hf. change BC_MESSAGE_HEADER_SIZE with 93. lia. }
  intros [rc o] w' (r1 & -> & _ & Hr). rewrite take_take, Nat.min_id in Hr.
  destruct Hr; by try congruence.
Qed.

(** A router is created well-formed, with an empty table of the configured
    size, no peers and no callback, owning exactly two blocks, and
    [bc_router_destroy] gives both back; when either allocation fails the call
    returns NULL and keeps nothing. *)
Theorem router_create_destroy t s pk cfg w :
  heap_ok w -> bytes_n 32 pk ->
  (forall c, cfg = Some c -> 0 < cfg_dedup_cap c < 2 ^ 59 /\ is_u8 (fanout c)) ->
  wp (bc_router_create t s (Some pk) cfg) w (fun o w' =>
    match o with
    | None => balanced w w' /\ ~ never_oom w
    | Some b =>
        router_wf (contents b) /\ known_peers (contents b) = [] /\
        config (contents b) = default default_config cfg /\ local_pubkey (contents b) = pk /\
        acquired {[addr b; addr (dedup_table (contents b))]} w w' /\
        wp (bc_router_destroy (Some b)) w' (fun _ w'' => balanced w w'')
    end).
Proof.
  intros Hok Hpk Hcfg. eapply wp_mono; [by apply wp_router_create|].
  intros [b|] w' Hc; [|done]. destruct Hc as (Hwf & Hne & Ha & _ & _ & Hcfg' & Hlp & Hp & _).
  split_and!; [done| |done|done|done|].
  - unfold known_peers, table_peers. by rewrite Hp.
  - eapply wp_mono; [apply wp_router_destroy; [done|destruct Ha as (_ & -> & _); set_solver]|].
    intros [] w2 Hr. apply acquired_nil.
    replace (∅ : gset blk) with (router_blocks b ∖ router_blocks b) by set_solver.
    by apply (acquired_released _ _ _ _ _ Ha Hr).
Qed.
End properties.

(** Over the UDP adapter the fan-out multiplies instead of limiting: every
    "send to a peer" is a broadcast to all configured ports, so while the
    network is up forwarding one message sends min(fanout, peers) copies to
    each and every port, whichever peer was meant. *)
Theorem udp_forward_multiplies {W} `{!HasOS W, !HasNet W} (w : W) r ctx data :
  router_wf r -> transport r = Some (udp_transport ctx) -> udp_ctx_wf (contents ctx) ->
  ctx_ports (contents ctx) <> [] -> data <> [] -> zlen data < 2 ^ 63 ->
  net_up (sockfd (contents ctx)) w ->
  let k := Z.min (fanout (config r)) (peer_count r) in
  exists w', forward_to_peers r data (zlen data) w =
      Val (if bool_decide (k > 0) then BC_OK else BC_ERR_TRANSPORT, w') /\
    n_sent (get_net w') =
      n_sent (get_net w) ++ copies (Z.to_nat k) data (ctx_ports (contents ctx)).
Proof.
  intros (_ & _ & (Hl & Hc & _) & Hf & _) Ht Hwf Hp Hd Hlen Hup k.
  unfold forward_to_peers. rewrite Ht. cbn [mbind option_bind udp_transport t_send].
  destruct (udp_forward_loop (contents ctx) (peers r) (fanout (config r)) data
    (Z.to_nat (peer_count r)) 0 0 w) as (w' & Hrun & Hsent); try done; [lia|].
  exists w'. cbv zeta in *. unfold is_u8 in Hf.
  replace (Z.max _ _) with k in * by (unfold k; lia).
  rewrite (bind_val _ _ _ _ _ Hrun). done.
Qed.

(** ** Witnesses: a router over the UDP and the SQLite adapters *)

Definition demo_packet : list Z := encode (msg_packet (demo_message 5)).

Definition demo_node : world db_view :=
  demo_world 9 [(9000, demo_packet)] (demo_db [demo_row]).

Definition demo_router : bc_router (world db_view) :=
  mkRouter (Some (udp_transport (Box 1%nat demo_ctx)))
    (Some (sqlite_storage 3%nat (Box 2%nat demo_sql_ctx)))
    (mkConfig 3 4 600) (replicate 32 9) (Box 5%nat (replicate 4 zero_entry)) 4
    (synthetic_peer 9001 :: replicate 63 zero_peer) 1 None 0 0.

Lemma demo_router_wf : router_wf demo_router.
Proof. apply (bool_decide_unpack _). vm_compute. exact I. Qed.

Lemma demo_ports_safe : ports_safe demo_router.
Proof.
  split_and!.
  - intros t [= <-]. apply udp_safe, demo_ctx_wf.
  - intros s [= <-]. by apply (sqlite_safe demo_sql_ctx).
  - intros f [= ].
Qed.

Lemma demo_node_ok : heap_ok demo_node /\ never_oom demo_node.
Proof.
  destruct (demo_world_ok 9 [(9000, demo_packet)] (demo_db [demo_row])) as (? & ? & _); [| |done|done].
  - constructor; [|constructor]. right. vm_compute. reflexivity.
  - apply demo_db_ok, demo_rows_wf.
Qed.

Lemma demo_packet_ok : bytes_ok demo_packet /\ length_field_safe demo_packet 98.
Proof.
  split; [apply (bool_decide_unpack _); vm_compute; exact I|].
  right. left. vm_compute. reflexivity.
Qed.

Lemma demo_message_wf : message_wf (demo_message 5).
Proof. apply (bool_decide_unpack _). vm_compute. exact I. Qed.

Lemma receive_refines_witness :
  wp (bc_router_receive (Some demo_router) (Some demo_packet) 98) demo_node (fun '(rc, r') w' =>
    exists r1, r' = Some r1 /\ router_wf r1 /\ same_wiring demo_router r1 /\
      balanced demo_node w' /\
      received demo_router (take 98 demo_packet) demo_node rc r1 w').
Proof.
  apply (receive_refines demo_router demo_packet 98 demo_node).
  - exact demo_router_wf.
  - exact demo_ports_safe.
  - apply demo_node_ok.
  - apply demo_packet_ok.
  - vm_compute. split; [reflexivity|discriminate].
  - reflexivity.
  - apply demo_packet_ok.
Defined.

(** The same message, come by another route: one hop more. *)
Definition demo_copy : list Z := <[16%nat := 4]> demo_packet.

Lemma demo_copy_ok : bytes_ok demo_copy /\ length_field_safe demo_copy 98.
Proof.
  split; [apply (bool_decide_unpack _); vm_compute; exact I|].
  right. left. vm_compute. reflexivity.
Qed.

Lemma receive_twice_is_duplicate_witness :
  wp (bc_router_receive (Some demo_router) (Some demo_packet) 98) demo_node (fun '(rc1, o1) w1 =>
    exists r1, o1 = Some r1 /\ received demo_router (take 98 demo_packet) demo_node rc1 r1 w1 /\
      (rc1 <> BC_ERR_INVALID -> forall w2, heap_ok w2 ->
       wp (bc_router_receive (Some r1) (Some demo_copy) 98) w2 (fun '(rc2, o2) w3 =>
         (rc2 = BC_ERR_DUPLICATE \/ (rc2 = BC_ERR_INVALID /\ ~ never_oom w2)) /\
         o2 = Some r1 /\ silent w2 w3 /\ balanced w2 w3))).
Proof.
  apply (receive_twice_is_duplicate demo_router demo_packet 98 demo_copy 98 demo_node).
  - exact demo_router_wf.
  - exact demo_ports_safe.
  - apply demo_node_ok.
  - apply demo_packet_ok.
  - vm_compute. split; [reflexivity|discriminate].
  - reflexivity.
  - apply demo_packet_ok.
  - apply demo_copy_ok.
  - vm_compute. split; [reflexivity|discriminate].
  - reflexivity.
  - apply demo_copy_ok.
  - vm_compute. reflexivity.
Defined.

Lemma broadcast_refines_witness :
  wp (bc_router_broadcast (Some demo_router) (Some (demo_message 5))) demo_node (fun '(rc, r') w' =>
    balanced demo_node w' /\
    exists now t, clock_read demo_node w' now /\
      inserted (contents (dedup_table demo_router)) (dedup_cap demo_router)
        (dedup_max_age (config demo_router)) now (uuid (demo_message 5)) t /\
      r' = Some (set_table t demo_router) /\ router_wf (set_table t demo_router) /\
      ((rc = BC_ERR_NOMEM /\ ~ never_oom demo_node /\ silent demo_node w') \/
       (rc = BC_OK /\ exists w1 frc w2 w3, idle demo_node w1 /\
          forwarded demo_router (encode (msg_packet (demo_message 5))) w1 frc w2 /\
          stored demo_router (demo_message 5) w2 w3 /\ idle w3 w'))).
Proof.
  apply (broadcast_refines demo_router (demo_message 5) demo_node).
  - exact demo_router_wf.
  - exact demo_ports_safe.
  - apply demo_node_ok.
  - exact demo_message_wf.
  - reflexivity.
Defined.

Lemma broadcast_echo_dropped_witness :
  wp ('(rc1, r1) ← bc_router_broadcast (Some demo_router) (Some (demo_message 5));
      '(rc2, r2) ← bc_router_receive r1 (Some (encode (msg_packet (demo_message 5))))
                     (zlen (encode (msg_packet (demo_message 5))));
      mret (rc1, r1, rc2, r2)) demo_node (fun '(rc1, o1, rc2, o2) w2 =>
    rc1 = BC_OK /\ rc2 = BC_ERR_DUPLICATE /\ o2 = o1 /\ balanced demo_node w2 /\
    exists w1, bc_router_broadcast (Some demo_router) (Some (demo_message 5)) demo_node =
      Val ((rc1, o1), w1) /\ silent w1 w2).
Proof.
  apply (broadcast_echo_dropped demo_router (demo_message 5) demo_node).
  - exact demo_router_wf.
  - exact demo_ports_safe.
  - apply demo_node_ok.
  - apply demo_node_ok.
  - exact demo_message_wf.
  - reflexivity.
Defined.

Lemma forward_respects_fanout_witness :
  wp (forward_to_peers demo_router [1; 2; 3] 3) demo_node (fun rc w' =>
    balanced demo_node w' /\ forwarded demo_router [1; 2; 3] demo_node rc w').
Proof.
  apply (forward_respects_fanout demo_router [1; 2; 3] demo_node).
  - exact demo_router_wf.
  - exact demo_ports_safe.
  - apply demo_node_ok.
Defined.

Lemma add_peer_refines_upsert_witness :
  wp (bc_router_add_peer (Some demo_router) (Some (synthetic_peer 9002))) demo_node (fun o w' =>
    balanced demo_node w' /\ silent demo_node w' /\
    exists ps n now, o = Some (set_peers ps n demo_router) /\ router_wf (set_peers ps n demo_router) /\
      (peer_pubkey (synthetic_peer 9002) ∈ peer_pubkey <$> known_peers demo_router ->
         clock_read demo_node w' now) /\
      known_peers (set_peers ps n demo_router) =
        upsert_peer (known_peers demo_router) (synthetic_peer 9002) now).
Proof.
  apply (add_peer_refines_upsert demo_router (synthetic_peer 9002) demo_node).
  - exact demo_router_wf.
  - apply synthetic_peer_wf.
Defined.

Lemma tick_refines_witness :
  wp (bc_router_tick 2 (Some demo_router)) demo_node (fun o w' =>
    exists r1, o = Some r1 /\ router_wf r1 /\ same_wiring demo_router r1 /\ balanced demo_node w' /\
      ticked demo_router demo_node r1 w').
Proof.
  apply (tick_refines 2 demo_router demo_node).
  - exact demo_router_wf.
  - exact demo_ports_safe.
  - apply demo_node_ok.
  - intros t [= <-]. apply udp_benign. by intros w [Hq _].
  - vm_compute. lia.
Defined.

Lemma router_create_destroy_witness :
  wp (bc_router_create None None (Some (replicate 32 9)) None) demo_node (fun o w' =>
    match o with
    | None => balanced demo_node w' /\ ~ never_oom demo_node
    | Some b =>
        router_wf (contents b) /\ known_peers (contents b) = [] /\
        config (contents b) = default default_config None /\
        local_pubkey (contents b) = replicate 32 9 /\
        acquired {[addr b; addr (dedup_table (contents b))]} demo_node w' /\
        wp (bc_router_destroy (Some b)) w' (fun _ w'' => balanced demo_node w'')
    end).
Proof.
  apply (router_create_destroy None None (replicate 32 9) None demo_node).
  - apply demo_node_ok.
  - apply (bool_decide_unpack _). vm_compute. exact I.
  - intros c Hc. discriminate Hc.
Defined.

Lemma udp_forward_multiplies_witness :
  let k := Z.min (fanout (config demo_router)) (peer_count demo_router) in
  exists w', forward_to_peers demo_router [1; 2; 3] 3 demo_node =
      Val (if bool_decide (k > 0) then BC_OK else BC_ERR_TRANSPORT, w') /\
    n_sent (get_net w') = n_sent (get_net demo_node) ++ copies (Z.to_nat k) [1; 2; 3] [9001; 9002].
Proof.
  apply (udp_forward_multiplies demo_node demo_router (Box 1%nat demo_ctx) [1; 2; 3]).
  - exact demo_router_wf.
  - reflexivity.
  - exact demo_ctx_wf.
  - discriminate.
  - discriminate.
  - reflexivity.
  - split; [intros n; reflexivity|]. vm_compute. eexists. reflexivity.
Defined.
