(* ===== verification/Mesh.v ===== *)
(** * Mesh: many nodes and the network between them

    The composition of the verified parts: each node runs the router of
    [Router] over the UDP adapter of [UdpTransport] and, when it has one, the
    SQLite adapter of [SqliteStorage], in its own world (its own clock, heap,
    sockets and database).  The network carries what the nodes' sockets
    accepted; it may delay, reorder, lose and duplicate datagrams, which is
    what UDP allows.  The application is a callback that remembers what it was
    handed.

    [mesh_step] is the step relation: one call of one node's router, or one
    move of the network; [exec] runs the same steps. *)
From S2P Require Import Prelude Effects Errors Message Peer Ports Sockets World UdpTransport.
From S2P Require Import Sqlite SqliteStorage SqliteStorageSpec Dedup Router RouterSpec.

(** ** A node's world *)

(** Besides the run-time and the sockets: the database engine, and the messages
    the application was handed. *)
Record app_state (E : Type) : Type := mkApp { app_db : E; app_inbox : list packet }.
Arguments mkApp {E}.
Arguments app_db {E}.
Arguments app_inbox {E}.

#[export] Program Instance app_HasSql E : HasSql (world (app_state E)) E :=
  {| get_sql w := app_db (w_ext w);
     set_sql x w := mkWorld (w_os w) (w_net w) (mkApp x (app_inbox (w_ext w))) |}.
Solve All Obligations with done.

(** The application's callback. *)
Definition note_message {E} (msg : bc_message) (userdata : Z) : M (world (app_state E)) unit := fun w =>
  Val (tt, mkWorld (w_os w) (w_net w)
             (mkApp (app_db (w_ext w)) (app_inbox (w_ext w) ++ [msg_packet msg]))).

Section mesh.
Context {E : Type} `{!Sqlite E}.
Abbreviation W := (world (app_state E)).

(** ** Nodes *)

Record gossip_node : Type := mkGossip {
  gn_router : bc_router W;
  gn_udp : box udp_ctx;                      (* the transport's context *)
  gn_sql : option (blk * box sqlite_ctx);    (* the storage's struct and context *)
  gn_world : W
}.

(** The adapters and the callback of a node's router. *)
Definition wired (n : gossip_node) : Prop :=
  transport (gn_router n) = Some (udp_transport (gn_udp n)) /\
  storage (gn_router n) = (fun '(self, ctx) => sqlite_storage self ctx) <$> gn_sql n /\
  on_message (gn_router n) = Some note_message.

(** The sockets and the inbox of a node. *)
Definition gn_net (n : gossip_node) : net := w_net (gn_world n).
Definition gn_inbox (n : gossip_node) : list packet := app_inbox (w_ext (gn_world n)).

(** The node after one of its router's operations. *)
Definition gn_after (r : bc_router W) (w : W) (n : gossip_node) : gossip_node :=
  mkGossip r (gn_udp n) (gn_sql n) w.

(** A datagram arrives at a node's socket. *)
Definition enqueue (pd : Z * list Z) (s : net) : net :=
  mkNet (n_socks s) (n_next_fd s) (n_queue s ++ [pd]) (n_sent s) (n_can_open s) (n_can_bind s)
    (n_can_send s) (n_calls s).
Definition gn_arrival (pd : Z * list Z) (n : gossip_node) : gossip_node :=
  gn_after (gn_router n)
    (mkWorld (w_os (gn_world n)) (enqueue pd (gn_net n)) (w_ext (gn_world n))) n.

(** The port a node listens on. *)
Definition listens (n : gossip_node) (port : Z) : Prop :=
  socks (gn_world n) !! sockfd (contents (gn_udp n)) = Some (Some port).
#[export] Instance listens_dec n port : Decision (listens n port).
Proof. unfold listens. apply _. Defined.

(** ** The mesh *)

Record mesh : Type := mkMesh {
  nodes : list gossip_node;
  flight : list (Z * list Z)      (* datagrams sent and neither delivered nor lost *)
}.

Inductive label : Type :=
| LBroadcast (i : nat) (m : bc_message)    (* the application of node i sends m *)
| LTick (i : nat)                          (* node i runs its maintenance tick *)
| LAddPeer (i : nat) (p : bc_peer)         (* node i learns of a peer *)
| LDeliver (i k : nat)                     (* the k-th datagram in flight reaches node i *)
| LLose (k : nat)                          (* it is lost *)
| LDuplicate (k : nat).                    (* it is duplicated *)

(** Node [i] ran an operation that left the router [r] and the world [w]: what
    its socket accepted meanwhile is in flight. *)
Definition after_call (i : nat) (n : gossip_node) (r : bc_router W) (w : W) (s : mesh) : mesh :=
  mkMesh (<[i := gn_after r w n]> (nodes s))
    (flight s ++ drop (length (n_sent (gn_net n))) (n_sent (w_net w))).

(** The fuel of a tick: more than the datagrams that wait. *)
Definition enough (n : gossip_node) : nat := S (length (n_queue (gn_net n))).

(** The calls the program makes: only well-formed messages and peers are passed
    to a router. *)
Inductive mesh_step : label -> mesh -> mesh -> Prop :=
| step_broadcast i m n rc r w s :
    nodes s !! i = Some n -> message_wf m -> payload_len m < 2 ^ 31 ->
    bc_router_broadcast (Some (gn_router n)) (Some m) (gn_world n) = Val ((rc, Some r), w) ->
    mesh_step (LBroadcast i m) s (after_call i n r w s)
| step_tick i n r w s :
    nodes s !! i = Some n ->
    bc_router_tick (enough n) (Some (gn_router n)) (gn_world n) = Val (Some r, w) ->
    mesh_step (LTick i) s (after_call i n r w s)
| step_add_peer i p n r w s :
    nodes s !! i = Some n -> peer_wf p ->
    bc_router_add_peer (Some (gn_router n)) (Some p) (gn_world n) = Val (Some r, w) ->
    mesh_step (LAddPeer i p) s (after_call i n r w s)
| step_deliver i k n pd s :
    nodes s !! i = Some n -> flight s !! k = Some pd -> listens n pd.1 ->
    mesh_step (LDeliver i k) s
      (mkMesh (<[i := gn_arrival pd n]> (nodes s)) (delete k (flight s)))
| step_lose k pd s :
    flight s !! k = Some pd -> mesh_step (LLose k) s (mkMesh (nodes s) (delete k (flight s)))
| step_duplicate k pd s :
    flight s !! k = Some pd -> mesh_step (LDuplicate k) s (mkMesh (nodes s) (flight s ++ [pd])).

(** A sequence of steps. *)
Inductive run : list label -> mesh -> mesh -> Prop :=
| run_nil s : run [] s s
| run_cons l ls s1 s2 s3 : mesh_step l s1 s2 -> run ls s2 s3 -> run (l :: ls) s1 s3.

(** What the applications sent during a sequence of steps. *)
Definition broadcasts (ls : list label) : list packet :=
  omap (fun l => match l with LBroadcast _ m => Some (msg_packet m) | _ => None end) ls.

(** ** The steps as a program *)

Definition exec (l : label) (s : mesh) : option mesh :=
  match l with
  | LBroadcast i m =>
      n ← nodes s !! i;
      if bool_decide (message_wf m /\ payload_len m < 2 ^ 31) then
        match bc_router_broadcast (Some (gn_router n)) (Some m) (gn_world n) with
        | Val ((_, Some r), w) => Some (after_call i n r w s)
        | _ => None
        end
      else None
  | LTick i =>
      n ← nodes s !! i;
      match bc_router_tick (enough n) (Some (gn_router n)) (gn_world n) with
      | Val (Some r, w) => Some (after_call i n r w s)
      | _ => None
      end
  | LAddPeer i p =>
      n ← nodes s !! i;
      if bool_decide (peer_wf p) then
        match bc_router_add_peer (Some (gn_router n)) (Some p) (gn_world n) with
        | Val (Some r, w) => Some (after_call i n r w s)
        | _ => None
        end
      else None
  | LDeliver i k =>
      n ← nodes s !! i;
      pd ← flight s !! k;
      if bool_decide (listens n pd.1)
      then Some (mkMesh (<[i := gn_arrival pd n]> (nodes s)) (delete k (flight s))) else None
  | LLose k => _ ← flight s !! k; Some (mkMesh (nodes s) (delete k (flight s)))
  | LDuplicate k => pd ← flight s !! k; Some (mkMesh (nodes s) (flight s ++ [pd]))
  end.

Fixpoint exec_all (ls : list label) (s : mesh) : option mesh :=
  match ls with
  | [] => Some s
  | l :: ls => s' ← exec l s; exec_all ls s'
  end.

(** [exec] computes exactly the steps of the relation. *)
Lemma exec_step l s s' : exec l s = Some s' <-> mesh_step l s s'.
Proof.
  split.
  - destruct l as [i m|i|i p|i k|k|k]; cbn [exec]; intros H;
      repeat (apply bind_Some in H as (? & ? & H)); repeat case_match; simplify_eq;
      repeat match goal with Hb : bool_decide _ = true |- _ => apply bool_decide_eq_true in Hb end;
      destruct_and?; by econstructor.
  - destruct 1 as [i m n rc r w s Hn Hm Hl He|i n r w s Hn He|i p n r w s Hn Hp He
      |i k n pd s Hn Hk Hp|k pd s Hk|k pd s Hk]; cbn [exec]; rewrite ?Hn, ?Hk;
      cbn [mbind option_bind]; rewrite ?bool_decide_eq_true_2 by done; by rewrite ?He.
Qed.

Lemma exec_all_run ls s s' : exec_all ls s = Some s' <-> run ls s s'.
Proof.
  split.
  - revert s. induction ls as [|l ls IH]; intros s H; [injection H as ->; constructor|].
    apply bind_Some in H as (s1 & H1 & H). econstructor; [by apply exec_step|by apply IH].
  - induction 1 as [|l ls s1 s2 s3 Hs _ IH]; [done|]. cbn.
    by rewrite (proj2 (exec_step _ _ _) Hs).
Qed.

Lemma mesh_run_app ls ls' s1 s2 s3 : run ls s1 s2 -> run ls' s2 s3 -> run (ls ++ ls') s1 s3.
Proof. induction 1; [done|]. intros. econstructor; eauto. Qed.
End mesh.
Arguments gossip_node E : clear implicits.
Arguments mesh E : clear implicits.
