(* ===== verification/MeshInv.v ===== *)
(** * MeshInv: what circulates in a mesh

    The invariant of a mesh whose nodes all run the verified code: every
    datagram in a queue or in flight, every stored row and every delivered
    message is, up to its time-to-live and its timestamp, a message that some
    application of the mesh sent ([descends]), its time-to-live never grows,
    and a message is delivered only to its addressee. *)
From stdpp Require Import strings.
From S2P Require Import Prelude Effects Errors Message Peer Ports Sockets World UdpTransport.
From S2P Require Import Sqlite SqliteStorage SqliteStorageSpec SqliteStorageProps Dedup Router RouterSpec.
From S2P Require Import Mesh.

(** ** Descent *)

(** [p] is one of the packets [past], possibly hops later and with another
    timestamp (a relay that stores a message loses its timestamp). *)
Definition descends (past : list packet) (p : packet) : Prop :=
  exists p0, p0 ∈ past /\ pk_uuid p = pk_uuid p0 /\ pk_sender p = pk_sender p0 /\
    pk_receiver p = pk_receiver p0 /\ pk_payload p = pk_payload p0 /\ pk_ttl p <= pk_ttl p0.

(** The datagrams that carry such packets. *)
Definition datagram_from (past : list packet) (d : list Z) : Prop :=
  exists p, d = encode p /\ packet_wf p /\ zlen (pk_payload p) < 2 ^ 31 /\ descends past p.

Lemma descends_mono past past' p : past ⊆ past' -> descends past p -> descends past' p.
Proof. intros Hs (p0 & Hp & H). exists p0. auto. Qed.

Lemma datagram_from_mono past past' d :
  past ⊆ past' -> datagram_from past d -> datagram_from past' d.
Proof. intros Hs (p & ? & ? & ? & ?). exists p. eauto using descends_mono. Qed.

Lemma descends_hop past p : descends past p -> descends past (hop p).
Proof. intros (p0 & ? & ? & ? & ? & ? & ?). exists p0. cbn. split_and!; (done || lia). Qed.

(** Neither the adapter's buffer nor the parser changes a datagram it accepts. *)
Lemma decode_datagram past d n p :
  datagram_from past d -> decode (take n (map to_u8 d)) = Some p ->
  d = encode p /\ packet_wf p /\ zlen (pk_payload p) < 2 ^ 31 /\ descends past p.
Proof.
  intros (p0 & -> & Hwf & Hlen & Hd) Hdec.
  assert (Hb := encode_bytes _ Hwf). rewrite map_to_u8_id in Hdec by done.
  assert (Hp0 : decode (encode p0) = Some p0).
  { assert (H := decode_encode p0 [] Hwf). rewrite app_nil_r in H. apply H. lia. }
  enough (p = p0) as -> by done.
  assert (Hl := encode_length _ Hwf).
  destruct (decide (length (encode p0) <= n)%nat) as [Hn|Hn].
  { rewrite take_ge in Hdec by done. congruence. }
  exfalso. unfold decode in Hdec. case_bool_decide as Hc; [done|]. apply Hc.
  destruct (decide (zlen (take n (encode p0)) < BC_MESSAGE_HEADER_SIZE)); [by right|]. left.
  assert (Hlf : length_field (take n (encode p0)) = length_field (encode p0)).
  { rewrite <- (app_nil_r (take n (encode p0))). apply length_field_front;
      change BC_MESSAGE_HEADER_SIZE with 93 in *; unfold zlen in *;
      rewrite length_take in *; lia. }
  rewrite Hlf. assert (Hf := encode_length_field p0 [] Hwf). rewrite app_nil_r in Hf.
  rewrite Hf by lia. unfold zlen in *. rewrite length_take. lia.
Qed.

(** ** One node *)

Section node.
Context {E : Type} `{!Sqlite E, !SqliteSpec E, !BindsSucceed E}.
Context (sq : option (blk * box sqlite_ctx)) (past : list packet) (key : list Z).
Abbreviation W := (world (app_state E)).
Implicit Types (w : W) (r : bc_router W).

(** The invariant of the node's world: its statements are prepared and its rows
    readable, if it has a database. *)
#[local] Instance node_ext : ExtInv (app_state E) := free_inv (fun x =>
  forall self ctx, sq = Some (self, ctx) -> sqlite_ok (contents ctx) (view (app_db x))).

Lemma node_sql_world self ctx : sq = Some (self, ctx) -> SqlWorld (W := W) (E := E) (contents ctx).
Proof.
  intros Hs. split; [intros w [_ Hx]; by eapply Hx| |done|done].
  intros w x [Hq Hx] [Hu _]. split; [done|]. cbn. intros self' ctx' Hs'. congruence.
Qed.

#[export] Instance note_message_safe : CallbackSafe (note_message (E := E)).
Proof. intros m u w Hok Hm Hl. unfold wp, note_message. by apply same_os_balanced. Qed.

(** The node's wiring. *)
Definition wires (u : box udp_ctx) r : Prop :=
  transport r = Some (udp_transport u) /\ udp_ctx_wf (contents u) /\
  storage r = (fun '(self, ctx) => sqlite_storage self ctx) <$> sq /\
  on_message r = Some note_message /\ local_pubkey r = key.

Lemma wires_safe u r : wires u r -> ports_safe r.
Proof.
  intros (Ht & Hu & Hs & Hm & _). split; [|split].
  - intros t. rewrite Ht. intros [= <-]. by apply udp_safe.
  - intros s. rewrite Hs. destruct sq as [[self ctx]|] eqn:Hsq; [|done]. intros [= <-].
    assert (Hw := node_sql_world _ _ Hsq). by apply (sqlite_safe (contents ctx)).
  - intros f. rewrite Hm. intros [= <-]. apply _.
Qed.

Lemma wires_benign u r t : wires u r -> transport r = Some t -> TransportBenign t.
Proof. intros [Ht _]. rewrite Ht. intros [= <-]. apply udp_benign. by intros w [Hq _]. Qed.

Lemma wires_same u r r' : same_wiring r r' -> wires u r -> wires u r'.
Proof. unfold wires. by intros (-> & -> & _ & -> & _ & _ & _ & _ & -> & _). Qed.

(** What the node's queue, sent log, table and inbox hold. *)
Record traffic w : Prop := mkTraffic {
  tr_queue : Forall (fun pd => datagram_from past pd.2) (n_queue (w_net w));
  tr_sent : Forall (fun pd => datagram_from past pd.2) (n_sent (w_net w));
  tr_rows : Forall (fun row => descends past (row_packet row)) (rows_of (E := E) w);
  tr_inbox : Forall (fun p => descends past p /\ pk_receiver p = key) (app_inbox (w_ext w))
}.

Definition good w : Prop := heap_ok w /\ traffic w.

Lemma good_idle w w' : idle w w' -> good w -> good w'.
Proof. intros [Hl [o ->]] [Hok []]. split; [by eauto with bitchat|by split]. Qed.

(** *** Sending *)

(** Sending changes neither the database, the inbox nor the queue. *)
Definition off_wire w : app_state E * list (Z * list Z) := (w_ext w, n_queue (w_net w)).

Lemma untouched_sendto fd d len p : untouched off_wire (c_sendto (W := W) fd d len p).
Proof.
  intros w a w'. unfold c_sendto. destruct (mem_read _ _ _); [|done..].
  destruct (_ && _); by intros [= _ <-].
Qed.

Lemma untouched_udp_send ctx pk d len : untouched off_wire (udp_send (W := W) ctx pk d len).
Proof.
  assert (Hloop : forall n i any, untouched off_wire (udp_send_loop (W := W) ctx d len n i any)).
  { intros n. induction n as [|n IH]; intros i any; cbn [udp_send_loop]; [apply untouched_ret|].
    apply untouched_bind; [apply untouched_lift|intros p].
    apply untouched_bind; [apply untouched_sendto|intros k; apply IH]. }
  unfold udp_send. case_bool_decide; [apply untouched_ret|].
  apply untouched_bind; [apply Hloop|intros; apply untouched_ret].
Qed.

Lemma good_send u pk p w rc w' :
  udp_ctx_wf (contents u) -> packet_wf p -> zlen (pk_payload p) < 2 ^ 31 -> descends past p ->
  udp_send (contents u) pk (encode p) (zlen (encode p)) w = Val (rc, w') -> good w -> good w'.
Proof.
  intros Hu Hp Hlen Hd Hrun [Hok []]. assert (Hel := encode_length _ Hp).
  change BC_MESSAGE_HEADER_SIZE with 93 in Hel. split.
  { assert (Hs := udp_safe (W := W) u Hu).
    assert (H := send_safe _ pk (encode p) _ w eq_refl Hok eq_refl).
    apply (wp_outcome _ _ _ _ _ H) in Hrun. by eauto with bitchat. }
  assert (Hf := untouched_udp_send _ _ _ _ _ _ _ Hrun). injection Hf as He Hq.
  destruct (udp_send_broadcasts (contents u) pk (encode p) w Hu ltac:(lia))
    as (rc' & w1 & acc & Hrun' & Heff). rewrite Hrun in Hrun'. injection Hrun' as <- <-.
  assert (Hsent : exists ports, n_sent (w_net w') = n_sent (w_net w) ++ to_ports (encode p) ports).
  { case_bool_decide; [exists []; destruct Heff as [_ ->]; by rewrite app_nil_r|].
    destruct Heff as [(_ & Hsent & _) _]. by exists acc. }
  destruct Hsent as [ports Hsent].
  split; [by rewrite Hq| |unfold rows_of, dbv in *; cbn in *; by rewrite He|by rewrite He].
  rewrite Hsent. apply Forall_app. split; [done|]. unfold to_ports. apply Forall_fmap, Forall_true.
  intros port. cbn. by exists p.
Qed.

Lemma good_forwarded u r p w rc w' :
  wires u r -> packet_wf p -> zlen (pk_payload p) < 2 ^ 31 -> descends past p ->
  forwarded r (encode p) w rc w' -> good w -> good w'.
Proof.
  intros (Ht & Hu & _) Hp Hlen Hd. unfold forwarded. rewrite Ht.
  cbn [mbind option_bind t_send udp_transport]. intros (k & rcs & Hs & _).
  induction Hs as [|q ps w rc1 w1 rcs w2 Hrun _ IH]; [done|]. intros Hg. apply IH.
  by eapply good_send.
Qed.

Lemma good_relayed u r p w w' :
  wires u r -> packet_wf p -> zlen (pk_payload p) < 2 ^ 31 -> descends past p ->
  relayed r p w w' -> good w -> good w'.
Proof.
  intros Hw Hp Hlen Hd [[_ Hi]|(w1 & rc & w2 & Hi1 & Hf & Hi2)] Hg; [by eapply good_idle|].
  eapply good_idle; [done|]. eapply good_forwarded; [done..|]. by eapply good_idle.
Qed.

(** *** Storing and delivering *)

(** The database calls touch neither the sockets nor the inbox. *)
Definition off_db w : net * list packet := (w_net w, app_inbox (w_ext w)).

Lemma untouched_sql_run {A} (f : E -> option (A * E)) : untouched off_db (sql_run (W := W) f).
Proof. intros w a w'. unfold sql_run. destruct (f _) as [[]|]; [|done]. by intros [= _ <-]. Qed.

Lemma untouched_sql_read {A} (f : E -> option A) : untouched off_db (sql_read (W := W) f).
Proof. intros w a w'. unfold sql_read. destruct (f _); [|done]. by intros [= _ <-]. Qed.

Lemma off_db_set_os o w : off_db (set_os o w) = off_db w.
Proof. done. Qed.

#[local] Hint Resolve untouched_sql_run untouched_sql_read off_db_set_os : frame.

Lemma untouched_store c m : untouched off_db (sqlite_store_message (W := W) (E := E) c m).
Proof.
  unfold sqlite_store_message, sqlite3_reset, sqlite3_clear_bindings, sqlite3_bind_blob,
    sqlite3_bind_int64, sqlite3_step. solve_untouched.
Qed.

Lemma untouched_evict c age : untouched off_db (sqlite_evict_expired (W := W) (E := E) c age).
Proof.
  unfold sqlite_evict_expired, sqlite3_reset, sqlite3_clear_bindings, sqlite3_bind_int64,
    sqlite3_step. solve_untouched.
Qed.

(** Same sockets, same inbox, other rows. *)
Lemma traffic_rows w w' :
  off_db w' = off_db w ->
  Forall (fun row => descends past (row_packet row)) (rows_of (E := E) w') ->
  traffic w -> traffic w'.
Proof. intros [= Hn Hi] Hr []. split; by rewrite ?Hn, ?Hi. Qed.

Lemma message_row_packet m now :
  message_wf m -> descends past (msg_packet m) -> descends past (row_packet (message_row m now)).
Proof.
  intros Hm (p0 & Hp & Hu & Hs & Hr & Hpl & Ht). exists p0. unfold row_packet, message_row; cbn in *.
  split_and!; try done. rewrite <- Hpl. unfold msg_payload. by destruct (payload m).
Qed.

Lemma good_stored u r m w w' :
  wires u r -> message_wf m -> payload_len m < 2 ^ 31 -> descends past (msg_packet m) ->
  stored r m w w' -> good w -> good w'.
Proof.
  intros (_ & _ & Hs & _) Hm Hlen Hd. unfold stored. rewrite Hs.
  destruct sq as [[self ctx]|] eqn:Hsq;
    cbn [fmap option_fmap option_map mbind option_bind sqlite_storage s_store_message];
    [|by intros ->]. intros [rc Hrun] [Hok Ht].
  assert (Hw := node_sql_world _ _ Hsq).
  assert (H := wp_store_message (contents ctx) m w Hok Hm Hlen).
  destruct (wp_outcome _ _ _ _ _ H Hrun) as (now & _ & Hb & Hcase). split; [by eauto with bitchat|].
  apply (traffic_rows w); [by eapply untouched_store| |done]. assert (Hr := tr_rows _ Ht).
  destruct Hcase as [(_ & a & Ha & Hrows)|(_ & _ & Hrows)]; rewrite Hrows; [|done].
  change (changed SQL_INSERT a (rows_of (E := E) w)) with
    (insert_or_ignore (args_row a) (rows_of (E := E) w)).
  rewrite (store_args_exact a m now Ha). unfold insert_or_ignore. destruct (_ || _); [done|].
  apply Forall_app. split; [done|]. constructor; [by apply message_row_packet|done].
Qed.

Lemma good_delivered u r m w w' :
  wires u r -> descends past (msg_packet m) -> receiver_pubkey m = key ->
  message_wf m -> payload_len m < 2 ^ 31 -> delivered r m w w' -> good w -> good w'.
Proof.
  intros (_ & _ & _ & Hm & _) Hd Hk Hwf Hlen. unfold delivered. rewrite Hm. intros Hrun [Hok Ht].
  assert (H := callback_safe m (on_message_userdata r) w Hok Hwf Hlen).
  assert (Hb : balanced w w') by exact (wp_outcome _ _ _ _ _ H Hrun). split; [by eauto with bitchat|].
  unfold note_message in Hrun. injection Hrun as <-. destruct Ht. split; try done.
  cbn. apply Forall_app. split; [done|]. by constructor.
Qed.

(** *** Receiving *)

Lemma good_received u r d n w rc r' w' :
  wires u r -> datagram_from past d -> received r (take n (map to_u8 d)) w rc r' w' ->
  good w -> good w'.
Proof.
  intros Hw Hd Hr Hg. assert (Hkey : local_pubkey r = key) by apply Hw.
  destruct Hr as [w' _ Hs Hb|p w' _ _ Hs Hb|p w' _ _ Hs Hb|p now t w' _ _ _ _ _ Hs Hb
    |p now t m w1 w2 w' Hdec _ _ _ Hpos Hme Hm Hpk Hi1 Hdel Hi2 Hb
    |p now t m w1 w2 w3 w4 w' Hdec _ _ _ Hpos Hme Hm Hpk Hi1 Hst Hi2 Hrel Hi3 Hb];
    try (eapply good_idle; [|done]; by eauto with bitchat).
  - destruct (decode_datagram _ _ _ _ Hd Hdec) as (_ & Hpw & Hlen & Hdesc).
    assert (Hpl : payload_len m = zlen (msg_payload m)) by apply Hm.
    apply (f_equal pk_payload) in Hpk as Hpp. cbn in Hpp. rewrite Hpp in Hpl.
    apply (f_equal pk_receiver) in Hpk as Hpr. cbn in Hpr.
    eapply good_idle; [done|]. eapply (good_delivered u r m); try done; [|congruence|lia|].
    + rewrite Hpk. by apply descends_hop.
    + by eapply good_idle.
  - destruct (decode_datagram _ _ _ _ Hd Hdec) as (_ & Hpw & Hlen & Hdesc).
    assert (Hpl : payload_len m = zlen (msg_payload m)) by apply Hm.
    apply (f_equal pk_payload) in Hpk as Hpp. cbn in Hpp. rewrite Hpp in Hpl.
    assert (Hwf : packet_wf (hop p)) by (rewrite <- Hpk; by apply message_packet_wf).
    eapply good_idle; [done|]. eapply (good_relayed u r (hop p)); try done; [by apply descends_hop|].
    eapply good_idle; [done|]. eapply (good_stored u r m); try done; [lia| |].
    + rewrite Hpk. by apply descends_hop.
    + by eapply good_idle.
Qed.

Lemma traffic_set_queue q w :
  q ⊆ n_queue (w_net w) -> traffic w -> traffic (set_net (set_queue q (get_net w)) w).
Proof.
  intros Hsub []. split; try done. apply Forall_forall. intros x Hx.
  by apply (proj1 (Forall_forall _ _) tr_queue0), Hsub.
Qed.

(** What the adapter hands over was in the queue. *)
Lemma good_recv u buf pk w rc buf' out pk' w' :
  udp_ctx_wf (contents u) -> bytes_ok buf -> zlen buf = 4096 ->
  udp_recv (contents u) buf 4096 0 pk w = Val ((rc, (buf', out, pk')), w') -> good w ->
  good w' /\
  (rc = BC_OK -> exists d, datagram_from past d /\
     take (Z.to_nat out) buf' = take 4096 (map to_u8 d)).
Proof.
  intros Hu Hb Hl Hrun [Hok Ht]. assert (Hs := udp_safe (W := W) u Hu).
  assert (H := recv_safe _ buf 4096 0 pk w eq_refl Hok Hb ltac:(done)).
  destruct (wp_outcome _ _ _ _ _ H Hrun) as (Hbal & _).
  destruct (udp_recv_effect _ _ _ _ _ _ _ _ _ Hl Hrun) as [(Hrc & -> & _)|(port & d & q & _ & Hq & -> & _ & _ & He)];
    [done|]. destruct (take_datagram_subseteq _ _ _ _ Hq) as [Hsub Hin].
  split; [split; [by eauto with bitchat|by apply traffic_set_queue]|].
  intros _. exists d. split; [|done]. by apply (proj1 (Forall_forall _ _) (tr_queue _ Ht) (port, d)).
Qed.

Lemma good_polled u r w r' w' :
  wires u r -> polled (udp_recv (contents u)) r w r' w' -> good w -> good w'.
Proof.
  intros Hw Hp. induction Hp as [r buf pk w rc buf' out pk' w' Hb Hl Hrun Hend
    |r buf pk w buf' out pk' w1 rc r1 w2 r2 w3 Hb Hl Hrun Hpos Hrcv _ IH]; intros Hg.
  - destruct Hw as (_ & Hu & _). by destruct (good_recv _ _ _ _ _ _ _ _ _ Hu Hb Hl Hrun Hg).
  - assert (Hu : udp_ctx_wf (contents u)) by apply Hw.
    destruct (good_recv _ _ _ _ _ _ _ _ _ Hu Hb Hl Hrun Hg) as (Hg1 & Hd).
    destruct (Hd eq_refl) as (d & Hd1 & He). rewrite He in Hrcv. apply IH.
    + eapply wires_same; [by eapply received_wiring|done].
    + by eapply (good_received u).
Qed.

(** *** Store-and-forward *)

Lemma good_resent u r ps w w' :
  wires u r ->
  Forall (fun p => packet_wf p /\ zlen (pk_payload p) < 2 ^ 31 /\ descends past p) ps ->
  resent r ps w w' -> good w -> good w'.
Proof.
  intros Hw Hall Hr. induction Hr as [w w' Hi|p ps w w1 w2 w' Hrel Hi _ IH]; intros Hg;
    [by eapply good_idle|]. apply Forall_cons in Hall as [(Hp & Hl & Hd) Hall].
  apply IH; [done|]. eapply good_idle; [done|]. by eapply good_relayed.
Qed.

Lemma row_packet_wf row : row_wf row -> packet_wf (row_packet row) /\ zlen (pk_payload (row_packet row)) < 2 ^ 31.
Proof.
  intros (_ & H0 & H1 & H2 & H3 & H4 & H5). unfold row_packet, packet_wf.
  destruct (col row 0), (col row 1), (col row 2), (col row 3), (col row 4), (col row 5);
    cbn in *; try done; unfold is_u8; split_and!; try done; try lia; try (by destruct H3); try apply H3;
    try apply to_u64_range; apply (bool_decide_unpack _); vm_compute; exact I.
Qed.

Lemma untouched_get_pending c pk : untouched off_db (sqlite_get_pending (W := W) (E := E) c pk).
Proof.
  assert (Hall : forall l, untouched off_db (destroy_all (W := W) l)).
  { intros l. induction l as [|b l IH]; cbn [destroy_all]; [apply untouched_ret|].
    apply untouched_bind; [|intros; apply IH]. apply quiet_untouched; [done|apply quiet_destroy]. }
  assert (Hoom : forall arr, untouched off_db (pending_oom (W := W) arr)).
  { intros arr. apply untouched_bind; [apply Hall|intros]. solve_untouched. }
  assert (Hloop : forall fuel s arr cap n,
    untouched off_db (pending_loop (W := W) (E := E) fuel s arr cap n)).
  { intros fuel. induction fuel as [|fuel IH]; intros s arr cap n; cbn [pending_loop]; [solve_untouched|].
    unfold sqlite3_step, grow_array, read_row.
    repeat first [apply IH|apply Hoom|progress solve_untouched]. }
  unfold sqlite_get_pending, sqlite3_reset, sqlite3_clear_bindings, sqlite3_bind_blob,
    sqlite3_bind_int64, row_count.
  repeat first [apply Hloop|progress solve_untouched|by intros ? ? ? [= _ <-]].
Qed.

(** What is read back from the table. *)
Lemma good_pending self ctx w rc arr count w' :
  sq = Some (self, ctx) -> good w ->
  sqlite_get_pending (contents ctx) None w = Val ((rc, (arr, count)), w') ->
  good w' /\ (rc = BC_OK ->
    Forall (fun p => packet_wf p /\ zlen (pk_payload p) < 2 ^ 31 /\ descends past p) (array_packets arr)).
Proof.
  intros Hsq [Hok Ht] Hrun. assert (Hsw := node_sql_world _ _ Hsq).
  assert (H := wp_get_pending (contents ctx) None w Hok ltac:(done)).
  destruct (wp_outcome _ _ _ _ _ H Hrun) as (now & d & a & _ & _ & Hrows & Hcase).
  assert (Hok' : heap_ok w') by (destruct Hcase as [(_ & _ & _ & Hb & _)|(_ & Ha & _)]; by eauto with bitchat).
  split.
  { split; [done|]. apply (traffic_rows w); [by eapply untouched_get_pending| |done].
    rewrite Hrows. by apply tr_rows. }
  intros Hrc. destruct Hcase as [(-> & _)|(_ & _ & _ & ds & rest & -> & Hc & _)]; [done|].
  cbn [app]. apply Forall_fmap, Forall_forall. intros row Hrow.
  assert (Hin : row ∈ rows_of (E := E) w).
  { unfold comes, query_rows in Hc. cbn [st_cursor] in Hc.
    assert (Hx : row ∈ ds ++ rest) by set_solver. rewrite Hc in Hx.
    by apply list_elem_of_filter in Hx as [_ ?]. }
  assert (Hall := sql_world_ok (c := contents ctx) _ (heap_world_ok _ Hok)).
  destruct (row_packet_wf row) as [? ?]; [by apply (proj1 (Forall_forall _ _) (proj2 Hall))|].
  split_and!; try done. by apply (proj1 (Forall_forall _ _) (tr_rows _ Ht)).
Qed.

Lemma good_rebroadcasted u r w r' w' :
  wires u r -> rebroadcasted r w r' w' -> good w -> good w'.
Proof.
  intros Hw (now & w1 & _ & Hi & H) Hg. apply (good_idle _ _ Hi) in Hg as Hg1.
  assert (Hs : storage r = (fun '(self, ctx) => sqlite_storage self ctx) <$> sq) by apply Hw.
  rewrite Hs in H. destruct sq as [[self ctx]|] eqn:Hsq;
    cbn [fmap option_fmap option_map mbind option_bind sqlite_storage s_get_pending] in H;
    [|by destruct H as [_ ->]].
  destruct H as [(_ & _ & ->)|(_ & _ & rc & arr & count & w2 & Hrun & Hres)]; [done|].
  destruct (good_pending _ _ _ _ _ _ _ Hsq Hg1 Hrun) as [Hg2 Hall].
  case_bool_decide as Hrc; [|by subst w']. by eapply (good_resent u r); [|apply Hall| |].
Qed.

(** *** The tick and the broadcast *)

Lemma good_ticked u r w r' w' : wires u r -> ticked r w r' w' -> good w -> good w'.
Proof.
  intros Hw (now & r1 & w1 & w2 & r2 & w3 & _ & Hi & Hp & Hre & -> & _ & Hev) Hg.
  apply (good_idle _ _ Hi) in Hg as Hg1. cbv zeta in Hp.
  assert (Ht : transport r = Some (udp_transport u)) by apply Hw.
  rewrite Ht in Hp. cbn [mbind option_bind t_recv udp_transport] in Hp.
  set (r0 := set_table _ r) in Hp. assert (Hw0 : wires u r0) by done.
  apply (good_polled u) in Hp as Hg2; [|done|done].
  assert (Hw1 : wires u r1). { eapply wires_same; [by eapply polled_wiring|done]. }
  apply (good_rebroadcasted u) in Hre as Hg3; [|done|done].
  assert (Hs : storage r = (fun '(self, ctx) => sqlite_storage self ctx) <$> sq) by apply Hw.
  rewrite Hs in Hev. destruct sq as [[self ctx]|] eqn:Hsq;
    cbn [fmap option_fmap option_map mbind option_bind sqlite_storage s_evict_expired] in Hev; [|by subst].
  destruct Hev as [rc Hrun]. assert (Hsw := node_sql_world _ _ Hsq). destruct Hg3 as [Hok3 Ht3].
  assert (H := wp_evict_expired (contents ctx) (72 * 3600) w3 Hok3).
  destruct (wp_outcome _ _ _ _ _ H Hrun) as (now2 & _ & Hb & Hcase). split; [by eauto with bitchat|].
  apply (traffic_rows w3); [by eapply untouched_evict| |done]. assert (Hr := tr_rows _ Ht3).
  destruct Hcase as [(_ & a & _ & Hrows)|(_ & _ & Hrows)]; rewrite Hrows; [|done].
  assert (Hsub := sublist_subseteq _ _ (changed_filter SQL_EVICT a (rows_of (E := E) w3) ltac:(done))).
  apply Forall_forall. intros x Hx. by apply (proj1 (Forall_forall _ _) Hr), Hsub.
Qed.

Lemma good_broadcast u r m w rc o w' :
  wires u r -> router_wf r -> message_wf m -> payload_len m < 2 ^ 31 ->
  descends past (msg_packet m) ->
  bc_router_broadcast (Some r) (Some m) w = Val ((rc, o), w') -> good w ->
  good w' /\ exists t, o = Some (set_table t r) /\ router_wf (set_table t r).
Proof.
  intros Hw Hwf Hm Hlen Hd Hrun Hg. assert (Hps := wires_safe _ _ Hw).
  assert (H := wp_broadcast r m w Hwf Hps (proj1 Hg) Hm Hlen).
  destruct (wp_outcome _ _ _ _ _ H Hrun) as (Hb & now & t & _ & _ & -> & Hwf' & Hcase).
  split; [|by exists t].
  destruct Hcase as [(_ & _ & Hs)|(_ & w1 & frc & w2 & w3 & Hi1 & Hf & Hst & Hi3)].
  { eapply good_idle; [|done]. by eauto with bitchat. }
  assert (Hpl : payload_len m = zlen (msg_payload m)) by apply Hm.
  eapply good_idle; [done|]. eapply (good_stored u r m); try done.
  eapply (good_forwarded u r (msg_packet m)); try done; [by apply message_packet_wf|cbn; lia|].
  by eapply good_idle.
Qed.
End node.

(** ** The mesh *)

Section mesh_inv.
Context {E : Type} `{!Sqlite E, !SqliteSpec E, !BindsSucceed E}.
Implicit Types (n : gossip_node E) (s : mesh E).

Definition node_ok (past : list packet) n : Prop :=
  router_wf (gn_router n) /\
  wires (gn_sql n) (local_pubkey (gn_router n)) (gn_udp n) (gn_router n) /\
  good (gn_sql n) past (local_pubkey (gn_router n)) (gn_world n).

Definition mesh_ok (past : list packet) s : Prop :=
  Forall (node_ok past) (nodes s) /\ Forall (fun pd => datagram_from past pd.2) (flight s).

Lemma node_ok_mono past past' n : past ⊆ past' -> node_ok past n -> node_ok past' n.
Proof.
  intros Hs (Hwf & Hw & Hok & []). split_and!; try done. split; [done|].
  split; (eapply Forall_impl; [done|]); cbn; intros;
    destruct_and?; eauto using descends_mono, datagram_from_mono.
Qed.

Lemma mesh_ok_mono past past' s : past ⊆ past' -> mesh_ok past s -> mesh_ok past' s.
Proof.
  intros Hs [Hn Hf]. split; eapply Forall_impl; try done; cbn; intros;
    eauto using node_ok_mono, datagram_from_mono.
Qed.

(** A call of one node. *)
Lemma mesh_ok_call past i n r w s :
  mesh_ok past s -> nodes s !! i = Some n -> node_ok past (gn_after r w n) ->
  mesh_ok past (after_call i n r w s).
Proof.
  intros [Hn Hf] Hi Hok. split; cbn; [by apply Forall_insert|]. apply Forall_app. split; [done|].
  destruct Hok as (_ & _ & _ & Ht). by apply Forall_drop, (tr_sent _ _ _ Ht).
Qed.

(** A datagram of the mesh cannot overflow the parser's bounds test. *)
Lemma datagram_benign past d : datagram_from past d -> benign d.
Proof.
  intros (p & -> & Hwf & Hlen & _). right. rewrite map_to_u8_id by by apply encode_bytes.
  assert (Hf := encode_length_field p [] Hwf). rewrite app_nil_r in Hf. rewrite Hf by lia.
  change BC_MESSAGE_HEADER_SIZE with 93. lia.
Qed.

Lemma node_ok_arrival past n pd :
  datagram_from past pd.2 -> node_ok past n -> node_ok past (gn_arrival pd n).
Proof.
  intros Hd (Hwf & Hw & (Hsh & [Hq He] & Hc) & []). split_and!; try done.
  split; [|split; try done; cbn; by apply Forall_app_2; [|constructor]].
  split; [done|]. split; [|done]. split; [|done]. cbn. apply Forall_app_2; [done|].
  constructor; [|done]. by eapply datagram_benign.
Qed.

Lemma node_tick past n :
  node_ok past n ->
  exists r w, bc_router_tick (enough n) (Some (gn_router n)) (gn_world n) = Val (Some r, w) /\
    node_ok past (gn_after r w n) /\ same_wiring (gn_router n) r /\
    @ticked _ _ (@world_inv _ (node_ext (gn_sql n))) (gn_router n) (gn_world n) r w.
Proof.
  intros (Hwf & Hw & Hg). assert (Hps := wires_safe _ _ _ _ Hw).
  assert (H := @wp_tick _ _ (@world_inv _ (node_ext (gn_sql n))) (enough n) _ _ Hwf Hps (proj1 Hg)
    (fun t => wires_benign _ _ _ _ t Hw) ltac:(unfold enough, gn_net; cbn; lia)).
  apply wp_val in H as (o & w & Hrun & r & -> & Hwf' & Hsw & _ & Ht). exists r, w.
  split; [done|]. split; [|done].
  assert (Hk : local_pubkey r = local_pubkey (gn_router n)) by apply Hsw.
  split_and!; [done| |]; cbn; rewrite Hk; [by eapply wires_same|by eapply good_ticked].
Qed.

Lemma node_broadcast past n m :
  node_ok past n -> message_wf m -> payload_len m < 2 ^ 31 -> descends past (msg_packet m) ->
  exists rc r w, bc_router_broadcast (Some (gn_router n)) (Some m) (gn_world n) = Val ((rc, Some r), w) /\
    node_ok past (gn_after r w n).
Proof.
  intros (Hwf & Hw & Hg) Hm Hlen Hd. assert (Hps := wires_safe _ _ _ _ Hw).
  assert (H := @wp_broadcast _ _ (@world_inv _ (node_ext (gn_sql n))) _ m _ Hwf Hps (proj1 Hg) Hm Hlen).
  apply wp_val in H as ([rc o] & w & Hrun & _).
  destruct (good_broadcast _ _ _ _ _ _ _ _ _ _ Hw Hwf Hm Hlen Hd Hrun Hg) as (Hg' & t & -> & Hwf').
  exists rc, (set_table t (gn_router n)), w. split; [done|]. by split_and!.
Qed.

Lemma node_add_peer past n p :
  node_ok past n -> peer_wf p ->
  exists ps k w,
    bc_router_add_peer (Some (gn_router n)) (Some p) (gn_world n) =
      Val (Some (set_peers ps k (gn_router n)), w) /\
    @idle _ _ (@world_inv _ (node_ext (gn_sql n))) (gn_world n) w /\
    node_ok past (gn_after (set_peers ps k (gn_router n)) w n).
Proof.
  intros (Hwf & Hw & Hg) Hp.
  assert (H := @wp_add_peer _ _ (@world_inv _ (node_ext (gn_sql n))) _ p (gn_world n) Hwf Hp).
  apply wp_val in H as (o & w & Hrun & Hb & Hs & ps & k & now & -> & Hwf' & _).
  assert (Hi := @balanced_idle _ _ (@world_inv _ (node_ext (gn_sql n))) _ _ Hb Hs).
  exists ps, k, w. split; [done|]. split; [done|]. split_and!; [done|done|by eapply good_idle].
Qed.

Lemma step_keeps past l s s' :
  mesh_ok past s -> mesh_step l s s' -> mesh_ok (past ++ broadcasts [l]) s'.
Proof.
  intros Hok Hst. assert (Hsub : past ⊆ past ++ broadcasts [l]) by set_solver.
  apply (mesh_ok_mono _ _ _ Hsub) in Hok. revert Hok. set (past' := past ++ broadcasts [l]). intros Hok.
  assert (Hnode : forall i n, nodes s !! i = Some n -> node_ok past' n).
  { intros i n Hi. by apply (Forall_lookup_1 _ _ _ _ (proj1 Hok) Hi). }
  assert (Hfl : forall k pd, flight s !! k = Some pd -> datagram_from past' pd.2).
  { intros k pd Hk. apply (Forall_lookup_1 _ _ _ _ (proj2 Hok) Hk). }
  destruct Hst as [i m n rc r w s Hn Hm Hl He|i n r w s Hn He|i p n r w s Hn Hp He
    |i k n pd s Hn Hk Hp|k pd s Hk|k pd s Hk].
  - destruct (node_broadcast past' n m) as (rc' & r' & w' & He' & Hn'); [by eauto|done|done| |].
    { exists (msg_packet m). split; [|split_and!; (done || lia)]. cbn. set_solver. }
    rewrite He in He'. simplify_eq. by apply mesh_ok_call.
  - destruct (node_tick past' n) as (r' & w' & He' & Hn' & _); [by eauto|].
    rewrite He in He'. simplify_eq. by apply mesh_ok_call.
  - destruct (node_add_peer past' n p) as (ps & k & w' & He' & _ & Hn'); [by eauto|done|].
    rewrite He in He'. simplify_eq. by apply mesh_ok_call.
  - destruct Hok as [H1 H2]. split; cbn; [apply Forall_insert; [done|]|by apply Forall_delete].
    apply node_ok_arrival; eauto.
  - destruct Hok as [H1 H2]. split; [done|]. by apply Forall_delete.
  - destruct Hok as [H1 H2]. split; [done|]. apply Forall_app. split; [done|]. constructor; eauto.
Qed.

Lemma run_keeps past ls s s' :
  mesh_ok past s -> run ls s s' -> mesh_ok (past ++ broadcasts ls) s'.
Proof.
  intros Hok Hr. revert past Hok. induction Hr as [s|l ls s1 s2 s3 Hst _ IH]; intros past Hok.
  { by rewrite app_nil_r. }
  apply (step_keeps _ _ _ _ Hok), IH in Hst. unfold broadcasts in *.
  rewrite <- (assoc_L (++)) in Hst. by destruct l.
Qed.
End mesh_inv.
