(* ===== verification/MeshProps.v ===== *)
(** * MeshProps: the properties of a mesh

    In any run of a mesh - any interleaving of the nodes' calls, any delay,
    loss, reordering or duplication by the network - no node gets stuck, and
    only what an application sent circulates and is delivered, to its
    addressee. *)
From S2P Require Import Prelude Effects Errors Message Peer Ports Sockets World UdpTransport.
From S2P Require Import Sqlite SqliteStorage SqliteStorageSpec SqliteStorageProps Dedup Router RouterSpec.
From S2P Require Import RouterProps Mesh MeshInv.

Section properties.
Context {E : Type} `{!Sqlite E, !SqliteSpec E, !BindsSucceed E}.
Implicit Types (n : gossip_node E) (s : mesh E).

(** A node that has just started: a well-formed router wired to its adapters,
    nothing received, sent, stored or delivered. *)
Definition fresh_node n : Prop :=
  router_wf (gn_router n) /\
  wires (gn_sql n) (local_pubkey (gn_router n)) (gn_udp n) (gn_router n) /\
  @heap_ok _ _ (@world_inv _ (node_ext (gn_sql n))) (gn_world n) /\
  n_queue (gn_net n) = [] /\ n_sent (gn_net n) = [] /\
  rows_of (E := E) (gn_world n) = [] /\ gn_inbox n = [].

Definition fresh_mesh s : Prop := Forall fresh_node (nodes s) /\ flight s = [].

Lemma fresh_ok s : fresh_mesh s -> mesh_ok [] s.
Proof.
  intros [Hn Hf]. split; [|by rewrite Hf]. eapply Forall_impl; [exact Hn|].
  intros n (Hwf & Hw & Hok & Hq & Hs & Hr & Hi). split_and!; [done|done|]. split; [done|].
  unfold gn_net, gn_inbox in *. split; by rewrite ?Hq, ?Hs, ?Hr, ?Hi.
Qed.

(** C3: only what was sent circulates: in every state a fresh mesh (over a
    database engine that accepts every binding) can reach,
    each datagram in flight is the encoding of a packet that descends from a
    message some application of the mesh broadcast - same id, keys and payload,
    a time-to-live that is no larger - and each message an application was
    handed descends from one too and was addressed to that node. *)
Theorem mesh_carries_only_what_was_sent ls s s' :
  fresh_mesh s -> run ls s s' ->
  (forall n p, n ∈ nodes s' -> p ∈ gn_inbox n ->
     descends (broadcasts ls) p /\ pk_receiver p = local_pubkey (gn_router n)) /\
  (forall port d, (port, d) ∈ flight s' -> datagram_from (broadcasts ls) d).
Proof.
  intros Hs Hr. destruct (run_keeps _ _ _ _ (fresh_ok _ Hs) Hr) as [Hn Hf].
  cbn [app] in *. split.
  - intros n p Hin Hp. destruct (proj1 (Forall_forall _ _) Hn _ Hin) as (_ & _ & _ & Ht).
    by apply (proj1 (Forall_forall _ _) (tr_inbox _ _ _ Ht)).
  - intros port d Hin. by apply (proj1 (Forall_forall _ _) Hf (port, d)).
Qed.

(** C9: no node gets stuck: in every state a fresh mesh (over a database engine
    that accepts every binding) can reach, every node's next call - its tick, a
    broadcast of any well-formed message of less than 2^31 bytes, a new
    neighbour - is defined and returns, so no sequence of calls, deliveries,
    losses and duplications leads a router into undefined behaviour, into an
    endless loop or to a double free (the parser's 32-bit bounds test included:
    no datagram of the mesh overflows it). *)
Theorem mesh_never_stuck ls s s' i n :
  fresh_mesh s -> run ls s s' -> nodes s' !! i = Some n ->
  (exists s1, mesh_step (LTick i) s' s1) /\
  (forall m, message_wf m -> payload_len m < 2 ^ 31 -> exists s1, mesh_step (LBroadcast i m) s' s1) /\
  (forall p, peer_wf p -> exists s1, mesh_step (LAddPeer i p) s' s1) /\
  Forall (fun pd => benign pd.2) (flight s').
Proof.
  intros Hs Hr Hi. destruct (run_keeps _ _ _ _ (fresh_ok _ Hs) Hr) as [Hn Hf]. cbn [app] in *.
  assert (Hok := Forall_lookup_1 _ _ _ _ Hn Hi). split_and!.
  - destruct (node_tick _ _ Hok) as (r & w & He & _). eexists. by econstructor.
  - intros m Hm Hl. destruct (node_broadcast (broadcasts ls ++ [msg_packet m]) n m)
      as (rc & r & w & He & _); [|done|done| |eexists; by econstructor].
    + eapply node_ok_mono; [|done]. set_solver.
    + exists (msg_packet m). split_and!; (done || lia || set_solver).
  - intros p Hp. destruct (node_add_peer _ _ _ Hok Hp) as (ps & k & w & He & _). eexists. by econstructor.
  - eapply Forall_impl; [exact Hf|]. intros pd. apply datagram_benign.
Qed.
End properties.
