(* ===== verification/MeshFlow.v ===== *)
(** * MeshFlow: how much traffic a message causes

    The number of datagrams that a broadcast can cause is bounded by its
    time-to-live when nothing repeats it ([flood_bounded]). *)
From stdpp Require Import list_numbers.
From S2P Require Import Prelude Effects Errors Message Peer Ports Sockets World UdpTransport.
From S2P Require Import Sqlite SqliteStorage SqliteStorageSpec SqliteStorageProps Dedup Router RouterSpec.
From S2P Require Import RouterProps Mesh MeshInv MeshProps.

(** ** The cost of a packet *)

(** The most datagrams that one with time-to-live [t] can cause, when each node
    sends at most [B] copies of what it relays. *)
Fixpoint cost (B t : nat) : nat :=
  match t with O => 0 | S t => B * S (cost B t) end.

(** The cost of a datagram, and of several. *)
Definition dcost (B : nat) (d : list Z) : nat :=
  match decode d with Some p => cost B (Z.to_nat (pk_ttl p)) | None => 0 end.
Definition energy (B : nat) (l : list (Z * list Z)) : nat := sum_list_with (fun pd => dcost B pd.2) l.

Lemma energy_app B l k : energy B (l ++ k) = (energy B l + energy B k)%nat.
Proof. apply sum_list_with_app. Qed.

Lemma energy_copies B l p :
  Forall (fun pd => pd.2 = encode p) l -> packet_wf p -> zlen (pk_payload p) < 2 ^ 31 ->
  energy B l = (length l * cost B (Z.to_nat (pk_ttl p)))%nat.
Proof.
  intros Hall Hp Hl. assert (Hd := decode_encode p [] Hp ltac:(lia)). rewrite app_nil_r in Hd.
  induction Hall as [|[q d] l Hx _ IH]; [done|]. cbn in *. subst d.
  unfold energy in *. cbn. rewrite IH. unfold dcost at 1. by rewrite Hd.
Qed.

Lemma energy_take B port q d q' :
  take_datagram port q = Some (d, q') -> energy B q = (dcost B d + energy B q')%nat.
Proof.
  revert d q'. induction q as [|[p d0] q IH]; intros d q'; cbn; [done|].
  case_bool_decide; [by intros [= <- <-]|].
  destruct (take_datagram port q) as [[d1 q1]|] eqn:He; cbn; [|done].
  intros [= <- <-]. unfold energy in *. cbn. rewrite (IH _ _ eq_refl). lia.
Qed.

Lemma energy_delete B l k pd :
  l !! k = Some pd -> energy B l = (dcost B pd.2 + energy B (delete k l))%nat.
Proof.
  intros Hk. rewrite <- (take_drop_middle l k pd Hk) at 1. rewrite delete_take_drop.
  rewrite !energy_app. unfold energy at 2. cbn. fold (energy B (drop (S k) l)). lia.
Qed.

Lemma sum_list_with_insert {A} (f : A -> nat) l i x y :
  l !! i = Some x ->
  (sum_list_with f (<[i:=y]> l) + f x = sum_list_with f l + f y)%nat.
Proof.
  revert i. induction l as [|z l IH]; intros [|i] Hi; cbn in *; try done; [injection Hi as ->; lia|].
  specialize (IH _ Hi). unfold insert in *. lia.
Qed.

(** ** What relaying a packet sends *)

Section counting.
Context {E : Type} `{!Sqlite E, !SqliteSpec E, !BindsSucceed E}.
Context (sq : option (blk * box sqlite_ctx)) (key : list Z) (B : nat).
Abbreviation W := (world (app_state E)).
Implicit Types (w : W) (r : bc_router W).
#[local] Existing Instance node_ext.
#[local] Instance counting_node : ExtInv (app_state E) := node_ext sq.

(** Sending to some peers: each call that succeeds sends to at most all ports,
    each call that fails sends nothing. *)
Lemma sends_count u p ps w rcs w' :
  udp_ctx_wf (contents u) -> packet_wf p -> zlen (pk_payload p) < 2 ^ 31 ->
  sends (udp_send (contents u)) (encode p) ps w rcs w' ->
  exists new, n_sent (w_net w') = n_sent (w_net w) ++ new /\
    n_queue (w_net w') = n_queue (w_net w) /\ Forall (fun pd => pd.2 = encode p) new /\
    Z.of_nat (length new) <= ok_count rcs * zlen (ctx_ports (contents u)).
Proof.
  intros Hu Hp Hl. assert (Hel := encode_length _ Hp). change BC_MESSAGE_HEADER_SIZE with 93 in Hel.
  assert (Hp0 := zlen_nonneg (pk_payload p)).
  induction 1 as [w|q ps w rc w1 rcs w2 Hrun _ (new & Hn & Hq & Hall & Hc)].
  { exists []. rewrite app_nil_r. by split_and!. }
  assert (Hf := untouched_udp_send _ _ _ _ _ _ _ Hrun). injection Hf as _ Hq1.
  destruct (udp_send_broadcasts (contents u) (peer_pubkey q) (encode p) w Hu ltac:(lia))
    as (rc' & w1' & acc & Hrun' & Heff). rewrite Hrun in Hrun'. injection Hrun' as <- <-.
  rewrite bool_decide_eq_false_2 in Heff by (intros He; rewrite He in Hel; change (zlen []) with 0 in Hel; lia).
  destruct Heff as ((Hsub & Hs & _) & Hrc). apply sublist_length in Hsub.
  exists (to_ports (encode p) acc ++ new). rewrite Hn. cbn in Hs. rewrite Hs, <- (assoc_L (++)).
  split; [done|]. split; [congruence|]. split.
  - apply Forall_app. split; [|done]. by apply Forall_fmap, Forall_true.
  - unfold to_ports. rewrite length_app, length_fmap, ok_count_cons. subst rc. unfold zlen in *.
    destruct acc; [rewrite bool_decide_eq_false_2 by done; cbn; lia|].
    rewrite bool_decide_eq_true_2 by done. lia.
Qed.

(** Relaying sends at most [fanout] times to each port, and does nothing else. *)
Lemma relayed_count u r p w w' :
  wires sq key u r -> packet_wf p -> zlen (pk_payload p) < 2 ^ 31 ->
  fanout (config r) * zlen (ctx_ports (contents u)) <= Z.of_nat B ->
  relayed r p w w' ->
  exists new, n_sent (w_net w') = n_sent (w_net w) ++ new /\
    n_queue (w_net w') = n_queue (w_net w) /\ Forall (fun pd => pd.2 = encode p) new /\
    (length new <= B)%nat.
Proof.
  intros (Ht & Hu & _) Hp Hl HB [[_ [_ [o ->]]]|(w1 & rc & w2 & [_ [o1 ->]] & Hf & [_ [o2 ->]])].
  { exists []. rewrite app_nil_r. split_and!; (done || cbn; lia). }
  unfold forwarded in Hf. rewrite Ht in Hf.
  cbn [mbind option_bind t_send udp_transport] in Hf. destruct Hf as (k & rcs & Hsn & _ & Hok & _).
  destruct (sends_count u p _ _ _ _ Hu Hp Hl Hsn) as (new & Hn & Hq & Hall & Hc).
  exists new. split_and!; [done..|]. assert (H0 := zlen_nonneg (ctx_ports (contents u))). nia.
Qed.
End counting.

(** ** What a node without storage sends *)

Section spending.
Context {E : Type} `{!Sqlite E, !SqliteSpec E, !BindsSucceed E}.
Context (past : list packet) (key : list Z) (B : nat).
Abbreviation W := (world (app_state E)).
Implicit Types (w : W) (r : bc_router W).
#[local] Existing Instance node_ext.
#[local] Instance no_storage : ExtInv (app_state E) := node_ext None.

(** [w'] has sent datagrams that, with what they can cause, cost at most [k]. *)
Definition spent (k : nat) w w' : Prop :=
  exists new, n_sent (w_net w') = n_sent (w_net w) ++ new /\
    n_queue (w_net w') = n_queue (w_net w) /\ (length new + energy B new <= k)%nat.

Lemma spent_silent k w w' : silent w w' -> spent k w w'.
Proof. intros [o ->]. exists []. rewrite app_nil_r. split_and!; (done || cbn; lia). Qed.

Lemma spent_between k w w1 w2 w' : silent w w1 -> spent k w1 w2 -> silent w2 w' -> spent k w w'.
Proof. intros [o ->] H [o' ->]. exact H. Qed.

Lemma spent_relayed u r p w w' :
  wires None key u r -> packet_wf p -> zlen (pk_payload p) < 2 ^ 31 ->
  fanout (config r) * zlen (ctx_ports (contents u)) <= Z.of_nat B ->
  relayed r p w w' -> spent (cost B (S (Z.to_nat (pk_ttl p)))) w w'.
Proof.
  intros Hw Hp Hl HB Hr. destruct (relayed_count _ _ B _ _ _ _ _ Hw Hp Hl HB Hr) as (new & Hn & Hq & Hall & Hc).
  exists new. split_and!; [done..|]. rewrite (energy_copies B new p Hall Hp Hl). cbn [cost]. nia.
Qed.

Lemma spent_received u r d n w rc r' w' :
  wires None key u r -> datagram_from past d ->
  fanout (config r) * zlen (ctx_ports (contents u)) <= Z.of_nat B ->
  received r (take n (map to_u8 d)) w rc r' w' -> spent (dcost B d) w w'.
Proof.
  intros Hw Hd HB Hr. assert (Hst : storage r = None) by apply Hw.
  destruct Hr as [w' _ Hs _|p w' _ _ Hs _|p w' _ _ Hs _|p now t w' _ _ _ _ _ Hs _
    |p now t m w1 w2 w' Hdec _ _ _ Hpos Hme Hm Hpk [_ Hs1] Hdel [_ Hs2] _
    |p now t m w1 w2 w3 w4 w' Hdec _ _ _ Hpos Hme Hm Hpk [_ Hs1] Hsto [_ Hs2] Hrel [_ Hs3] _];
    try by apply spent_silent.
  - assert (Hom : on_message r = Some note_message) by apply Hw.
    unfold delivered in Hdel. rewrite Hom in Hdel. injection Hdel as <-.
    eapply spent_between; [done| |done]. exists []. rewrite app_nil_r. by split_and!; [..|cbn; lia].
  - destruct (decode_datagram _ _ _ _ Hd Hdec) as (-> & Hpw & Hlen & _).
    unfold stored in Hsto. rewrite Hst in Hsto. cbn in Hsto. subst w2.
    assert (Hwf : packet_wf (hop p)) by (rewrite <- Hpk; by apply message_packet_wf).
    assert (Hsp := spent_relayed u r (hop p) _ _ Hw Hwf Hlen HB Hrel).
    eapply (spent_between _ w w3 w4); [by eapply quiet_trans| |done].
    unfold dcost. assert (He := decode_encode p [] Hpw ltac:(lia)). rewrite app_nil_r in He.
    rewrite He. cbn [hop pk_ttl] in Hsp. by replace (S (Z.to_nat (pk_ttl p - 1))) with (Z.to_nat (pk_ttl p)) in Hsp by lia.
Qed.

(** [w'] has sent datagrams paid for by those that left the queue. *)
Definition burns w w' : Prop :=
  exists new, n_sent (w_net w') = n_sent (w_net w) ++ new /\
    (length new + energy B new + energy B (n_queue (w_net w')) <= energy B (n_queue (w_net w)))%nat.

Lemma burns_silent w w' : silent w w' -> burns w w'.
Proof. intros [o ->]. exists []. rewrite app_nil_r. split; [done|]. cbn. lia. Qed.

Lemma burns_trans w1 w2 w3 : burns w1 w2 -> burns w2 w3 -> burns w1 w3.
Proof.
  intros (a & Ha & Hea) (b & Hb & Heb). exists (a ++ b).
  rewrite Hb, Ha, <- (assoc_L (++)), length_app, energy_app. split; [done|]. lia.
Qed.

Lemma burns_polled u r w r' w' :
  wires None key u r -> fanout (config r) * zlen (ctx_ports (contents u)) <= Z.of_nat B ->
  polled (udp_recv (contents u)) r w r' w' -> good None past key w -> burns w w'.
Proof.
  intros Hw HB Hp. induction Hp as [r buf pk w rc buf' out pk' w' Hb Hl Hrun Hend
    |r buf pk w buf' out pk' w1 rc r1 w2 r2 w3 Hb Hl Hrun Hpos Hrcv _ IH]; intros Hg.
  - destruct (udp_recv_effect _ _ _ _ _ _ _ _ _ Hl Hrun) as [(_ & -> & _)|(port & d & q & _ & Hq & -> & _)].
    { apply burns_silent, quiet_refl. }
    exists []. rewrite app_nil_r. split; [done|]. apply (energy_take B) in Hq.
    change (energy B (n_queue (w_net w)) = (dcost B d + energy B q)%nat) in Hq.
    change (0 + 0 + energy B q <= energy B (n_queue (w_net w)))%nat. lia.
  - assert (Hu : udp_ctx_wf (contents u)) by apply Hw.
    destruct (udp_recv_effect _ _ _ _ _ _ _ _ _ Hl Hrun)
      as [(? & _)|(port & d & q & _ & Hq & -> & _ & _ & He)]; [done|].
    assert (Hd : datagram_from past d).
    { apply (proj1 (Forall_forall _ _) (tr_queue _ _ _ (proj2 Hg)) (port, d)).
      by apply (take_datagram_subseteq _ _ _ _ Hq). }
    destruct (good_recv _ _ _ _ _ _ _ _ _ _ _ _ Hu Hb Hl Hrun Hg) as (Hg1 & _).
    rewrite He in Hrcv. assert (Hg2 := good_received _ _ _ _ _ _ _ _ _ _ _ Hw Hd Hrcv Hg1).
    destruct (spent_received _ _ _ _ _ _ _ _ Hw Hd HB Hrcv) as (new & Hn & Hq2 & Hle).
    eapply (burns_trans _ w2).
    + exists new. apply (energy_take B) in Hq. rewrite Hn, Hq2. split; [done|].
      change (energy B (n_queue (w_net w)) = (dcost B d + energy B q)%nat) in Hq.
      change (length new + energy B new + energy B q <= energy B (n_queue (w_net w)))%nat. lia.
    + assert (Hsw := received_wiring _ _ _ _ _ _ Hrcv). apply IH; [by eapply wires_same| |done].
      by destruct Hsw as (_ & _ & -> & _).
Qed.

Lemma burns_ticked u r w r' w' :
  wires None key u r -> fanout (config r) * zlen (ctx_ports (contents u)) <= Z.of_nat B ->
  ticked r w r' w' -> good None past key w -> burns w w'.
Proof.
  intros Hw HB (now & r1 & w1 & w2 & r2 & w3 & _ & Hi & Hp & Hre & -> & _ & Hev) Hg.
  assert (Ht : transport r = Some (udp_transport u)) by apply Hw.
  assert (Hst : storage r = None) by apply Hw. rewrite Hst in Hev. cbn in Hev. subst w'.
  cbv zeta in Hp. rewrite Ht in Hp. cbn [mbind option_bind t_recv udp_transport] in Hp.
  eapply burns_trans; [apply burns_silent, Hi|]. eapply (burns_trans _ w2).
  - eapply burns_polled; [| |done|by eapply good_idle]; done.
  - destruct Hre as (n & w' & _ & [_ Hs] & Hre). assert (Hst1 : storage r1 = None).
    { apply polled_wiring in Hp as (_ & -> & _). done. }
    rewrite Hst1 in Hre. destruct Hre as [_ ->]. by apply burns_silent.
Qed.

Lemma spent_broadcast u r m w rc o w' :
  wires None key u r -> router_wf r -> message_wf m -> payload_len m < 2 ^ 31 ->
  fanout (config r) * zlen (ctx_ports (contents u)) <= Z.of_nat B -> heap_ok w ->
  bc_router_broadcast (Some r) (Some m) w = Val ((rc, o), w') ->
  spent (cost B (S (Z.to_nat (ttl m)))) w w'.
Proof.
  intros Hw Hwf Hm Hlen HB Hok Hrun. assert (Hps := wires_safe _ _ _ _ Hw).
  assert (H := wp_broadcast r m w Hwf Hps Hok Hm Hlen).
  destruct (wp_outcome _ _ _ _ _ H Hrun) as (_ & now & t & _ & _ & _ & _ & Hcase).
  destruct Hcase as [(_ & _ & Hs)|(_ & w1 & frc & w2 & w3 & Hi1 & Hf & Hst & Hi3)];
    [by apply spent_silent|].
  assert (Hpl : payload_len m = zlen (msg_payload m)) by apply Hm.
  unfold stored in Hst. assert (Hs0 : storage r = None) by apply Hw. rewrite Hs0 in Hst. cbn in Hst. subst w3.
  apply (spent_relayed u r (msg_packet m)); try done; [by apply message_packet_wf|cbn; lia|].
  right. by exists w1, frc, w2.
Qed.
End spending.

(** ** What a mesh without storage sends *)

Section flood.
Context {E : Type} `{!Sqlite E, !SqliteSpec E, !BindsSucceed E}.
Implicit Types (n : gossip_node E) (s : mesh E).

(** A node without storage that sends at most [B] copies of what it relays. *)
Definition plain_node (B : nat) n : Prop :=
  gn_sql n = None /\
  fanout (config (gn_router n)) * zlen (ctx_ports (contents (gn_udp n))) <= Z.of_nat B.

(** The datagrams sent so far, and what those that wait can still cause. *)
Definition total_sent s : nat := sum_list_with (fun n => length (n_sent (gn_net n))) (nodes s).
Definition mesh_energy (B : nat) s : nat :=
  (sum_list_with (fun n => energy B (n_queue (gn_net n))) (nodes s) + energy B (flight s))%nat.

(** Steps that put no new message into the mesh. *)
Definition calm (l : label) : Prop :=
  match l with LBroadcast _ _ | LDuplicate _ => False | _ => True end.

Lemma after_call_energy B i n r w s new k :
  nodes s !! i = Some n -> n_sent (w_net w) = n_sent (gn_net n) ++ new ->
  (length new + energy B new + energy B (n_queue (w_net w)) <= energy B (n_queue (gn_net n)) + k)%nat ->
  (total_sent (after_call i n r w s) + mesh_energy B (after_call i n r w s) <=
   total_sent s + mesh_energy B s + k)%nat.
Proof.
  intros Hi Hs Hle. unfold total_sent, mesh_energy, after_call. cbn [nodes flight].
  rewrite Hs, drop_app_length, energy_app.
  assert (H1 := sum_list_with_insert (fun n => length (n_sent (gn_net n))) _ _ _ (gn_after r w n) Hi).
  assert (H2 := sum_list_with_insert (fun n => energy B (n_queue (gn_net n))) _ _ _ (gn_after r w n) Hi).
  cbn in H1, H2. unfold gn_net in *. cbn in H1, H2, Hle. rewrite Hs, length_app in H1. lia.
Qed.

Lemma arrival_energy B pd n :
  energy B (n_queue (gn_net (gn_arrival pd n))) = (energy B (n_queue (gn_net n)) + dcost B pd.2)%nat.
Proof.
  change (n_queue (gn_net (gn_arrival pd n))) with (n_queue (gn_net n) ++ [pd]).
  rewrite energy_app. f_equal. unfold energy. cbn. lia.
Qed.

Lemma plain_call B i n r w s :
  Forall (plain_node B) (nodes s) -> nodes s !! i = Some n -> config r = config (gn_router n) ->
  Forall (plain_node B) (nodes (after_call i n r w s)).
Proof.
  intros Hall Hi Hc. cbn. apply Forall_insert; [done|].
  destruct (Forall_lookup_1 _ _ _ _ Hall Hi) as [Hs HB]. split; [done|]. cbn. by rewrite Hc.
Qed.

Lemma plain_step past B l s s' :
  mesh_ok past s -> Forall (plain_node B) (nodes s) -> mesh_step l s s' ->
  Forall (plain_node B) (nodes s').
Proof.
  intros Hok Hpl Hst. destruct Hst as [i m n rc r w s Hn Hm Hl He|i n r w s Hn He|i p n r w s Hn Hp He
    |i k n pd s Hn Hk Hp|k pd s Hk|k pd s Hk]; try done;
    assert (Hno := Forall_lookup_1 _ _ _ _ (proj1 Hok) Hn).
  - destruct Hno as (Hwf & Hw & Hh & _). apply plain_call; [done|done|].
    assert (H := @wp_broadcast _ _ (@world_inv _ (node_ext (gn_sql n))) _ m _ Hwf (wires_safe _ _ _ _ Hw) Hh Hm Hl).
    by destruct (wp_outcome _ _ _ _ _ H He) as (_ & now & t & _ & _ & [= ->] & _).
  - destruct (node_tick past n Hno) as (r' & w' & He' & _ & Hsw & _). rewrite He in He'. simplify_eq.
    apply plain_call; [done|done|apply Hsw].
  - destruct (node_add_peer past n p Hno Hp) as (ps & k & w' & He' & _).
    rewrite He in He'. simplify_eq. by apply plain_call.
  - cbn. apply Forall_insert; [done|]. exact (Forall_lookup_1 _ _ _ _ Hpl Hn).
Qed.

Lemma calm_step past B l s s' :
  mesh_ok past s -> Forall (plain_node B) (nodes s) -> calm l -> mesh_step l s s' ->
  (total_sent s' + mesh_energy B s' <= total_sent s + mesh_energy B s)%nat.
Proof.
  intros Hok Hpl Hc Hst.
  destruct Hst as [i m n rc r w s Hn Hm Hl He|i n r w s Hn He|i p n r w s Hn Hp He
    |i k n pd s Hn Hk Hp|k pd s Hk|k pd s Hk]; try done.
  - assert (Hno := Forall_lookup_1 _ _ _ _ (proj1 Hok) Hn).
    destruct (Forall_lookup_1 _ _ _ _ Hpl Hn) as [Hsq HB].
    destruct (node_tick past n Hno) as (r' & w' & He' & _ & _ & Ht). rewrite He in He'. simplify_eq.
    destruct Hno as (_ & Hw & Hg). rewrite Hsq in Ht, Hw, Hg.
    destruct (burns_ticked past _ B _ _ _ _ _ Hw HB Ht Hg) as (new & Hs & Hle).
    rewrite <- (Nat.add_0_r (total_sent s + _)). eapply after_call_energy; [done|done|].
    unfold gn_net in *. lia.
  - assert (Hno := Forall_lookup_1 _ _ _ _ (proj1 Hok) Hn).
    destruct (node_add_peer past n p Hno Hp) as (ps & k & w' & He' & [_ [o ->]] & _).
    rewrite He in He'. simplify_eq.
    rewrite <- (Nat.add_0_r (total_sent s + _)). eapply (after_call_energy _ _ _ _ _ _ []); [done|by rewrite app_nil_r|].
    cbn. unfold gn_net. lia.
  - assert (H1 := sum_list_with_insert (fun n => length (n_sent (gn_net n))) _ _ _ (gn_arrival pd n) Hn).
    assert (H2 := sum_list_with_insert (fun n => energy B (n_queue (gn_net n))) _ _ _ (gn_arrival pd n) Hn).
    assert (H3 := energy_delete B _ _ _ Hk).
    cbv beta in H1, H2. rewrite arrival_energy in H2.
    change (n_sent (gn_net (gn_arrival pd n))) with (n_sent (gn_net n)) in H1.
    unfold total_sent, mesh_energy. cbn [nodes flight]. lia.
  - assert (H3 := energy_delete B _ _ _ Hk). unfold total_sent, mesh_energy. cbn [nodes flight]. lia.
Qed.

Lemma plain_run past B ls s s' :
  mesh_ok past s -> Forall (plain_node B) (nodes s) -> run ls s s' -> Forall (plain_node B) (nodes s').
Proof.
  intros Hok Hpl Hr. revert past Hok Hpl. induction Hr; [done|].
  eauto using step_keeps, plain_step.
Qed.

Lemma calm_run past B ls s s' :
  mesh_ok past s -> Forall (plain_node B) (nodes s) -> Forall calm ls -> run ls s s' ->
  (total_sent s' + mesh_energy B s' <= total_sent s + mesh_energy B s)%nat.
Proof.
  intros Hok Hpl Hc Hr. revert past Hok Hpl Hc. induction Hr as [s|l ls s1 s2 s3 Hst _ IH]; [done|].
  intros past Hok Hpl [Hl Hls]%Forall_cons.
  assert (Hle := calm_step _ _ _ _ _ Hok Hpl Hl Hst).
  assert (Hpl2 := plain_step _ _ _ _ _ Hok Hpl Hst).
  specialize (IH _ (step_keeps _ _ _ _ Hok Hst) Hpl2 Hls). lia.
Qed.

(** C8: a broadcast dies out: in a fresh mesh of nodes without storage that
    each send at most [B] copies of what they relay, one broadcast of a message
    with time-to-live [t], followed by any sequence of ticks, deliveries,
    losses and new neighbours, puts at most B + B^2 + ... + B^(t+1) datagrams
    on the network in total, whatever the topology and however long the run -
    the time-to-live alone ends the flood. *)
Theorem flood_bounded B i m ls s s' :
  fresh_mesh s -> Forall (plain_node B) (nodes s) -> Forall calm ls ->
  run (LBroadcast i m :: ls) s s' -> (total_sent s' <= cost B (S (Z.to_nat (ttl m))))%nat.
Proof.
  intros Hf Hpl Hc Hr. assert (Hok := fresh_ok _ Hf).
  assert (H0 : total_sent s = 0%nat /\ mesh_energy B s = 0%nat).
  { destruct Hf as [Hn Hfl]. unfold total_sent, mesh_energy. rewrite Hfl.
    clear -Hn. induction Hn as [|n l (_ & _ & _ & Hq & Hs & _) _ [IH1 IH2]]; [done|].
    cbn in *. rewrite Hq, Hs. cbn. lia. }
  inversion Hr as [|l ls' s1 s2 s3 Hst Hrun]; subst. inversion Hst as [? ? n rc r w ? Hn Hm Hl He| | | | |]; subst.
  assert (Hok2 := step_keeps _ _ _ _ Hok Hst).
  assert (Hno := Forall_lookup_1 _ _ _ _ (proj1 Hf) Hn).
  destruct (Forall_lookup_1 _ _ _ _ Hpl Hn) as [Hsq HB].
  destruct Hno as (Hwf & Hw & Hh & Hq & Hs & _). rewrite Hsq in Hw, Hh.
  destruct (spent_broadcast _ B _ _ _ _ _ _ _ Hw Hwf Hm Hl HB Hh He) as (new & Hn1 & Hq1 & Hle).
  assert (Hstep : (total_sent (after_call i n r w s) + mesh_energy B (after_call i n r w s) <=
    total_sent s + mesh_energy B s + cost B (S (Z.to_nat (ttl m))))%nat).
  { eapply after_call_energy; [done|done|]. rewrite Hq1. unfold gn_net in *. lia. }
  eapply (calm_run _ B) in Hrun; [lia|exact Hok2|exact (plain_step _ _ _ _ _ Hok Hpl Hst)|done].
Qed.
End flood.
