(* ===== verification/MeshReach.v ===== *)
(** * MeshReach: what reaches its addressee

    A datagram that waits at a node is delivered or relayed by the node's next
    tick unless its id is remembered ([tick_delivers], [tick_relays]); so a
    broadcast reaches its addressee along any route that is no longer than its
    time-to-live ([broadcast_reaches]). *)
From S2P Require Import Prelude Effects Errors Message Peer Ports Sockets World UdpTransport.
From S2P Require Import Sqlite SqliteStorage SqliteStorageSpec SqliteStorageProps Dedup Router RouterSpec.
From S2P Require Import RouterProps Mesh MeshInv MeshProps MeshFlow.

(** An id whose entries, if any, have expired is not found after an eviction. *)
Definition expired_id (table : list bc_dedup_entry) (max_age now : Z) (u : list Z) : Prop :=
  Forall (fun e => occupied e <> 0 -> e_uuid e = u -> expired now max_age e = true) table.

Lemma evict_forgets table cap max_age now u :
  expired_id table max_age now u -> ~ reachable (evict_entry max_age now <$> table) cap u.
Proof.
  intros Hall (i & Hi & Hu & Hocc). specialize (Hocc i ltac:(lia)). unfold probe_entry in *.
  rewrite list_lookup_fmap in Hu, Hocc. destruct (table !! _) as [e|] eqn:He; cbn in *; [|done].
  assert (He' := Forall_lookup_1 _ _ _ _ Hall He). unfold evict_entry in *.
  destruct (bool_decide (occupied e <> 0) && expired now max_age e) eqn:Hb; cbn in *; [done|].
  rewrite (He' Hocc Hu), bool_decide_eq_true_2 in Hb by done. done.
Qed.

Section node.
Context {E : Type} `{!Sqlite E, !SqliteSpec E, !BindsSucceed E}.
Context (sq : option (blk * box sqlite_ctx)) (past : list packet) (key : list Z).
Abbreviation W := (world (app_state E)).
Implicit Types (w : W) (r : bc_router W).
#[local] Existing Instance node_ext.
#[local] Instance this_node : ExtInv (app_state E) := node_ext sq.

(** ** What cannot be undone *)

(** More was sent; nothing was received or delivered. *)
Definition grows w w' : Prop :=
  n_sent (w_net w) `prefix_of` n_sent (w_net w') /\
  n_queue (w_net w') = n_queue (w_net w) /\ app_inbox (w_ext w') = app_inbox (w_ext w).

Lemma grows_silent w w' : silent w w' -> grows w w'.
Proof. by intros [o ->]. Qed.

Lemma grows_trans w1 w2 w3 : grows w1 w2 -> grows w2 w3 -> grows w1 w3.
Proof. intros (? & ? & ?) (? & ? & ?). split_and!; [by etrans|congruence..]. Qed.

Lemma grows_off_db w w' : off_db w' = off_db w -> grows w w'.
Proof. intros [= Hn Hi]. unfold grows. by rewrite Hn. Qed.

Lemma grows_send u pk d w rc w' :
  udp_ctx_wf (contents u) -> zlen d < 2 ^ 63 ->
  udp_send (contents u) pk d (zlen d) w = Val (rc, w') -> grows w w'.
Proof.
  intros Hu Hl Hrun. assert (Hf := untouched_udp_send _ _ _ _ _ _ _ Hrun). injection Hf as He Hq.
  split; [|by rewrite He, Hq].
  destruct (udp_send_broadcasts (contents u) pk d w Hu Hl) as (rc' & w1 & acc & Hrun' & Heff).
  rewrite Hrun in Hrun'. injection Hrun' as <- <-. case_bool_decide; [by destruct Heff as [_ ->]|].
  destruct Heff as ((_ & Hs & _) & _). cbn in Hs. rewrite Hs. by apply prefix_app_r.
Qed.

Lemma grows_sends u d ps w rcs w' :
  udp_ctx_wf (contents u) -> zlen d < 2 ^ 63 ->
  sends (udp_send (contents u)) d ps w rcs w' -> grows w w'.
Proof.
  intros Hu Hl. induction 1 as [w|q ps w rc w1 rcs w2 Hrun _ IH]; [done|].
  eapply grows_trans; [by eapply grows_send|done].
Qed.

Lemma grows_relayed u r p w w' :
  wires sq key u r -> packet_wf p -> zlen (pk_payload p) < 2 ^ 31 -> relayed r p w w' -> grows w w'.
Proof.
  intros (Ht & Hu & _) Hp Hl [[_ [_ Hs]]|(w1 & rc & w2 & [_ Hs1] & Hf & [_ Hs2])]; [by apply grows_silent|].
  unfold forwarded in Hf. rewrite Ht in Hf. cbn [mbind option_bind t_send udp_transport] in Hf.
  destruct Hf as (k & rcs & Hsn & _). assert (Hel := encode_length _ Hp).
  change BC_MESSAGE_HEADER_SIZE with 93 in Hel.
  eapply grows_trans; [by apply grows_silent|]. eapply grows_trans; [|by apply grows_silent].
  eapply grows_sends; [done| |done]. lia.
Qed.

Lemma grows_rebroadcasted u r w r' w' :
  wires sq key u r -> good sq past key w -> rebroadcasted r w r' w' -> grows w w'.
Proof.
  intros Hw Hg (now & w1 & _ & Hi & H). eapply grows_trans; [apply grows_silent, Hi|].
  assert (Hs : storage r = (fun '(self, ctx) => sqlite_storage self ctx) <$> sq) by apply Hw.
  assert (Hsq : sq = None \/ exists self ctx, sq = Some (self, ctx)) by (destruct sq as [[]|]; eauto).
  rewrite Hs in H. destruct Hsq as [Hsq|(self & ctx & Hsq)]; rewrite Hsq in H;
    cbn [fmap option_fmap option_map mbind option_bind sqlite_storage s_get_pending] in H;
    [by destruct H as [_ ->]|].
  destruct H as [(_ & _ & ->)|(_ & _ & rc & arr & count & w2 & Hrun & Hres)]; [done|].
  eapply grows_trans; [by eapply grows_off_db, untouched_get_pending|].
  case_bool_decide as Hrc; [|by subst w'].
  destruct (good_pending _ _ _ _ _ _ _ _ _ _ Hsq (good_idle _ _ _ _ _ Hi Hg) Hrun) as [_ Hall].
  specialize (Hall Hrc). clear Hrun Hg Hi Hrc.
  induction Hres as [w2 w' [_ Hs2]|p ps w2 w3 w4 w' Hrel [_ Hs3] _ IH]; [by apply grows_silent|].
  apply Forall_cons in Hall as [(Hp & Hl & _) Hall].
  eapply grows_trans; [by eapply grows_relayed|]. eapply grows_trans; [by apply grows_silent|by apply IH].
Qed.

(** ** A datagram that waits *)

(** A relay with a neighbour sends to all its ports while the network is up. *)
Lemma forwarded_reaches u r d w rc w' :
  wires sq key u r -> d <> [] -> zlen d < 2 ^ 63 -> net_up (sockfd (contents u)) w ->
  known_peers r <> [] -> 0 < fanout (config r) -> forwarded r d w rc w' ->
  exists new, n_sent (w_net w') = n_sent (w_net w) ++ to_ports d (ctx_ports (contents u)) ++ new.
Proof.
  intros (Ht & Hu & _) Hd Hl Hup Hk Hf H. unfold forwarded in H. rewrite Ht in H.
  cbn [mbind option_bind t_send udp_transport] in H.
  destruct H as (k & rcs & Hs & _ & _ & Hend & _).
  destruct (known_peers r) as [|q ps]; [done|]. destruct k as [|k].
  { inversion Hs; subst. destruct Hend as [? | He]; [done|]. rewrite ok_count_nil in He. lia. }
  cbn [take] in Hs. inversion Hs as [|? ? ? rc1 w1 rcs' ? Hrun Hs']; subst.
  destruct (udp_send_broadcasts (contents u) (peer_pubkey q) d w Hu Hl) as (rc' & w1' & acc & Hrun' & Heff).
  rewrite Hrun in Hrun'. injection Hrun' as <- <-. rewrite bool_decide_eq_false_2 in Heff by done.
  destruct Heff as ((_ & Hsent & _ & Hall) & _). destruct (Hall Hup) as [-> _].
  apply (grows_sends u) in Hs' as ((new & Hnew) & _); [|done|done]. exists new.
  cbn in Hsent. by rewrite Hnew, Hsent, <- (assoc_L (++)).
Qed.

Lemma stored_off_db u r m w w' : wires sq key u r -> stored r m w w' -> off_db w' = off_db w.
Proof.
  intros (_ & _ & Hs & _). unfold stored. rewrite Hs. destruct sq as [[self ctx]|];
    cbn [fmap option_fmap option_map mbind option_bind sqlite_storage s_store_message]; [|by intros ->].
  intros [rc Hrun]. by eapply untouched_store.
Qed.

Lemma stored_later r m w w' :
  ports_safe r -> heap_ok w -> message_wf m -> payload_len m < 2 ^ 31 -> stored r m w w' -> later w w'.
Proof.
  intros (_ & Hss & _) Hok Hm Hl. unfold stored. destruct (storage r) as [st|]; cbn [mbind option_bind];
    [|intros ->; apply later_refl].
  destruct (s_store_message st) as [f|] eqn:Hf; [|intros ->; apply later_refl]. intros [rc Hrun].
  specialize (Hss _ eq_refl). assert (H := store_safe f m w Hf Hok Hm Hl).
  apply balanced_later. exact (wp_outcome _ _ _ _ _ H Hrun).
Qed.

(** The packet was delivered, or sent to every port. *)
Definition reached u r p w w' : Prop :=
  if bool_decide (pk_receiver p = key)
  then app_inbox (w_ext w') = app_inbox (w_ext w) ++ [hop p]
  else app_inbox (w_ext w') = app_inbox (w_ext w) /\
    (known_peers r <> [] -> 0 < fanout (config r) ->
     exists new, n_sent (w_net w') =
       n_sent (w_net w) ++ to_ports (encode (hop p)) (ctx_ports (contents u)) ++ new).

(** Receiving a packet that can travel on and whose id is not remembered. *)
Lemma received_reaches u r p w rc r' w' :
  wires sq key u r -> heap_ok w -> never_oom w -> net_up (sockfd (contents u)) w ->
  packet_wf p -> zlen (pk_payload p) < 2 ^ 31 -> 0 < pk_ttl p ->
  ~ reachable (contents (dedup_table r)) (dedup_cap r) (pk_uuid p) ->
  received r (encode p) w rc r' w' ->
  n_queue (w_net w') = n_queue (w_net w) /\ reached u r p w w'.
Proof.
  intros Hw Hok Hno Hup Hp Hl Ht Hnr Hr. assert (Hkey : local_pubkey r = key) by apply Hw.
  assert (Hd := decode_encode p [] Hp ltac:(lia)). rewrite app_nil_r in Hd. unfold reached.
  destruct Hr as [w' Hd' _ _|p' w' Hd' Hoom _ _|p' w' Hd' Hre _ _|p' now t w' Hd' _ _ _ H0 _ _
    |p' now t m w1 w2 w' Hd' _ _ _ _ Hme Hm Hpk [_ [o1 ->]] Hdel [_ [o2 ->]] _
    |p' now t m w1 w2 w3 w4 w' Hd' _ _ _ _ Hme Hm Hpk Hi1 Hst Hi2 Hrel [_ [o5 ->]] _];
    rewrite Hd in Hd'; try done; injection Hd' as <-; try done; [lia|..].
  - rewrite bool_decide_eq_true_2 by congruence. destruct Hw as (_ & _ & _ & Hom & _).
    unfold delivered in Hdel. rewrite Hom in Hdel. injection Hdel as <-. cbn. by rewrite Hpk.
  - rewrite bool_decide_eq_false_2 by congruence.
    assert (Hpl : payload_len m = zlen (msg_payload m)) by apply Hm.
    apply (f_equal pk_payload) in Hpk as Hpp. cbn in Hpp. rewrite Hpp in Hpl.
    assert (Hwf : packet_wf (hop p)) by (rewrite <- Hpk; by apply message_packet_wf).
    assert (Hok1 : heap_ok w1) by by eauto with bitchat.
    assert (Hl2 := stored_later _ _ _ _ (wires_safe _ _ _ _ Hw) Hok1 Hm ltac:(lia) Hst).
    assert (Hdb := stored_off_db _ _ _ _ _ Hw Hst).
    assert (Hg : grows w w3).
    { eapply grows_trans; [apply grows_silent, Hi1|].
      eapply grows_trans; [by apply grows_off_db|apply grows_silent, Hi2]. }
    assert (Hnet : w_net w3 = w_net w).
    { destruct Hi1 as [_ [o1 ->]], Hi2 as [_ [o2 ->]]. by injection Hdb. }
    assert (Hno3 : never_oom w3) by by eauto 6 with bitchat.
    assert (Hg4 := grows_relayed _ _ _ _ _ Hw Hwf Hl Hrel).
    destruct (grows_trans _ _ _ Hg Hg4) as (_ & Hq & Hin). split; [exact Hq|]. split; [exact Hin|].
    intros Hk Hf. destruct Hrel as [[? _]|(wa & frc & wb & [_ [oa ->]] & Hfw & [_ [ob ->]])]; [done|].
    assert (Hel := encode_length _ Hwf). change BC_MESSAGE_HEADER_SIZE with 93 in Hel.
    apply (forwarded_reaches u) in Hfw; try done.
    + cbn in *. by rewrite Hnet in Hfw.
    + intros He. rewrite He in Hel. change (zlen []) with 0 in Hel. assert (H0 := zlen_nonneg (pk_payload (hop p))). lia.
    + cbn [hop pk_payload] in Hel. lia.
    + unfold net_up, socks in *. cbn in *. by rewrite Hnet.
Qed.

Lemma polled_empty u r w r' w' :
  n_queue (w_net w) = [] -> polled (udp_recv (contents u)) r w r' w' -> r' = r /\ w' = w.
Proof.
  intros Hq Hp. destruct Hp as [r buf pk w rc buf' out pk' w' _ Hl Hrun _
    |r buf pk w buf' out pk' w1 rc r1 w2 r2 w3 _ Hl Hrun Hpos _ _];
    destruct (udp_recv_effect _ _ _ _ _ _ _ _ _ Hl Hrun) as [(? & -> & _)|(port & d & q & _ & Ht & _)];
    try done; cbn in Ht; by rewrite Hq in Ht.
Qed.

Lemma polled_reaches u r p port w r' w' :
  wires sq key u r -> good sq past key w -> never_oom w -> net_up (sockfd (contents u)) w ->
  socks w !! sockfd (contents u) = Some (Some port) -> n_queue (w_net w) = [(port, encode p)] ->
  packet_wf p -> zlen (pk_payload p) <= 4096 - BC_MESSAGE_HEADER_SIZE -> 0 < pk_ttl p ->
  ~ reachable (contents (dedup_table r)) (dedup_cap r) (pk_uuid p) ->
  polled (udp_recv (contents u)) r w r' w' -> reached u r p w w'.
Proof.
  change (4096 - BC_MESSAGE_HEADER_SIZE) with 4003.
  intros Hw Hg Hno Hup Hport Hq Hp Hl Ht Hnr Hpol.
  assert (Hel := encode_length _ Hp). change BC_MESSAGE_HEADER_SIZE with 93 in Hel.
  assert (H0 := zlen_nonneg (pk_payload p)).
  assert (Htake : take_datagram port (n_queue (get_net w)) = Some (encode p, [])).
  { cbn. rewrite Hq. cbn. by rewrite bool_decide_eq_true_2. }
  destruct Hpol as [r buf pk w rc buf' out pk' w' _ Hlb Hrun Hend
    |r buf pk w buf' out pk' w1 rc r1 w2 r2 w3 Hb Hlb Hrun Hpos Hrcv Hrest];
    destruct (udp_recv_effect _ _ _ _ _ _ _ _ _ Hlb Hrun)
      as [(_ & _ & Hnone)|(port' & d & q & Hp' & Htk & -> & Hout & Hrc & He)];
    try (rewrite Hnone in Htake by (by rewrite Hport); done);
    rewrite Hport in Hp'; injection Hp' as <-; rewrite Htake in Htk; injection Htk as <- <-.
  { destruct Hend as [Hn|Hn]; [|lia]. destruct Hn. apply Hrc. intros Hnil.
    rewrite Hnil in Hel. change (zlen []) with 0 in Hel. lia. }
  rewrite map_to_u8_id, (take_ge (encode p)) in He; [|unfold zlen in *; lia|by apply encode_bytes].
  rewrite He in Hrcv. assert (Hu : udp_ctx_wf (contents u)) by apply Hw.
  destruct (good_recv _ _ _ _ _ _ _ _ _ _ _ _ Hu Hb Hlb Hrun Hg) as [[Hok1 _] _].
  destruct (received_reaches _ _ _ _ _ _ _ Hw Hok1 Hno Hup Hp ltac:(lia) Ht Hnr Hrcv) as [Hq2 Hre].
  destruct (polled_empty _ _ _ _ _ Hq2 Hrest) as [_ ->]. exact Hre.
Qed.

(** What has been reached stays reached. *)
Lemma reached_grows u r p w w1 w2 : reached u r p w w1 -> grows w1 w2 -> reached u r p w w2.
Proof.
  unfold reached. intros H ((more & Hs) & _ & Hi). case_bool_decide; [congruence|].
  destruct H as [H1 H2]. split; [congruence|]. intros Hk Hf. destruct (H2 Hk Hf) as [new Hn].
  exists (new ++ more). by rewrite Hs, Hn, <- !(assoc_L (++)).
Qed.

Lemma ticked_reaches u r p port w r' w' :
  wires sq key u r -> router_wf r -> good sq past key w -> never_oom w -> net_up (sockfd (contents u)) w ->
  socks w !! sockfd (contents u) = Some (Some port) -> n_queue (w_net w) = [(port, encode p)] ->
  packet_wf p -> zlen (pk_payload p) <= 4096 - BC_MESSAGE_HEADER_SIZE -> 0 < pk_ttl p ->
  (forall now w1, clock_read w w1 now ->
     expired_id (contents (dedup_table r)) (dedup_max_age (config r)) now (pk_uuid p)) ->
  ticked r w r' w' -> reached u r p w w'.
Proof.
  intros Hw Hwf Hg Hno Hup Hport Hq Hp Hl Ht Hid (now & r1 & w1 & w2 & r2 & w3 & Hclk & Hi & Hpol & Hre & -> & _ & Hev).
  assert (Htr : transport r = Some (udp_transport u)) by apply Hw.
  cbv zeta in Hpol. rewrite Htr in Hpol. cbn [mbind option_bind t_recv udp_transport] in Hpol.
  assert (Hg1 := good_idle _ _ _ _ _ Hi Hg). assert (Hno1 : never_oom w1) by by eauto with bitchat.
  apply Hid in Hclk. destruct Hi as [_ [o1 ->]].
  set (r0 := set_table _ r) in Hpol. assert (Hw0 : wires sq key u r0) by done.
  assert (Hr1 : reached u r p w w2).
  { change (reached u r0 p (set_os o1 w) w2).
    apply (polled_reaches u r0 p port _ r1 w2); try done. by apply evict_forgets. }
  assert (Hg2 := good_polled _ _ _ _ _ _ _ _ Hw0 Hpol Hg1).
  assert (Hw1 : wires sq key u r1) by (eapply wires_same; [by eapply polled_wiring|done]).
  eapply reached_grows; [exact Hr1|]. eapply grows_trans; [by eapply grows_rebroadcasted|].
  assert (Hs : storage r = (fun '(self, ctx) => sqlite_storage self ctx) <$> sq) by apply Hw.
  rewrite Hs in Hev. destruct sq as [[self ctx]|];
    cbn [fmap option_fmap option_map mbind option_bind sqlite_storage s_evict_expired] in Hev; [|by subst].
  destruct Hev as [rc Hrun]. by eapply grows_off_db, untouched_evict.
Qed.
End node.

(** ** Routes *)

Section routes.
Context {E : Type} `{!Sqlite E, !SqliteSpec E, !BindsSucceed E}.
Implicit Types (n : gossip_node E) (s : mesh E).

(** Memory does not run out and the socket accepts what is sent. *)
Definition up n : Prop :=
  never_oom (gn_world n) /\ net_up (sockfd (contents (gn_udp n))) (gn_world n).

(** The id [u] was never seen or will have expired at the next tick. *)
Definition forgets n (u : list Z) : Prop :=
  forall c, (os_reads (get_os (gn_world n)) <= c)%nat ->
    expired_id (contents (dedup_table (gn_router n))) (dedup_max_age (config (gn_router n)))
      (to_u64 (os_now (get_os (gn_world n)) c)) u.

(** Packets that fit the receive buffer of the tick and can travel on. *)
Definition travels (p : packet) : Prop :=
  packet_wf p /\ zlen (pk_payload p) <= 4096 - BC_MESSAGE_HEADER_SIZE /\ 0 < pk_ttl p.

(** A node that is about to receive on [port], with nothing else waiting. *)
Definition idle_at n (port : Z) (u : list Z) : Prop :=
  up n /\ listens n port /\ n_queue (gn_net n) = [] /\ forgets n u.

(** A node that passes on what is not for it. *)
Definition relays n : Prop :=
  known_peers (gn_router n) <> [] /\ 0 < fanout (config (gn_router n)).

(** [path] leads from [port] to the node with the key [rcv]: each node but the
    last sends to the port of the next. *)
Fixpoint route s (u rcv : list Z) (port : Z) (path : list nat) : Prop :=
  match path with
  | [] => False
  | i :: rest =>
      exists n, nodes s !! i = Some n /\ idle_at n port u /\
      match rest with
      | [] => local_pubkey (gn_router n) = rcv
      | _ :: _ => local_pubkey (gn_router n) <> rcv /\ relays n /\
                  exists q, q ∈ ctx_ports (contents (gn_udp n)) /\ route s u rcv q rest
      end
  end.

Lemma route_frame s s' u rcv port path :
  (forall i, i ∈ path -> nodes s' !! i = nodes s !! i) -> route s u rcv port path ->
  route s' u rcv port path.
Proof.
  revert port. induction path as [|i rest IH]; intros port Hf H; [done|].
  destruct H as (n & Hn & Hi & H). exists n. rewrite Hf by set_solver. split_and!; [done|done|].
  destruct rest as [|j rest]; [done|]. destruct H as (Hk & Hr & q & Hq & H).
  split_and!; [done|done|]. exists q. split; [done|]. apply IH; [|done]. intros. apply Hf. set_solver.
Qed.

(** A datagram arrives at an idle node and the node ticks. *)
Lemma arrive_tick past s i n port p k :
  mesh_ok past s -> nodes s !! i = Some n -> idle_at n port (pk_uuid p) -> travels p ->
  flight s !! k = Some (port, encode p) ->
  exists s' r w, run [LDeliver i k; LTick i] s s' /\ mesh_ok past s' /\
    nodes s' = <[i := gn_after r w n]> (nodes s) /\
    flight s' = delete k (flight s) ++ drop (length (n_sent (gn_net n))) (n_sent (w_net w)) /\
    reached (local_pubkey (gn_router n)) (gn_udp n) (gn_router n) p (gn_world n) w.
Proof.
  intros Hok Hn ([Hno Hup] & Hport & Hq & Hid) (Hp & Hl & Ht) Hk.
  set (n1 := gn_arrival (port, encode p) n).
  set (s1 := mkMesh (<[i := n1]> (nodes s)) (delete k (flight s))).
  assert (Hst1 : mesh_step (LDeliver i k) s s1) by by eapply (step_deliver i k n (port, encode p)).
  assert (Hok1 := step_keeps _ _ _ _ Hok Hst1). cbn in Hok1. rewrite app_nil_r in Hok1.
  assert (Hi1 : nodes s1 !! i = Some n1) by (apply list_lookup_insert_eq; by eapply lookup_lt_Some).
  assert (Hno1 := Forall_lookup_1 _ _ _ _ (proj1 Hok1) Hi1).
  destruct (node_tick past n1 Hno1) as (r & w & He & _ & _ & Htk).
  assert (Hst2 : mesh_step (LTick i) s1 (after_call i n1 r w s1)) by by econstructor.
  assert (Hok2 := step_keeps _ _ _ _ Hok1 Hst2). cbn [broadcasts omap list_omap] in Hok2. rewrite app_nil_r in Hok2.
  exists (after_call i n1 r w s1), r, w. split; [econstructor; [done|econstructor; [done|constructor]]|].
  split; [done|]. split; [cbn; by rewrite list_insert_insert_eq|]. split; [done|].
  destruct Hno1 as (Hwf & Hw & Hg).
  apply (ticked_reaches (gn_sql n) past _ _ _ _ port _ r w Hw Hwf Hg Hno Hup Hport); try done.
  - cbn. by rewrite Hq.
  - intros now w1 (c & Hc & ->). apply Hid, Hc.
Qed.

(** The packet after [k] hops. *)
Fixpoint hops (k : nat) (p : packet) : packet :=
  match k with O => p | S k => hops k (hop p) end.

Lemma hop_wf p : packet_wf p -> 0 < pk_ttl p -> packet_wf (hop p).
Proof. intros (? & ? & ?) Ht. split; [done|]. split; [cbn; size_lia|done]. Qed.

Lemma route_delivers past s p port path k :
  mesh_ok past s -> route s (pk_uuid p) (pk_receiver p) port path -> NoDup path ->
  packet_wf p -> zlen (pk_payload p) <= 4096 - BC_MESSAGE_HEADER_SIZE ->
  Z.of_nat (length path) <= pk_ttl p -> flight s !! k = Some (port, encode p) ->
  exists ls s' j n n', last path = Some j /\ run ls s s' /\ broadcasts ls = [] /\
    nodes s !! j = Some n /\ nodes s' !! j = Some n' /\
    gn_inbox n' = gn_inbox n ++ [hops (length path) p].
Proof.
  revert s p port k. induction path as [|i rest IH]; intros s p port k Hok Hr Hnd Hp Hl Ht Hk; [done|].
  destruct Hr as (n & Hn & Hi & Hr). cbn [length] in Ht.
  assert (Htr : travels p) by (split_and!; [done|done|lia]).
  destruct (arrive_tick past s i n port p k Hok Hn Hi Htr Hk) as (s1 & r & w & Hrun & Hok1 & Hs1 & Hf1 & Hre).
  assert (Hlt := lookup_lt_Some _ _ _ Hn). unfold reached in Hre.
  destruct rest as [|j rest].
  { rewrite bool_decide_eq_true_2 in Hre by done. exists [LDeliver i k; LTick i], s1, i, n, (gn_after r w n).
    split_and!; try done. rewrite Hs1. by apply list_lookup_insert_eq. }
  destruct Hr as (Hkey & [Hpe Hfa] & q & Hq & Hr). rewrite bool_decide_eq_false_2 in Hre by congruence.
  destruct Hre as [_ Hre]. destruct (Hre Hpe Hfa) as [new Hnew]. apply NoDup_cons in Hnd as [Hni Hnd].
  assert (Hin : (q, encode (hop p)) ∈ flight s1).
  { rewrite Hf1. unfold gn_net. rewrite Hnew, drop_app_length. apply elem_of_app; right.
    apply elem_of_app; left. unfold to_ports. apply list_elem_of_fmap. by exists q. }
  apply list_elem_of_lookup in Hin as [k' Hk'].
  destruct (IH s1 (hop p) q k') as (ls & s2 & jl & nl & nl' & Hlast & Hrun2 & Hb & Hnl & Hnl' & Hin);
    [done| |done|apply hop_wf; [done|lia]|done|cbn [hop pk_ttl]; lia|done|].
  { eapply route_frame; [|exact Hr]. intros i' Hi'. rewrite Hs1, list_lookup_insert_ne; [done|].
    intros ->. done. }
  exists ([LDeliver i k; LTick i] ++ ls), s2, jl, nl, nl'. split_and!; try done.
  - by eapply mesh_run_app.
  - rewrite Hs1, list_lookup_insert_ne in Hnl; [done|]. intros ->.
    apply Hni. by eapply last_Some_elem_of.
Qed.

(** A broadcast puts the packet on the way to every port. *)
Lemma broadcast_departs past s a n m :
  mesh_ok past s -> nodes s !! a = Some n -> up n -> relays n -> message_wf m -> payload_len m < 2 ^ 31 ->
  exists s' r w, mesh_step (LBroadcast a m) s s' /\ nodes s' = <[a := gn_after r w n]> (nodes s) /\
    forall q, q ∈ ctx_ports (contents (gn_udp n)) -> (q, encode (msg_packet m)) ∈ flight s'.
Proof.
  intros Hok Hn [Hno Hup] [Hpe Hfa] Hm Hl.
  destruct (Forall_lookup_1 _ _ _ _ (proj1 Hok) Hn) as (Hwf & Hw & Hh & _).
  assert (H := @wp_broadcast _ _ (@world_inv _ (node_ext (gn_sql n))) _ m _ Hwf (wires_safe _ _ _ _ Hw) Hh Hm Hl).
  apply wp_val in H as ([rc o] & w & Hrun & _ & now & t & _ & _ & -> & _ & Hcase).
  exists (after_call a n (set_table t (gn_router n)) w s), (set_table t (gn_router n)), w.
  split; [by econstructor|]. split; [done|]. intros q Hq.
  destruct Hcase as [(_ & ? & _)|(_ & w1 & frc & w2 & w3 & Hi1 & Hf & Hst & Hi3)]; [done|].
  assert (Hpw := message_packet_wf _ Hm). assert (Hel := encode_length _ Hpw).
  change BC_MESSAGE_HEADER_SIZE with 93 in Hel. cbn [msg_packet pk_payload] in Hel.
  assert (Hpl : payload_len m = zlen (msg_payload m)) by apply Hm. assert (H0 := zlen_nonneg (msg_payload m)).
  apply (stored_off_db _ _ _ _ _ _ _ Hw) in Hst. destruct Hi1 as [_ [o1 ->]], Hi3 as [_ [o3 ->]].
  apply (forwarded_reaches _ _ _ _ _ _ _ _ Hw) in Hf as [new Hnew]; try done; [|by intros He; rewrite He in Hel; change (zlen []) with 0 in Hel; lia|lia].
  injection Hst as Hnet _. cbn. unfold gn_net. rewrite Hnet. cbn in Hnew. rewrite Hnew, drop_app_length.
  apply elem_of_app; right. apply elem_of_app; left. apply list_elem_of_fmap. by exists q.
Qed.

(** A broadcast that travels a route to its end. *)
Lemma broadcast_travels past s a n m q path :
  mesh_ok past s -> nodes s !! a = Some n -> up n -> relays n -> message_wf m ->
  payload_len m <= 4096 - BC_MESSAGE_HEADER_SIZE ->
  q ∈ ctx_ports (contents (gn_udp n)) -> route s (uuid m) (receiver_pubkey m) q path ->
  NoDup (a :: path) -> Z.of_nat (length path) <= ttl m ->
  exists ls s' j nj nj', last path = Some j /\ run (LBroadcast a m :: ls) s s' /\ broadcasts ls = [] /\
    nodes s !! j = Some nj /\ nodes s' !! j = Some nj' /\
    gn_inbox nj' = gn_inbox nj ++ [hops (length path) (msg_packet m)].
Proof.
  change (4096 - BC_MESSAGE_HEADER_SIZE) with 4003.
  intros Hok Hn Hup Hre Hm Hl Hq Hr [Hna Hnd]%NoDup_cons Ht.
  destruct (broadcast_departs past s a n m Hok Hn Hup Hre Hm ltac:(lia)) as (s1 & r & w & Hst & Hs1 & Hall).
  assert (Hok1 := step_keeps _ _ _ _ Hok Hst). destruct (proj1 (list_elem_of_lookup _ _) (Hall q Hq)) as [k Hk].
  assert (Hpl : payload_len m = zlen (msg_payload m)) by apply Hm.
  assert (Hsame : forall i, i ∈ path -> nodes s1 !! i = nodes s !! i).
  { intros i Hi. rewrite Hs1, list_lookup_insert_ne; [done|]. intros ->. done. }
  destruct (route_delivers _ s1 (msg_packet m) q path k Hok1) as (ls & s2 & j & nj & nj' & Hlast & Hrun & Hb & Hj & Hj' & Hin);
    [by eapply route_frame|done|by apply message_packet_wf|change (zlen (msg_payload m) <= 4003); lia|done|done|].
  exists ls, s2, j, nj, nj'. split_and!; try done; [by econstructor|].
  rewrite <- Hsame; [done|]. by eapply last_Some_elem_of.
Qed.

(** C4: gossip reaches the addressee: when the application of a node [a] that
    has a neighbour broadcasts a message that fits the receive buffer, and
    [path] is a route from one of [a]'s ports to the node that owns the
    receiver's key - nodes that are up, listen, wait for nothing else and do
    not remember the id, each sending to the port of the next - no longer than
    the message's time-to-live, then there is a run of the mesh without any
    other broadcast after which the addressee's application has been handed the
    message exactly once more, with a time-to-live lower by the length of the
    route. *)
Theorem broadcast_reaches past s a n m q path :
  mesh_ok past s -> nodes s !! a = Some n -> up n -> relays n -> message_wf m ->
  payload_len m <= 4096 - BC_MESSAGE_HEADER_SIZE ->
  q ∈ ctx_ports (contents (gn_udp n)) -> route s (uuid m) (receiver_pubkey m) q path ->
  NoDup (a :: path) -> Z.of_nat (length path) <= ttl m ->
  exists ls s' j nj nj', last path = Some j /\ run (LBroadcast a m :: ls) s s' /\ broadcasts ls = [] /\
    nodes s !! j = Some nj /\ nodes s' !! j = Some nj' /\
    gn_inbox nj' = gn_inbox nj ++ [hops (length path) (msg_packet m)].
Proof. apply broadcast_travels. Qed.

(** C20: a waiting message is delivered unless its id is remembered: when the
    only datagram that waits at the sockets of a node of the mesh is on a port it
    listens to, carries a message for the node's own key that fits the receive
    buffer and has hops left, the node is up (memory does not run out and its
    socket accepts what is sent), and no unexpired entry of the node's table
    holds the message's id, the node's next tick hands the message to the application exactly once -
    whether the id was never seen or was seen, and the message delivered, more
    than [dedup_max_age] seconds ago. *)
Theorem tick_delivers past n port p :
  node_ok past n -> up n -> listens n port -> n_queue (gn_net n) = [(port, encode p)] ->
  travels p -> forgets n (pk_uuid p) -> pk_receiver p = local_pubkey (gn_router n) ->
  exists r w, bc_router_tick (enough n) (Some (gn_router n)) (gn_world n) = Val (Some r, w) /\
    node_ok past (gn_after r w n) /\ app_inbox (w_ext w) = gn_inbox n ++ [hop p].
Proof.
  intros Hok [Hno Hup] Hport Hq (Hp & Hl & Ht) Hid Hkey.
  destruct (node_tick past n Hok) as (r & w & He & Hok' & _ & Htk). exists r, w. split_and!; [done|done|].
  destruct Hok as (Hwf & Hw & Hg).
  assert (Hre := ticked_reaches (gn_sql n) past _ _ _ p port _ r w Hw Hwf Hg Hno Hup Hport Hq Hp Hl Ht).
  unfold reached in Hre. rewrite bool_decide_eq_true_2 in Hre by done. apply Hre; [|done].
  intros now w1 (c & Hc & ->). apply Hid, Hc.
Qed.
End routes.
