(* ===== verification/MeshOnce.v ===== *)
(** * MeshOnce: at most once

    As long as no id expires and no table is full, the cache of seen ids makes
    gossip exact: whatever the network delays, reorders, loses or duplicates, no
    application is handed a message twice ([delivered_once]) and no node relays
    a message twice ([relayed_once]). *)
From S2P Require Import Prelude Effects Errors Message Peer Ports Sockets World UdpTransport.
From S2P Require Import Sqlite SqliteStorage SqliteStorageSpec SqliteStorageProps Dedup Router RouterSpec.
From S2P Require Import RouterProps Mesh MeshInv MeshProps MeshFlow MeshReach.

(** ** A table that forgets nothing *)

(** The ids a table holds. *)
Definition ids (t : list bc_dedup_entry) : list (list Z) :=
  e_uuid <$> filter (fun e => occupied e <> 0) t.

Lemma ids_insert t s e u now :
  t !! s = Some e -> occupied e = 0 -> ids (<[s := mkEntry u now 1]> t) ≡ₚ u :: ids t.
Proof.
  intros Hs He. assert (Hlt := lookup_lt_Some _ _ _ Hs). unfold ids.
  rewrite insert_take_drop by done. rewrite <- (take_drop_middle t s e Hs) at 3.
  rewrite !filter_app, !filter_cons, !decide_True, decide_False by (cbn; lia).
  rewrite !fmap_app. cbn. by rewrite Permutation_middle.
Qed.

Lemma elem_of_ids t u : u ∈ ids t <-> exists s e, t !! s = Some e /\ occupied e <> 0 /\ e_uuid e = u.
Proof.
  unfold ids. rewrite list_elem_of_fmap. split.
  - intros (e & -> & [Ho [s Hs]%list_elem_of_lookup]%list_elem_of_filter). eauto.
  - intros (s & e & Hs & Ho & <-). exists e. split; [done|]. apply list_elem_of_filter.
    split; [done|]. by eapply list_elem_of_lookup_2.
Qed.

(** No reading of the clock is more than [max_age] later than an earlier one. *)
Definition steady (clk : nat -> Z) (max_age : Z) : Prop :=
  forall c c' e, (c' <= c)%nat -> seen_at e = to_u64 (clk c') ->
    expired (to_u64 (clk c)) max_age e = false.

(** The table holds each of some of the [known] ids once, where they are found,
    with the times of the first [reads] readings of the clock. *)
Record memory (clk : nat -> Z) (reads : nat) (known : list (list Z))
    (t : list bc_dedup_entry) (cap : Z) : Prop := mkMemory {
  mem_wf : table_wf t cap;
  mem_probe : probe_inv t cap;
  mem_nodup : NoDup (ids t);
  mem_known : ids t ⊆ known;
  mem_times : Forall (fun e => occupied e <> 0 ->
    exists c, (c < reads)%nat /\ seen_at e = to_u64 (clk c)) t
}.

Section memory.
Context (clk : nat -> Z).

Lemma memory_mono reads reads' known known' t cap :
  (reads <= reads')%nat -> known ⊆ known' -> memory clk reads known t cap -> memory clk reads' known' t cap.
Proof.
  intros Hr Hk []. split; try done; [set_solver|]. eapply Forall_impl; [done|].
  intros e H Ho. destruct (H Ho) as (c & Hc & Hs). exists c. split; [lia|done].
Qed.

Lemma memory_empty reads known t cap : table_wf t cap -> ids t = [] -> memory clk reads known t cap.
Proof.
  intros Hwf Hi. assert (Hno : forall s e, t !! s = Some e -> occupied e = 0).
  { intros s e Hs. destruct (decide (occupied e = 0)); [done|].
    assert (Hin : e_uuid e ∈ ids t) by (apply elem_of_ids; by eauto). rewrite Hi in Hin. set_solver. }
  split; [done| |rewrite Hi; constructor|rewrite Hi; set_solver|].
  - intros u i Hi0 Ho. by rewrite (Hno _ _ (probe_lookup t cap Hwf u i Hi0)) in Ho.
  - apply Forall_lookup. intros s e Hs Ho. by rewrite (Hno _ _ Hs) in Ho.
Qed.

Lemma memory_found reads known t cap u :
  memory clk reads known t cap -> u ∈ ids t -> reachable t cap u.
Proof.
  intros [] (s & e & Hs & Ho & Hu)%elem_of_ids. assert (Hlt := lookup_lt_Some _ _ _ Hs).
  destruct (probe_covers t cap mem_wf0 u s Hlt) as (i & Hi & <-). exists i.
  assert (He : probe_entry t cap u i = e) by (unfold probe_entry; by rewrite Hs).
  apply mem_probe0; by rewrite ?He.
Qed.

Context (max_age : Z) (Hst : steady clk max_age).

Lemma memory_fresh reads known t cap c :
  memory clk reads known t cap -> (reads <= c)%nat -> none_expired t max_age (to_u64 (clk c)).
Proof.
  intros [] Hc. eapply Forall_impl; [done|]. intros e H Ho. destruct (H Ho) as (c' & Hc' & Hs).
  eapply Hst; [|done]. lia.
Qed.

Lemma memory_evict reads known t cap c :
  memory clk reads known t cap -> (reads <= c)%nat -> evict_entry max_age (to_u64 (clk c)) <$> t = t.
Proof.
  intros Hm Hc. assert (Hf := memory_fresh _ _ _ _ _ Hm Hc).
  rewrite <- (list_fmap_id t) at 2. apply list_fmap_ext. intros s e Hs.
  assert (He := Forall_lookup_1 _ _ _ _ Hf Hs). cbn in He. unfold evict_entry.
  case_bool_decide as Ho; [by rewrite He|done].
Qed.

(** With room left, a new id takes a free slot. *)
Lemma inserted_free reads known t cap c u t' :
  memory clk reads known t cap -> (reads <= c)%nat -> Z.of_nat (length (ids t)) < cap ->
  inserted t cap max_age (to_u64 (clk c)) u t' -> ids t' ≡ₚ u :: ids t.
Proof.
  intros Hm Hc Hroom (k & (Hk & _ & Hre) & ->). assert (Hf := memory_fresh _ _ _ _ _ Hm Hc).
  assert (Hl := probe_lookup t cap (mem_wf _ _ _ _ _ Hm) u k Hk).
  destruct Hre as [[H0|Hex]|[_ Hall]].
  - by eapply ids_insert.
  - destruct (decide (occupied (probe_entry t cap u k) = 0)) as [H0|Ho]; [by eapply ids_insert|].
    assert (He := Forall_lookup_1 _ _ _ _ Hf Hl Ho). congruence.
  - exfalso. assert (Hlen : length (ids t) = length t).
    { clear -Hall. unfold ids. rewrite length_fmap. induction Hall as [|e t [Ho _] _ IH]; [done|].
      rewrite filter_cons_True by done. cbn. by rewrite IH. }
    destruct (mem_wf _ _ _ _ _ Hm) as (Hz & _). unfold zlen in Hz. lia.
Qed.

Lemma memory_inserted reads reads' known t cap c u t' :
  memory clk reads known t cap -> (reads <= c < reads')%nat -> bytes_n 16 u -> u ∈ known ->
  (u ∉ ids t) -> Z.of_nat (length known) <= cap ->
  inserted t cap max_age (to_u64 (clk c)) u t' ->
  memory clk reads' known t' cap /\ ids t' ≡ₚ u :: ids t.
Proof.
  intros Hm Hc Hu Hk Hnew Hcap Hins. assert (Hroom : Z.of_nat (length (ids t)) < cap).
  { assert (Hs : (S (length (ids t)) <= length known)%nat); [|lia].
    apply (submseteq_length (u :: ids t)), NoDup_submseteq.
    - constructor; [done|apply Hm].
    - assert (Hsub := mem_known _ _ _ _ _ Hm). set_solver. }
  assert (Hp := inserted_free reads known t cap c u t' Hm ltac:(lia) Hroom Hins). split; [|done].
  assert (Hm' := memory_mono reads reads' _ _ _ _ ltac:(lia) (reflexivity known) Hm). destruct Hm'.
  split.
  - by eapply (inserted_wf t cap mem_wf0); [done|apply to_u64_range|exact Hins].
  - by eapply inserted_probe_inv.
  - rewrite Hp. by constructor.
  - rewrite Hp. set_solver.
  - destruct Hins as (k & _ & ->). apply Forall_insert; [done|]. intros _. exists c. split; [lia|done].
Qed.
End memory.

(** ** A node *)

Section node.
Context {E : Type} `{!Sqlite E, !SqliteSpec E, !BindsSucceed E}.
Context (sq : option (blk * box sqlite_ctx)) (past : list packet) (key : list Z).
Context (clk : nat -> Z) (K B : nat).
Abbreviation W := (world (app_state E)).
Implicit Types (w : W) (r : bc_router W).
#[local] Existing Instance node_ext.
#[local] Instance once_node : ExtInv (app_state E) := node_ext sq.

(** The router's table holds each id it was given once; what was delivered, and
    what a node without storage sent, is accounted for by these ids. *)
Record recalls u r w : Prop := mkRecalls {
  rc_clock : os_now (w_os w) = clk;
  rc_steady : steady clk (dedup_max_age (config r));
  rc_room : (length past <= K)%nat /\ Z.of_nat K <= dedup_cap r;
  rc_memory : memory clk (os_reads (w_os w)) (pk_uuid <$> past) (contents (dedup_table r)) (dedup_cap r);
  rc_once : NoDup (pk_uuid <$> app_inbox (w_ext w));
  rc_inbox : (pk_uuid <$> app_inbox (w_ext w)) ⊆ ids (contents (dedup_table r));
  rc_sent : sq = None -> fanout (config r) * zlen (ctx_ports (contents u)) <= Z.of_nat B ->
    (length (n_sent (w_net w)) <= B * length (ids (contents (dedup_table r))))%nat
}.

(** Time passes; nothing is delivered or sent. *)
Lemma recalls_later u r w w' :
  later w w' -> app_inbox (w_ext w') = app_inbox (w_ext w) ->
  (sq = None -> n_sent (w_net w') = n_sent (w_net w)) -> recalls u r w -> recalls u r w'.
Proof.
  intros [(Hc & _ & _ & Hr & _) _] Hi Hs []. change (os_now (w_os w') = os_now (w_os w)) in Hc.
  split; rewrite ?Hi; try done; [congruence| |].
  - eapply memory_mono; [exact Hr|done|done].
  - intros Hq HB. rewrite Hs by done. auto.
Qed.

Lemma recalls_idle u r w w' : idle w w' -> recalls u r w -> recalls u r w'.
Proof. intros [Hl [o ->]]. by apply recalls_later. Qed.

(** A new id is recorded, its message delivered or relayed. *)
Lemma recalls_new u r w w' now id t dl :
  balanced w w' -> clock_read w w' now -> bytes_n 16 id -> id ∈ pk_uuid <$> past ->
  (id ∉ ids (contents (dedup_table r))) ->
  inserted (contents (dedup_table r)) (dedup_cap r) (dedup_max_age (config r)) now id t ->
  app_inbox (w_ext w') = app_inbox (w_ext w) ++ dl -> pk_uuid <$> dl ⊆ [id] -> (length dl <= 1)%nat ->
  (sq = None -> fanout (config r) * zlen (ctx_ports (contents u)) <= Z.of_nat B ->
   (length (n_sent (w_net w')) <= length (n_sent (w_net w)) + B)%nat) ->
  recalls u r w -> recalls u (set_table t r) w'.
Proof.
  intros [[(Hc & _) _] _] (c & Hrd & ->) Hb Hid Hnew Hins Hi Hsub Hlen Hs [].
  change (os_now (w_os w') = os_now (w_os w)) in Hc.
  change (os_now (get_os w)) with (os_now (w_os w)) in Hins. rewrite rc_clock0 in Hins.
  destruct (memory_inserted clk _ rc_steady0 _ (os_reads (w_os w')) _ _ _ c id t rc_memory0 Hrd Hb Hid Hnew)
    as [Hm Hp]; [rewrite length_fmap; lia|done|].
  split; cbn [set_table config dedup_cap dedup_table contents]; try done; [congruence| | |].
  - rewrite Hi, fmap_app. apply NoDup_app. split; [done|]. split.
    + intros x Hx Hx'. apply Hnew, rc_inbox0. apply Hsub in Hx' as ->%list_elem_of_singleton. done.
    + destruct dl as [|p [|q dl]]; cbn in *; [constructor|apply NoDup_singleton|lia].
  - rewrite Hi, fmap_app, Hp. set_solver.
  - intros Hq HB. rewrite Hp. cbn [length]. specialize (Hs Hq HB). specialize (rc_sent0 Hq HB). lia.
Qed.

Lemma descends_id p : descends past p -> pk_uuid p ∈ pk_uuid <$> past.
Proof. intros (p0 & Hin & -> & _). by apply list_elem_of_fmap_2. Qed.

Lemma recalls_received u r d n w rc r' w' :
  wires sq key u r -> datagram_from past d -> good sq past key w ->
  received r (take n (map to_u8 d)) w rc r' w' -> recalls u r w -> recalls u r' w'.
Proof.
  intros Hw Hd Hg Hr Hre.
  assert (Hnew : forall p, ~ reachable (contents (dedup_table r)) (dedup_cap r) (pk_uuid p) ->
    pk_uuid p ∉ ids (contents (dedup_table r))).
  { intros p Hn Hin. by eapply Hn, memory_found; [apply Hre|]. }
  destruct Hr as [w' _ Hs Hb|p w' _ _ Hs Hb|p w' _ _ Hs Hb|p now t w' Hdec Hn Hins Hclk _ Hs Hb
    |p now t m w1 w2 w' Hdec Hn Hins Hclk Hpos Hme Hm Hpk [_ [o1 ->]] Hdel [_ [o2 ->]] Hb
    |p now t m w1 w2 w3 w4 w' Hdec Hn Hins Hclk Hpos Hme Hm Hpk Hi1 Hst Hi2 Hrel [_ [o5 ->]] Hb];
    try (by eapply recalls_idle; [split; [apply Hb|done]|]);
    destruct (decode_datagram _ _ _ _ Hd Hdec) as (_ & Hpw & Hlen & Hdes);
    assert (Hid : bytes_n 16 (pk_uuid p)) by apply Hpw.
  - destruct Hs as [o ->]. eapply (recalls_new u r w _ now (pk_uuid p) t []);
      [done|done|done|by apply descends_id|by apply Hnew|done|by rewrite app_nil_r|set_solver|cbn; lia|cbn; lia|done].
  - assert (Hom : on_message r = Some note_message) by apply Hw.
    unfold delivered in Hdel. rewrite Hom in Hdel. injection Hdel as <-.
    eapply (recalls_new u r w _ now (pk_uuid p) t [msg_packet m]);
      [done|done|done|by apply descends_id|by apply Hnew|done|done|by rewrite Hpk|cbn; lia|cbn; lia|done].
  - assert (Hwf : packet_wf (hop p)) by (rewrite <- Hpk; by apply message_packet_wf).
    assert (Hnet : off_db w3 = off_db w).
    { apply stored_off_db with (u := u) (sq := sq) (key := key) in Hst; [|done].
      destruct Hi1 as [_ [o1 ->]], Hi2 as [_ [o2 ->]]. done. }
    injection Hnet as Hn3 Hi3.
    destruct (grows_relayed _ _ _ _ _ _ _ Hw Hwf Hlen Hrel) as (_ & _ & Hi4).
    eapply (recalls_new u r w _ now (pk_uuid p) t []);
      [done|done|done|by apply descends_id|by apply Hnew|done| |set_solver|cbn; lia| |done].
    + cbn. by rewrite app_nil_r, Hi4, Hi3.
    + intros Hq HB. destruct (relayed_count _ _ B _ _ _ _ _ Hw Hwf Hlen HB Hrel) as (new & Hs & _ & _ & Hc).
      cbn. rewrite Hs, length_app, Hn3. lia.
Qed.

Lemma recalls_polled u r w r' w' :
  wires sq key u r -> polled (udp_recv (contents u)) r w r' w' -> good sq past key w ->
  recalls u r w -> recalls u r' w'.
Proof.
  intros Hw Hp. induction Hp as [r buf pk w rc buf' out pk' w' Hb Hl Hrun Hend
    |r buf pk w buf' out pk' w1 rc r1 w2 r2 w3 Hb Hl Hrun Hpos Hrcv _ IH]; intros Hg Hre.
  - destruct (udp_recv_effect _ _ _ _ _ _ _ _ _ Hl Hrun) as [(_ & -> & _)|(port & d & q & _ & _ & -> & _)]; [done|].
    by destruct Hre.
  - assert (Hu : udp_ctx_wf (contents u)) by apply Hw.
    destruct (good_recv _ _ _ _ _ _ _ _ _ _ _ _ Hu Hb Hl Hrun Hg) as (Hg1 & Hd).
    destruct (Hd eq_refl) as (d & Hdf & He). rewrite He in Hrcv.
    assert (Hre1 : recalls u r w1).
    { destruct (udp_recv_effect _ _ _ _ _ _ _ _ _ Hl Hrun) as [(? & _)|(port & d' & q & _ & _ & -> & _)]; [done|].
      by destruct Hre. }
    apply IH; [eapply wires_same; [by eapply received_wiring|done]| |].
    + by eapply good_received.
    + by eapply recalls_received.
Qed.

Lemma recalls_rebroadcasted u r w r' w1 w' :
  wires sq key u r -> good sq past key w -> rebroadcasted r w r' w1 -> later w w' ->
  app_inbox (w_ext w') = app_inbox (w_ext w1) -> (sq = None -> w' = w1) ->
  recalls u r w -> recalls u r' w'.
Proof.
  intros Hw Hg Hre Hl Hi Heq Hrc.
  destruct (grows_rebroadcasted _ _ _ _ _ _ _ _ Hw Hg Hre) as (_ & _ & Hin). rewrite Hin in Hi.
  assert (Hs : sq = None -> n_sent (w_net w') = n_sent (w_net w)).
  { intros Hq. rewrite (Heq Hq). destruct Hre as (now & w2 & _ & [_ [o ->]] & Hre).
    assert (Hst : storage r = None) by (destruct Hw as (_ & _ & -> & _); by rewrite Hq).
    rewrite Hst in Hre. by destruct Hre as [_ ->]. }
  apply (recalls_later _ _ _ _ Hl Hi Hs) in Hrc.
  destruct Hre as (now & w2 & _ & _ & Hre). case_match; [|by destruct Hre as [-> _]].
  destruct Hre as [(_ & -> & _)|(_ & -> & _)]; [done|]. by destruct Hrc.
Qed.

Lemma recalls_ticked u r w r' w' :
  wires sq key u r -> ticked r w r' w' -> good sq past key w -> recalls u r w -> recalls u r' w'.
Proof.
  intros Hw (now & r1 & w1 & w2 & r2 & w3 & (c & Hc & ->) & Hi & Hp & Hre & -> & Hl & Hev) Hg Hrc.
  assert (Ht : transport r = Some (udp_transport u)) by apply Hw.
  cbv zeta in Hp. rewrite Ht in Hp. cbn [mbind option_bind t_recv udp_transport] in Hp.
  set (r0 := set_table _ r) in Hp. assert (Hw0 : wires sq key u r0) by done.
  assert (Hg1 := good_idle _ _ _ _ _ Hi Hg).
  assert (Hrc0 : recalls u r0 w1).
  { assert (Htab : contents (dedup_table r0) = contents (dedup_table r)).
    { destruct Hrc. subst r0. cbn. change (os_now (get_os w)) with (os_now (w_os w)). rewrite rc_clock0.
      eapply (memory_evict clk _ rc_steady0); [done|apply Hc]. }
    apply (recalls_idle _ _ _ _ Hi) in Hrc. destruct Hrc. by split; rewrite ?Htab. }
  assert (Hw1 : wires sq key u r1). { eapply wires_same; [by eapply polled_wiring|done]. }
  assert (Hg2 := good_polled _ _ _ _ _ _ _ _ Hw0 Hp Hg1).
  apply (recalls_polled u) in Hp; [|done|done|done].
  eapply (recalls_rebroadcasted u r1 w2 r2 w3); try done.
  - assert (Hs : storage r = (fun '(self, ctx) => sqlite_storage self ctx) <$> sq) by apply Hw.
    rewrite Hs in Hev. destruct sq as [[self ctx]|];
      cbn [fmap option_fmap option_map mbind option_bind sqlite_storage s_evict_expired] in Hev; [|by subst].
    destruct Hev as [rc Hrun]. apply untouched_evict in Hrun. by injection Hrun.
  - intros Hq. assert (Hs : storage r = None) by (destruct Hw as (_ & _ & -> & _); by rewrite Hq).
    by rewrite Hs in Hev.
Qed.

Lemma recalls_broadcast u r m w rc o w' :
  wires sq key u r -> router_wf r -> heap_ok w -> message_wf m -> payload_len m < 2 ^ 31 ->
  uuid m ∈ pk_uuid <$> past -> (uuid m ∉ ids (contents (dedup_table r))) ->
  bc_router_broadcast (Some r) (Some m) w = Val ((rc, Some o), w') -> recalls u r w -> recalls u o w'.
Proof.
  intros Hw Hwf Hok Hm Hlen Hin Hnew Hrun Hrc. assert (Hps := wires_safe _ _ _ _ Hw).
  assert (H := wp_broadcast r m w Hwf Hps Hok Hm Hlen).
  destruct (wp_outcome _ _ _ _ _ H Hrun) as (Hb & now & t & Hclk & Hins & [= ->] & _ & Hcase). clear H Hrun.
  assert (Hid : bytes_n 16 (uuid m)) by apply Hm.
  assert (Hpl : payload_len m = zlen (msg_payload m)) by apply Hm.
  assert (Heff : app_inbox (w_ext w') = app_inbox (w_ext w) /\
    (fanout (config r) * zlen (ctx_ports (contents u)) <= Z.of_nat B ->
     (length (n_sent (w_net w')) <= length (n_sent (w_net w)) + B)%nat)).
  { destruct Hcase as [(_ & _ & [o' ->])|(_ & w1 & frc & w2 & w3 & Hi1 & Hf & Hst & [_ [o' ->]])]; [split; [done|cbn; lia]|].
    apply stored_off_db with (u := u) (sq := sq) (key := key) in Hst; [|done]. injection Hst as Hn3 Hi3.
    assert (Hrel : relayed r (msg_packet m) w w2) by (right; exists w1, frc, w2; split_and!; [done|done|apply idle_refl]).
    assert (Hpw := message_packet_wf _ Hm). assert (Hpl' : zlen (pk_payload (msg_packet m)) < 2 ^ 31) by (cbn; lia).
    destruct (grows_relayed _ _ _ _ _ _ _ Hw Hpw Hpl' Hrel) as (_ & _ & Hi2).
    split; [cbn; congruence|]. intros HB.
    destruct (relayed_count _ _ B _ _ _ _ _ Hw Hpw Hpl' HB Hrel) as (new & Hs & _ & _ & Hc).
    cbn. rewrite Hn3, Hs, length_app. lia. }
  destruct Heff as [Hi Hs].
  eapply (recalls_new u r w _ now (uuid m) t []);
    [done|done|done|done|done|done|by rewrite app_nil_r|set_solver|cbn; lia|auto|done].
Qed.
End node.

(** ** The mesh *)

Section mesh.
Context {E : Type} `{!Sqlite E, !SqliteSpec E, !BindsSucceed E}.
Context (K B : nat).
Implicit Types (n : gossip_node E) (s : mesh E).

Definition node_recalls (past : list packet) n : Prop :=
  exists clk, recalls (gn_sql n) past clk K B (gn_udp n) (gn_router n) (gn_world n).

Lemma node_recalls_mono past past' n :
  past ⊆ past' -> (length past' <= K)%nat -> node_recalls past n -> node_recalls past' n.
Proof.
  intros Hsub HK [clk []]. exists clk. split; try done; [split; [done|apply rc_room0]|].
  eapply memory_mono; [done| |done]. intros x (p & -> & Hp)%list_elem_of_fmap. by apply list_elem_of_fmap_2, Hsub.
Qed.

Lemma step_recalls past l s s' :
  mesh_ok past s -> Forall (node_recalls past) (nodes s) -> mesh_step l s s' ->
  NoDup (pk_uuid <$> past ++ broadcasts [l]) -> (length (past ++ broadcasts [l]) <= K)%nat ->
  Forall (node_recalls (past ++ broadcasts [l])) (nodes s').
Proof.
  intros Hok Hrc Hst Hnd HK.
  assert (Hall : Forall (node_recalls (past ++ broadcasts [l])) (nodes s)).
  { eapply Forall_impl; [exact Hrc|]. intros n. apply node_recalls_mono; [set_solver|done]. }
  destruct Hst as [i m n rc r w s Hn Hm Hl He|i n r w s Hn He|i p n r w s Hn Hp He
    |i k n pd s Hn Hk Hp|k pd s Hk|k pd s Hk]; try done; cbn [nodes after_call];
    apply Forall_insert; try done; destruct (Forall_lookup_1 _ _ _ _ Hall Hn) as [clk Hre];
    assert (Hno := Forall_lookup_1 _ _ _ _ (proj1 Hok) Hn); exists clk.
  - change (broadcasts [LBroadcast i m]) with [msg_packet m] in *. destruct Hno as (Hwf & Hw & Hg & _).
    eapply (recalls_broadcast _ _ _ _ _ _ _ _ m); try done.
    { rewrite fmap_app. apply elem_of_app. right. left. }
    destruct (Forall_lookup_1 _ _ _ _ Hrc Hn) as [clk' []]. intros Hin. apply (mem_known _ _ _ _ _ rc_memory0) in Hin.
    rewrite fmap_app in Hnd. apply NoDup_app in Hnd as (_ & Hnd & _). apply (Hnd _ Hin). left.
  - apply (node_ok_mono _ (past ++ broadcasts [LTick i])) in Hno; [|set_solver].
    destruct (node_tick _ n Hno) as (r' & w' & He' & _ & _ & Ht). rewrite He in He'. simplify_eq.
    destruct Hno as (_ & Hw & Hg). by eapply recalls_ticked.
  - destruct (node_add_peer past n p Hno Hp) as (ps & k & w' & He' & Hs & _).
    rewrite He in He'. simplify_eq. apply (recalls_idle _ _ _ _ _ _ _ _ _ Hs) in Hre. by destruct Hre.
  - by destruct Hre.
Qed.

Lemma run_recalls past ls s s' :
  mesh_ok past s -> Forall (node_recalls past) (nodes s) -> run ls s s' ->
  NoDup (pk_uuid <$> past ++ broadcasts ls) -> (length (past ++ broadcasts ls) <= K)%nat ->
  Forall (node_recalls (past ++ broadcasts ls)) (nodes s').
Proof.
  intros Hok Hrc Hr. revert past Hok Hrc. induction Hr as [s|l ls s1 s2 s3 Hst _ IH]; intros past Hok Hrc Hnd HK.
  { cbn. by rewrite app_nil_r. }
  assert (Hb : broadcasts (l :: ls) = broadcasts [l] ++ broadcasts ls) by by destruct l.
  rewrite Hb, (assoc_L (++)) in *. apply IH; [by eapply step_keeps| |done|done].
  eapply step_recalls; [done|done|done| |].
  - rewrite fmap_app in Hnd. by apply NoDup_app in Hnd as [Hnd _].
  - rewrite length_app in HK. lia.
Qed.
End mesh.

(** ** At most once *)

Section once.
Context {E : Type} `{!Sqlite E, !SqliteSpec E, !BindsSucceed E}.
Implicit Types (n : gossip_node E) (s : mesh E).

(** A node with an empty table of at least [K] slots whose clock never runs
    [dedup_max_age] seconds ahead of an earlier reading. *)
Definition attentive (K : nat) n : Prop :=
  ids (contents (dedup_table (gn_router n))) = [] /\ Z.of_nat K <= dedup_cap (gn_router n) /\
  steady (os_now (w_os (gn_world n))) (dedup_max_age (config (gn_router n))).

Lemma attentive_recalls K B n : fresh_node n -> attentive K n -> node_recalls K B [] n.
Proof.
  intros (Hwf & _ & _ & _ & Hs & _ & Hi) (He & HK & Hst). unfold gn_net, gn_inbox in *.
  eexists. split; try done; rewrite ?Hi, ?He, ?Hs; try done; [split; [cbn; lia|done]| |constructor|].
  - apply memory_empty; [apply Hwf|done].
  - intros _ _. cbn. lia.
Qed.

Lemma fresh_recalls B ls s s' :
  fresh_mesh s -> Forall (attentive (length (broadcasts ls))) (nodes s) ->
  NoDup (pk_uuid <$> broadcasts ls) -> run ls s s' ->
  Forall (node_recalls (length (broadcasts ls)) B (broadcasts ls)) (nodes s').
Proof.
  intros Hf Ha Hnd Hr. apply (run_recalls _ B [] ls s s'); try done; [by apply fresh_ok|].
  destruct Hf as [Hn _]. apply Forall_forall. intros n Hin. apply attentive_recalls.
  - by apply (proj1 (Forall_forall _ _) Hn).
  - by apply (proj1 (Forall_forall _ _) Ha).
Qed.

(** C6: no message is delivered twice: in a fresh mesh whose nodes start with an
    empty table of ids that is large enough for the messages that are broadcast,
    each with an id of its own, and whose ids do not expire meanwhile, no
    application is handed two messages with the same id - however the network
    delays, reorders, loses and duplicates datagrams, and however often stored
    messages are repeated. *)
Theorem delivered_once ls s s' n :
  fresh_mesh s -> Forall (attentive (length (broadcasts ls))) (nodes s) ->
  NoDup (pk_uuid <$> broadcasts ls) -> run ls s s' -> n ∈ nodes s' ->
  NoDup (pk_uuid <$> gn_inbox n).
Proof.
  intros Hf Ha Hnd Hr Hin. assert (H := fresh_recalls 0 _ _ _ Hf Ha Hnd Hr).
  by destruct (proj1 (Forall_forall _ _) H _ Hin) as [clk []].
Qed.

(** C7: no message is relayed twice: in such a mesh of nodes without storage that
    send at most [B] copies of what they relay, each node sends, all in all, at
    most [B] times as many datagrams as messages were broadcast, whatever the topology, the
    time-to-live and the duplication of datagrams by the network. *)
Theorem relayed_once B ls s s' n :
  fresh_mesh s -> Forall (attentive (length (broadcasts ls))) (nodes s) ->
  Forall (plain_node B) (nodes s) -> NoDup (pk_uuid <$> broadcasts ls) -> run ls s s' ->
  n ∈ nodes s' -> (length (n_sent (gn_net n)) <= B * length (broadcasts ls))%nat.
Proof.
  intros Hf Ha Hpl Hnd Hr Hin. assert (H := fresh_recalls B _ _ _ Hf Ha Hnd Hr).
  destruct (proj1 (Forall_forall _ _) H _ Hin) as [clk []].
  destruct (proj1 (Forall_forall _ _) (plain_run _ _ _ _ _ (fresh_ok _ Hf) Hpl Hr) _ Hin) as [Hsq HB].
  specialize (rc_sent0 Hsq HB). destruct rc_memory0.
  assert (Hle : (length (ids (contents (dedup_table (gn_router n)))) <= length (broadcasts ls))%nat).
  { rewrite <- (length_fmap pk_uuid). by apply submseteq_length, NoDup_submseteq. }
  unfold gn_net. nia.
Qed.
End once.
