(* ===== verification/MeshDemo.v ===== *)
(** * MeshDemo: small meshes

    Closed meshes of two and three nodes on which the theorems about meshes
    apply, run by [exec_all]; and a run in which a message is delivered twice. *)
From S2P Require Import Prelude Effects Errors Message Peer Ports Sockets World UdpTransport.
From S2P Require Import Sqlite SqliteStorage SqliteStorageSpec SqliteStorageProps Dedup Router RouterSpec.
From S2P Require Import RouterProps Mesh MeshInv MeshProps MeshFlow MeshReach MeshOnce.

(** ** Nodes *)

(** Node [k] listens on port 9000 + k and sends to [ports]; its key is made of
    the byte [k], its table of ids has four slots that expire after ten
    minutes. *)
Definition demo_udp (k : Z) (ports : list Z) : box udp_ctx :=
  Box 1%nat (mkUdpCtx 3 (9000 + k) (Some (Box 2%nat ports)) (zlen ports)).
Definition demo_gossip_router (k : Z) (ports : list Z) (st : option (nat * box sqlite_ctx))
    (table : list bc_dedup_entry) : bc_router (world (app_state db_view)) :=
  mkRouter (Some (udp_transport (demo_udp k ports)))
    ((fun '(self, ctx) => sqlite_storage self ctx) <$> st)
    (mkConfig 3 4 600) (replicate 32 k) (Box 3%nat table) 4
    ((synthetic_peer <$> ports) ++ replicate (64 - length ports) zero_peer) (zlen ports)
    (Some note_message) 0 0.

(** [pace] seconds pass between two readings of the clock. *)
Definition demo_clock (pace : Z) : os :=
  mkOS (fun c => Z.min (pace * Z.of_nat c) (2 ^ 61)) 1 (fun _ => true) 10 ∅ (fun _ _ => 0) 0 (fun _ _ => 165).
Definition demo_gossip_world (pace k : Z) : world (app_state db_view) :=
  mkWorld (demo_clock pace)
    (mkNet {[3 := Some (9000 + k)]} 4 [] [] (fun _ => true) (fun _ => true) (fun _ => true) 0)
    (mkApp (demo_db []) []).
Definition demo_gossip (pace k : Z) (ports : list Z) (st : option (nat * box sqlite_ctx))
    (table : list bc_dedup_entry) : gossip_node db_view :=
  mkGossip (demo_gossip_router k ports st table) (demo_udp k ports) st (demo_gossip_world pace k).

Definition empty_table : list bc_dedup_entry := replicate 4 zero_entry.
Definition demo_store : nat * box sqlite_ctx := (4%nat, Box 5%nat demo_sql_ctx).

Lemma demo_gossip_fresh pace k ports st table :
  0 <= pace -> 0 <= k -> router_wf (demo_gossip_router k ports st table) ->
  Forall (fun p => 0 <= p < 2 ^ 16) ports -> (st = None \/ st = Some demo_store) ->
  fresh_node (demo_gossip pace k ports st table).
Proof.
  intros Hp Hk Hwf Hports Hst. unfold fresh_node, demo_gossip; cbn [gn_router gn_sql gn_udp gn_world].
  split_and!; try done.
  split; [split; [intros b Hb; cbn in Hb; set_solver|done]|]. split.
  - split; [constructor|]. cbn. intros self ctx Heq.
    destruct Hst as [-> | ->]; [done|]. injection Heq as <- <-. by apply demo_db_ok.
  - intros c. cbn. lia.
Qed.

(** ** Two nodes, and three in a line *)

(** Node 0 stores what it sends, node 1 has no storage. *)
Definition duo (pace : Z) : mesh db_view :=
  mkMesh [demo_gossip pace 0 [9001] (Some demo_store) empty_table;
          demo_gossip pace 1 [9000] None empty_table] [].

Definition trio : mesh db_view :=
  mkMesh [demo_gossip 1 0 [9001] None empty_table;
          demo_gossip 1 1 [9000; 9002] None empty_table;
          demo_gossip 1 2 [9001] None empty_table] [].

(** A fresh node, by computation. *)
Ltac solve_fresh :=
  apply demo_gossip_fresh;
    [done|done|apply (bool_decide_unpack _); vm_compute; exact I|repeat constructor; lia|by auto].

Lemma duo_fresh pace : 0 <= pace -> fresh_mesh (duo pace).
Proof. intros Hp. split; [|done]. repeat (constructor; [solve_fresh|]). constructor. Qed.

Lemma trio_fresh : fresh_mesh trio.
Proof. split; [|done]. repeat (constructor; [solve_fresh|]). constructor. Qed.

(** A message from node 0 to node [k]. *)
Definition demo_post (k : Z) : bc_message :=
  mkMessage (replicate 16 7) 10 (replicate 32 0) (replicate 32 k) 5 (Some (Box 9%nat [1; 2; 3])) 3.

Lemma demo_post_wf k : 0 <= k < 2 ^ 8 -> message_wf (demo_post k).
Proof.
  intros Hk. unfold message_wf, demo_post. cbn. split_and!; try done; try (by apply (bool_decide_unpack _); vm_compute).
  - split; [done|]. apply (bytes_ok_replicate 32 k). done.
Qed.

(** One delivery, from the broadcast to the application. *)
Definition first_time : list label := [LBroadcast 0 (demo_post 1); LDeliver 1 0; LTick 1].
(** Node 0 repeats the stored message, node 1 receives it and ticks. *)
Definition once_more : list label := [LTick 0; LDeliver 1 0; LTick 1].

Definition run_end (ls : list label) (s : mesh db_view) : mesh db_view := default s (exec_all ls s).

(** A run that can be computed takes place. *)
Lemma run_computed ls s : bool_decide (is_Some (exec_all ls s)) = true -> run ls s (run_end ls s).
Proof.
  intros H. apply exec_all_run. unfold run_end. apply bool_decide_eq_true in H as [s' Hs].
  by rewrite Hs.
Qed.

(** ** Witnesses *)

Lemma mesh_carries_only_what_was_sent_witness :
  gn_inbox <$> nodes (run_end first_time (duo 1)) !! 1%nat = Some [hop (msg_packet (demo_post 1))] /\
  forall n p, n ∈ nodes (run_end first_time (duo 1)) -> p ∈ gn_inbox n ->
     descends (broadcasts first_time) p /\ pk_receiver p = local_pubkey (gn_router n).
Proof.
  split; [vm_compute; reflexivity|].
  apply (mesh_carries_only_what_was_sent first_time (duo 1) (run_end first_time (duo 1))).
  - apply duo_fresh. lia.
  - apply run_computed. vm_compute. reflexivity.
Defined.

Lemma mesh_never_stuck_witness :
  exists s1, mesh_step (LTick 0) (run_end first_time (duo 1)) s1.
Proof.
  assert (Hn : is_Some (nodes (run_end first_time (duo 1)) !! 0%nat))
    by (apply (bool_decide_unpack _); vm_compute; exact I).
  destruct Hn as [n Hi].
  apply (mesh_never_stuck first_time (duo 1) (run_end first_time (duo 1)) 0 n).
  - apply duo_fresh. lia.
  - apply run_computed. vm_compute. reflexivity.
  - exact Hi.
Defined.

(** Each node of the line sends at most three times to two ports. *)
Lemma flood_bounded_witness :
  (total_sent (run_end [LBroadcast 0 (demo_post 2); LDeliver 1 0; LTick 1] trio) <= cost 6 11)%nat.
Proof.
  apply (flood_bounded 6 0 (demo_post 2) [LDeliver 1 0; LTick 1] trio).
  - exact trio_fresh.
  - repeat (constructor; [by vm_compute|]). constructor.
  - by repeat constructor.
  - apply run_computed. vm_compute. reflexivity.
Defined.

Lemma empty_forgets now u : expired_id empty_table 600 now u.
Proof. repeat constructor; done. Qed.

Lemma demo_idle k ports u :
  idle_at (demo_gossip 1 k ports None empty_table) (9000 + k) u.
Proof.
  split_and!; [|by apply lookup_singleton_eq|done|intros c _; apply empty_forgets].
  split; [done|]. split; [done|]. exists (Some (9000 + k)). by apply lookup_singleton_eq.
Qed.

Lemma broadcast_reaches_witness :
  exists ls s' j nj nj', last [1%nat; 2%nat] = Some j /\
    run (LBroadcast 0 (demo_post 2) :: ls) trio s' /\ broadcasts ls = [] /\
    nodes trio !! j = Some nj /\ nodes s' !! j = Some nj' /\
    gn_inbox nj' = gn_inbox nj ++ [hops 2 (msg_packet (demo_post 2))].
Proof.
  apply (broadcast_reaches [] trio 0 (demo_gossip 1 0 [9001] None empty_table) (demo_post 2) 9001 [1%nat; 2%nat]).
  - apply fresh_ok, trio_fresh.
  - reflexivity.
  - apply (demo_idle 0 [9001] []).
  - split; [discriminate|reflexivity].
  - apply demo_post_wf. lia.
  - discriminate.
  - left.
  - eexists. split; [reflexivity|]. split; [apply (demo_idle 1)|]. split; [vm_compute; discriminate|].
    split; [split; [discriminate|reflexivity]|]. exists 9002. split; [right; left|].
    eexists. split; [reflexivity|]. split; [apply (demo_idle 2)|reflexivity].
  - apply (bool_decide_unpack _). vm_compute. exact I.
  - discriminate.
Defined.

(** A clock that stands still. *)
Lemma demo_attentive k ports st : attentive 1 (demo_gossip 0 k ports st empty_table).
Proof.
  split; [done|]. split; [done|]. intros c c' e _ Hs. apply bool_decide_eq_false.
  rewrite Hs. change (~ to_u64 (to_u64 0 - to_u64 0) > 600). by vm_compute.
Qed.

(** The network duplicates the datagram, and both copies reach node 1. *)
Definition twice : list label :=
  [LBroadcast 0 (demo_post 1); LDuplicate 0; LDeliver 1 0; LDeliver 1 0; LTick 1].

Lemma delivered_once_witness :
  gn_inbox <$> nodes (run_end twice (duo 0)) !! 1%nat = Some [hop (msg_packet (demo_post 1))] /\
  forall n, n ∈ nodes (run_end twice (duo 0)) -> NoDup (pk_uuid <$> gn_inbox n).
Proof.
  split; [vm_compute; reflexivity|]. intros n. apply (delivered_once twice (duo 0)).
  - apply duo_fresh. lia.
  - repeat (constructor; [apply demo_attentive|]). constructor.
  - apply NoDup_singleton.
  - apply run_computed. vm_compute. reflexivity.
Defined.

(** Node 1 of three in a line, all with the clock above, relays one copy of two. *)
Definition still_trio : mesh db_view :=
  mkMesh [demo_gossip 0 0 [9001] None empty_table;
          demo_gossip 0 1 [9000; 9002] None empty_table;
          demo_gossip 0 2 [9001] None empty_table] [].

Definition twice_on : list label :=
  [LBroadcast 0 (demo_post 2); LDuplicate 0; LDeliver 1 0; LDeliver 1 0; LTick 1].

Lemma relayed_once_witness :
  length <$> (n_sent ∘ gn_net <$> nodes (run_end twice_on still_trio) !! 1%nat) = Some 4%nat /\
  forall n, n ∈ nodes (run_end twice_on still_trio) -> (length (n_sent (gn_net n)) <= 6)%nat.
Proof.
  split; [vm_compute; reflexivity|]. intros n. apply (relayed_once 6 twice_on still_trio).
  - split; [|done]. repeat (constructor; [solve_fresh|]). constructor.
  - repeat (constructor; [apply demo_attentive|]). constructor.
  - repeat (constructor; [by vm_compute|]). constructor.
  - apply NoDup_singleton.
  - apply run_computed. vm_compute. reflexivity.
Defined.

(** Node 1 saw the message at time 0; by its clock at least 1000 seconds have
    passed, and a copy waits. *)
Definition late_table : list bc_dedup_entry :=
  [zero_entry; zero_entry; mkEntry (replicate 16 7) 0 1; zero_entry].
Definition late_node : gossip_node db_view :=
  gn_arrival (9001, encode (msg_packet (demo_post 1))) (demo_gossip 1000 1 [9000] None late_table).

Lemma late_forgets : forgets late_node (replicate 16 7).
Proof.
  intros c Hc. assert (H1 : (1 <= c)%nat) by exact Hc. clear Hc.
  assert (Hexp : expired (to_u64 (Z.min (1000 * Z.of_nat c) (2 ^ 61))) 600 (mkEntry (replicate 16 7) 0 1) = true).
  { assert (Hv : is_u64 (Z.min (1000 * Z.of_nat c) (2 ^ 61))) by (unfold is_u64; lia).
    apply bool_decide_eq_true. cbn [seen_at]. rewrite Z.sub_0_r, (to_u64_id _ Hv), (to_u64_id _ Hv). lia. }
  change (expired_id late_table 600 (to_u64 (Z.min (1000 * Z.of_nat c) (2 ^ 61))) (replicate 16 7)).
  constructor; [done|]. constructor; [done|]. constructor; [by intros _ _|]. constructor; [done|constructor].
Qed.

Lemma tick_delivers_witness :
  exists r w, bc_router_tick (enough late_node) (Some (gn_router late_node)) (gn_world late_node) = Val (Some r, w) /\
    node_ok [msg_packet (demo_post 1)] (gn_after r w late_node) /\
    app_inbox (w_ext w) = gn_inbox late_node ++ [hop (msg_packet (demo_post 1))].
Proof.
  assert (Hm := demo_post_wf 1 ltac:(lia)).
  apply (tick_delivers [msg_packet (demo_post 1)] late_node 9001 (msg_packet (demo_post 1))).
  - apply node_ok_arrival.
    + exists (msg_packet (demo_post 1)). split; [reflexivity|]. split; [by apply message_packet_wf|].
      split; [reflexivity|]. exists (msg_packet (demo_post 1)). split_and!; (done || left).
    + apply (node_ok_mono []); [set_solver|].
      assert (Hf : fresh_mesh (mkMesh [demo_gossip 1000 1 [9000] None late_table] []))
        by (split; [constructor; [solve_fresh|constructor]|done]).
      apply fresh_ok in Hf as [Hf _]. by apply Forall_cons in Hf as [Hf _].
  - split; [done|]. split; [done|]. exists (Some 9001). reflexivity.
  - reflexivity.
  - reflexivity.
  - split; [by apply message_packet_wf|]. split; [discriminate|reflexivity].
  - exact late_forgets.
  - reflexivity.
Defined.

(** A message sent once is delivered twice: node 0 keeps it for three days and
    repeats it, node 1 forgets its id after ten minutes. *)
Theorem mesh_redelivers :
  run (first_time ++ once_more ++ once_more) (duo 250)
    (run_end (first_time ++ once_more ++ once_more) (duo 250)) /\
  broadcasts (first_time ++ once_more ++ once_more) = [msg_packet (demo_post 1)] /\
  (fun n => pk_uuid <$> gn_inbox n) <$>
    nodes (run_end (first_time ++ once_more ++ once_more) (duo 250)) !! 1%nat =
    Some [uuid (demo_post 1); uuid (demo_post 1)].
Proof.
  split_and!; [apply run_computed; vm_compute; reflexivity|reflexivity|vm_compute; reflexivity].
Qed.

(** An empty datagram hides those behind it: a node at whose socket an empty
    datagram waits before a message for its own key ends its tick without
    having received the message, which waits for the next tick. *)
Definition shadowed_node : gossip_node db_view :=
  gn_arrival (9001, encode (msg_packet (demo_post 1)))
    (gn_arrival (9001, []) (demo_gossip 1 1 [9000] None empty_table)).

Theorem empty_datagram_hides_others :
  match bc_router_tick (enough shadowed_node) (Some (gn_router shadowed_node)) (gn_world shadowed_node) with
  | Val (_, w) => app_inbox (w_ext w) = [] /\ n_queue (w_net w) = [(9001, encode (msg_packet (demo_post 1)))]
  | _ => False
  end.
Proof. vm_compute. split; reflexivity. Qed.
