(* ===== verification/Outbound.v ===== *)
(** * Outbound: from a plaintext to the router

    Both front ends send the same way (bitchat_send_message of
    bridge/bitchat_ffi.c and cmd_msg of cli/main.c): they agree on a key with
    the recipient, seal the text in a fresh buffer, build a message from it,
    broadcast and destroy it.  The rule of that sequence, for any handling of
    its failures. *)
From S2P Require Import Prelude Effects Errors Sodium Message Peer Ports Identity CryptoManager Sealing.
From S2P Require Import Dedup Router RouterSpec.

Section outbound.
Context {W : Type} `{!HasOS W, !WorldInv W} `{Hna : !Sodium} `{!SodiumSpec _}.
Implicit Types (w : W) (r : bc_router W) (m : bc_message).

(** [m] carries [pt], sealed by the holder of the pair [pk], [sk] for [rcpt]. *)
Definition letter (pk sk rcpt pt : list Z) m : Prop :=
  message_wf m /\ ttl m = BC_DEFAULT_TTL /\ sender_pubkey m = pk /\ receiver_pubkey m = rcpt /\
  sealed sk rcpt pt (msg_payload m).

Lemma written_letter w w' pk sk rcpt pt m : written w w' pk sk rcpt pt m -> letter pk sk rcpt pt m.
Proof. intros (? & ? & ? & ? & Hs & _). split_and!; try done. by eapply sealed_afresh_sealed. Qed.

(** What broadcasting [m] from [w] came to: it was forwarded once and stored
    once, with nothing but run-time calls around, or memory ran out before; its
    id was recorded as seen, at a time the clock answered. *)
Definition posted r m w rc r' w' : Prop :=
  exists now t, r' = set_table t r /\ router_wf r' /\ clock_read w w' now /\
    inserted (contents (dedup_table r)) (dedup_cap r) (dedup_max_age (config r)) now (uuid m) t /\
    ((rc = BC_ERR_NOMEM /\ ~ never_oom w /\ silent w w') \/
     (rc = BC_OK /\ exists w1 frc w2 w3, idle w w1 /\
        forwarded r (encode (msg_packet m)) w1 frc w2 /\ stored r m w2 w3 /\ idle w3 w')).

Lemma wp_broadcast_destroy {A} r b w0 w (k : Z -> option (bc_router W) -> M W A) (Q : A -> W -> Prop) :
  router_wf r -> ports_safe r -> heap_ok w0 -> owns_message b w0 w -> silent w0 w ->
  payload_len (contents b) < 2 ^ 31 ->
  (forall rc r' w', balanced w0 w' -> later w w' -> posted r (contents b) w0 rc r' w' -> wp (k rc (Some r')) w' Q) ->
  wp ('(rc, r') ← bc_router_broadcast (Some r) (Some (contents b));
      bc_message_destroy (Some b);; k rc r') w Q.
Proof.
  intros Hwf Hps Hok Hown Hs0 Hl31 HK. assert (Hm : message_wf (contents b)) by apply Hown.
  assert (Ha : acquired (msg_blocks b) w0 w) by apply Hown. assert (Hl : later w0 w) by apply Ha.
  apply wp_bind. eapply wp_mono; [apply wp_broadcast; try done; by eauto with bitchat|].
  intros [rc r'] w1 (Hb1 & now & t & Hclk & Hins & -> & Hwf' & Hcase).
  apply wp_bind, wp_quiet; [apply quiet_destroy|]. apply (wp_destroy b (msg_blocks b) w0);
    [done|apply Hown|by eapply acquired_balanced|done|].
  intros w2 Hl2 Ha2 Hs2. assert (H01 : idle w0 w) by by split. assert (H12 : idle w1 w2) by by split.
  rewrite difference_diag_L in Ha2. apply acquired_nil in Ha2.
  apply HK; [done|by eauto with bitchat|]. exists now, t. split_and!; try done; [by eauto with bitchat|].
  destruct Hcase as [(-> & Ho & Hs1)|(-> & w3 & frc & w4 & w5 & Hl3 & Hfw & Hst & Hl5)].
  - left. split_and!; [done| |by eauto with bitchat]. intros Hno. apply Ho. by eauto with bitchat.
  - right. split; [done|]. exists w3, frc, w4, w5. split_and!; by eauto with bitchat.
Qed.

Lemma wp_post {A} pk sk rcpt pt r (nokey : Z -> M W A) (oom nomsg : M W A)
    (fail : Z -> box (list Z) -> M W A) (k : Z -> option (bc_router W) -> M W A) w (Q : A -> W -> Prop) :
  heap_ok w -> router_wf r -> ports_safe r -> bytes_n 32 pk -> bytes_n 32 sk -> bytes_n 32 rcpt ->
  bytes_ok pt -> zlen pt + BC_NONCE_SIZE + BC_TAG_SIZE < 2 ^ 31 ->
  (forall w', balanced w w' -> silent w w' -> fst (crypto_box_beforenm rcpt sk) <> 0 ->
     wp (nokey BC_ERR_CRYPTO) w' Q) ->
  (forall w', balanced w w' -> silent w w' -> ~ never_oom w -> wp oom w' Q /\ wp nomsg w' Q) ->
  (forall m rc r' w', balanced w w' -> written w w' pk sk rcpt pt m -> posted r m w rc r' w' ->
     wp (k rc (Some r')) w' Q) ->
  wp (shared_key ← stack_buffer BC_SHARED_KEY_SIZE;
      '(rc, shared_key) ← lift (bc_crypto_derive_shared (Some sk) (Some rcpt) (Some shared_key));
      if bool_decide (rc <> BC_OK) then nokey rc else
      ciphertext ← c_malloc (to_u64 (BC_NONCE_SIZE + to_u64 (zlen pt + BC_TAG_SIZE)));
      match ciphertext with
      | None => oom
      | Some buf =>
          '(rc, (ct, nonce)) ← bc_crypto_encrypt (Some pt) (zlen pt) shared_key
              (Some (drop (Z.to_nat BC_NONCE_SIZE) (contents buf)))
              (Some (take (Z.to_nat BC_NONCE_SIZE) (contents buf)));
          if bool_decide (rc <> BC_OK) then fail rc buf else
          msg ← bc_message_create (Some pk) (Some rcpt) (Some (default [] nonce ++ default [] ct))
                  (to_u64 (BC_NONCE_SIZE + to_u64 (zlen pt + BC_TAG_SIZE)));
          c_free (Some (addr buf));;
          match msg with
          | None => nomsg
          | Some msg =>
              '(rc, r') ← bc_router_broadcast (Some r) (Some (contents msg));
              bc_message_destroy (Some msg);; k rc r'
          end
      end) w Q.
Proof.
  change BC_NONCE_SIZE with 24. change BC_TAG_SIZE with 16.
  intros Hok Hwf Hps Hpk Hsk Hrc Hpt Hlen HF HN HK. assert (Hp0 := zlen_nonneg pt).
  rewrite (to_u64_id (zlen pt + 16)), to_u64_id by (unfold is_u64; lia).
  apply wp_agree; [done|done|done|]. intros key w1 Hb1 Hs1 Hk Hkey.
  assert (Hok1 : heap_ok w1) by by eauto with bitchat.
  assert (HN1 : forall w', ~ never_oom w1 -> balanced w1 w' -> silent w1 w' -> wp oom w' Q /\ wp nomsg w' Q).
  { intros w' Ho Hb' Hs'. apply HN; [by eauto with bitchat..|]. intros Hno. apply Ho. by eauto with bitchat. }
  apply wp_bind, wp_quiet; [apply quiet_malloc|]. apply wp_malloc; [done|intros; by apply HN1|].
  intros buf w2 Hbuf Ha2 Hs2.
  eapply (wp_seal pk sk rcpt key pt buf (fun rc => fail rc buf)); try done;
    [lia|intros; apply HN1; by eauto with bitchat|].
  intros m w3 Hown Hs3 Hwr Hl31. assert (Hm : message_wf (contents m)) by apply Hown.
  apply (wp_broadcast_destroy _ _ w1); try done; [by eauto with bitchat|].
  intros rc r' w4 Hb4 Hl4 (now & t & -> & Hwf' & Hclk & Hins & Hcase). assert (Hi1 : idle w w1) by by eauto with bitchat.
  apply (HK (contents m)); [by eauto with bitchat| |].
  { eapply written_within; [|exact Hwr|exact Hl4]. by eauto with bitchat. }
  exists now, t. split_and!; try done; [by eauto with bitchat|].
  destruct Hcase as [(-> & Ho & Hs4)|(-> & v1 & frc & v2 & v3 & Hl1 & Hfw & Hst & Hl3)].
  - left. split_and!; [done| |by eauto with bitchat]. intros Hno. apply Ho. by eauto with bitchat.
  - right. split; [done|]. exists v1, frc, v2, v3. split_and!; by eauto with bitchat.
Qed.
End outbound.
