(* ===== verification/Ffi.v ===== *)
(** * Ffi: the C API for mobile platforms

    Models [src/bridge/bitchat_ffi.c].  The global [g_state] is split in two.
    Its data (the identity, the inbox ring, the registered callback, the mutex)
    is part of the world ([g_state], [HasFfi]), because the router's delivery
    callback changes it in the middle of a tick.  Its pointers to the adapters,
    the router and the discovery manager ([g_objects]) are passed to each
    function and returned as it leaves them.

    Every function holds the recursive mutex for its whole body, so a call is
    one atomic transition; the model keeps the state of the mutex, and locking
    one that is not initialized, unlocking one that is not held or destroying
    one that is held is undefined.  The application's callback is code outside
    the repository: a registered callback is an address, and [call_user] runs
    it. *)
From stdpp Require Import strings.
From S2P Require Import Prelude Effects Errors Sodium Message Peer Ports.
From S2P Require Import StubTransports Identity CryptoManager Discovery Sqlite SqliteStorage Dedup Router.

(** ** The global state *)

(** A [pthread_mutex_t]: static storage, or initialized with the number of
    times its owner holds it, or destroyed. *)
Inductive mutex_state : Type :=
| MutexRaw
| MutexReady (depth : Z)
| MutexDestroyed.

Record g_state : Type := mkGState {
  initialized : Z;
  g_identity : bc_identity;
  inbox : list (option (box bc_message));      (* bc_message_t *inbox[256] *)
  inbox_head : Z;
  inbox_tail : Z;
  user_callback : option Z;                    (* a function's address *)
  g_mutex : mutex_state;
  mutex_initialized : Z
}.

(** What the C run-time makes of the static variable. *)
Definition g_state0 : g_state :=
  mkGState 0 (mkIdentity (replicate 32 0) (replicate 32 0)) (replicate 256 None) 0 0 None MutexRaw 0.

Definition set_initialized (v : Z) (g : g_state) : g_state :=
  mkGState v (g_identity g) (inbox g) (inbox_head g) (inbox_tail g) (user_callback g)
    (g_mutex g) (mutex_initialized g).
Definition set_identity (id : bc_identity) (g : g_state) : g_state :=
  mkGState (initialized g) id (inbox g) (inbox_head g) (inbox_tail g) (user_callback g)
    (g_mutex g) (mutex_initialized g).
Definition set_inbox (l : list (option (box bc_message))) (h t : Z) (g : g_state) : g_state :=
  mkGState (initialized g) (g_identity g) l h t (user_callback g) (g_mutex g) (mutex_initialized g).
Definition set_user_callback (f : option Z) (g : g_state) : g_state :=
  mkGState (initialized g) (g_identity g) (inbox g) (inbox_head g) (inbox_tail g) f
    (g_mutex g) (mutex_initialized g).
Definition set_mutex (m : mutex_state) (g : g_state) : g_state :=
  mkGState (initialized g) (g_identity g) (inbox g) (inbox_head g) (inbox_tail g)
    (user_callback g) m (mutex_initialized g).
Definition set_mutex_initialized (v : Z) (g : g_state) : g_state :=
  mkGState (initialized g) (g_identity g) (inbox g) (inbox_head g) (inbox_tail g)
    (user_callback g) (g_mutex g) v.

(** The pointers of the global state. *)
Record g_objects (W : Type) : Type := mkObjects {
  o_transport : option (box (bc_transport W));
  o_storage : option (box (bc_storage W));
  o_router : option (box (bc_router W));
  o_discovery : option (box (bc_discovery W))
}.
Arguments mkObjects {W}.
Arguments o_transport {W}.
Arguments o_storage {W}.
Arguments o_router {W}.
Arguments o_discovery {W}.

Definition no_objects {W} : g_objects W := mkObjects None None None None.

(** A world with the global state. *)
Class HasFfi (W : Type) `{!HasOS W} : Type := {
  get_ffi : W -> g_state;
  set_ffi : g_state -> W -> W;
  get_set_ffi : forall g w, get_ffi (set_ffi g w) = g;
  set_get_ffi : forall w, set_ffi (get_ffi w) w = w;
  set_set_ffi : forall g g' w, set_ffi g (set_ffi g' w) = set_ffi g w;
  get_os_set_ffi : forall g w, get_os (set_ffi g w) = get_os w;
  get_ffi_set_os : forall o w, get_ffi (set_os o w) = get_ffi w;
  set_ffi_set_os : forall g o w, set_ffi g (set_os o w) = set_os o (set_ffi g w);
  inbound_set_ffi : forall g w, inbound (set_ffi g w) = inbound w
}.

Section ffi.
Context {W E : Type} `{!HasOS W, !HasSql W E, !Sqlite E, !Sodium, !HasFfi W}.

(** What [pthread_mutex_init] answers, and the code of the application: the
    function at an address, applied to sender, payload and length. *)
Context (mutex_init_rc : W -> Z) (call_user : Z -> list Z -> list Z -> Z -> M W unit).

Definition ffi_get : M W g_state := fun w => Val (get_ffi w, w).
Definition ffi_put (g : g_state) : M W unit := fun w => Val (tt, set_ffi g w).
Definition ffi_update (f : g_state -> g_state) : M W unit := g ← ffi_get; ffi_put (f g).

(** ** The mutex *)

Definition LOCK : M W unit :=
  g ← ffi_get;
  match g_mutex g with
  | MutexReady n => ffi_put (set_mutex (MutexReady (n + 1)) g)
  | _ => lift UB
  end.

Definition UNLOCK : M W unit :=
  g ← ffi_get;
  match g_mutex g with
  | MutexReady n =>
      if bool_decide (0 < n) then ffi_put (set_mutex (MutexReady (n - 1)) g) else lift UB
  | _ => lift UB
  end.

Definition pthread_mutex_init : M W Z := fun w =>
  match g_mutex (get_ffi w) with
  | MutexReady _ => UB
  | _ =>
      if bool_decide (mutex_init_rc w = 0)
      then Val (0, set_ffi (set_mutex (MutexReady 0) (get_ffi w)) w)
      else Val (mutex_init_rc w, w)
  end.

Definition pthread_mutex_destroy : M W unit :=
  g ← ffi_get;
  match g_mutex g with
  | MutexReady n =>
      if bool_decide (n = 0) then ffi_put (set_mutex MutexDestroyed g) else lift UB
  | _ => lift UB
  end.

Definition ensure_mutex : M W Z :=
  g ← ffi_get;
  if bool_decide (mutex_initialized g <> 0) then mret BC_OK else
  rc ← pthread_mutex_init;
  if bool_decide (rc <> 0) then mret BC_ERR else
  ffi_update (set_mutex_initialized 1);;
  mret BC_OK.

(** ** The delivery callback *)

(** Part 1: copy the message into the inbox, when there is room. *)
Definition inbox_push (msg : bc_message) : M W unit :=
  g ← ffi_get;
  let next := to_u64 (inbox_head g + 1) mod 256 in
  if bool_decide (next <> inbox_tail g) then
    copy ← bc_message_create (Some (sender_pubkey msg)) (Some (receiver_pubkey msg))
             (contents <$> payload msg) (payload_len msg);
    match copy with
    | None => mret tt
    | Some copy =>
        uuid ← lift (mem_read (uuid msg) 0 BC_UUID_SIZE);
        let m := contents copy in
        let copy := Box (addr copy) (mkMessage uuid (ttl msg) (sender_pubkey m)
                      (receiver_pubkey m) (timestamp msg) (payload m) (payload_len m)) in
        g ← ffi_get;
        l ← lift (arr_set (inbox g) (inbox_head g) (Some copy));
        ffi_put (set_inbox l next (inbox_tail g) g)
    end
  else mret tt.

(** Part 2: decrypt and call the application. *)
Definition push_deliver (msg : bc_message) : M W unit :=
  g ← ffi_get;
  match user_callback g, payload msg with
  | Some f, Some pl =>
      if bool_decide (payload_len msg < BC_NONCE_SIZE + BC_TAG_SIZE) then mret tt else
      shared_key ← stack_buffer BC_SHARED_KEY_SIZE;
      '(rc, shared_key) ← lift (bc_crypto_derive_shared (Some (secret_key (g_identity g)))
                                  (Some (sender_pubkey msg)) (Some shared_key));
      if bool_decide (rc <> BC_OK) then mret tt else
      let nonce := contents pl in
      let ct := drop (Z.to_nat BC_NONCE_SIZE) (contents pl) in
      let ct_len := payload_len msg - BC_NONCE_SIZE in
      let pt_len := ct_len - BC_TAG_SIZE in
      plaintext ← c_malloc pt_len;
      match plaintext with
      | None => mret tt
      | Some plaintext =>
          '(rc, out) ← lift (bc_crypto_decrypt (Some ct) ct_len shared_key (Some nonce)
                               (Some (contents plaintext)));
          (if bool_decide (rc = BC_OK)
           then call_user f (sender_pubkey msg) (default [] out) pt_len
           else mret tt);;
          c_free (Some (addr plaintext))
      end
  | _, _ => mret tt
  end.

Definition on_message_received (msg : bc_message) (userdata : Z) : M W unit :=
  inbox_push msg;; push_deliver msg.

(** ** The public functions *)

Definition bitchat_init (storage_path : option string) (o : g_objects W)
    : M W (Z * g_objects W) :=
  rc ← ensure_mutex;
  if bool_decide (rc <> BC_OK) then mret (rc, o) else
  LOCK;;
  g ← ffi_get;
  if bool_decide (initialized g <> 0) then UNLOCK;; mret (BC_OK, o) else
  let rc := bc_crypto_init in
  if bool_decide (rc <> BC_OK) then UNLOCK;; mret (rc, o) else
  storage ← bc_storage_sqlite_create storage_path;
  let o := mkObjects (o_transport o) storage (o_router o) (o_discovery o) in
  match storage with
  | None => UNLOCK;; mret (BC_ERR_STORAGE, o)
  | Some _ =>
      transport ← bc_transport_ble_create;
      let o := mkObjects transport storage (o_router o) (o_discovery o) in
      ffi_update (set_initialized 1);;
      UNLOCK;;
      mret (BC_OK, o)
  end.

(** The end of [bitchat_generate_identity] and of [bitchat_load_identity]: a new
    router for the current identity, then a new discovery manager. *)
Definition recreate_router (o : g_objects W) : M W (Z * g_objects W) :=
  g ← ffi_get;
  match o_router o with
  | Some r => bc_router_destroy (Some r)
  | None => mret tt
  end;;
  router ← bc_router_create (contents <$> o_transport o) (contents <$> o_storage o)
             (Some (pubkey (g_identity g))) None;
  match router with
  | None =>
      UNLOCK;;
      mret (BC_ERR_NOMEM, mkObjects (o_transport o) (o_storage o) None (o_discovery o))
  | Some r =>
      let r := Box (addr r) (default (contents r)
                 (bc_router_set_on_message (Some (contents r)) (Some on_message_received) 0)) in
      match o_discovery o with
      | Some d => bc_discovery_destroy (Some (addr d))
      | None => mret tt
      end;;
      discovery ← bc_discovery_create (contents <$> o_transport o);
      UNLOCK;;
      mret (BC_OK, mkObjects (o_transport o) (o_storage o) (Some r) discovery)
  end.

(** The code, the two output cells and the objects. *)
Definition bitchat_generate_identity (pubkey_out secret_out : option (list Z))
    (o : g_objects W) : M W (Z * (option (list Z) * option (list Z)) * g_objects W) :=
  LOCK;;
  g ← ffi_get;
  if bool_decide (initialized g = 0)
  then UNLOCK;; mret (BC_ERR, (pubkey_out, secret_out), o) else
  '(rc, id) ← bc_identity_generate (Some (g_identity g));
  ffi_update (set_identity (default (g_identity g) id));;
  if bool_decide (rc <> BC_OK)
  then UNLOCK;; mret (rc, (pubkey_out, secret_out), o) else
  g ← ffi_get;
  pubkey_out ← match pubkey_out with
               | None => mret None
               | Some b => b ← lift (mem_write b 0 (pubkey (g_identity g))); mret (Some b)
               end;
  secret_out ← match secret_out with
               | None => mret None
               | Some b => b ← lift (mem_write b 0 (secret_key (g_identity g))); mret (Some b)
               end;
  '(rc, o) ← recreate_router o;
  mret (rc, (pubkey_out, secret_out), o).

Definition bitchat_load_identity (identity_data : option (list Z)) (len : Z)
    (o : g_objects W) : M W (Z * g_objects W) :=
  LOCK;;
  g ← ffi_get;
  match bool_decide (initialized g = 0), identity_data with
  | false, Some data =>
      '(rc, id) ← lift (bc_identity_deserialize (Some (g_identity g)) (Some data) len);
      ffi_update (set_identity (default (g_identity g) id));;
      if bool_decide (rc <> BC_OK) then UNLOCK;; mret (rc, o) else
      recreate_router o
  | _, _ => UNLOCK;; mret (BC_ERR_INVALID, o)
  end.

Definition bitchat_send_message (recipient plaintext : option (list Z)) (len : Z)
    (o : g_objects W) : M W (Z * g_objects W) :=
  LOCK;;
  g ← ffi_get;
  match bool_decide (initialized g = 0), o_router o, recipient, plaintext with
  | false, Some r, Some rcpt, Some pt =>
      shared_key ← stack_buffer BC_SHARED_KEY_SIZE;
      '(rc, shared_key) ← lift (bc_crypto_derive_shared (Some (secret_key (g_identity g)))
                                  recipient (Some shared_key));
      if bool_decide (rc <> BC_OK) then UNLOCK;; mret (rc, o) else
      let ct_len := to_u64 (len + BC_TAG_SIZE) in
      ciphertext ← c_malloc (to_u64 (BC_NONCE_SIZE + ct_len));
      match ciphertext with
      | None => UNLOCK;; mret (BC_ERR_NOMEM, o)
      | Some buf =>
          (* nonce = ciphertext, ct = ciphertext + BC_NONCE_SIZE *)
          '(rc, (ct, nonce)) ← bc_crypto_encrypt plaintext len shared_key
              (Some (drop (Z.to_nat BC_NONCE_SIZE) (contents buf)))
              (Some (take (Z.to_nat BC_NONCE_SIZE) (contents buf)));
          if bool_decide (rc <> BC_OK)
          then c_free (Some (addr buf));; UNLOCK;; mret (rc, o) else
          msg ← bc_message_create (Some (pubkey (g_identity g))) recipient
                  (Some (default [] nonce ++ default [] ct)) (to_u64 (BC_NONCE_SIZE + ct_len));
          c_free (Some (addr buf));;
          match msg with
          | None => UNLOCK;; mret (BC_ERR_NOMEM, o)
          | Some msg =>
              '(rc, r') ← bc_router_broadcast (Some (contents r)) (Some (contents msg));
              bc_message_destroy (Some msg);;
              UNLOCK;;
              mret (rc, mkObjects (o_transport o) (o_storage o)
                          (Some (Box (addr r) (default (contents r) r'))) (o_discovery o))
          end
      end
  | _, _, _, _ => UNLOCK;; mret (BC_ERR_INVALID, o)
  end.

(** The part of [bitchat_poll_messages] that decrypts the message taken from the
    inbox; the caller destroys it.  The result: the code and the three cells. *)
Definition poll_decrypt (g : g_state) (msg : bc_message) (pl : list Z) (buf : list Z)
    (buf_len : Z) (sender_out : option (list Z))
    : M W (Z * (list Z * Z * option (list Z))) :=
  shared_key ← stack_buffer BC_SHARED_KEY_SIZE;
  '(rc, shared_key) ← lift (bc_crypto_derive_shared (Some (secret_key (g_identity g)))
                              (Some (sender_pubkey msg)) (Some shared_key));
  if bool_decide (rc <> BC_OK) then mret (rc, (buf, 0, sender_out)) else
  let nonce := pl in
  let ct := drop (Z.to_nat BC_NONCE_SIZE) pl in
  let ct_len := payload_len msg - BC_NONCE_SIZE in
  let pt_len := ct_len - BC_TAG_SIZE in
  if bool_decide (buf_len < pt_len)
  then mret (BC_ERR_BUFFER_TOO_SMALL, (buf, pt_len, sender_out)) else
  '(rc, out) ← lift (bc_crypto_decrypt (Some ct) ct_len shared_key (Some nonce) (Some buf));
  let buf := default buf out in
  if bool_decide (rc = BC_OK) then
    sender_out ← match sender_out with
                 | None => mret None
                 | Some b => b ← lift (mem_write b 0 (sender_pubkey msg)); mret (Some b)
                 end;
    mret (BC_OK, (buf, pt_len, sender_out))
  else mret (rc, (buf, 0, sender_out)).

(** The code and the cells [buf], [*msg_len] and [sender_pubkey_out]. *)
Definition bitchat_poll_messages (buf : option (list Z)) (buf_len : Z) (msg_len : option Z)
    (sender_out : option (list Z))
    : M W (Z * (option (list Z) * option Z * option (list Z))) :=
  LOCK;;
  g ← ffi_get;
  match bool_decide (initialized g = 0), buf, msg_len with
  | false, Some b, Some _ =>
      if bool_decide (inbox_tail g = inbox_head g)
      then UNLOCK;; mret (BC_OK, (buf, Some 0, sender_out)) else
      slot ← lift (arr_get (inbox g) (inbox_tail g));
      ffi_put (set_inbox (inbox g) (inbox_head g) (to_u64 (inbox_tail g + 1) mod 256) g);;
      match slot ≫= fun msg => payload (contents msg) with
      | Some pl =>
          msg ← lift (match slot with Some msg => Val msg | None => UB end);
          if bool_decide (payload_len (contents msg) < BC_NONCE_SIZE + BC_TAG_SIZE)
          then bc_message_destroy slot;; UNLOCK;; mret (BC_OK, (buf, Some 0, sender_out))
          else
          '(rc, (b, n, s)) ← poll_decrypt g (contents msg) (contents pl) b buf_len sender_out;
          bc_message_destroy slot;;
          UNLOCK;;
          mret (rc, (Some b, Some n, s))
      | None =>
          bc_message_destroy slot;;
          UNLOCK;;
          mret (BC_OK, (buf, Some 0, sender_out))
      end
  | _, _, _ => UNLOCK;; mret (BC_ERR_INVALID, (buf, msg_len, sender_out))
  end.

Definition bitchat_start_discovery (o : g_objects W) : M W (Z * g_objects W) :=
  LOCK;;
  g ← ffi_get;
  match bool_decide (initialized g = 0), o_discovery o with
  | false, Some d =>
      '(rc, d') ← bc_discovery_scan (Some (contents d));
      UNLOCK;;
      mret (rc, mkObjects (o_transport o) (o_storage o) (o_router o)
                  (Some (Box (addr d) (default (contents d) d'))))
  | _, _ => UNLOCK;; mret (BC_ERR, o)
  end.

(** [fuel] bounds the number of datagrams the tick receives. *)
Definition bitchat_tick (fuel : nat) (o : g_objects W) : M W (g_objects W) :=
  LOCK;;
  g ← ffi_get;
  match bool_decide (initialized g = 0), o_router o with
  | false, Some r =>
      r' ← bc_router_tick fuel (Some (contents r));
      UNLOCK;;
      mret (mkObjects (o_transport o) (o_storage o)
              (Some (Box (addr r) (default (contents r) r'))) (o_discovery o))
  | _, _ => UNLOCK;; mret o
  end.

Definition bitchat_set_on_message_callback (callback : option Z) : M W Z :=
  LOCK;;
  g ← ffi_get;
  if bool_decide (initialized g = 0) then UNLOCK;; mret BC_ERR else
  ffi_put (set_user_callback callback g);;
  UNLOCK;;
  mret BC_OK.

(** The loop that empties the inbox; at most 255 messages are queued. *)
Fixpoint drain_inbox (fuel : nat) : M W unit :=
  match fuel with
  | O => lift NoFuel
  | S fuel' =>
      g ← ffi_get;
      if bool_decide (inbox_tail g = inbox_head g) then mret tt else
      slot ← lift (arr_get (inbox g) (inbox_tail g));
      bc_message_destroy slot;;
      ffi_update (fun g => set_inbox (inbox g) (inbox_head g)
                             (to_u64 (inbox_tail g + 1) mod 256) g);;
      drain_inbox fuel'
  end.

(** A call through a function pointer. *)
Definition call_ptr (f : option (M W unit)) : M W unit :=
  match f with Some m => m | None => lift UB end.

Definition bitchat_shutdown (o : g_objects W) : M W (g_objects W) :=
  LOCK;;
  g ← ffi_get;
  if bool_decide (initialized g = 0) then UNLOCK;; mret o else
  ffi_update (set_user_callback None);;
  drain_inbox 256;;
  match o_discovery o with
  | Some d => bc_discovery_destroy (Some (addr d))
  | None => mret tt
  end;;
  match o_router o with
  | Some r => bc_router_destroy (Some r)
  | None => mret tt
  end;;
  match o_storage o with
  | Some s => call_ptr (s_destroy (contents s))
  | None => mret tt
  end;;
  match o_transport o with
  | Some t => call_ptr (t_destroy (contents t));; c_free (Some (addr t))
  | None => mret tt
  end;;
  ffi_update (fun g => set_identity
                (default (g_identity g) (bc_identity_wipe (Some (g_identity g)))) g);;
  ffi_update (set_initialized 0);;
  ffi_update (fun g => set_inbox (inbox g) 0 0 g);;
  UNLOCK;;
  pthread_mutex_destroy;;
  ffi_update (set_mutex_initialized 0);;
  mret no_objects.
End ffi.
