(* ===== verification/FfiSpec.v ===== *)
(** * FfiSpec: the inbox as a queue, and what the API's global state keeps true

    The ring buffer of [g_state] stands for a list of messages, oldest first,
    of at most 255 entries ([ring], [inbox_queue]); the messages in it are the
    heap blocks the global state holds.  [FfiWorld] ties this to the world's
    invariant; with it the delivery callback keeps the router's contract. *)
From S2P Require Import Prelude Effects Errors Sodium Message Peer Ports.
From S2P Require Import Identity CryptoManager Sealing Discovery Dedup Router RouterSpec Ffi.

(** ** The ring buffer *)

Definition ring_slot (g : g_state) (i : nat) : nat :=
  Z.to_nat ((inbox_tail g + Z.of_nat i) mod 256).

(** The inbox of [g] holds the messages [q], oldest first. *)
Definition ring (g : g_state) (q : list (box bc_message)) : Prop :=
  length (inbox g) = 256%nat /\ 0 <= inbox_tail g < 256 /\ zlen q <= 255 /\
  inbox_head g = (inbox_tail g + zlen q) mod 256 /\
  (forall i b, q !! i = Some b -> inbox g !! ring_slot g i = Some (Some b)).

(** The messages between tail and head. *)
Definition inbox_queue (g : g_state) : list (box bc_message) :=
  omap (fun i => mjoin (inbox g !! ring_slot g i))
    (seq 0 (Z.to_nat ((inbox_head g - inbox_tail g) mod 256))).

(** The blocks of the queued messages. *)
Definition inbox_blocks (g : g_state) : gset blk := blocks_of (inbox_queue g).

Definition ffi_ok (g : g_state) : Prop :=
  ring g (inbox_queue g) /\ separate (inbox_queue g) /\ identity_wf (g_identity g).

(** What may happen to the global state while a function of the API runs the
    code below it: messages are queued, and nothing else. *)
Definition ffi_grows (g g' : g_state) : Prop :=
  initialized g' = initialized g /\ g_identity g' = g_identity g /\
  user_callback g' = user_callback g /\ g_mutex g' = g_mutex g /\
  mutex_initialized g' = mutex_initialized g /\
  exists new, inbox_queue g' = inbox_queue g ++ new.

#[export] Instance ffi_grows_preorder : PreOrder ffi_grows.
Proof.
  split.
  - intros g. unfold ffi_grows. split_and!; try done. exists []. by rewrite app_nil_r.
  - intros g1 g2 g3 (?&?&?&?&?& new &Hn) (?&?&?&?&?& new' &Hn'). unfold ffi_grows.
    split_and!; try congruence. exists (new ++ new'). by rewrite Hn', Hn, app_assoc.
Qed.

(** The world's own state is the global state of the API, or contains it. *)
Class FfiWorld (W : Type) `{!HasOS W, !WorldInv W, !HasFfi W} : Prop := {
  ffi_world_ok : forall w, world_ok w -> ffi_ok (get_ffi w);
  ffi_world_set : forall g w, world_ok w -> ffi_ok g -> world_ok (set_ffi g w);
  ffi_world_held : forall w, held w = inbox_blocks (get_ffi w);
  ffi_world_evolves : forall w w', evolves w w' <-> ffi_grows (get_ffi w) (get_ffi w')
}.

(** The application's callback, given a public key and the bytes of a message
    whose length fits in 31 bits: it returns, gives back what it allocates, and,
    as the header demands, calls no function of the API. *)
Class UserSafe {W : Type} `{!HasOS W, !WorldInv W, !HasFfi W}
    (call_user : Z -> list Z -> list Z -> Z -> M W unit) : Prop :=
  user_safe : forall f s p n w, heap_ok w -> bytes_n 32 s -> bytes_ok p -> n = zlen p -> n < 2 ^ 31 ->
    wp (call_user f s p n) w (fun _ w' => balanced w w' /\ get_ffi w' = get_ffi w).

(** ** Lemmas: the ring *)

Lemma ring_queue g q : ring g q -> inbox_queue g = q.
Proof.
  intros (Hl & Ht & Hq & Hh & Hs). unfold inbox_queue.
  assert (Hc : Z.to_nat ((inbox_head g - inbox_tail g) mod 256) = length q).
  { rewrite Hh, Zminus_mod_idemp_l. replace (_ - _) with (zlen q) by lia.
    rewrite Z.mod_small by (pose proof (zlen_nonneg q); lia). unfold zlen. lia. }
  rewrite Hc. clear Hc Hq Hh. assert (Hs' : forall i b, q !! i = Some b ->
    mjoin (inbox g !! ring_slot g (0 + i)) = Some b) by (intros i b Hi; cbn; by rewrite (Hs i b Hi)).
  revert Hs'. generalize 0%nat as k. clear Hs. induction q as [|b q IH]; intros k Hs; [done|].
  cbn [length seq omap list_omap]. assert (H0 := Hs 0%nat b eq_refl). rewrite Nat.add_0_r in H0.
  cbn in H0. rewrite H0. f_equal. apply IH. intros i b' Hi. cbn.
  rewrite <- (Hs (S i) b' Hi). do 2 f_equal. unfold ring_slot. do 2 f_equal. lia.
Qed.

Lemma ring_slot_inj g i j : (i < 256)%nat -> (j < 256)%nat -> ring_slot g i = ring_slot g j -> i = j.
Proof.
  unfold ring_slot. intros Hi Hj H.
  assert (H' : (inbox_tail g + Z.of_nat i) mod 256 = (inbox_tail g + Z.of_nat j) mod 256).
  { assert (H1 := Z.mod_pos_bound (inbox_tail g + Z.of_nat i) 256 ltac:(lia)).
    assert (H2 := Z.mod_pos_bound (inbox_tail g + Z.of_nat j) 256 ltac:(lia)). lia. }
  clear H. Z.div_mod_to_equations. lia.
Qed.

Lemma ring_slot_lt g i : (ring_slot g i < 256)%nat.
Proof. unfold ring_slot. assert (H := Z.mod_pos_bound (inbox_tail g + Z.of_nat i) 256 ltac:(lia)). lia. Qed.

Lemma ring_head_slot g q : ring g q -> Z.to_nat (inbox_head g) = ring_slot g (length q).
Proof. intros (_ & _ & _ & -> & _). done. Qed.

Lemma ring_head_range g q : ring g q -> 0 <= inbox_head g < 256.
Proof. intros (_ & _ & _ & -> & _). apply Z.mod_pos_bound. lia. Qed.

(** The code's test for a full buffer, and for an empty one. *)
Lemma ring_full g q :
  ring g q -> to_u64 (inbox_head g + 1) mod 256 = inbox_tail g <-> zlen q = 255.
Proof.
  intros Hr. assert (Hh := ring_head_range _ _ Hr). destruct Hr as (_ & Ht & Hq & Hd & _).
  rewrite to_u64_id by (unfold is_u64; lia). assert (Hn := zlen_nonneg q).
  revert Hd. generalize (inbox_head g). intros h ->. Z.div_mod_to_equations. lia.
Qed.

Lemma ring_empty g q : ring g q -> inbox_tail g = inbox_head g <-> q = [].
Proof.
  intros (_ & Ht & Hq & -> & _). assert (Hn := zlen_nonneg q). split; [|intros ->].
  - intros H. apply length_zero_iff_nil. unfold zlen in *. Z.div_mod_to_equations. lia.
  - change (zlen []) with 0. rewrite Z.add_0_r, Z.mod_small; lia.
Qed.

(** Queueing at the head. *)
Lemma ring_push g q b :
  ring g q -> zlen q < 255 ->
  ring (set_inbox (<[Z.to_nat (inbox_head g) := Some b]> (inbox g))
          (to_u64 (inbox_head g + 1) mod 256) (inbox_tail g) g) (q ++ [b]).
Proof.
  intros Hr Hq. assert (Hs := ring_head_slot _ _ Hr). assert (Hh := ring_head_range _ _ Hr).
  destruct Hr as (Hl & Ht & _ & Hd & Hat).
  unfold ring. cbn [inbox inbox_head inbox_tail set_inbox].
  rewrite length_insert. split; [done|]. split; [done|]. split_and!.
  - rewrite zlen_app. change (zlen [b]) with 1. lia.
  - rewrite to_u64_id by (unfold is_u64; lia). rewrite Hd, Zplus_mod_idemp_l, zlen_app.
    f_equal. change (zlen [b]) with 1. lia.
  - intros i b' Hi. change (ring_slot _ i) with (ring_slot g i). rewrite Hs.
    assert (Hlt := lookup_lt_Some _ _ _ Hi). rewrite length_app in Hlt. cbn in Hlt.
    unfold zlen in Hq. destruct (decide (i = length q)) as [->|Hne].
    + rewrite list_lookup_middle in Hi by done. injection Hi as <-.
      apply list_lookup_insert_eq. rewrite Hl. apply ring_slot_lt.
    + rewrite list_lookup_insert_ne.
      * apply Hat. rewrite lookup_app_l in Hi by lia. done.
      * intros H. apply ring_slot_inj in H; lia.
Qed.

(** Taking from the tail. *)
Lemma ring_pop g b q :
  ring g (b :: q) ->
  inbox g !! Z.to_nat (inbox_tail g) = Some (Some b) /\
  ring (set_inbox (inbox g) (inbox_head g) (to_u64 (inbox_tail g + 1) mod 256) g) q.
Proof.
  intros (Hl & Ht & Hq & Hd & Hat). split.
  - rewrite <- (Hat 0%nat b eq_refl). unfold ring_slot. f_equal.
    rewrite Z.add_0_r, Z.mod_small; lia.
  - rewrite to_u64_id by (unfold is_u64; lia).
    unfold ring. cbn [inbox inbox_head inbox_tail set_inbox].
    split_and!; try done.
    + apply Z.mod_pos_bound. lia.
    + apply Z.mod_pos_bound. lia.
    + unfold zlen in *. cbn in Hq. lia.
    + rewrite Hd, Zplus_mod_idemp_l. f_equal. unfold zlen. cbn [length]. lia.
    + intros i b' Hi. rewrite <- (Hat (S i) b' Hi). unfold ring_slot. cbn. do 2 f_equal.
      rewrite Zplus_mod_idemp_l. f_equal. lia.
Qed.

Lemma ring_nil g : ring g [] -> ring (set_inbox (inbox g) 0 0 g) [].
Proof. intros (Hl & _). by repeat split. Qed.

(** The other fields do not matter. *)
Lemma ring_ext g g' q :
  inbox g' = inbox g -> inbox_head g' = inbox_head g -> inbox_tail g' = inbox_tail g ->
  ring g q -> ring g' q.
Proof. unfold ring, ring_slot. by intros -> -> ->. Qed.

Lemma inbox_queue_ext g g' :
  inbox g' = inbox g -> inbox_head g' = inbox_head g -> inbox_tail g' = inbox_tail g ->
  inbox_queue g' = inbox_queue g.
Proof. unfold inbox_queue, ring_slot. by intros -> -> ->. Qed.

(** ** Lemmas: ownership of the queue *)

Lemma blocks_of_cons b l : blocks_of (b :: l) = msg_blocks b ∪ blocks_of l.
Proof. done. Qed.

Lemma blocks_of_app l l' : blocks_of (l ++ l') = blocks_of l ∪ blocks_of l'.
Proof. unfold blocks_of. rewrite fmap_app. apply union_list_app_L. Qed.

Lemma queue_separate_snoc l b :
  separate l -> message_wf (contents b) -> msg_blocks_distinct b ->
  msg_blocks b ## blocks_of l -> separate (l ++ [b]).
Proof.
  intros Hs Hm Hd Hb. induction l as [|b' l IH]; cbn.
  - split_and!; done.
  - destruct Hs as (? & ? & ? & ?). rewrite blocks_of_cons in Hb. split_and!; try done.
    + rewrite blocks_of_app, blocks_of_cons. unfold blocks_of at 2. cbn. set_solver.
    + apply IH; [done|set_solver].
Qed.

(** ** Lemmas: changing the global state *)

Section state.
Context {W : Type} `{!HasOS W, !WorldInv W, !HasFfi W, !FfiWorld W}.
Implicit Types (w : W) (g : g_state).

(** The messages queued in a world. *)
Definition queue w : list (box bc_message) := inbox_queue (get_ffi w).

Lemma owned_ffi w : owned w = os_live (get_os w) ∖ inbox_blocks (get_ffi w).
Proof. unfold owned. by rewrite ffi_world_held. Qed.

Lemma owned_set_ffi g w : owned (set_ffi g w) = os_live (get_os w) ∖ inbox_blocks g.
Proof. by rewrite owned_ffi, get_os_set_ffi, get_set_ffi. Qed.

Lemma heap_ffi_ok w : heap_ok w -> ffi_ok (get_ffi w).
Proof. intros H. by apply ffi_world_ok, heap_world_ok. Qed.

Lemma heap_inbox_live w : heap_ok w -> inbox_blocks (get_ffi w) ⊆ os_live (get_os w).
Proof. intros [[_ H] _]. by rewrite ffi_world_held in H. Qed.

Lemma set_ffi_advances g w :
  ffi_ok g -> inbox_blocks g ⊆ os_live (get_os w) -> advances w (set_ffi g w).
Proof.
  intros Hg Hb. unfold advances, heap_shape.
  rewrite !ffi_world_held, get_os_set_ffi, get_set_ffi, inbound_set_ffi.
  split_and!; try done; [by intros []|]. intros Hw. by apply ffi_world_set.
Qed.

Lemma set_ffi_heap_ok g w :
  heap_ok w -> ffi_ok g -> inbox_blocks g ⊆ os_live (get_os w) -> heap_ok (set_ffi g w).
Proof. intros Hok Hg Hb. eapply advances_heap_ok; [by apply set_ffi_advances|done]. Qed.

(** The messages a state queues do not depend on its other fields. *)
Lemma ffi_ok_ext g g' :
  inbox g' = inbox g -> inbox_head g' = inbox_head g -> inbox_tail g' = inbox_tail g ->
  identity_wf (g_identity g') -> ffi_ok g -> ffi_ok g'.
Proof.
  intros H1 H2 H3 Hid (Hr & Hs & _). assert (Hq := inbox_queue_ext g g' H1 H2 H3).
  unfold ffi_ok. rewrite Hq. split_and!; [by eapply ring_ext|done|done].
Qed.

Lemma later_queue w w' : later w w' -> exists new, queue w' = queue w ++ new.
Proof. intros [_ He]. apply ffi_world_evolves in He as (_ & _ & _ & _ & _ & new & Hn). by exists new. Qed.

Lemma later_ffi w w' : later w w' -> ffi_grows (get_ffi w) (get_ffi w').
Proof. intros [_ He]. by apply ffi_world_evolves. Qed.

Lemma wp_ffi_get w (Q : g_state -> W -> Prop) : Q (get_ffi w) w -> wp ffi_get w Q.
Proof. done. Qed.

Lemma wp_ffi_put g w (Q : unit -> W -> Prop) : Q tt (set_ffi g w) -> wp (ffi_put g) w Q.
Proof. done. Qed.

Lemma wp_ffi_update f w (Q : unit -> W -> Prop) :
  Q tt (set_ffi (f (get_ffi w)) w) -> wp (ffi_update f) w Q.
Proof. done. Qed.

(** Moving an acquired message into the queue. *)
Lemma queue_balanced b g w0 w :
  heap_ok w0 -> owns_message b w0 w -> ffi_grows (get_ffi w) g -> ring g (queue w ++ [b]) ->
  balanced w0 (set_ffi g w).
Proof.
  intros Hok0 (Hm & Hd & Ha) Hgr Hr. assert (Hok : heap_ok w) by eauto with bitchat.
  destruct (heap_ffi_ok _ Hok) as (_ & Hsep & Hid). assert (Hq := ring_queue _ _ Hr).
  assert (Hown : owned w = msg_blocks b ∪ owned w0) by apply Ha.
  assert (Hdj : msg_blocks b ## owned w0) by apply Ha.
  assert (Hlive := heap_inbox_live _ Hok). rewrite owned_ffi in Hown.
  assert (Hbl : inbox_blocks g = inbox_blocks (get_ffi w) ∪ msg_blocks b).
  { unfold inbox_blocks. rewrite Hq, blocks_of_app, blocks_of_cons. unfold blocks_of at 3.
    cbn. by rewrite union_empty_r_L. }
  assert (Hg : ffi_ok g).
  { unfold ffi_ok. rewrite Hq. destruct Hgr as (_ & -> & _). split_and!; [done| |done].
    apply queue_separate_snoc; try done. change (msg_blocks b ## inbox_blocks (get_ffi w)). set_solver. }
  split; [|rewrite owned_set_ffi, Hbl; set_solver].
  split; [|apply ffi_world_evolves; rewrite get_set_ffi; by etrans; [apply later_ffi, Ha|]].
  eapply advances_trans; [apply Ha|]. apply set_ffi_advances; [done|]. rewrite Hbl. set_solver.
Qed.

(** The world without the oldest message. *)
Definition popped w : W :=
  set_ffi (set_inbox (inbox (get_ffi w)) (inbox_head (get_ffi w))
             (to_u64 (inbox_tail (get_ffi w) + 1) mod 256) (get_ffi w)) w.

(** Its blocks are then the caller's. *)
Lemma queue_pop w b q :
  heap_ok w -> queue w = b :: q ->
  inbox (get_ffi w) !! Z.to_nat (inbox_tail (get_ffi w)) = Some (Some b) /\
  0 <= inbox_tail (get_ffi w) /\ message_wf (contents b) /\ msg_blocks_distinct b /\
  heap_ok (popped w) /\ advances w (popped w) /\
  owned (popped w) = msg_blocks b ∪ owned w /\ msg_blocks b ## owned w /\ queue (popped w) = q.
Proof.
  intros Hok Hq. destruct (heap_ffi_ok _ Hok) as (Hr & Hsep & Hid).
  unfold queue in Hq. rewrite Hq in Hr, Hsep.
  destruct Hsep as (Hmw & Hmd & Hdis & Hsep'). destruct (ring_pop _ _ _ Hr) as [Hslot Hr'].
  unfold popped. set (g := get_ffi w) in *. set (g' := set_inbox _ _ _ g) in *.
  assert (Hq' := ring_queue _ _ Hr').
  assert (Hbl : inbox_blocks g = msg_blocks b ∪ inbox_blocks g')
    by (unfold inbox_blocks; by rewrite Hq, Hq').
  assert (Hgok : ffi_ok g') by (unfold ffi_ok; rewrite Hq'; by split_and!).
  assert (Hlive := heap_inbox_live _ Hok). fold g in Hlive. rewrite Hbl in Hlive.
  assert (Ha : advances w (set_ffi g' w)) by (apply set_ffi_advances; [done|set_solver]).
  assert (Hdj : msg_blocks b ## inbox_blocks g') by (unfold inbox_blocks; by rewrite Hq').
  assert (How : owned (set_ffi g' w) = msg_blocks b ∪ owned w /\ msg_blocks b ## owned w).
  { rewrite owned_set_ffi, owned_ffi. fold g. rewrite Hbl. clear -Hlive Hdj.
    split; [|set_solver]. apply set_eq. intros x. destruct (decide (x ∈ msg_blocks b)); set_solver. }
  destruct How as [How Hd]. split_and!; try done.
  - apply Hr.
  - by eapply advances_heap_ok.
  - unfold queue. by rewrite get_set_ffi.
Qed.
End state.

(** ** The delivery callback *)

Section callback.
Context {W : Type} `{!HasOS W, !WorldInv W, !HasFfi W, !FfiWorld W}.
Context `{!Sodium} `{!SodiumSpec _}.
Context (call_user : Z -> list Z -> list Z -> Z -> M W unit) `{!UserSafe call_user}.
Implicit Types (w : W) (m : bc_message).

(** The global state with [b] queued at the head of the ring. *)
Definition with_queued (b : box bc_message) (g : g_state) : g_state :=
  set_inbox (<[Z.to_nat (inbox_head g) := Some b]> (inbox g))
    (to_u64 (inbox_head g + 1) mod 256) (inbox_tail g) g.

(** The message went to the end of the queue, unless the queue was full or
    memory ran out; nothing else happened outside the run-time. *)
Definition pushed m w w' : Prop :=
  (silent w w' /\ (zlen (queue w) = 255 \/ ~ never_oom w)) \/
  (zlen (queue w) < 255 /\
   exists b, silent (set_ffi (with_queued b (get_ffi w)) w) w' /\
     queue w' = queue w ++ [b] /\ msg_packet (contents b) = msg_packet m).

(** The application was called once with the plaintext when a callback is
    registered and the payload decrypts, and nothing happened otherwise. *)
Definition handed m w w' : Prop :=
  (exists f pt w1 w2, user_callback (get_ffi w) = Some f /\
     opens (secret_key (g_identity (get_ffi w))) (sender_pubkey m) (msg_payload m) pt /\
     call_user f (sender_pubkey m) pt (zlen pt) w1 = Val (tt, w2) /\
     silent w w1 /\ silent w2 w') \/
  (silent w w' /\
   (user_callback (get_ffi w) = None \/ ~ never_oom w \/
    forall pt, ~ opens (secret_key (g_identity (get_ffi w))) (sender_pubkey m) (msg_payload m) pt)).

Lemma wp_inbox_push m w :
  heap_ok w -> message_wf m ->
  wp (inbox_push m) w (fun _ w' =>
    balanced w w' /\ pushed m w w' /\
    user_callback (get_ffi w') = user_callback (get_ffi w) /\
    g_identity (get_ffi w') = g_identity (get_ffi w)).
Proof.
  intros Hok Hm. destruct (heap_ffi_ok _ Hok) as (Hr & _ & _).
  unfold inbox_push. apply wp_bind, wp_ffi_get. cbv zeta. case_bool_decide as Hfull.
  2: { apply wp_ret.
       split_and!; [apply balanced_refl| |done|done]. left. split; [apply quiet_refl|]. left.
       by eapply ring_full. }
  assert (Hroom : zlen (queue w) < 255).
  { assert (Hfu := ring_full _ _ Hr). assert (Hle : zlen (queue w) <= 255) by apply Hr.
    unfold queue in *. destruct (decide (zlen (inbox_queue (get_ffi w)) = 255)); [tauto|lia]. }
  apply wp_bind. apply wp_quiet; [apply quiet_create|]. apply wp_create_copy; [done|done|].
  intros res w1 Hc [o Ho]. assert (Hg : get_ffi w1 = get_ffi w) by (rewrite Ho; apply get_ffi_set_os).
  destruct Hc as [(-> & Hb & Hoom)|(b & -> & Hown & Httl & Hs & Hrc & Hpl & Hclk)].
  { apply wp_ret. rewrite Hg. split_and!; try done. left. split; [by exists o|auto]. }
  assert (Hu : bytes_n 16 (uuid m)) by apply Hm.
  apply wp_bind, (wp_lift _ _ _ (uuid m)); [exact (mem_read_all _ _ (zlen_bytes_n _ _ Hu))|].
  apply wp_bind, wp_ffi_get. rewrite Hg.
  assert (Hh := ring_head_range _ _ Hr). assert (Hlen : length (inbox (get_ffi w)) = 256%nat) by apply Hr.
  apply wp_bind. eapply wp_lift.
  { unfold arr_set. rewrite bool_decide_eq_true_2 by zlen_lia. done. }
  apply wp_ffi_put. set (b' := Box (addr b) _).
  assert (Hown' : owns_message b' w w1).
  { destruct Hown as (Hmb & Hd & Ha). split; [|done].
    destruct Hm as (? & ? & ? & ? & ? & ? & ? & ?), Hmb as (? & ? & ? & ? & ? & ? & ? & ?).
    by split_and!. }
  assert (Hr' := ring_push _ _ b' Hr Hroom).
  split_and!; [| |by rewrite get_set_ffi..].
  - eapply (queue_balanced b'); [done|done| |unfold queue; by rewrite Hg].
    rewrite Hg. unfold ffi_grows. split_and!; try done. exists [b']. by apply ring_queue.
  - right. split; [done|]. exists b'. split; [exists o; by rewrite Ho, set_ffi_set_os|].
    unfold queue. rewrite get_set_ffi. split; [by apply ring_queue|].
    unfold msg_packet, b', msg_payload; cbn. rewrite Hs, Hrc. f_equal. exact Hpl.
Qed.

Lemma silent_ffi w w' : silent w w' -> get_ffi w' = get_ffi w.
Proof. intros [o ->]. apply get_ffi_set_os. Qed.

Lemma wp_push_deliver m w :
  heap_ok w -> message_wf m -> payload_len m < 2 ^ 31 ->
  wp (push_deliver call_user m) w (fun _ w' =>
    balanced w w' /\ get_ffi w' = get_ffi w /\ handed m w w').
Proof.
  intros Hok Hm Hl31. destruct (heap_ffi_ok _ Hok) as (_ & _ & _ & Hsk).
  unfold push_deliver. apply wp_bind, wp_ffi_get. unfold handed.
  destruct (user_callback (get_ffi w)) as [f|].
  2: { apply wp_ret. split_and!; [apply balanced_refl|done|]. right. auto using quiet_refl. }
  assert (Hsnd : bytes_n 32 (sender_pubkey m)) by apply Hm.
  assert (Hlen : payload_len m = zlen (msg_payload m)) by apply Hm.
  assert (Hpb : bytes_ok (msg_payload m)) by apply Hm. rewrite Hlen in *. clear Hlen.
  unfold msg_payload in *. destruct (payload m) as [pl|].
  2: { apply wp_ret. split_and!; [apply balanced_refl|done|]. right. split; [apply quiet_refl|].
       right; right. intros pt [Hle _]. by apply Hle. }
  cbv zeta. apply wp_open_sealed; try done.
  { intros w1 Hb1 Hs1 Hno. split_and!; [done|by apply silent_ffi|]. right. auto. }
  - intros out pt w1 Hout Hop Hptl Hptb Hl1 Hs1. rewrite bool_decide_eq_true_2 by done.
    cbn [from_option id]. rewrite drop_ge, app_nil_r, <- Hptl by zlen_lia.
    assert (Hu := user_safe f (sender_pubkey m) pt (zlen pt) w1 (later_heap_ok _ _ Hl1 Hok) Hsnd Hptb eq_refl
      ltac:(unfold BC_NONCE_SIZE, BC_TAG_SIZE in *; lia)).
    apply wp_val in Hu as ([] & w2 & Hrun & Hb2 & Hg2). unfold wp. rewrite Hrun. split; [done|].
    intros w3 Hb3 Hs3. split_and!; [done| |left; by exists f, pt, w1, w2].
    rewrite (silent_ffi _ _ Hs3), Hg2. by apply silent_ffi.
  - intros out w1 Hno Hl1 Hs1. rewrite bool_decide_eq_false_2 by done. apply wp_ret.
    split; [apply balanced_refl|]. intros w2 Hb2 Hs2. assert (Hs := quiet_trans _ _ _ Hs1 Hs2).
    split_and!; [done|by apply silent_ffi|]. right. auto.
Qed.

Lemma wp_on_message m u w :
  heap_ok w -> message_wf m -> payload_len m < 2 ^ 31 ->
  wp (on_message_received call_user m u) w (fun _ w' =>
    balanced w w' /\ exists w1, pushed m w w1 /\ handed m w1 w' /\ queue w' = queue w1 /\
      user_callback (get_ffi w1) = user_callback (get_ffi w) /\
      g_identity (get_ffi w1) = g_identity (get_ffi w)).
Proof.
  intros Hok Hm Hl31. apply wp_bind. eapply wp_mono; [by apply wp_inbox_push|].
  intros _ w1 (Hb1 & Hp & Hc & Hi). eapply wp_mono; [apply wp_push_deliver; by eauto with bitchat|].
  intros _ w2 (Hb2 & Hg & Hh). split; [by eauto with bitchat|]. exists w1. unfold queue.
  by rewrite Hg.
Qed.

#[export] Instance on_message_safe : CallbackSafe (on_message_received call_user).
Proof.
  intros m u w Hok Hm Hl31. eapply wp_mono; [by apply wp_on_message|]. by intros _ w' [Hb _].
Qed.
End callback.
