(* ===== verification/FfiApi.v ===== *)
(** * FfiApi: the invariant of the C API

    [ffi_inv n base o w]: the mutex is held [n] times, the objects of the global
    state are well-formed and wired to each other, and the live blocks are
    exactly those of the router and the discovery manager, those of the queued
    messages, and [base] (the adapters and whatever the application owns).
    Each function of the API keeps it, on every path. *)
From S2P Require Import Prelude Effects Errors Sodium Message Peer Ports.
From S2P Require Import StubTransports Identity CryptoManager Sealing Discovery Dedup Router RouterSpec Outbound Ffi FfiSpec.

Section invariant.
Context {W : Type} `{!HasOS W, !WorldInv W, !HasFfi W, !FfiWorld W, Hna : !Sodium}.
Context (call_user : Z -> list Z -> list Z -> Z -> M W unit).
Implicit Types (w : W) (o : g_objects W).

Definition opt_blocks {A} (f : A -> gset blk) (x : option A) : gset blk :=
  match x with Some a => f a | None => ∅ end.

Definition disc_blocks (d : box (bc_discovery W)) : gset blk := {[addr d]}.

Definition object_blocks o : gset blk :=
  opt_blocks router_blocks (o_router o) ∪ opt_blocks disc_blocks (o_discovery o).

(** The adapters keep their contracts. *)
Definition adapters_safe o : Prop :=
  (forall t, o_transport o = Some t -> TransportSafe (contents t) /\ TransportBenign (contents t)) /\
  (forall s, o_storage o = Some s -> StorageSafe (contents s)).

(** The router as the API builds it: it knows no peer. *)
Definition router_wired o (b : box (bc_router W)) : Prop :=
  router_wf (contents b) /\ addr b <> addr (dedup_table (contents b)) /\
  transport (contents b) = contents <$> o_transport o /\
  storage (contents b) = contents <$> o_storage o /\
  on_message (contents b) = Some (on_message_received call_user) /\
  peer_count (contents b) = 0.

Definition discovery_wired o (d : box (bc_discovery W)) : Prop :=
  discovery_wf (contents d) /\ disc_transport (contents d) = contents <$> o_transport o /\
  on_found (contents d) = None.

Definition objects_wf o : Prop :=
  adapters_safe o /\
  (forall b, o_router o = Some b -> router_wired o b) /\
  (forall d, o_discovery o = Some d -> discovery_wired o d) /\
  opt_blocks router_blocks (o_router o) ## opt_blocks disc_blocks (o_discovery o).

Definition ffi_inv (n : Z) (base : gset blk) o w : Prop :=
  heap_ok w /\ initialized (get_ffi w) <> 0 /\ g_mutex (get_ffi w) = MutexReady n /\
  objects_wf o /\ owned w = object_blocks o ∪ base /\ object_blocks o ## base.

(** The adapters are those of [o]. *)
Definition same_adapters o o' : Prop :=
  o_transport o' = o_transport o /\ o_storage o' = o_storage o.

(** The fields of the global state that only dedicated functions change. *)
Definition same_account w w' : Prop :=
  g_identity (get_ffi w') = g_identity (get_ffi w) /\
  user_callback (get_ffi w') = user_callback (get_ffi w).

Lemma same_account_trans w1 w2 w3 :
  same_account w1 w2 -> same_account w2 w3 -> same_account w1 w3.
Proof. unfold same_account. intuition congruence. Qed.

Lemma later_account w w' : later w w' -> same_account w w'.
Proof. intros H. apply later_ffi in H as (_ & ? & ? & _). done. Qed.

Lemma inv_heap_ok n base o w : ffi_inv n base o w -> heap_ok w.
Proof. by intros []. Qed.

Lemma inv_later n base base' o o' w w' :
  later w w' -> objects_wf o' -> owned w' = object_blocks o' ∪ base' -> object_blocks o' ## base' ->
  ffi_inv n base o w -> ffi_inv n base' o' w'.
Proof.
  intros Hl Ho Hw Hd (Hok & Hi & Hm & _). destruct (later_ffi _ _ Hl) as (Hi' & _ & _ & Hm' & _).
  split_and!; [by eauto with bitchat|congruence|congruence|done|done|done].
Qed.

Lemma inv_balanced n base o w w' : balanced w w' -> ffi_inv n base o w -> ffi_inv n base o w'.
Proof.
  intros Hb Hi. eapply inv_later; [apply Hb|apply Hi| |apply Hi|exact Hi].
  destruct Hb as [_ ->]. apply Hi.
Qed.

Lemma inv_released n base bs o w w' :
  released bs w w' -> bs ⊆ base -> ffi_inv n base o w -> ffi_inv n (base ∖ bs) o w'.
Proof.
  intros [Hl Ho] Hs Hi. assert (Hown : owned w = object_blocks o ∪ base) by apply Hi.
  assert (Hob : object_blocks o ## base) by apply Hi.
  rewrite Hown in Ho. eapply inv_later; [done|apply Hi| |set_solver|done].
  rewrite Ho. set_solver.
Qed.

(** What was acquired meanwhile is released. *)
Lemma inv_released_all n base bs o w w' :
  released bs w w' -> bs ## base -> ffi_inv n (bs ∪ base) o w -> ffi_inv n base o w'.
Proof.
  intros Hr Hd Hi. assert (Hi' := inv_released _ _ _ _ _ _ Hr (union_subseteq_l _ _) Hi).
  by replace ((bs ∪ base) ∖ bs) with base in Hi' by set_solver.
Qed.

(** ** The mutex *)

(** A change of the global state that leaves the queue alone. *)
Lemma set_ffi_same g w :
  heap_ok w -> inbox g = inbox (get_ffi w) -> inbox_head g = inbox_head (get_ffi w) ->
  inbox_tail g = inbox_tail (get_ffi w) -> identity_wf (g_identity g) ->
  advances w (set_ffi g w) /\ heap_ok (set_ffi g w) /\ owned (set_ffi g w) = owned w /\
  queue (set_ffi g w) = queue w.
Proof.
  intros Hok H1 H2 H3 Hid. assert (Hq := inbox_queue_ext _ _ H1 H2 H3).
  assert (Hg : ffi_ok g) by (eapply ffi_ok_ext; [..|by apply heap_ffi_ok]; done).
  assert (Hb : inbox_blocks g = inbox_blocks (get_ffi w)) by (unfold inbox_blocks; by rewrite Hq).
  assert (Hl := heap_inbox_live _ Hok). assert (Ha : advances w (set_ffi g w))
    by (apply set_ffi_advances; [done|by rewrite Hb]).
  split_and!; [done|by eapply advances_heap_ok|by rewrite owned_set_ffi, owned_ffi, Hb|].
  unfold queue. by rewrite get_set_ffi.
Qed.

(** Changing the mutex changes nothing else. *)
Lemma inv_set_mutex n n' base o w :
  ffi_inv n base o w ->
  let w' := set_ffi (set_mutex (MutexReady n') (get_ffi w)) w in
  ffi_inv n' base o w' /\ advances w w' /\ queue w' = queue w /\ same_account w w'.
Proof.
  intros (Hok & Hi & Hm & Ho & Hown & Hd) w'. assert (Hid : identity_wf (g_identity (get_ffi w)))
    by apply (heap_ffi_ok _ Hok).
  destruct (set_ffi_same (set_mutex (MutexReady n') (get_ffi w)) w Hok eq_refl eq_refl eq_refl Hid)
    as (Ha & Hok' & How & Hq).
  split_and!; try done.
  - unfold ffi_inv, w'. rewrite get_set_ffi. cbn. split_and!; try done. congruence.
  - unfold same_account, w'. by rewrite get_set_ffi.
Qed.

(** The world with the mutex taken, and given back. *)
Definition locked w : W := set_ffi (set_mutex (MutexReady 1) (get_ffi w)) w.
Definition unlocked w : W := set_ffi (set_mutex (MutexReady 0) (get_ffi w)) w.

Lemma unlocked_locked w : g_mutex (get_ffi w) = MutexReady 0 -> unlocked (locked w) = w.
Proof.
  intros Hm. unfold unlocked, locked. rewrite get_set_ffi, set_set_ffi.
  replace (set_mutex _ _) with (get_ffi w); [apply set_get_ffi|]. revert Hm. by destruct (get_ffi w); cbn; intros ->.
Qed.

Lemma unlocked_set_os os w : unlocked (set_os os w) = set_os os (unlocked w).
Proof. unfold unlocked. by rewrite get_ffi_set_os, set_ffi_set_os. Qed.

(** What only used the run-time while it held the mutex only used the run-time. *)
Lemma silent_unlocked w w' :
  g_mutex (get_ffi w) = MutexReady 0 -> silent (locked w) w' -> silent w (unlocked w').
Proof.
  intros Hm [os ->]. exists os. by rewrite unlocked_set_os, unlocked_locked.
Qed.

Lemma get_os_locked w : get_os (locked w) = get_os w.
Proof. apply get_os_set_ffi. Qed.

Lemma get_os_unlocked w : get_os (unlocked w) = get_os w.
Proof. apply get_os_set_ffi. Qed.

Lemma wp_lock base o w (Q : unit -> W -> Prop) :
  ffi_inv 0 base o w ->
  (forall w', ffi_inv 1 base o w' -> advances w w' -> queue w' = queue w -> same_account w w' ->
     Q tt w') -> wp LOCK w Q.
Proof.
  intros Hi HQ. unfold LOCK. apply wp_bind, wp_ffi_get.
  assert (Hm : g_mutex (get_ffi w) = MutexReady 0) by apply Hi. rewrite Hm.
  apply wp_ffi_put. destruct (inv_set_mutex 0 1 _ _ _ Hi) as (? & ? & ? & ?). by apply HQ.
Qed.

Lemma wp_unlock_at {A} base o w (a : A) (Q : A -> W -> Prop) :
  ffi_inv 1 base o w -> Q a (unlocked w) -> wp (UNLOCK;; mret a) w Q.
Proof.
  intros Hi HQ. apply wp_bind. unfold UNLOCK. apply wp_bind, wp_ffi_get.
  assert (Hm : g_mutex (get_ffi w) = MutexReady 1) by apply Hi. rewrite Hm. by apply wp_ffi_put.
Qed.

Lemma wp_unlock {A} base o w (a : A) (Q : A -> W -> Prop) :
  ffi_inv 1 base o w ->
  (forall w', ffi_inv 0 base o w' -> advances w w' -> queue w' = queue w -> same_account w w' ->
     Q a w') -> wp (UNLOCK;; mret a) w Q.
Proof.
  intros Hi HQ. destruct (inv_set_mutex 1 0 _ _ _ Hi) as (? & ? & ? & ?).
  apply (wp_unlock_at base o); [done|]. by apply HQ.
Qed.
End invariant.

(** ** The functions of the API *)

(** Set arithmetic of the invariant. *)
Lemma blocks_drop_l (R D B O O' : gset blk) :
  O = R ∪ D ∪ B -> R ## D -> R ∪ D ## B -> O' = O ∖ R -> O' = ∅ ∪ D ∪ B /\ ∅ ∪ D ## B.
Proof. set_solver. Qed.

Lemma blocks_drop_r (R D B O O' : gset blk) :
  O = R ∪ D ∪ B -> R ## D -> R ∪ D ## B -> O' = O ∖ D -> O' = R ∪ ∅ ∪ B /\ R ∪ ∅ ## B.
Proof. set_solver. Qed.

Lemma blocks_add_l (R D B O O' : gset blk) :
  O = ∅ ∪ D ∪ B -> ∅ ∪ D ## B -> R ## O -> O' = R ∪ O ->
  O' = R ∪ D ∪ B /\ R ∪ D ## B /\ R ## D.
Proof. set_solver. Qed.

Lemma blocks_add_r (R D B O O' : gset blk) :
  O = R ∪ ∅ ∪ B -> R ∪ ∅ ## B -> D ## O -> O' = D ∪ O ->
  O' = R ∪ D ∪ B /\ R ∪ D ## B /\ R ## D.
Proof. set_solver. Qed.

Section functions.
Context {W : Type} `{!HasOS W, !WorldInv W, !HasFfi W, !FfiWorld W}.
Context `{Hna : !Sodium} `{!SodiumSpec _}.
Context (call_user : Z -> list Z -> list Z -> Z -> M W unit) `{!UserSafe call_user}.
Implicit Types (w : W) (o : g_objects W).
#[local] Abbreviation ffi_inv := (ffi_inv call_user).
#[local] Abbreviation objects_wf := (objects_wf call_user).

Definition without_router o : g_objects W := mkObjects (o_transport o) (o_storage o) None (o_discovery o).
Definition with_router (b : box (bc_router W)) o : g_objects W :=
  mkObjects (o_transport o) (o_storage o) (Some b) (o_discovery o).
Definition with_discovery (d : option (box (bc_discovery W))) o : g_objects W :=
  mkObjects (o_transport o) (o_storage o) (o_router o) d.

Lemma objects_wf_without_router o : objects_wf o -> objects_wf (without_router o).
Proof.
  intros (Ha & _ & Hd & _). split_and!; [done|done|done|]. cbn. set_solver.
Qed.

Lemma objects_wf_with_router o b :
  objects_wf o -> router_wired call_user o b -> router_blocks b ## opt_blocks disc_blocks (o_discovery o) ->
  objects_wf (with_router b o).
Proof.
  intros (Ha & _ & Hd & _) Hb Hdis. split_and!; [done| |done|done]. by intros b' [= <-].
Qed.

Lemma objects_wf_with_discovery o d :
  objects_wf o -> (forall x, d = Some x -> discovery_wired o x) ->
  opt_blocks router_blocks (o_router o) ## opt_blocks disc_blocks d ->
  objects_wf (with_discovery d o).
Proof. intros (Ha & Hr & _ & _) Hd Hdis. by split_and!. Qed.

Lemma object_blocks_sub o :
  opt_blocks router_blocks (o_router o) ⊆ object_blocks o /\
  opt_blocks disc_blocks (o_discovery o) ⊆ object_blocks o.
Proof. unfold object_blocks. set_solver. Qed.

(** Destroying the router, if any. *)
Lemma wp_drop_router n base o w (Q : unit -> W -> Prop) :
  ffi_inv n base o w ->
  (forall w', later w w' -> ffi_inv n base (without_router o) w' -> Q tt w') ->
  wp (match o_router o with Some r => bc_router_destroy (Some r) | None => mret tt end) w Q.
Proof.
  intros Hi HQ. assert (Hwf' : objects_wf (without_router o)) by (apply objects_wf_without_router; apply Hi).
  assert (Hdrop : forall w', later w w' ->
    owned w' = owned w ∖ opt_blocks router_blocks (o_router o) -> ffi_inv n base (without_router o) w').
  { intros w' Hl Ho. assert (Hi' := Hi). destruct Hi' as (_ & _ & _ & (_ & _ & _ & Hdis) & Hown & Hob).
    destruct (blocks_drop_l _ _ _ _ _ Hown Hdis Hob Ho) as [? ?].
    eapply inv_later; [exact Hl|done|done|done|exact Hi]. }
  assert (Hr : forall b, o_router o = Some b -> router_wired call_user o b) by apply Hi.
  assert (Hsub : opt_blocks router_blocks (o_router o) ⊆ owned w).
  { destruct Hi as (_ & _ & _ & _ & Hown & _). rewrite Hown. apply union_subseteq_l', object_blocks_sub. }
  destruct (o_router o) as [b|]; cbn [opt_blocks] in *.
  - eapply wp_mono; [apply wp_router_destroy; [by apply (Hr b)|done]|]. intros [] w' [Hl How].
    apply HQ; auto.
  - apply wp_ret, HQ; [apply later_refl|]. apply Hdrop; [apply later_refl|]. by rewrite difference_empty_L.
Qed.

(** Destroying the discovery manager, if any. *)
Lemma wp_drop_discovery n base o w (Q : unit -> W -> Prop) :
  ffi_inv n base o w ->
  (forall w', later w w' -> ffi_inv n base (with_discovery None o) w' -> Q tt w') ->
  wp (match o_discovery o with
      | Some d => bc_discovery_destroy (Some (addr d))
      | None => mret tt
      end) w Q.
Proof.
  intros Hi HQ. assert (Hwf' : objects_wf (with_discovery None o))
    by (apply objects_wf_with_discovery; [apply Hi|done|apply disjoint_empty_r]).
  assert (Hdrop : forall w', later w w' ->
    owned w' = owned w ∖ opt_blocks disc_blocks (o_discovery o) ->
    ffi_inv n base (with_discovery None o) w').
  { intros w' Hl Ho. assert (Hi' := Hi). destruct Hi' as (_ & _ & _ & (_ & _ & _ & Hdis) & Hown & Hob).
    destruct (blocks_drop_r _ _ _ _ _ Hown Hdis Hob Ho) as [? ?].
    eapply inv_later; [exact Hl|done|done|done|exact Hi]. }
  assert (Hsub : opt_blocks disc_blocks (o_discovery o) ⊆ owned w).
  { destruct Hi as (_ & _ & _ & _ & Hown & _). rewrite Hown. apply union_subseteq_l', object_blocks_sub. }
  destruct (o_discovery o) as [d|]; cbn [opt_blocks] in *.
  - apply wp_free_owned; [apply Hsub; by apply elem_of_singleton|]. intros w' [Hl How]. auto.
  - apply wp_ret, HQ; [apply later_refl|]. apply Hdrop; [apply later_refl|]. by rewrite difference_empty_L.
Qed.

(** Adding a new one. *)
Lemma inv_add_router n base o b w w' :
  ffi_inv n base o w -> o_router o = None -> acquired (router_blocks b) w w' ->
  router_wired call_user o b -> ffi_inv n base (with_router b o) w'.
Proof.
  intros Hi Hn (Hl & How & Hd & _) Hb. assert (Hi' := Hi).
  destruct Hi' as (_ & _ & _ & Hwf & Hown & Hob). unfold object_blocks in Hown, Hob.
  rewrite Hn in Hown, Hob. destruct (blocks_add_l _ _ _ _ _ Hown Hob Hd How) as (? & ? & ?).
  eapply inv_later; [exact Hl|by apply objects_wf_with_router|done|done|exact Hi].
Qed.

Lemma inv_add_discovery n base o d w w' :
  ffi_inv n base o w -> o_discovery o = None -> acquired {[addr d]} w w' ->
  discovery_wired o d -> ffi_inv n base (with_discovery (Some d) o) w'.
Proof.
  intros Hi Hn (Hl & How & Hd & _) Hb. assert (Hi' := Hi).
  destruct Hi' as (_ & _ & _ & Hwf & Hown & Hob). unfold object_blocks in Hown, Hob.
  rewrite Hn in Hown, Hob. destruct (blocks_add_r _ _ _ _ _ Hown Hob Hd How) as (? & ? & ?).
  eapply inv_later; [exact Hl| |done|done|exact Hi].
  apply objects_wf_with_discovery; [done|by intros x [= <-]|done].
Qed.

(** What every function leaves behind: the invariant, with the same adapters. *)
Definition stays (base : gset blk) o w o' w' : Prop :=
  ffi_inv 0 base o' w' /\ advances w w' /\ same_adapters o o'.

(** Besides: the identity and the registered callback are those of [w], and the
    queue may have grown. *)
Definition returns (base : gset blk) o w0 w o' w' : Prop :=
  stays base o w0 o' w' /\ same_account w w' /\ exists new, queue w' = queue w ++ new.

(** The end of a function. *)
Lemma wp_finish_from {A} base o o' w0 w w1 (a : A) (Q : A -> W -> Prop) :
  advances w0 w -> later w w1 -> ffi_inv 1 base o' w1 -> same_adapters o o' ->
  (returns base o w0 w o' (unlocked w1) -> Q a (unlocked w1)) -> wp (UNLOCK;; mret a) w1 Q.
Proof.
  intros Hadv Hl Hi Hs HQ. eapply (wp_unlock_at call_user); [done|].
  destruct (inv_set_mutex call_user 1 0 _ _ _ Hi) as (Hi' & Ha' & Hq' & Hs').
  apply HQ. split; [split; [done|split; [|done]]|split].
  - eapply advances_trans; [done|]. eapply advances_trans; [apply Hl|done].
  - eapply same_account_trans; [by apply later_account|done].
  - unfold unlocked. rewrite Hq'. by apply later_queue.
Qed.

Lemma wp_finish {A} base o o' w0 w w1 (a : A) (Q : A -> W -> Prop) :
  advances w0 w -> later w w1 -> ffi_inv 1 base o' w1 -> same_adapters o o' ->
  (forall w', returns base o w0 w o' w' -> Q a w') -> wp (UNLOCK;; mret a) w1 Q.
Proof. intros Ha Hl Hi Hs HQ. eapply wp_finish_from; [done..|]. auto. Qed.

Lemma wp_recreate base o w0 w :
  ffi_inv 1 base o w -> advances w0 w ->
  wp (recreate_router call_user o) w (fun '(rc, o') w' =>
    returns base o w0 w o' w' /\
    ((rc = BC_OK /\ exists b, o_router o' = Some b /\
        local_pubkey (contents b) = pubkey (g_identity (get_ffi w)) /\
        config (contents b) = default_config) \/
     (rc = BC_ERR_NOMEM /\ ~ never_oom w /\ o_router o' = None))).
Proof.
  intros Hi Hadv. unfold recreate_router. apply wp_bind, wp_ffi_get.
  assert (Hid : identity_wf (g_identity (get_ffi w))) by apply (heap_ffi_ok _ (inv_heap_ok _ _ _ _ _ Hi)).
  apply wp_bind, (wp_drop_router 1 base); [done|]. intros w1 Hl1 Hi1.
  apply wp_bind. eapply wp_mono.
  { apply wp_router_create; [by eapply inv_heap_ok|apply Hid|done]. }
  intros [b|] w2 Hc.
  2: { destruct Hc as [Hb Hoom]. eapply wp_finish; [done| |by eapply inv_balanced|done|].
       { by eauto with bitchat. }
       intros w3 Hr. split; [done|]. right. split_and!; [done| |done].
       intros Hno. apply Hoom. by eauto with bitchat. }
  destruct Hc as (Hwf & Hne & Ha & Ht & Hs & Hcfg & Hlp & Hpc & Hom). cbv zeta.
  change (default (contents b) _) with (mkRouter (transport (contents b)) (storage (contents b))
    (config (contents b)) (local_pubkey (contents b)) (dedup_table (contents b))
    (dedup_cap (contents b)) (peers (contents b)) (peer_count (contents b))
    (Some (on_message_received call_user)) 0 (last_sf_tick (contents b))).
  set (b' := Box (addr b) (mkRouter _ _ _ _ _ _ _ _ _ _ _)).
  assert (Hi2 : ffi_inv 1 base (with_router b' (without_router o)) w2)
    by (eapply inv_add_router; [done|done|done|]; by split_and!).
  apply wp_bind, (wp_drop_discovery 1 base _ w2 _ Hi2). intros w3 Hl3 Hi3.
  assert (Hl03 : later w w3) by by eauto with bitchat.
  apply wp_bind. unfold bc_discovery_create. apply wp_bind, wp_alloc; [by eapply inv_heap_ok| |].
  - intros w4 _ Hb4. apply wp_ret. eapply wp_finish; [done| |by eapply inv_balanced|done|].
    { by eauto with bitchat. }
    intros w5 Hr. split; [done|]. left. split; [done|]. by exists b'.
  - intros d w4 Ha4. apply wp_ret. set (d' := Box d _).
    assert (Hi4 : ffi_inv 1 base (with_discovery (Some d')
        (with_discovery None (with_router b' (without_router o)))) w4).
    { apply (inv_add_discovery 1 base _ d' w3 w4 Hi3 eq_refl Ha4). split_and!; [|done|done].
      unfold discovery_wf, d'. cbn. apply peer_table_empty. }
    eapply wp_finish; [done| |exact Hi4|done|]. { by eauto with bitchat. }
    intros w5 Hr. split; [done|]. left. split; [done|]. by exists b'.
Qed.

(** A change of the global state outside the inbox and the mutex. *)
Lemma inv_set_ffi n base o g w :
  ffi_inv n base o w -> inbox g = inbox (get_ffi w) -> inbox_head g = inbox_head (get_ffi w) ->
  inbox_tail g = inbox_tail (get_ffi w) -> identity_wf (g_identity g) ->
  initialized g <> 0 -> g_mutex g = MutexReady n ->
  ffi_inv n base o (set_ffi g w) /\ advances w (set_ffi g w) /\ queue (set_ffi g w) = queue w.
Proof.
  intros (Hok & _ & _ & Ho & Hown & Hd) H1 H2 H3 Hid Hinit Hm.
  destruct (set_ffi_same g w Hok H1 H2 H3 Hid) as (Ha & Hok' & How & Hq).
  split; [|done]. split; [done|]. rewrite get_set_ffi, How. done.
Qed.

(** Entering a function: the mutex is taken and the guard reads the state. *)
Lemma wp_enter_at {A} base o w (k : g_state -> M W A) (Q : A -> W -> Prop) :
  ffi_inv 0 base o w ->
  (ffi_inv 1 base o (locked w) -> advances w (locked w) -> queue (locked w) = queue w ->
     same_account w (locked w) -> initialized (get_ffi (locked w)) <> 0 ->
     wp (k (get_ffi (locked w))) (locked w) Q) ->
  wp (LOCK;; g ← ffi_get; k g) w Q.
Proof.
  intros Hi HQ. apply wp_bind. unfold LOCK. apply wp_bind, wp_ffi_get.
  assert (Hm : g_mutex (get_ffi w) = MutexReady 0) by apply Hi. rewrite Hm. apply wp_ffi_put.
  destruct (inv_set_mutex call_user 0 1 _ _ _ Hi) as (Hi' & ? & ? & ?).
  apply wp_bind, wp_ffi_get, HQ; try done. apply Hi'.
Qed.

Lemma wp_enter {A} base o w (k : g_state -> M W A) (Q : A -> W -> Prop) :
  ffi_inv 0 base o w ->
  (forall w', ffi_inv 1 base o w' -> advances w w' -> queue w' = queue w -> same_account w w' ->
     initialized (get_ffi w') <> 0 -> wp (k (get_ffi w')) w' Q) ->
  wp (LOCK;; g ← ffi_get; k g) w Q.
Proof.
  intros Hi HQ. apply (wp_enter_at base o); [done|]. by apply HQ.
Qed.

Lemma wp_copy_out (l : list Z) (out : option (list Z)) w (Q : option (list Z) -> W -> Prop) :
  (forall b, out = Some b -> zlen l <= zlen b) ->
  (forall out', (forall b, out = Some b -> out' = Some (l ++ drop (length l) b)) ->
     (out = None -> out' = None) -> Q out' w) ->
  wp (match out with
      | None => mret None
      | Some b => b ← lift (mem_write b 0 l); mret (Some b)
      end) w Q.
Proof.
  intros Hl HQ. destruct out as [b|].
  - apply wp_bind. eapply wp_lift; [apply mem_write_front; by apply Hl|]. apply wp_ret, HQ; [|done].
    by intros ? [= <-].
  - apply wp_ret, HQ; done.
Qed.

(** The buffers of the caller are large enough. *)
Definition room (n : Z) (out : option (list Z)) : Prop := forall b, out = Some b -> n <= zlen b.

(** The front of the buffer holds [l]. *)
Definition filled (l : list Z) (out out' : option (list Z)) : Prop :=
  out' = (fun b => l ++ drop (length l) b) <$> out.

Lemma wp_generate base o w pk_out sk_out :
  ffi_inv 0 base o w -> room 32 pk_out -> room 32 sk_out ->
  wp (bitchat_generate_identity call_user pk_out sk_out o) w (fun '(rc, (pk, sk), o') w' =>
    stays base o w o' w' /\ (exists new, queue w' = queue w ++ new) /\
    identity_wf (g_identity (get_ffi w')) /\ generated (pubkey (g_identity (get_ffi w'))) (secret_key (g_identity (get_ffi w'))) /\
    filled (pubkey (g_identity (get_ffi w'))) pk_out pk /\
    filled (secret_key (g_identity (get_ffi w'))) sk_out sk /\
    ((rc = BC_OK /\ exists b, o_router o' = Some b /\
        local_pubkey (contents b) = pubkey (g_identity (get_ffi w'))) \/
     (rc = BC_ERR_NOMEM /\ ~ never_oom w))).
Proof.
  intros Hi Hpo Hso. apply (wp_enter base o); [done|]. intros w1 Hi1 Ha1 Hq1 Hs1 Hinit.
  rewrite bool_decide_eq_false_2 by done.
  apply wp_bind. unfold bc_identity_generate. apply wp_bind, wp_box_keypair.
  intros seed pk sk w2 Hb2 Hseed Hkp Hpk Hsk. apply wp_ret. cbn [fst snd from_option].
  rewrite (bool_decide_eq_false_2 (0 <> 0)) by lia.
  assert (Hi2 := inv_balanced _ _ _ _ _ _ Hb2 Hi1).
  apply wp_bind, wp_ffi_update. cbn [from_option id].
  set (id0 := mkIdentity pk sk). assert (Hid : identity_wf id0) by done.
  destruct (inv_set_ffi 1 base o (set_identity id0 (get_ffi w2)) w2 Hi2) as (Hi3 & Ha3 & Hq3);
    try done; [apply Hi2|apply Hi2|]. set (w3 := set_ffi _ w2) in *.
  assert (Hg3 : g_identity (get_ffi w3) = id0) by (unfold w3; by rewrite get_set_ffi).
  apply wp_bind, wp_ffi_get. rewrite Hg3.
  assert (Hlen : zlen pk = 32 /\ zlen sk = 32)
    by (split; [apply (zlen_bytes_n 32), Hpk|apply (zlen_bytes_n 32), Hsk]).
  apply wp_bind, wp_copy_out; [cbn; intros b Hb; specialize (Hpo b Hb); lia|]. intros pk' Hp1 Hp2.
  apply wp_bind, wp_copy_out; [cbn; intros b Hb; specialize (Hso b Hb); lia|]. intros sk' Hk1 Hk2.
  apply wp_bind. eapply wp_mono; [apply (wp_recreate base o w w3 Hi3)|].
  { eapply advances_trans; [done|]. eapply advances_trans; [apply Hb2|done]. }
  intros [rc o'] w4 [(Hst & Hacc & new & Hn) Hcase]. apply wp_ret.
  assert (Hg4 : g_identity (get_ffi w4) = id0) by (rewrite <- Hg3; apply Hacc).
  rewrite Hg4, Hn, Hq3. destruct (later_queue _ _ (balanced_later _ _ Hb2)) as [new2 Hn2].
  rewrite Hn2, Hq1. split; [done|]. split; [exists (new2 ++ new); by rewrite app_assoc|].
  split; [done|]. split; [by exists seed|]. split; [unfold filled; destruct pk_out; cbn; auto|].
  split; [unfold filled; destruct sk_out; cbn; auto|].
  rewrite Hg3 in Hcase. destruct Hcase as [(-> & b & Hb & Hlp & _)|(-> & Hoom & _)].
  - left. split; [done|]. by exists b.
  - right. split; [done|]. intros Hno. apply Hoom. eapply advances_never_oom; [|done].
    eapply advances_trans; [done|]. eapply advances_trans; [apply Hb2|done].
Qed.

Lemma wp_load base o w data len :
  ffi_inv 0 base o w ->
  (forall d, data = Some d -> bytes_ok d /\ len <= zlen d) ->
  wp (bitchat_load_identity call_user data len o) w (fun '(rc, o') w' =>
    stays base o w o' w' /\ (exists new, queue w' = queue w ++ new) /\
    match data with
    | Some d =>
        if bool_decide (len < 64) then rc = BC_ERR_INVALID /\ same_account w w' /\ o' = o
        else pubkey (g_identity (get_ffi w')) = take 32 d /\
             secret_key (g_identity (get_ffi w')) = take 32 (drop 32 d) /\
             ((rc = BC_OK /\ exists b, o_router o' = Some b /\ local_pubkey (contents b) = take 32 d) \/
              (rc = BC_ERR_NOMEM /\ ~ never_oom w))
    | None => rc = BC_ERR_INVALID /\ same_account w w' /\ o' = o
    end).
Proof.
  intros Hi Hdata. apply (wp_enter base o); [done|]. intros w1 Hi1 Ha1 Hq1 Hs1 Hinit.
  rewrite bool_decide_eq_false_2 by done.
  destruct data as [d|].
  2: { eapply (wp_finish base o o w w1); [done|apply later_refl|done|done|].
       intros w2 (Hst & Hacc & Hn). rewrite Hq1 in Hn. do 3 (split; [done|]).
       split; [by eapply same_account_trans|done]. }
  destruct (Hdata d eq_refl) as [Hd Hlen]. unfold bc_identity_deserialize.
  change BC_IDENTITY_SERIALIZED_SIZE with 64. case_bool_decide as Hshort.
  { apply wp_bind, wp_ret, wp_bind, wp_ffi_update. cbn [from_option id fst snd].
    rewrite bool_decide_eq_true_2 by done.
    destruct (inv_set_ffi 1 base o (set_identity (g_identity (get_ffi w1)) (get_ffi w1)) w1 Hi1)
      as (Hi2 & Ha2 & Hq2); try done; [apply (heap_ffi_ok _ (inv_heap_ok _ _ _ _ _ Hi1))|apply Hi1|].
    eapply (wp_finish base o o w (set_ffi _ w1)); [by eapply advances_trans|apply later_refl|done|done|].
    intros w2 (Hst & Hacc & Hn). rewrite Hq2, Hq1 in Hn. unfold same_account in Hacc.
    rewrite get_set_ffi in Hacc. split; [done|]. split; [done|]. split; [done|]. split; [|done].
    by eapply same_account_trans. }
  rewrite (mem_read_ok d 0), (mem_read_ok d BC_PUBKEY_SIZE) by (change BC_PUBKEY_SIZE with 32; change BC_SECRET_KEY_SIZE with 32; lia).
  apply wp_bind, wp_ret, wp_bind, wp_ffi_update. cbn [from_option id fst snd].
  change (Z.to_nat BC_PUBKEY_SIZE) with 32%nat. change (Z.to_nat BC_SECRET_KEY_SIZE) with 32%nat.
  change (Z.to_nat 0) with 0%nat. rewrite drop_0, bool_decide_eq_false_2 by (intros Hx; by apply Hx).
  set (id0 := mkIdentity _ _).
  assert (Hid : identity_wf id0).
  { split; split; cbn; [zlen_lia|by auto with bitchat|zlen_lia|by auto with bitchat]. }
  destruct (inv_set_ffi 1 base o (set_identity id0 (get_ffi w1)) w1 Hi1)
    as (Hi2 & Ha2 & Hq2); try done; [apply Hi1|]. set (w2 := set_ffi _ w1) in *.
  assert (Hg2 : g_identity (get_ffi w2) = id0) by (unfold w2; by rewrite get_set_ffi).
  assert (Ha02 := advances_trans _ _ _ Ha1 Ha2).
  eapply wp_mono; [apply (wp_recreate base o w w2 Hi2 Ha02)|].
  intros [rc o'] w3 [(Hst & Hacc & Hn) Hcase].
  assert (Hg3 : g_identity (get_ffi w3) = id0) by (rewrite <- Hg2; apply Hacc).
  rewrite Hq2, Hq1 in Hn. rewrite Hg2 in Hcase. rewrite Hg3.
  split; [done|]. split; [done|]. split; [done|]. split; [done|].
  destruct Hcase as [(-> & b & Hb & Hlp & _)|(-> & Hoom & _)].
  - left. split; [done|]. by exists b.
  - right. split; [done|]. intros Hno. apply Hoom. by eapply advances_never_oom.
Qed.

(** ** The operations on the router *)

Lemma inv_ports_safe n base o b w :
  ffi_inv n base o w -> o_router o = Some b ->
  router_wf (contents b) /\ ports_safe (contents b) /\
  (forall t, transport (contents b) = Some t -> TransportBenign t) /\ peer_count (contents b) = 0.
Proof.
  intros (_ & _ & _ & ((Ht & Hs) & Hr & _) & _) Hb.
  destruct (Hr b Hb) as (Hwf & _ & Htr & Hst & Hom & Hpc). split; [done|]. split; [|split; [|done]].
  - split_and!.
    + intros t. rewrite Htr. destruct (o_transport o) as [x|] eqn:Hx; [|done].
      intros [= <-]. by apply Ht.
    + intros t. rewrite Hst. destruct (o_storage o) as [x|] eqn:Hx; [|done].
      intros [= <-]. by apply Hs.
    + intros f. rewrite Hom. intros [= <-]. apply _.
  - intros t. rewrite Htr. destruct (o_transport o) as [x|] eqn:Hx; [|done].
    intros [= <-]. by apply Ht.
Qed.

Lemma inv_router_step n base o b r' w w' :
  ffi_inv n base o w -> o_router o = Some b -> balanced w w' ->
  same_wiring (contents b) r' -> router_wf r' ->
  ffi_inv n base (with_router (Box (addr b) r') o) w'.
Proof.
  intros Hi Hb Hbal (Ht & Hs & _ & _ & _ & Hadr & _ & Hpc & Hom & _) Hwf.
  assert (Hrb : object_blocks (with_router (Box (addr b) r') o) = object_blocks o).
  { unfold object_blocks. rewrite Hb. cbn. unfold router_blocks. cbn. by rewrite Hadr. }
  destruct Hbal as [Hl How].
  eapply inv_later; [exact Hl| |rewrite Hrb, How; apply Hi|rewrite Hrb; apply Hi|exact Hi].
  destruct Hi as (_ & _ & _ & Ho & _). destruct Ho as (Ha & Hr & Hd & Hdis).
  destruct (Hr b Hb) as (_ & Hne & Ht' & Hs' & Hom' & Hpc').
  apply objects_wf_with_router; [done| |].
  - split_and!; cbn; try congruence.
  - rewrite Hb in Hdis. cbn in Hdis. unfold router_blocks in *. cbn. by rewrite Hadr.
Qed.

Lemma wp_bridge_tick fuel base o w :
  ffi_inv 0 base o w -> (inbound w < fuel)%nat ->
  wp (bitchat_tick fuel o) w (fun o' w' =>
    stays base o w o' w' /\ same_account w w' /\ (exists new, queue w' = queue w ++ new) /\
    match o_router o with
    | None => o' = o
    | Some b => exists r' w1 w2, o' = with_router (Box (addr b) r') o /\
        ticked (contents b) w1 r' w2 /\ queue w1 = queue w /\ queue w' = queue w2
    end).
Proof.
  intros Hi Hfuel. apply (wp_enter base o); [done|]. intros w1 Hi1 Ha1 Hq1 Hs1 Hinit.
  rewrite bool_decide_eq_false_2 by done. destruct (o_router o) as [b|] eqn:Hb.
  2: { eapply (wp_finish base o o w w1); [done|apply later_refl|done|done|].
       intros w2 (Hst & Hacc & Hn). rewrite Hq1 in Hn. split; [done|].
       split; [by eapply same_account_trans|]. done. }
  destruct (inv_ports_safe _ _ _ _ _ Hi1 Hb) as (Hwf & Hps & Hben & _).
  apply wp_bind. eapply wp_mono.
  { apply wp_tick; [done|done|by eapply inv_heap_ok|done|].
    assert (Hin := advances_inbound _ _ Ha1). lia. }
  intros r w2 (r' & -> & Hwf' & Hw & Hbal & Htk). cbn [from_option id].
  assert (Hi2 := inv_router_step _ _ _ _ _ _ _ Hi1 Hb Hbal Hw Hwf').
  eapply (wp_unlock call_user); [exact Hi2|]. intros w3 Hi3 Ha3 Hq3 Hs3.
  split; [split; [done|split; [|done]]|].
  { eapply advances_trans; [done|]. eapply advances_trans; [apply Hbal|done]. }
  split. { eapply same_account_trans; [done|]. eapply same_account_trans; [by apply later_account, Hbal|done]. }
  split. { rewrite Hq3, <- Hq1. apply later_queue, Hbal. }
  by exists r', w1, w2.
Qed.

Lemma wp_start_discovery base o w :
  ffi_inv 0 base o w ->
  wp (bitchat_start_discovery o) w (fun '(rc, o') w' =>
    stays base o w o' w' /\ same_account w w' /\ o_router o' = o_router o /\
    match o_discovery o with
    | None => rc = BC_ERR /\ o' = o
    | Some d => exists d' w1 w2, o_discovery o' = Some (Box (addr d) d') /\
        scan_result (contents d) w1 rc d' w2
    end).
Proof.
  intros Hi. apply (wp_enter base o); [done|]. intros w1 Hi1 Ha1 Hq1 Hs1 Hinit.
  rewrite bool_decide_eq_false_2 by done. destruct (o_discovery o) as [d|] eqn:Hd.
  2: { eapply (wp_finish base o o w w1); [done|apply later_refl|done|done|].
       intros w2 (Hst & Hacc & Hn). split; [done|]. split; [by eapply same_account_trans|done]. }
  assert (Hi1' := Hi1). destruct Hi1' as (Hok1 & _ & _ & Ho & Hown & Hob).
  assert (Ho' := Ho). destruct Ho' as ((Hts & _) & _ & Hdw & Hdis).
  destruct (Hdw d Hd) as (Hwf & Htr & Hon).
  apply wp_bind. eapply wp_mono.
  { apply wp_scan; [done|unfold found_safe; by rewrite Hon|done|].
    intros t. rewrite Htr. destruct (o_transport o) as [x|] eqn:Hx; [|done].
    intros [= <-]. by apply Hts. }
  intros [rc d2] w2 (d' & -> & Hwf' & Hb & Hres). cbn [from_option id fst snd].
  destruct (scan_result_wiring _ _ _ _ _ Hres) as [Htr' Hon'].
  set (x := Box (addr d) d').
  assert (Hbl : object_blocks (with_discovery (Some x) o) = object_blocks o)
    by (unfold object_blocks; by rewrite Hd).
  assert (Hi2 : ffi_inv 1 base (with_discovery (Some x) o) w2).
  { eapply inv_later; [apply Hb| |rewrite Hbl; destruct Hb as [_ ->]; done|by rewrite Hbl|exact Hi1].
    apply objects_wf_with_discovery; [done| |by rewrite Hd in Hdis].
    intros y [= <-]. split_and!; cbn; try congruence; apply Hwf'. }
  eapply (wp_finish base o _ w w1); [done|apply Hb|exact Hi2|done|].
  intros w3 (Hst & Hacc & Hn). split; [done|]. split; [by eapply same_account_trans|].
  split; [done|]. by exists d', w1, w2.
Qed.

Lemma wp_set_callback base o w f :
  ffi_inv 0 base o w ->
  wp (bitchat_set_on_message_callback f) w (fun rc w' =>
    stays base o w o w' /\ rc = BC_OK /\ user_callback (get_ffi w') = f /\
    g_identity (get_ffi w') = g_identity (get_ffi w) /\ queue w' = queue w).
Proof.
  intros Hi. apply (wp_enter base o); [done|]. intros w1 Hi1 Ha1 Hq1 Hs1 Hinit.
  rewrite bool_decide_eq_false_2 by done. apply wp_bind, wp_ffi_put.
  destruct (inv_set_ffi 1 base o (set_user_callback f (get_ffi w1)) w1 Hi1) as (Hi2 & Ha2 & Hq2);
    try done; [apply (heap_ffi_ok _ (inv_heap_ok _ _ _ _ _ Hi1))|apply Hi1|].
  eapply (wp_unlock call_user); [exact Hi2|]. intros w3 Hi3 Ha3 Hq3 [Hs3 Hs3'].
  rewrite get_set_ffi in Hs3, Hs3'. split; [split; [done|split; [|done]]|].
  { eapply advances_trans; [done|]. by eapply advances_trans. }
  split_and!; [done|done| |congruence]. rewrite Hs3. apply Hs1.
Qed.

(** ** Sending *)

(** The router of [o] recorded the id [u] as seen, at the time [now]. *)
Definition recorded o o' (now : Z) (u : list Z) : Prop :=
  exists b t, o_router o = Some b /\
    o' = with_router (Box (addr b) (set_table t (contents b))) o /\
    inserted (contents (dedup_table (contents b))) (dedup_cap (contents b))
      (dedup_max_age (config (contents b))) now u t.

(** While the mutex was held, a message of the identity [id] for [rcpt] was
    written, recorded, forwarded once and stored once; besides, only the run-time
    was used. *)
Definition sent o o' (id : bc_identity) (rcpt pt : list Z) w w' : Prop :=
  exists b now m w1 frc w2 w3 w4, o_router o = Some b /\
    written w w' (pubkey id) (secret_key id) rcpt pt m /\
    clock_read w w' now /\ recorded o o' now (uuid m) /\
    idle (locked w) w1 /\ forwarded (contents b) (encode (msg_packet m)) w1 frc w2 /\
    stored (contents b) m w2 w3 /\ idle w3 w4 /\ w' = unlocked w4.

(** What sending [pt] to [rcpt] leads to. *)
Definition send_result o (id : bc_identity) (rcpt pt : list Z) w (rc : Z) o' w' : Prop :=
  (rc = BC_OK /\ sent o o' id rcpt pt w w') \/
  (rc = BC_ERR_CRYPTO /\ o' = o /\ silent w w' /\
   fst (crypto_box_beforenm rcpt (secret_key id)) <> 0) \/
  (rc = BC_ERR_NOMEM /\ ~ never_oom w /\ silent w w' /\
   (o' = o \/ exists now u, clock_read w w' now /\ recorded o o' now u)).

Lemma wp_send base o b w rcpt pt :
  ffi_inv 0 base o w -> o_router o = Some b -> bytes_n 32 rcpt -> bytes_ok pt ->
  zlen pt + BC_NONCE_SIZE + BC_TAG_SIZE < 2 ^ 31 ->
  wp (bitchat_send_message (Some rcpt) (Some pt) (zlen pt) o) w (fun '(rc, o') w' =>
    stays base o w o' w' /\ same_account w w' /\ (exists new, queue w' = queue w ++ new) /\
    send_result o (g_identity (get_ffi w)) rcpt pt w rc o' w').
Proof.
  intros Hi Hb Hrc Hpt Hlen. assert (Hm0 : g_mutex (get_ffi w) = MutexReady 0) by apply Hi.
  apply (wp_enter_at base o); [done|]. intros Hi1 Ha1 Hq1 Hs1 Hinit.
  rewrite bool_decide_eq_false_2, Hb by done. destruct (inv_ports_safe _ _ _ _ _ Hi1 Hb) as (Hwf & Hps & _ & _).
  destruct (heap_ffi_ok _ (inv_heap_ok _ _ _ _ _ Hi1)) as (_ & _ & Hpk & Hsk).
  assert (Hno : ~ never_oom (locked w) -> ~ never_oom w)
    by (intros Ho Hno; apply Ho; by eapply advances_never_oom).
  assert (Hid : g_identity (get_ffi (locked w)) = g_identity (get_ffi w)) by apply Hs1.
  rewrite <- Hq1, Hid in *. cbv zeta.
  assert (Hfin : forall rc w2, balanced (locked w) w2 -> silent (locked w) w2 ->
    (silent w (unlocked w2) -> send_result o (g_identity (get_ffi w)) rcpt pt w rc o (unlocked w2)) ->
    wp (UNLOCK;; mret (rc, o)) w2 (fun '(rc, o') w' =>
      stays base o w o' w' /\ same_account w w' /\ (exists new, queue w' = queue (locked w) ++ new) /\
      send_result o (g_identity (get_ffi w)) rcpt pt w rc o' w')).
  { intros rc w2 Hb2 Hs2 HQ. apply (wp_finish_from base o o w (locked w)); [done|apply Hb2|by eapply inv_balanced|done|].
    intros (Hst & Hacc & Hnew). split_and!; [done|by eapply same_account_trans|done|].
    by apply HQ, silent_unlocked. }
  apply wp_post; try done; [by eapply inv_heap_ok| | |].
  - intros w2 Hb2 Hs2 Hk. apply Hfin; [done|done|]. intros Hs. right; left. done.
  - intros w2 Hb2 Hs2 Ho. split; (apply Hfin; [done|done|]; intros Hs; right; right; split_and!; auto).
  - intros m rc r' w2 Hb2 Hwr (now & t & -> & Hwf' & Hclk & Hins & Hcase). cbn [from_option id].
    assert (Hrec : recorded o (with_router (Box (addr b) (set_table t (contents b))) o) now (uuid m))
      by by exists b, t.
    assert (Hclk' : clock_read w (unlocked w2) now)
      by (unfold clock_read in *; by rewrite get_os_unlocked, <- (get_os_locked w)).
    apply (wp_finish_from base o (with_router (Box (addr b) (set_table t (contents b))) o) w (locked w));
      [done|apply Hb2|by eapply inv_router_step|done|].
    intros (Hst & Hacc & Hnew). split_and!; [done|by eapply same_account_trans|done|].
    destruct Hcase as [(-> & Ho & Hs2)|(-> & v1 & frc & v2 & v3 & Hl1 & Hfw & Hstored & Hl3)].
    + right; right. split_and!; [done|auto|by apply silent_unlocked|]. right. by exists now, (uuid m).
    + left. split; [done|]. exists b, now, m, v1, frc, v2, v3, w2. split_and!; try done.
      eapply written_os; [apply get_os_locked|apply get_os_unlocked|done].
Qed.

(** ** Polling *)

Lemma quiet_queue w w' : (exists os, w' = set_os os w) -> queue w' = queue w.
Proof. intros [os ->]. unfold queue. by rewrite get_ffi_set_os. Qed.

(** The oldest message leaves the queue; its blocks are then the caller's. *)
Lemma inv_pop n base o b q w :
  ffi_inv n base o w -> queue w = b :: q ->
  inbox (get_ffi w) !! Z.to_nat (inbox_tail (get_ffi w)) = Some (Some b) /\
  0 <= inbox_tail (get_ffi w) /\
  message_wf (contents b) /\ msg_blocks_distinct b /\ msg_blocks b ## base /\
  ffi_inv n (msg_blocks b ∪ base) o (popped w) /\ advances w (popped w) /\ queue (popped w) = q /\
  same_account w (popped w).
Proof.
  intros Hi Hq. destruct Hi as (Hok & Hinit & Hm & Ho & Hown & Hob).
  destruct (queue_pop w b q Hok Hq) as (Hslot & Ht & Hmw & Hmd & Hok' & Ha & How & Hd & Hq').
  rewrite Hown in How, Hd. do 4 (split; [done|]). split; [clear -Hd; set_solver|].
  split; [|split; [done|split; [done|]]].
  - split; [done|]. rewrite How. unfold popped. rewrite get_set_ffi.
    do 3 (split; [done|]). clear -Hob Hd. split; set_solver.
  - unfold same_account, popped. by rewrite get_set_ffi.
Qed.

(** What polling the message [m] answers: code, length and the two buffers. *)
Inductive poll_answer (id : bc_identity) (m : bc_message) (buf_len : Z) (buf : list Z)
    (sender : option (list Z)) : Z -> list Z -> Z -> option (list Z) -> Prop :=
| PollShort : payload_len m < BC_NONCE_SIZE + BC_TAG_SIZE ->
    poll_answer id m buf_len buf sender BC_OK buf 0 sender
| PollNoKey : BC_NONCE_SIZE + BC_TAG_SIZE <= payload_len m ->
    fst (crypto_box_beforenm (sender_pubkey m) (secret_key id)) <> 0 ->
    poll_answer id m buf_len buf sender BC_ERR_CRYPTO buf 0 sender
| PollTooSmall : fst (crypto_box_beforenm (sender_pubkey m) (secret_key id)) = 0 ->
    buf_len < payload_len m - BC_NONCE_SIZE - BC_TAG_SIZE ->
    poll_answer id m buf_len buf sender BC_ERR_BUFFER_TOO_SMALL buf
      (payload_len m - BC_NONCE_SIZE - BC_TAG_SIZE) sender
| PollOpened pt sender' : opens (secret_key id) (sender_pubkey m) (msg_payload m) pt ->
    zlen pt <= buf_len -> filled (sender_pubkey m) sender sender' ->
    poll_answer id m buf_len buf sender BC_OK (pt ++ drop (length pt) buf) (zlen pt) sender'
| PollForged junk : (forall pt, ~ opens (secret_key id) (sender_pubkey m) (msg_payload m) pt) ->
    BC_NONCE_SIZE + BC_TAG_SIZE <= payload_len m ->
    zlen junk = payload_len m - BC_NONCE_SIZE - BC_TAG_SIZE -> zlen junk <= buf_len ->
    poll_answer id m buf_len buf sender BC_ERR_CRYPTO (junk ++ drop (length junk) buf) 0 sender.

Lemma wp_poll_decrypt g m pl buf sender w :
  identity_wf (g_identity g) -> message_wf m -> payload m = Some pl ->
  BC_NONCE_SIZE + BC_TAG_SIZE <= payload_len m -> room 32 sender ->
  wp (poll_decrypt g m (contents pl) buf (zlen buf) sender) w (fun '(rc, (buf', n, sender')) w' =>
    balanced w w' /\ poll_answer (g_identity g) m (zlen buf) buf sender rc buf' n sender').
Proof.
  intros [_ Hsk] Hm Hpl Hlong Hroom. assert (Hsnd : bytes_n 32 (sender_pubkey m)) by apply Hm.
  assert (Hlen : payload_len m = zlen (contents pl) /\ bytes_ok (contents pl)).
  { destruct Hm as (_ & _ & _ & _ & _ & Hl & _ & Hb). unfold msg_payload in *. by rewrite Hpl in Hl, Hb. }
  destruct Hlen as [Hlen Hpb]. assert (Hmp : msg_payload m = contents pl) by (unfold msg_payload; by rewrite Hpl).
  unfold poll_decrypt. apply wp_agree; [done|done| |].
  { intros w1 Hb1 _ Hk. apply wp_ret. split; [done|]. by apply PollNoKey. }
  intros key w1 Hb1 _ Hk Hkey. cbv zeta. case_bool_decide as Hbuf.
  { apply wp_ret. split; [done|]. apply PollTooSmall; [by rewrite Hk|done]. }
  rewrite Hlen in *. destruct (aead_decrypt (drop 24 (contents pl)) (take 24 (contents pl)) key)
    as [rc pt] eqn:Hdec.
  destruct (open_val (contents pl) key buf rc pt Hkey Hpb) as (Hop & Hptl & _); [lia|lia|done|].
  apply wp_bind. eapply wp_lift; [exact Hop|]. cbn [fst snd from_option id]. rewrite <- Hptl.
  destruct (decide (rc = 0)) as [->|Hrc].
  - rewrite (bool_decide_eq_false_2 (0 <> 0)) by lia. rewrite bool_decide_eq_true_2 by done.
    apply wp_bind, wp_copy_out.
    { intros b Hb. rewrite (zlen_bytes_n 32 _ Hsnd). by apply Hroom. }
    intros s' Hs1 Hs2. apply wp_ret. split; [done|]. apply PollOpened; [|lia|].
    + rewrite Hmp. split; [lia|]. by exists key.
    + unfold filled. destruct sender; cbn; auto.
  - rewrite (bool_decide_eq_true_2 (rc <> 0)) by done. rewrite bool_decide_eq_false_2 by done.
    apply wp_ret. split; [done|]. apply PollForged; [|lia|lia|lia].
    rewrite Hmp. intros pt' (_ & k & Hk' & Hd'). congruence.
Qed.

Lemma msg_payload_short m : message_wf m -> payload m = None -> payload_len m < BC_NONCE_SIZE + BC_TAG_SIZE.
Proof. intros (_ & _ & _ & _ & _ & -> & _) Hp. unfold msg_payload. by rewrite Hp. Qed.

(** The end of every poll that took [b] from the queue at [w]: the message is
    destroyed and the mutex unlocked. *)
Lemma wp_poll_finish {A} base o b w0 w w1 (a : A) (Q : A -> W -> Prop) :
  advances w0 w -> same_account w0 w -> ffi_inv 1 (msg_blocks b ∪ base) o w ->
  message_wf (contents b) -> msg_blocks_distinct b -> msg_blocks b ## base ->
  balanced w w1 ->
  (forall w', stays base o w0 o w' -> same_account w0 w' -> queue w' = queue w1 -> Q a w') ->
  wp (bc_message_destroy (Some b);; UNLOCK;; mret a) w1 Q.
Proof.
  intros Hadv Hacc Hi Hm Hmd Hdj Hb1 HQ. assert (Hi1 := inv_balanced _ _ _ _ _ _ Hb1 Hi).
  assert (Hown1 : owned w1 = object_blocks o ∪ (msg_blocks b ∪ base)) by apply Hi1.
  apply wp_bind. apply wp_quiet; [apply quiet_destroy|].
  apply wp_destroy_owned; [done|done|rewrite Hown1; clear; set_solver|]. intros w2 Hr2 Hqt.
  assert (Hq2 := quiet_queue _ _ Hqt).
  assert (Hi2 := inv_released_all _ _ _ _ _ _ _ Hr2 Hdj Hi1).
  eapply (wp_unlock call_user); [exact Hi2|]. intros w3 Hi3 Ha3 Hq3 Hs3. apply HQ; [| |congruence].
  - split; [done|split; [|done]]. eapply advances_trans; [done|].
    eapply advances_trans; [apply Hb1|]. eapply advances_trans; [apply Hr2|done].
  - eapply same_account_trans; [done|]. eapply same_account_trans; [apply later_account, Hb1|].
    eapply same_account_trans; [apply later_account, Hr2|done].
Qed.

Lemma wp_poll_messages base o w buf len sender :
  ffi_inv 0 base o w -> room 32 sender ->
  wp (bitchat_poll_messages (Some buf) (zlen buf) (Some len) sender) w
    (fun '(rc, (buf', n, sender')) w' =>
    stays base o w o w' /\ same_account w w' /\
    match queue w with
    | [] => queue w' = [] /\ rc = BC_OK /\ buf' = Some buf /\ n = Some 0 /\ sender' = sender
    | b :: q => queue w' = q /\ exists out k, buf' = Some out /\ n = Some k /\
        poll_answer (g_identity (get_ffi w)) (contents b) (zlen buf) buf sender rc out k sender'
    end).
Proof.
  intros Hi Hroom. apply (wp_enter base o); [done|]. intros w1 Hi1 Ha1 Hq1 Hs1 Hinit.
  rewrite (bool_decide_eq_false_2 (initialized _ = 0)) by done. rewrite <- Hq1.
  assert (Hr : ring (get_ffi w1) (queue w1)) by apply (heap_ffi_ok _ (inv_heap_ok _ _ _ _ _ Hi1)).
  assert (Hemp := ring_empty _ _ Hr).
  destruct (queue w1) as [|b q] eqn:Hq.
  { rewrite bool_decide_eq_true_2 by by apply Hemp.
    eapply (wp_unlock call_user); [exact Hi1|]. intros w2 Hi2 Ha2 Hq2 Hs2.
    split; [split; [done|split; [by eapply advances_trans|done]]|].
    split; [by eapply same_account_trans|]. split; [congruence|done]. }
  rewrite bool_decide_eq_false_2 by (rewrite Hemp; done).
  destruct (inv_pop _ _ _ _ _ _ Hi1 Hq) as (Hslot & Ht & Hm & Hmd & Hdj & Hi2 & Ha2 & Hq2 & Hs2).
  apply wp_bind. eapply wp_lift; [by apply arr_get_ok|].
  apply wp_bind, wp_ffi_put. fold (popped w1). set (w2 := popped w1) in *.
  assert (Hid2 : g_identity (get_ffi w1) = g_identity (get_ffi w)) by apply Hs1.
  assert (Ha02 := advances_trans _ _ _ Ha1 Ha2). assert (Hs02 := same_account_trans _ _ _ Hs1 Hs2).
  assert (Hfin := fun a w3 Q => wp_poll_finish (A := Z * (option (list Z) * option Z * option (list Z)))
    base o b w w2 w3 a Q Ha02 Hs02 Hi2 Hm Hmd Hdj). clearbody w2.
  change (Some b ≫= _) with (payload (contents b)).
  assert (Hnone : forall w', queue w' = queue w2 -> queue w' = q) by (intros; congruence).
  destruct (payload (contents b)) as [pl|] eqn:Hpl.
  2: { apply Hfin; [apply balanced_refl|]. intros w' Hst Hacc Hq'. split; [done|]. split; [done|].
       split; [auto|]. exists buf, 0. split_and!; [done|done|].
       by apply PollShort, msg_payload_short. }
  apply wp_bind, wp_ret. case_bool_decide as Hshort.
  { apply Hfin; [apply balanced_refl|]. intros w' Hst Hacc Hq'. split; [done|]. split; [done|].
    split; [auto|]. exists buf, 0. split_and!; [done|done|]. by apply PollShort. }
  apply wp_bind. apply wp_quiet; [unfold poll_decrypt; solve_quiet|].
  eapply wp_mono; [apply wp_poll_decrypt; try done|].
  { apply (heap_ffi_ok _ (inv_heap_ok _ _ _ _ _ Hi1)). }
  { lia. }
  intros [rc [[out k] s']] w3 [Hb3 Hans] Hqt. apply Hfin; [done|].
  intros w' Hst Hacc Hq'. split; [done|]. split; [done|]. rewrite Hid2 in Hans.
  split; [apply quiet_queue in Hqt; congruence|]. by exists out, k.
Qed.

(** ** Refused calls *)

Lemma wp_send_refused base o w rcpt pt len :
  ffi_inv 0 base o w -> o_router o = None \/ rcpt = None \/ pt = None ->
  wp (bitchat_send_message rcpt pt len o) w (fun '(rc, o') w' =>
    stays base o w o' w' /\ rc = BC_ERR_INVALID /\ o' = o /\ w' = w).
Proof.
  intros Hi Hnull. assert (Hm : g_mutex (get_ffi w) = MutexReady 0) by apply Hi.
  apply (wp_enter_at base o); [done|]. intros Hi1 Ha1 Hq1 Hs1 Hinit.
  rewrite bool_decide_eq_false_2 by done.
  assert (Hfin : wp (UNLOCK;; mret (BC_ERR_INVALID, o)) (locked w) (fun '(rc, o') w' =>
    stays base o w o' w' /\ rc = BC_ERR_INVALID /\ o' = o /\ w' = w)).
  { apply (wp_finish_from base o o w (locked w)); [done|apply later_refl|done|done|].
    intros (Hst & _). by rewrite unlocked_locked in *. }
  destruct (o_router o), rcpt, pt; try exact Hfin. naive_solver.
Qed.

Lemma wp_poll_refused base o w buf buf_len len sender :
  ffi_inv 0 base o w -> buf = None \/ len = None ->
  wp (bitchat_poll_messages buf buf_len len sender) w (fun '(rc, cells) w' =>
    stays base o w o w' /\ rc = BC_ERR_INVALID /\ cells = (buf, len, sender) /\ queue w' = queue w).
Proof.
  intros Hi Hnull. apply (wp_enter base o); [done|]. intros w1 Hi1 Ha1 Hq1 Hs1 Hinit.
  rewrite bool_decide_eq_false_2 by done.
  assert (Hfin : wp (UNLOCK;; mret (BC_ERR_INVALID, (buf, len, sender))) w1 (fun '(rc, cells) w' =>
    stays base o w o w' /\ rc = BC_ERR_INVALID /\ cells = (buf, len, sender) /\ queue w' = queue w)).
  { eapply (wp_unlock call_user); [exact Hi1|]. intros w2 Hi2 Ha2 Hq2 Hs2.
    split; [split; [done|split; [by eapply advances_trans|done]]|]. split_and!; try done. congruence. }
  destruct buf, len; try exact Hfin. naive_solver.
Qed.
End functions.
