(* ===== verification/FfiDemo.v ===== *)
(** * FfiDemo: a concrete world for the C API

    The state the API needs beside the run-time and the network: the database
    and the globals.  [demo_session] is an application in mid-session, with the
    BLE and SQLite adapters, a router, a discovery manager and one queued
    message that opens under its identity.  It shows that the classes the API's
    theorems assume can be met together. *)
From S2P Require Import Prelude Effects Errors Sodium Message Peer Ports Sockets World.
From S2P Require Import StubTransports Identity CryptoManager Sealing Discovery Sqlite SqliteStorage.
From S2P Require Import SqliteStorageSpec SqliteStorageProps Dedup Router RouterSpec Ffi FfiSpec FfiApi.

Record app_state : Type := mkApp { x_db : db_view; x_ffi : g_state }.

#[export] Program Instance app_HasSql : HasSql (world app_state) db_view :=
  {| get_sql w := x_db (w_ext w);
     set_sql x w := mkWorld (w_os w) (w_net w) (mkApp x (x_ffi (w_ext w))) |}.
Solve All Obligations with done.

#[export] Program Instance app_HasFfi : HasFfi (world app_state) :=
  {| get_ffi w := x_ffi (w_ext w);
     set_ffi g w := mkWorld (w_os w) (w_net w) (mkApp (x_db (w_ext w)) g) |}.
Solve All Obligations with (intros; repeat match goal with w : world app_state |- _ => destruct w as [? ? []] end; done).

(** The database keeps [P], the globals keep theirs. *)
Program Definition app_inv (P : db_view -> Prop) : ExtInv app_state :=
  {| ext_ok x := P (x_db x) /\ ffi_ok (x_ffi x);
     ext_held x := inbox_blocks (x_ffi x);
     ext_evolves x y := ffi_grows (x_ffi x) (x_ffi y) |}.
Next Obligation.
  intros P. split; [intros x; reflexivity|intros x y z H1 H2; by etrans].
Qed.

Lemma app_ffi_world P : @FfiWorld _ _ (@world_inv _ (app_inv P)) _.
Proof.
  split.
  - by intros w [_ [_ Hx]].
  - intros g w [Hq [Hd _]] Hg. by split.
  - done.
  - done.
Qed.

(** While the adapter [demo_sql_ctx] is in use. *)
Module InUse.
#[export] Instance app_in_use : ExtInv app_state := app_inv (sqlite_ok demo_sql_ctx).
#[export] Instance ffi_in_use : FfiWorld (world app_state) := app_ffi_world _.

#[export] Instance sql_in_use : SqlWorld (W := world app_state) demo_sql_ctx.
Proof.
  split.
  - by intros w [_ [Hx _]].
  - intros w x [Hq [_ Hf]] [Hx _]. by split.
  - done.
  - intros x w. cbn. reflexivity.
Qed.
End InUse.
Import InUse.

(** An application that does nothing when it is called. *)
Definition quiet_app (f : Z) (sender pt : list Z) (n : Z) : M (world app_state) unit := mret tt.

#[export] Instance quiet_app_safe : UserSafe quiet_app.
Proof. intros f s p n w Hok _ _ _ _. apply wp_ret. split; [apply balanced_refl|done]. Qed.

(** The node's identity and a peer's. *)
Definition demo_self : bc_identity := mkIdentity (replicate 32 3) (replicate 32 3).
Definition demo_peer : bc_identity := mkIdentity (replicate 32 4) (replicate 32 4).
Definition demo_text : list Z := [72; 105].

(** The peer's message: the nonce is 24 times 5, the key 32 times 7. *)
Definition demo_sealed : list Z := replicate 24 5 ++ demo_text ++ replicate 16 12.
Definition demo_inbound : box bc_message :=
  Box 6%nat (mkMessage (replicate 16 8) 9 (pubkey demo_peer) (pubkey demo_self) 1700000000
    (Some (Box 7%nat demo_sealed)) 42).

Definition demo_globals : g_state :=
  mkGState 1 demo_self (Some demo_inbound :: replicate 255 None) 1 0 (Some 4096)
    (MutexReady 0) 1.

Definition ble_transport (t : blk) : box (bc_transport (world app_state)) :=
  Box t (mkTransport (Some ble_init) (Some ble_send) (Some ble_recv) (Some ble_discover)
           (Some (ble_destroy None))).

Definition demo_objects : g_objects (world app_state) :=
  mkObjects (Some (ble_transport 0)) (Some (Box 1%nat (sqlite_storage 1%nat (Box 2%nat demo_sql_ctx))))
    (Some (Box 3%nat (mkRouter (Some (contents (ble_transport 0)))
      (Some (sqlite_storage 1%nat (Box 2%nat demo_sql_ctx))) (mkConfig 3 4 600) (pubkey demo_self)
      (Box 4%nat (replicate 4 zero_entry)) 4 (replicate 64 zero_peer) 0
      (Some (on_message_received (H := toy_sodium) quiet_app)) 0 0)))
    (Some (Box 5%nat (mkDiscovery (Some (contents (ble_transport 0))) (replicate 64 zero_peer) 0 None 0))).

(** The blocks of the adapters. *)
Definition demo_base : gset blk := {[0%nat; 1%nat; 2%nat]}.

Definition demo_session : world app_state :=
  mkWorld (mkOS (fun n => (9 + Z.of_nat n) mod 2 ^ 62) 0 (fun _ => true) 8
             (list_to_set (seq 0 8)) (fun n i => Z.of_nat n * 16 + Z.of_nat i) 0 (fun _ _ => 165))
    (demo_net []) (mkApp (demo_db [demo_row]) demo_globals).

Lemma demo_inbound_queued : ring demo_globals [demo_inbound].
Proof.
  unfold ring. split_and!; try (cbn; lia); [done|done|]. intros i b Hi.
  destruct i as [|i]; [|done]. by injection Hi as <-.
Qed.

Lemma demo_queue : inbox_queue demo_globals = [demo_inbound].
Proof. apply ring_queue, demo_inbound_queued. Qed.

Lemma demo_globals_ok : ffi_ok demo_globals.
Proof.
  unfold ffi_ok. rewrite demo_queue. split; [apply demo_inbound_queued|]. split.
  - cbn [separate]. split_and!; [|done| |done].
    + apply (bool_decide_unpack _). vm_compute. exact I.
    + unfold blocks_of. cbn. set_solver.
  - split; apply (bool_decide_unpack _); vm_compute; exact I.
Qed.

Lemma demo_held : inbox_blocks demo_globals = {[6%nat; 7%nat]}.
Proof. unfold inbox_blocks. rewrite demo_queue. unfold blocks_of. cbn. set_solver. Qed.

Lemma demo_heap_ok : heap_ok demo_session.
Proof.
  split; [split|].
  - intros b Hb. change (b ∈ (list_to_set (seq 0 8) : gset nat)) in Hb. change (b < 8)%nat.
    apply elem_of_list_to_set, elem_of_seq in Hb. lia.
  - change (inbox_blocks demo_globals ⊆ list_to_set (seq 0 8)). rewrite demo_held. set_solver.
  - split; [|intros n; apply Z.mod_pos_bound; lia].
    split; [constructor|split; [apply demo_db_ok, demo_rows_wf|apply demo_globals_ok]].
Qed.

Lemma demo_objects_wf : objects_wf (Hna := toy_sodium) quiet_app demo_objects.
Proof.
  assert (Hble : TransportSafe (contents (ble_transport 0)) /\ TransportBenign (contents (ble_transport 0)))
    by (apply refusing_safe; intros ? [= <-]; eexists; first [done|split; [|done]; done]).
  split; [|split; [|split]].
  - split; intros ? [= <-]; [done|by apply (sqlite_safe demo_sql_ctx)].
  - intros b [= <-]. split; [apply (bool_decide_unpack _); vm_compute; exact I|done].
  - intros d [= <-]. split; [apply (bool_decide_unpack _); vm_compute; exact I|done].
  - cbn. unfold router_blocks, disc_blocks. cbn. set_solver.
Qed.

(** The invariant of the API holds in the session. *)
Lemma demo_session_inv : ffi_inv (Hna := toy_sodium) quiet_app 0 demo_base demo_objects demo_session.
Proof.
  split; [exact demo_heap_ok|]. do 2 (split; [done|]). split; [exact demo_objects_wf|].
  assert (Ho : object_blocks demo_objects = {[3%nat; 4%nat; 5%nat]})
    by (unfold object_blocks, router_blocks, disc_blocks; cbn; set_solver).
  rewrite Ho. unfold demo_base. split; [|set_solver].
  change (owned demo_session) with ((list_to_set (seq 0 8) : gset nat) ∖ inbox_blocks demo_globals).
  rewrite demo_held. apply (bool_decide_unpack _). vm_compute. exact I.
Qed.
