(* ===== verification/FfiProps.v ===== *)
(** * FfiProps: what the C API guarantees

    Any sequence of calls between [bitchat_init] and [bitchat_shutdown] is safe
    ([api_calls_safe]); the inbox is a bounded first-in first-out queue; what is
    sent is sealed for its recipient and comes out of the recipient's poll; and
    the places where the API does less than its header promises. *)
From S2P Require Import Prelude Effects Errors Sodium Message Peer Ports Sockets World.
From S2P Require Import StubTransports Identity CryptoManager Sealing Discovery Sqlite SqliteStorage.
From S2P Require Import SqliteStorageSpec SqliteStorageProps Dedup Router RouterSpec Ffi FfiSpec FfiApi.
From S2P Require Import FfiDemo.

(** ** Sequences of calls *)

(** A call of the API with its arguments; [None] is a NULL pointer. *)
Inductive api_call : Type :=
| ApiGenerate (pubkey_out secret_out : option (list Z))
| ApiLoad (data : option (list Z)) (len : Z)
| ApiSend (recipient plaintext : option (list Z))
| ApiPoll (buf : option (list Z)) (msg_len : option Z) (sender : option (list Z))
| ApiDiscover
| ApiTick
| ApiSetCallback (f : option Z).

(** The arguments a C caller may pass: NULL, or buffers of the documented size. *)
Definition call_ok (c : api_call) : Prop :=
  match c with
  | ApiGenerate pk sk => room 32 pk /\ room 32 sk
  | ApiLoad data len => forall d, data = Some d -> bytes_ok d /\ len <= zlen d
  | ApiSend rcpt pt =>
      (forall k, rcpt = Some k -> bytes_n 32 k) /\
      (forall p, pt = Some p -> bytes_ok p /\ zlen p + BC_NONCE_SIZE + BC_TAG_SIZE < 2 ^ 31)
  | ApiPoll _ _ sender => room 32 sender
  | _ => True
  end.

Section calls.
Context {W : Type} `{!HasOS W, !HasFfi W, Hna : !Sodium}.
Context (call_user : Z -> list Z -> list Z -> Z -> M W unit).

(** One call; a tick gets fuel for the datagrams the network still delivers. *)
Definition run_call (c : api_call) (o : g_objects W) : M W (g_objects W) :=
  match c with
  | ApiGenerate pk sk => '(_, _, o) ← bitchat_generate_identity call_user pk sk o; mret o
  | ApiLoad data len => '(_, o) ← bitchat_load_identity call_user data len o; mret o
  | ApiSend rcpt pt =>
      '(_, o) ← bitchat_send_message rcpt pt (match pt with Some p => zlen p | None => 0 end) o; mret o
  | ApiPoll buf n s =>
      bitchat_poll_messages buf (match buf with Some b => zlen b | None => 0 end) n s;; mret o
  | ApiDiscover => '(_, o) ← bitchat_start_discovery o; mret o
  | ApiTick => fun w => bitchat_tick (S (inbound w)) o w
  | ApiSetCallback f => bitchat_set_on_message_callback f;; mret o
  end.

Fixpoint run_calls (cs : list api_call) (o : g_objects W) : M W (g_objects W) :=
  match cs with
  | [] => mret o
  | c :: cs' => o ← run_call c o; run_calls cs' o
  end.
End calls.

Section safety.
Context {W : Type} `{!HasOS W, !WorldInv W, !HasFfi W, !FfiWorld W}.
Context `{Hna : !Sodium} `{!SodiumSpec _}.
Context (call_user : Z -> list Z -> list Z -> Z -> M W unit) `{!UserSafe call_user}.
Implicit Types (w : W) (o : g_objects W).

Lemma stays_refl base o w : ffi_inv call_user 0 base o w -> stays call_user base o w o w.
Proof. intros Hi. split; [done|]. split; [apply advances_refl|done]. Qed.

Lemma stays_trans base o1 w1 o2 w2 o3 w3 :
  stays call_user base o1 w1 o2 w2 -> stays call_user base o2 w2 o3 w3 ->
  stays call_user base o1 w1 o3 w3.
Proof.
  intros (_ & Ha & Ht & Hs) (Hi & Ha' & Ht' & Hs'). split; [done|].
  split; [by eapply advances_trans|]. split; congruence.
Qed.

Lemma wp_run_call c base o w :
  ffi_inv call_user 0 base o w -> call_ok c ->
  wp (run_call call_user c o) w (fun o' w' => stays call_user base o w o' w').
Proof.
  intros Hi Hc. destruct c as [pk sk|data len|rcpt pt|buf n s| | |f]; cbn [run_call].
  - apply wp_bind. eapply wp_mono; [apply (wp_generate call_user base); [done|apply Hc..]|].
    by intros [[rc [? ?]] o'] w' (Hst & _).
  - apply wp_bind. eapply wp_mono; [by apply (wp_load call_user base)|].
    by intros [rc o'] w' (Hst & _).
  - apply wp_bind. destruct Hc as [Hr Hp].
    assert (Hcase : (o_router o = None \/ rcpt = None \/ pt = None) \/
      exists b k p, o_router o = Some b /\ rcpt = Some k /\ pt = Some p)
      by (destruct (o_router o), rcpt, pt; naive_solver).
    destruct Hcase as [Hnull|(b & k & p & Hb & -> & ->)].
    + eapply wp_mono; [by apply (wp_send_refused call_user base)|]. by intros [rc o'] w' (Hst & _).
    + destruct (Hp p eq_refl). eapply wp_mono; [apply (wp_send call_user base o b); auto|].
      by intros [rc o'] w' (Hst & _).
  - apply wp_bind. destruct buf as [b|], n as [len|].
    1: eapply wp_mono; [by apply (wp_poll_messages call_user base o)|]; by intros [rc [[? ?] ?]] w' (Hst & _).
    all: eapply wp_mono; [apply (wp_poll_refused call_user base o); auto|];
      by intros [rc [[? ?] ?]] w' (Hst & _).
  - apply wp_bind. eapply wp_mono; [by apply (wp_start_discovery call_user base)|].
    by intros [rc o'] w' (Hst & _).
  - unfold wp. assert (Ht := wp_bridge_tick call_user (S (inbound w)) base o w Hi ltac:(lia)).
    unfold wp in Ht. destruct (bitchat_tick _ _ _) as [[o' w']| |]; try done. by destruct Ht.
  - apply wp_bind. eapply wp_mono; [by apply (wp_set_callback call_user base o)|].
    by intros rc w' (Hst & _).
Qed.

Lemma wp_run_calls cs base o w :
  ffi_inv call_user 0 base o w -> Forall call_ok cs ->
  wp (run_calls call_user cs o) w (fun o' w' => stays call_user base o w o' w').
Proof.
  revert o w. induction cs as [|c cs IH]; intros o w Hi Hcs; [by apply wp_ret, stays_refl|].
  inversion Hcs as [|? ? Hc Hcs']; subst. apply wp_bind.
  eapply wp_mono; [by apply (wp_run_call c base)|]. intros o1 w1 Hst.
  eapply wp_mono; [apply IH; [apply Hst|done]|]. intros o2 w2 Hst2. by eapply stays_trans.
Qed.

(** A router without peers. *)
Lemma forward_nobody r data len w :
  peer_count r = 0 -> forward_to_peers r data len w = Val (BC_ERR_TRANSPORT, w).
Proof.
  intros Hpc. unfold forward_to_peers. rewrite Hpc. by destruct (transport r ≫= t_send).
Qed.

Lemma forwarded_nobody r data w rc w' : peer_count r = 0 -> forwarded r data w rc w' -> w' = w.
Proof.
  intros Hpc. assert (Hk : known_peers r = []) by (unfold known_peers, table_peers; by rewrite Hpc).
  unfold forwarded. rewrite Hk. destruct (transport r ≫= t_send); [|by intros [_ ->]].
  intros (k & rcs & Hs & _). rewrite take_nil in Hs. by inversion Hs.
Qed.

Lemma rebroadcast_nobody (r : bc_router W) w :
  peer_count r = 0 -> exists w', rebroadcast r w = Val (r, w') /\ silent w w'.
Proof.
  intros Hpc. unfold rebroadcast. rewrite Hpc, (bool_decide_eq_false_2 (0 > 0)) by lia.
  unfold mbind at 1, M_bind, c_time. eexists. split; [by destruct (storage r ≫= s_get_pending)|by eexists].
Qed.

(** C16: The API is safe under any use: from an initialized state, whatever
    sequence of calls the application makes (with NULL or well-sized buffers,
    before or after an identity exists, with any registered callback that obeys
    the header), every call is defined and returns, the mutex is released on
    every path, the inbox stays a well-formed ring of well-formed messages, and
    no block is lost: the live blocks are exactly those of the current router,
    discovery manager and queued messages plus what was live before. *)
Theorem api_calls_safe cs base o w :
  ffi_inv call_user 0 base o w -> Forall call_ok cs ->
  wp (run_calls call_user cs o) w (fun o' w' => stays call_user base o w o' w').
Proof. apply wp_run_calls. Qed.

(** C27: The inbox is a bounded queue: delivering a message of less than 2^31
    bytes of payload first appends exactly one copy of it (same id,
    time-to-live, keys, timestamp and payload) behind the queued ones, which
    changes nothing but the ring's array and head, or drops it when 255 are
    queued or memory runs out, which changes nothing outside the run-time; then
    the registered callback is called exactly once, with the sender and the
    plaintext, when the payload decrypts, with only run-time calls before and
    after, and when there is no callback, no plaintext or no memory for it
    nothing outside the run-time changes. *)
Theorem delivery_queues_and_notifies m u w :
  heap_ok w -> message_wf m -> payload_len m < 2 ^ 31 ->
  wp (on_message_received call_user m u) w (fun _ w' =>
    balanced w w' /\ exists w1, pushed m w w1 /\ handed call_user m w1 w' /\ queue w' = queue w1 /\
      user_callback (get_ffi w1) = user_callback (get_ffi w) /\
      g_identity (get_ffi w1) = g_identity (get_ffi w)).
Proof. apply wp_on_message. by unfold UserSafe. Qed.

(** C26: Polling takes the oldest message and nothing else: on an empty queue it
    answers [BC_OK] with length 0; otherwise the oldest message leaves the
    queue, its blocks are freed, and the answer is: its plaintext, length and
    sender with [BC_OK]; or, for a payload too short to be a sealed message,
    [BC_OK] with length 0, the answer of an empty queue; or the error that fits,
    [BC_ERR_CRYPTO] when no key can be agreed on or the payload is not authentic
    and [BC_ERR_BUFFER_TOO_SMALL] with the length needed.  Nothing is written
    past the plaintext's length, nor past the buffer. *)
Theorem poll_takes_oldest base o w buf len sender :
  ffi_inv call_user 0 base o w -> room 32 sender ->
  wp (bitchat_poll_messages (Some buf) (zlen buf) (Some len) sender) w
    (fun '(rc, (buf', n, sender')) w' =>
    stays call_user base o w o w' /\ same_account w w' /\
    match queue w with
    | [] => queue w' = [] /\ rc = BC_OK /\ buf' = Some buf /\ n = Some 0 /\ sender' = sender
    | b :: q => queue w' = q /\ exists out k, buf' = Some out /\ n = Some k /\
        poll_answer (g_identity (get_ffi w)) (contents b) (zlen buf) buf sender rc out k sender'
    end).
Proof. intros. by apply (wp_poll_messages call_user base o). Qed.

(** C25: What is sent is sealed for its recipient and handed to the router: with
    a router and valid arguments the call answers [BC_OK] after writing a message
    from this identity to the recipient, time-to-live 10, with an id that the
    random generator drew and the clock's time, whose payload is a nonce that the
    random generator drew during the call and the encryption of the plaintext
    under that nonce and the agreed key; the message's id is recorded as seen,
    its encoding is forwarded once and the message is offered to the storage
    once, and before, between and after these nothing but the run-time is used.
    It fails only when key agreement fails or memory runs out: then nothing is
    forwarded or stored and only the run-time, and for lack of memory perhaps the
    table of seen ids, has changed.  No block is left behind in any case. *)
Theorem send_seals_and_broadcasts base o b w rcpt pt :
  ffi_inv call_user 0 base o w -> o_router o = Some b -> bytes_n 32 rcpt -> bytes_ok pt ->
  zlen pt + BC_NONCE_SIZE + BC_TAG_SIZE < 2 ^ 31 ->
  wp (bitchat_send_message (Some rcpt) (Some pt) (zlen pt) o) w (fun '(rc, o') w' =>
    stays call_user base o w o' w' /\ same_account w w' /\
    (exists new, queue w' = queue w ++ new) /\
    send_result o (g_identity (get_ffi w)) rcpt pt w rc o' w').
Proof. apply wp_send. by unfold UserSafe. Qed.

(** C22: End to end: when the oldest queued message is one that a peer with a
    generated identity sealed for this node's generated identity, polling with
    a large enough buffer answers [BC_OK] with exactly the plaintext that was
    sealed, its length and the peer's public key. *)
Theorem poll_returns_what_was_sealed base o w b q peer pt buf len sender :
  ffi_inv call_user 0 base o w -> queue w = b :: q -> room 32 sender -> bytes_ok pt ->
  generated (pubkey peer) (secret_key peer) ->
  generated (pubkey (g_identity (get_ffi w))) (secret_key (g_identity (get_ffi w))) ->
  sender_pubkey (contents b) = pubkey peer ->
  sealed (secret_key peer) (pubkey (g_identity (get_ffi w))) pt (msg_payload (contents b)) ->
  zlen pt <= zlen buf ->
  wp (bitchat_poll_messages (Some buf) (zlen buf) (Some len) sender) w
    (fun '(rc, (buf', n, sender')) w' =>
    rc = BC_OK /\ buf' = Some (pt ++ drop (length pt) buf) /\ n = Some (zlen pt) /\
    filled (pubkey peer) sender sender' /\ queue w' = q).
Proof.
  intros Hi Hq Hroom Hpt Hgp Hgi Hsnd Hseal Hlen.
  assert (Hop := sealed_opens _ _ _ _ _ _ Hgp Hgi Hpt Hseal).
  assert (Hop' := Hop). destruct Hop' as (H40 & key & Hk & Hdec). rewrite <- Hsnd in Hop, Hk.
  eapply wp_mono; [by apply (wp_poll_messages call_user base o)|].
  intros [rc [[out n] s']] w' (_ & _ & Hres). rewrite Hq in Hres.
  destruct Hres as (Hq' & out' & k & -> & -> & Hans).
  assert (Hsep : separate (queue w)) by apply (heap_ffi_ok _ (inv_heap_ok _ _ _ _ _ Hi)).
  rewrite Hq in Hsep. destruct Hsep as (Hm & _).
  assert (Hpl : payload_len (contents b) = zlen (msg_payload (contents b))) by apply Hm.
  inversion Hans as [Hs|? Hn|? Hs|pt' s'' Hop' Hl Hf|? Hno]; subst.
  - lia.
  - by rewrite Hk in Hn.
  - destruct (generated_wf _ _ Hgp) as [_ Hsk1]. destruct (generated_wf _ _ Hgi) as [Hpk2 _].
    assert (Hsl := sealed_length _ _ _ _ Hsk1 Hpk2 Hpt Hseal). lia.
  - rewrite (opens_unique _ _ _ _ _ Hop' Hop). rewrite Hsnd in Hf. done.
  - by destruct (Hno pt).
Qed.

(** C40: What the API's router is given goes to nobody.  Whatever sequence of
    calls was made, discovery included, and whatever router they left: forwarding
    any bytes calls no transport and answers [BC_ERR_TRANSPORT]; the periodic
    rebroadcast reads the clock and does nothing else; and a
    [bitchat_send_message] that answers [BC_OK] has written its message and
    offered it to the storage once, and besides has used nothing but the
    run-time. *)
Theorem api_forwards_to_nobody cs base o w :
  ffi_inv call_user 0 base o w -> Forall call_ok cs ->
  wp (run_calls call_user cs o) w (fun o' w' => forall b, o_router o' = Some b ->
    (forall data len w1, forward_to_peers (contents b) data len w1 = Val (BC_ERR_TRANSPORT, w1)) /\
    (forall w1, exists w2, rebroadcast (contents b) w1 = Val (contents b, w2) /\ silent w1 w2) /\
    (forall rcpt pt, bytes_n 32 rcpt -> bytes_ok pt -> zlen pt + BC_NONCE_SIZE + BC_TAG_SIZE < 2 ^ 31 ->
       wp (bitchat_send_message (Some rcpt) (Some pt) (zlen pt) o') w' (fun '(rc, _) w2 => rc = BC_OK ->
         exists m w3 w4 w5,
           written w' w2 (pubkey (g_identity (get_ffi w'))) (secret_key (g_identity (get_ffi w'))) rcpt pt m /\
           idle (locked w') w3 /\ stored (contents b) m w3 w4 /\ idle w4 w5 /\ w2 = unlocked w5))).
Proof.
  intros Hi Hcs. eapply wp_mono; [by apply (wp_run_calls cs base)|]. intros o' w' (Hi' & _) b Hb.
  assert (Hpc : peer_count (contents b) = 0)
    by (destruct Hi' as (_ & _ & _ & (_ & Hr & _) & _); apply (Hr b Hb)).
  split; [intros; by apply forward_nobody|]. split; [intros; by apply rebroadcast_nobody|].
  intros rcpt pt Hrc Hpt Hlen.
  eapply wp_mono; [by apply (wp_send call_user base o' b)|].
  intros [rc o2] w2 (_ & _ & _ & [[_ Hs]|[[-> _]|[-> _]]]) Hok; [|done|done].
  destruct Hs as (b' & now & m & w3 & frc & w4 & w5 & w6 & Hb' & Hwr & _ & _ & H3 & Hfw & Hst & H6 & ->).
  rewrite Hb in Hb'. injection Hb' as <-. rewrite (forwarded_nobody _ _ _ _ _ Hpc Hfw) in Hst.
  by exists m, w3, w5, w6.
Qed.
End safety.

Section uninitialized.
Context {W : Type} `{!HasOS W, !HasFfi W, Hna : !Sodium}.
Context (call_user : Z -> list Z -> list Z -> Z -> M W unit).

(** The tests of [initialized] come too late: before the first
    [bitchat_init] and after [bitchat_shutdown] the mutex is not an initialized
    one, and every other function locks it before it looks at [initialized], so
    each of them is undefined instead of answering the error code it has for
    that case. *)
Theorem api_undefined_before_init c o (w : W) :
  (forall n, g_mutex (get_ffi w) <> MutexReady n) ->
  run_call call_user c o w = UB /\ bitchat_shutdown o w = UB.
Proof.
  intros Hm. assert (Hlock : forall A (k : M W A), (LOCK;; k) w = UB).
  { intros A k. unfold LOCK, mbind, M_bind, ffi_get. destruct (g_mutex (get_ffi w)) as [|n|]; try done.
    by destruct (Hm n). }
  split; [|apply Hlock].
  assert (Hbind : forall A B (m : M W A) (k : A -> M W B), m w = UB -> (m ≫= k) w = UB)
    by (intros A B m k He; unfold mbind, M_bind; by rewrite He).
  destruct c; cbn [run_call]; first [apply Hbind; apply Hlock|apply Hlock].
Qed.
End uninitialized.

(** ** Witnesses *)

Import FfiDemo.InUse.
#[local] Existing Instance toy_sodium.

(** A message opens for the node: seen from the peer it is sealed. *)
Lemma demo_seals :
  sealed (secret_key demo_peer) (pubkey demo_self) demo_text demo_sealed /\
  generated (pubkey demo_peer) (secret_key demo_peer) /\
  generated (pubkey demo_self) (secret_key demo_self).
Proof.
  split_and!.
  - eexists _, (replicate 24 5), _. split; [vm_compute; reflexivity|]. split.
    + apply (bool_decide_unpack _). vm_compute. exact I.
    + split; vm_compute; reflexivity.
  - exists (replicate 32 4). split; [apply (bool_decide_unpack _); vm_compute; exact I|reflexivity].
  - exists (replicate 32 3). split; [apply (bool_decide_unpack _); vm_compute; exact I|reflexivity].
Qed.

(** A session: poll twice (once with NULL), send, tick, scan, change the callback and the
    identity. *)
Definition demo_calls : list api_call :=
  [ApiPoll (Some (replicate 10 0)) (Some 0) None; ApiPoll None None None;
   ApiSend (Some (replicate 32 4)) (Some demo_text); ApiTick; ApiDiscover;
   ApiSetCallback None; ApiGenerate (Some (replicate 32 0)) None; ApiLoad (Some (replicate 64 1)) 64].

Lemma demo_calls_ok : Forall call_ok demo_calls.
Proof.
  repeat constructor; try discriminate; try intros b Hb; simplify_eq;
    apply (bool_decide_unpack _); vm_compute; exact I.
Qed.

Lemma api_calls_safe_witness :
  wp (run_calls quiet_app demo_calls demo_objects) demo_session
    (fun o' w' => stays quiet_app demo_base demo_objects demo_session o' w').
Proof.
  apply (api_calls_safe quiet_app demo_calls demo_base demo_objects demo_session).
  - exact demo_session_inv.
  - exact demo_calls_ok.
Defined.

Lemma delivery_queues_and_notifies_witness :
  wp (on_message_received quiet_app (contents demo_inbound) 0) demo_session (fun _ w' =>
    balanced demo_session w' /\ exists w1, pushed (contents demo_inbound) demo_session w1 /\
      handed quiet_app (contents demo_inbound) w1 w' /\ queue w' = queue w1 /\
      user_callback (get_ffi w1) = user_callback (get_ffi demo_session) /\
      g_identity (get_ffi w1) = g_identity (get_ffi demo_session)).
Proof.
  apply (delivery_queues_and_notifies quiet_app (contents demo_inbound) 0 demo_session).
  - exact demo_heap_ok.
  - apply (bool_decide_unpack _). vm_compute. exact I.
  - reflexivity.
Defined.

Lemma poll_takes_oldest_witness :
  wp (bitchat_poll_messages (Some (replicate 10 0)) (zlen (replicate 10 0)) (Some 0) None)
    demo_session (fun '(rc, (buf', n, sender')) w' =>
    stays quiet_app demo_base demo_objects demo_session demo_objects w' /\
    same_account demo_session w' /\
    match queue demo_session with
    | [] => queue w' = [] /\ rc = BC_OK /\ buf' = Some (replicate 10 0) /\ n = Some 0 /\ sender' = None
    | b :: q => queue w' = q /\ exists out k, buf' = Some out /\ n = Some k /\
        poll_answer (g_identity (get_ffi demo_session)) (contents b) (zlen (replicate 10 0))
          (replicate 10 0) None rc out k sender'
    end).
Proof.
  apply (poll_takes_oldest quiet_app demo_base demo_objects demo_session (replicate 10 0) 0 None).
  - exact demo_session_inv.
  - intros b Hb. discriminate Hb.
Defined.

Lemma send_seals_and_broadcasts_witness :
  exists b, o_router demo_objects = Some b /\
  wp (bitchat_send_message (Some (replicate 32 4)) (Some demo_text) (zlen demo_text) demo_objects)
    demo_session (fun '(rc, o') w' =>
    stays quiet_app demo_base demo_objects demo_session o' w' /\ same_account demo_session w' /\
    (exists new, queue w' = queue demo_session ++ new) /\
    send_result demo_objects (g_identity (get_ffi demo_session)) (replicate 32 4) demo_text
      demo_session rc o' w').
Proof.
  eexists. split; [reflexivity|].
  eapply (send_seals_and_broadcasts quiet_app demo_base demo_objects _ demo_session).
  - exact demo_session_inv.
  - reflexivity.
  - apply (bool_decide_unpack _). vm_compute. exact I.
  - apply (bool_decide_unpack _). vm_compute. exact I.
  - vm_compute. reflexivity.
Defined.

Lemma poll_returns_what_was_sealed_witness :
  wp (bitchat_poll_messages (Some (replicate 10 0)) (zlen (replicate 10 0)) (Some 0)
        (Some (replicate 32 0))) demo_session (fun '(rc, (buf', n, sender')) w' =>
    rc = BC_OK /\ buf' = Some (demo_text ++ drop (length demo_text) (replicate 10 0)) /\
    n = Some (zlen demo_text) /\
    filled (pubkey demo_peer) (Some (replicate 32 0)) sender' /\ queue w' = []).
Proof.
  eapply (poll_returns_what_was_sealed quiet_app demo_base demo_objects demo_session demo_inbound []
           demo_peer demo_text (replicate 10 0) 0 (Some (replicate 32 0))).
  - exact demo_session_inv.
  - exact demo_queue.
  - intros b [= <-]. vm_compute. discriminate.
  - apply (bool_decide_unpack _). vm_compute. exact I.
  - apply demo_seals.
  - apply demo_seals.
  - reflexivity.
  - apply demo_seals.
  - vm_compute. discriminate.
Defined.

Lemma api_forwards_to_nobody_witness :
  wp (run_calls quiet_app demo_calls demo_objects) demo_session (fun o' w' =>
    forall b, o_router o' = Some b ->
    (forall data len w1, forward_to_peers (contents b) data len w1 = Val (BC_ERR_TRANSPORT, w1)) /\
    (forall w1, exists w2, rebroadcast (contents b) w1 = Val (contents b, w2) /\ silent w1 w2) /\
    (forall rcpt pt, bytes_n 32 rcpt -> bytes_ok pt -> zlen pt + BC_NONCE_SIZE + BC_TAG_SIZE < 2 ^ 31 ->
       wp (bitchat_send_message (Some rcpt) (Some pt) (zlen pt) o') w' (fun '(rc, _) w2 => rc = BC_OK ->
         exists m w3 w4 w5,
           written w' w2 (pubkey (g_identity (get_ffi w'))) (secret_key (g_identity (get_ffi w'))) rcpt pt m /\
           idle (locked w') w3 /\ stored (contents b) m w3 w4 /\ idle w4 w5 /\ w2 = unlocked w5))).
Proof.
  apply (api_forwards_to_nobody quiet_app demo_calls demo_base demo_objects demo_session).
  - exact demo_session_inv.
  - exact demo_calls_ok.
Defined.

(** A call in the program's initial state. *)
Lemma api_undefined_before_init_witness :
  let w := mkWorld (get_os demo_session) (demo_net []) (mkApp (demo_db []) g_state0) in
  run_call quiet_app ApiTick no_objects w = UB /\ bitchat_shutdown no_objects w = UB.
Proof.
  apply (api_undefined_before_init quiet_app ApiTick no_objects
    (mkWorld (get_os demo_session) (demo_net []) (mkApp (demo_db []) g_state0))).
  intros n. discriminate.
Defined.

(** Calling the API from the message callback does not deadlock: with the mutex
    held once, as it is while a tick delivers, polling takes the oldest message
    as usual and leaves the mutex held once. *)
Theorem callback_may_poll :
  match bitchat_poll_messages (H := toy_sodium) (Some (replicate 8 0)) 8 (Some 0) None
          (set_ffi (set_mutex (MutexReady 1) demo_globals) demo_session) with
  | Val (answer, w') => answer = (BC_OK, (Some (demo_text ++ replicate 6 0), Some 2, None)) /\
      g_mutex (get_ffi w') = MutexReady 1
  | _ => False
  end.
Proof. vm_compute. split; reflexivity. Qed.
