(* ===== verification/FfiLifecycle.v ===== *)
(** * FfiLifecycle: from [bitchat_init] to [bitchat_shutdown]

    Rules for initialization and shutdown of the C API, and the session between
    them: the whole life of the library, whatever calls are made. *)
From stdpp Require Import strings.
From S2P Require Import Prelude Effects Errors Sodium Message Peer Ports StubTransports Identity.
From S2P Require Import CryptoManager Sealing Discovery Sqlite SqliteStorage SqliteStorageSpec.
From S2P Require Import SqliteStorageProps SqliteLifecycle Session Dedup Router RouterSpec.
From S2P Require Import Sockets World Ffi FfiSpec FfiApi FfiDemo FfiProps.

(** The globals and the database do not overlap. *)
Class FfiSql (W E : Type) `{!HasOS W, !HasSql W E, !HasFfi W} : Prop := {
  get_sql_set_ffi : forall g w, get_sql (set_ffi g w) = get_sql w;
  get_ffi_set_sql : forall x w, get_ffi (set_sql x w) = get_ffi w
}.

(** ** Freeing commutes with changing the globals *)

Section blind.
Context {W : Type} `{!HasOS W, !HasFfi W}.
Implicit Types w : W.

(** A computation that neither reads nor writes the globals. *)
Definition blind {A} (m : M W A) : Prop :=
  forall g w, m (set_ffi g w) =
    match m w with Val (a, w') => Val (a, set_ffi g w') | UB => UB | NoFuel => NoFuel end.

Lemma blind_ret {A} (a : A) : blind (mret a).
Proof. done. Qed.

Lemma blind_lift {A} (r : res A) : blind (lift r).
Proof. intros g w. unfold lift. by destruct r. Qed.

Lemma blind_free p : blind (c_free p).
Proof.
  intros g w. unfold c_free. destruct p as [b|]; [|done]. rewrite get_os_set_ffi.
  case_bool_decide; [|done]. by rewrite set_ffi_set_os.
Qed.

Lemma blind_bind {A B} (m : M W A) (k : A -> M W B) : blind m -> (forall a, blind (k a)) -> blind (m ≫= k).
Proof.
  intros Hm Hk g w. unfold mbind, M_bind. rewrite Hm. destruct (m w) as [[a w1]| |]; [|done|done].
  apply Hk.
Qed.

Lemma blind_destroy b : blind (bc_message_destroy (W := W) b).
Proof.
  unfold bc_message_destroy. destruct b as [b|]; [|apply blind_ret]. apply blind_bind.
  - destruct (payload _); [|apply blind_ret]. apply blind_bind; [apply blind_lift|intros; apply blind_free].
  - intros; apply blind_free.
Qed.

(** A quiet and blind computation may as well run after the change. *)
Lemma wp_update_first {A} (m : M W unit) f (k : M W A) w Q :
  quiet m -> blind m -> wp (m;; k) (set_ffi (f (get_ffi w)) w) Q -> wp (m;; ffi_update f;; k) w Q.
Proof.
  intros Hq Hb. unfold wp, mbind, M_bind. rewrite Hb. destruct (m w) as [[[] w1]| |] eqn:He; [|done|done].
  destruct (Hq _ _ _ He) as [o ->]. unfold ffi_update, ffi_get, ffi_put, mbind, M_bind.
  by rewrite get_ffi_set_os.
Qed.
End blind.

(** The function table of the BLE transport. *)
Definition ble_vtable {W} `{!HasOS W} : bc_transport W :=
  mkTransport (Some ble_init) (Some ble_send) (Some ble_recv) (Some ble_discover)
    (Some (ble_destroy None)).

Lemma ble_safe {W} `{!HasOS W, !WorldInv W} :
  TransportSafe (ble_vtable (W := W)) /\ TransportBenign (ble_vtable (W := W)).
Proof. apply refusing_safe; intros ? [= <-]; eexists; first [done|split; [|done]; done]. Qed.

(** ** Shutdown *)

Section shutdown.
Context {W E : Type} `{!HasOS W, !WorldInv W, !HasSql W E, !Sqlite E, !SqliteSpec E, !SqlFree W E}.
Context `{!HasFfi W, !FfiWorld W, !FfiSql W E}.
Implicit Types (w : W) (o : g_objects W).

Lemma dbv_set_ffi g w : dbv (E := E) (set_ffi g w) = dbv w.
Proof. unfold dbv. by rewrite get_sql_set_ffi. Qed.

(** The globals but for the inbox. *)
Definition same_globals w w' : Prop :=
  initialized (get_ffi w') = initialized (get_ffi w) /\ g_identity (get_ffi w') = g_identity (get_ffi w) /\
  user_callback (get_ffi w') = user_callback (get_ffi w) /\ g_mutex (get_ffi w') = g_mutex (get_ffi w) /\
  mutex_initialized (get_ffi w') = mutex_initialized (get_ffi w).

Lemma same_globals_trans w1 w2 w3 : same_globals w1 w2 -> same_globals w2 w3 -> same_globals w1 w3.
Proof. unfold same_globals. intuition congruence. Qed.

Lemma same_globals_eq w w' : get_ffi w' = get_ffi w -> same_globals w w'.
Proof. unfold same_globals. by intros ->. Qed.

(** Draining empties the queue and frees its messages. *)
Lemma wp_drain fuel w :
  heap_ok w -> (length (queue w) < fuel)%nat ->
  wp (drain_inbox fuel) w (fun _ w' => advances w w' /\ owned w' = owned w /\ queue w' = [] /\
    same_globals w w' /\ dbv (E := E) w' = dbv w).
Proof.
  revert w. induction fuel as [|fuel IH]; intros w Hok Hf; [lia|]. cbn [drain_inbox].
  apply wp_bind, wp_ffi_get. destruct (heap_ffi_ok _ Hok) as (Hr & _ & _).
  assert (Hemp := ring_empty _ _ Hr). fold (queue w) in Hemp.
  case_bool_decide as Ht.
  { apply wp_ret. split; [apply advances_refl|]. split; [done|]. split; [by apply Hemp|].
    split; [by apply same_globals_eq|done]. }
  destruct (queue w) as [|b q] eqn:Hq; [by destruct Ht; apply Hemp|].
  destruct (queue_pop w b q Hok Hq) as (Hslot & Ht0 & Hmw & Hmd & Hok' & Ha & How & Hd & Hq').
  apply wp_bind. eapply wp_lift; [by apply arr_get_ok|].
  apply wp_update_first; [apply quiet_destroy|apply blind_destroy|]. fold (popped w).
  apply wp_bind. apply wp_quiet; [apply quiet_destroy|].
  apply wp_destroy_owned; [done|done|rewrite How; clear; set_solver|]. intros w2 [Hl2 Ho2] Hq2.
  assert (Hg2 : get_ffi w2 = get_ffi (popped w)) by (destruct Hq2 as [os ->]; apply get_ffi_set_os).
  assert (Hqueue2 : queue w2 = q) by (unfold queue; rewrite Hg2; exact Hq').
  eapply wp_mono; [apply IH; [by eauto with bitchat|rewrite Hqueue2; cbn in Hf; lia]|].
  intros _ w3 (Ha3 & Ho3 & Hq3 & Hs3 & Hv3). split_and?; try done.
  - eapply advances_trans; [exact Ha|]. eapply advances_trans; [apply Hl2|done].
  - rewrite Ho3, Ho2, How. clear -Hd. set_solver.
  - eapply same_globals_trans; [|exact Hs3]. unfold same_globals. rewrite Hg2. unfold popped.
    by rewrite get_set_ffi.
  - rewrite Hv3. destruct Hq2 as [os ->]. rewrite dbv_set_os. apply dbv_set_ffi.
Qed.

(** Changing a global that is not the inbox. *)
Lemma wp_set_global {A} f (k : M W A) w Q :
  heap_ok w -> (forall g, inbox (f g) = inbox g /\ inbox_head (f g) = inbox_head g /\
    inbox_tail (f g) = inbox_tail g) ->
  (forall g, identity_wf (g_identity g) -> identity_wf (g_identity (f g))) ->
  (forall w', heap_ok w' -> advances w w' -> owned w' = owned w -> queue w' = queue w ->
     get_ffi w' = f (get_ffi w) -> dbv (E := E) w' = dbv w -> wp k w' Q) ->
  wp (ffi_update f;; k) w Q.
Proof.
  intros Hok Hf Hid HQ. destruct (Hf (get_ffi w)) as (H1 & H2 & H3).
  destruct (set_ffi_same (f (get_ffi w)) w Hok H1 H2 H3) as (Ha & Hok' & Ho & Hq).
  { apply Hid. apply (heap_ffi_ok _ Hok). }
  apply wp_bind, wp_ffi_update, HQ; try done; [apply get_set_ffi|apply dbv_set_ffi].
Qed.

#[local] Hint Resolve get_ffi_set_os : frame.

Lemma sql_run_ffi {A} (f : E -> option (A * E)) : untouched get_ffi (sql_run (W := W) f).
Proof.
  intros w a w'. unfold sql_run. destruct (f _) as [[]|]; [|done]. intros [= _ <-]. apply get_ffi_set_sql.
Qed.
#[local] Hint Resolve sql_run_ffi : frame.

Lemma sqlite_create_ffi path : untouched get_ffi (bc_storage_sqlite_create (W := W) (E := E) path).
Proof. unfold bc_storage_sqlite_create, prepare_if, create_fails, sqlite3_finalize. solve_untouched. Qed.

Lemma sqlite_destroy_ffi self ctx : untouched get_ffi (sqlite_destroy (W := W) (E := E) self ctx).
Proof. unfold sqlite_destroy, sqlite3_finalize. solve_untouched. Qed.

Lemma quiet_frames {A} (m : M W A) : quiet m -> untouched (fun w => (get_ffi w, dbv (E := E) w)) m.
Proof. apply quiet_untouched. intros o w. by rewrite get_ffi_set_os, dbv_set_os. Qed.

(** The blocks of the adapters. *)
Definition adapter_blocks o (ctx : box sqlite_ctx) : gset blk :=
  opt_blocks (fun st => storage_blocks st ctx) (o_storage o) ∪
  opt_blocks (fun t => {[addr t]}) (o_transport o).

(** The library is initialized: the storage is the SQLite adapter over [ctx],
    opened on top of [v0], the transport the BLE stub, and the blocks to account
    for are those of the objects, of the adapters and [base]. *)
Definition api_open (base : gset blk) (v0 : db_view) o (ctx : box sqlite_ctx) w : Prop :=
  (exists st, o_storage o = Some st /\ storage_open (E := E) v0 st ctx w) /\
  (forall t, o_transport o = Some t -> t_destroy (contents t) = Some (ble_destroy None)) /\
  (forall b, o_router o = Some b -> addr b <> addr (dedup_table (contents b))) /\
  opt_blocks router_blocks (o_router o) ## opt_blocks disc_blocks (o_discovery o) /\
  opt_blocks (fun st => storage_blocks st ctx) (o_storage o) ##
    opt_blocks (fun t => {[addr t]}) (o_transport o) /\
  object_blocks o ## adapter_blocks o ctx ∪ base /\ adapter_blocks o ctx ## base /\
  owned w = object_blocks o ∪ (adapter_blocks o ctx ∪ base).

(** The state after a shutdown. *)
Definition shut_down (base : gset blk) (v0 : db_view) w0 o w : Prop :=
  o = no_objects /\ advances w0 w /\ owned w = base /\ queue w = [] /\ dbv (E := E) w = v0 /\
  initialized (get_ffi w) = 0 /\ user_callback (get_ffi w) = None /\
  secret_key (g_identity (get_ffi w)) = replicate 32 0 /\
  g_mutex (get_ffi w) = MutexDestroyed /\ mutex_initialized (get_ffi w) = 0.

(** Destroying the optional objects, one after the other. *)
Lemma wp_release_opt {X A} (x : option X) (blocks : X -> gset blk) (destroy : X -> M W unit)
    (k : M W A) w Q :
  opt_blocks blocks x ⊆ owned w ->
  (forall a, x = Some a -> blocks a ⊆ owned w -> wp (destroy a) w (fun _ w' =>
     released (blocks a) w w' /\ get_ffi w' = get_ffi w /\ dbv (E := E) w' = dbv w)) ->
  (forall w', released (opt_blocks blocks x) w w' -> get_ffi w' = get_ffi w ->
     dbv (E := E) w' = dbv w -> wp k w' Q) ->
  wp (match x with Some a => destroy a | None => mret tt end;; k) w Q.
Proof.
  intros Hsub Hd HQ. apply wp_bind. destruct x as [a|]; cbn [opt_blocks] in *.
  - eapply wp_mono; [by apply Hd|]. intros _ w' (Hr & Hg & Hv). by apply HQ.
  - apply wp_ret, HQ; [split; [apply later_refl|]|done|done]. by rewrite difference_empty_L.
Qed.

Lemma quiet_released {A} bs (m : M W A) w :
  quiet m -> wp m w (fun _ w' => released bs w w') ->
  wp m w (fun _ w' => released bs w w' /\ get_ffi w' = get_ffi w /\ dbv (E := E) w' = dbv w).
Proof.
  intros Hq Hm. apply (wp_frame _ _ _ _ (quiet_frames m Hq)). eapply wp_mono; [exact Hm|].
  by intros a w' Hr [= Hg Hv].
Qed.

(** The calls of the mutex change one global. *)
Lemma lock_update n w :
  g_mutex (get_ffi w) = MutexReady n -> LOCK w = ffi_update (set_mutex (MutexReady (n + 1))) w.
Proof. intros Hm. unfold LOCK, ffi_update, mbind, M_bind, ffi_get. by rewrite Hm. Qed.

Lemma unlock_update n w :
  g_mutex (get_ffi w) = MutexReady n -> 0 < n ->
  UNLOCK w = ffi_update (set_mutex (MutexReady (n - 1))) w.
Proof.
  intros Hm Hn. unfold UNLOCK, ffi_update, mbind, M_bind, ffi_get. rewrite Hm.
  by rewrite bool_decide_eq_true_2.
Qed.

Lemma destroy_update w :
  g_mutex (get_ffi w) = MutexReady 0 -> pthread_mutex_destroy w = ffi_update (set_mutex MutexDestroyed) w.
Proof. intros Hm. unfold pthread_mutex_destroy, ffi_update, mbind, M_bind, ffi_get. by rewrite Hm. Qed.

Lemma wp_as_update {A} (m : M W unit) f (k : M W A) w Q :
  m w = ffi_update f w -> wp (ffi_update f;; k) w Q -> wp (m;; k) w Q.
Proof. intros Hm. unfold wp, mbind, M_bind. by rewrite Hm. Qed.

(** The sets of the proof below. *)
Lemma shutdown_blocks (R D S T B O O1 O2 O3 O4 : gset blk) :
  R ## D -> S ## T -> R ∪ D ## (S ∪ T) ∪ B -> S ∪ T ## B -> O = R ∪ D ∪ ((S ∪ T) ∪ B) ->
  O1 = O ∖ D -> O2 = O1 ∖ R -> O3 = O2 ∖ S -> O4 = O3 ∖ T ->
  D ⊆ O /\ R ⊆ O1 /\ S ⊆ O2 /\ T ⊆ O3 /\ O4 = B.
Proof. intros. subst. split_and!; set_solver. Qed.

(** Emptying the ring once no message is queued. *)
Lemma wp_reset_inbox {A} (k : M W A) w Q :
  heap_ok w -> queue w = [] ->
  (forall w', heap_ok w' -> advances w w' -> owned w' = owned w -> queue w' = [] ->
     get_ffi w' = set_inbox (inbox (get_ffi w)) 0 0 (get_ffi w) -> dbv (E := E) w' = dbv w -> wp k w' Q) ->
  wp (ffi_update (fun g => set_inbox (inbox g) 0 0 g);; k) w Q.
Proof.
  intros Hok Hq HQ. destruct (heap_ffi_ok _ Hok) as (Hr & _ & Hid). fold (queue w) in Hr.
  rewrite Hq in Hr. assert (Hr' := ring_nil _ Hr). set (g := set_inbox _ 0 0 _) in Hr'.
  assert (Hq' : inbox_queue g = []) by by apply ring_queue.
  assert (Hb : inbox_blocks g = ∅) by (unfold inbox_blocks; by rewrite Hq').
  assert (Hg : ffi_ok g) by (unfold ffi_ok; rewrite Hq'; by split_and!).
  apply wp_bind, wp_ffi_update. fold g. apply HQ.
  - apply set_ffi_heap_ok; [done|done|rewrite Hb; clear; set_solver].
  - apply set_ffi_advances; [done|rewrite Hb; clear; set_solver].
  - rewrite owned_set_ffi, owned_ffi, Hb. unfold inbox_blocks. fold (queue w). by rewrite Hq.
  - unfold queue. by rewrite get_set_ffi.
  - apply get_set_ffi.
  - apply dbv_set_ffi.
Qed.

(** The end of the shutdown: the globals are reset and the mutex destroyed. *)
Lemma wp_shutdown_globals w :
  heap_ok w -> queue w = [] -> g_mutex (get_ffi w) = MutexReady 1 -> user_callback (get_ffi w) = None ->
  wp (ffi_update (fun g => set_identity
        (default (g_identity g) (bc_identity_wipe (Some (g_identity g)))) g);;
      ffi_update (set_initialized 0);;
      ffi_update (fun g => set_inbox (inbox g) 0 0 g);;
      UNLOCK;;
      pthread_mutex_destroy;;
      ffi_update (set_mutex_initialized 0);;
      mret (no_objects (W := W))) w
    (fun o w' => shut_down (owned w) (dbv w) w o w' /\ heap_ok w').
Proof.
  intros Hok Hq Hm Hc.
  apply wp_set_global; [done|done|intros g [Hp _]; split; [exact Hp|]; split; [done|by apply bytes_ok_replicate]|].
  intros w1 Hok1 Ha1 Ho1 Hq1 Hg1 Hv1.
  apply wp_set_global; [done|done|done|]. intros w2 Hok2 Ha2 Ho2 Hq2 Hg2 Hv2. rewrite Hg1 in Hg2.
  apply wp_reset_inbox; [done|congruence|]. intros w3 Hok3 Ha3 Ho3 Hq3 Hg3 Hv3. rewrite Hg2 in Hg3.
  eapply wp_as_update; [apply (unlock_update 1); [by rewrite Hg3|done]|].
  apply wp_set_global; [done|done|done|]. intros w4 Hok4 Ha4 Ho4 Hq4 Hg4 Hv4. rewrite Hg3 in Hg4.
  eapply wp_as_update; [apply destroy_update; by rewrite Hg4|].
  apply wp_set_global; [done|done|done|]. intros w5 Hok5 Ha5 Ho5 Hq5 Hg5 Hv5. rewrite Hg4 in Hg5.
  apply wp_set_global; [done|done|done|]. intros w6 Hok6 Ha6 Ho6 Hq6 Hg6 Hv6. rewrite Hg5 in Hg6.
  apply wp_ret. split; [|done]. unfold shut_down. rewrite Hg6. split_and?; try done; try congruence.
  do 5 (eapply advances_trans; [eassumption|]). done.
Qed.

Lemma wp_api_shutdown base v0 o ctx w :
  heap_ok w -> initialized (get_ffi w) <> 0 -> g_mutex (get_ffi w) = MutexReady 0 ->
  api_open base v0 o ctx w -> wp (bitchat_shutdown o) w (fun o' w' => shut_down base v0 w o' w' /\ heap_ok w').
Proof.
  intros Hok Hinit Hm ((st & Hst & Hso) & Ht & Hr & Hd1 & Hd2 & Hd3 & Hd4 & Hown). unfold bitchat_shutdown.
  assert (Hsets := shutdown_blocks _ _ _ _ base _ _ _ _ _ Hd1 Hd2 Hd3 Hd4 Hown eq_refl eq_refl eq_refl eq_refl).
  destruct Hsets as (HsD & HsR & HsS & HsT & HB).
  set (D := opt_blocks disc_blocks (o_discovery o)) in *. set (R := opt_blocks router_blocks (o_router o)) in *.
  set (T := opt_blocks _ (o_transport o)) in *. rewrite Hst in HsS, HsT, HB. cbn [opt_blocks] in HsS, HsT, HB.
  eapply wp_as_update; [by apply lock_update|]. apply wp_set_global; [done|done|done|].
  intros w1 Hok1 Ha1 Ho1 Hq1 Hg1 Hv1. apply wp_bind, wp_ffi_get.
  rewrite Hg1. cbn [initialized set_mutex]. rewrite bool_decide_eq_false_2 by done.
  apply wp_set_global; [done|done|done|]. intros w2 Hok2 Ha2 Ho2 Hq2 Hg2 Hv2. rewrite Hg1 in Hg2.
  apply wp_bind. eapply wp_mono; [apply wp_drain; [done|]|].
  { destruct (heap_ffi_ok _ Hok2) as ((_ & _ & Hz & _) & _). fold (queue w2) in Hz. unfold zlen in Hz. lia. }
  intros _ w3 (Ha3 & Ho3 & Hq3 & Hs3 & Hv3).
  assert (Ho03 : owned w3 = owned w) by congruence. rewrite <- Ho03 in HsD, HsR, HsS, HsT, HB.
  apply (wp_release_opt _ disc_blocks); [done| |].
  { intros d Hd Hsub. apply quiet_released; [apply quiet_free|].
    apply wp_free_owned; [apply Hsub; by apply elem_of_singleton|done]. }
  fold D. intros w4 [Hl4 Ho4] Hg4 Hv4. rewrite <- Ho4 in HsR, HsS, HsT, HB.
  apply (wp_release_opt _ router_blocks); [done| |].
  { intros b Hb Hsub. apply quiet_released; [unfold bc_router_destroy; solve_quiet|].
    by apply wp_router_destroy; [apply Hr|]. }
  fold R. intros w5 [Hl5 Ho5] Hg5 Hv5. rewrite <- Ho5 in HsS, HsT, HB. rewrite Hst.
  apply wp_bind. rewrite (storage_open_destroy _ _ _ _ Hso). cbn [call_ptr].
  apply (wp_frame get_ffi); [apply sqlite_destroy_ffi|].
  eapply (wp_destroy_storage (E := E) v0 st ctx); [eapply storage_open_ext; [|exact Hso]; congruence|done|].
  intros w6 [Hl6 Ho6] Hv6 Hg6. rewrite <- Ho6 in HsT, HB.
  apply (wp_release_opt _ (fun t => {[addr t]})); [done| |].
  { intros t Htt Hsub. rewrite (Ht t Htt). apply quiet_released.
    { unfold call_ptr, ble_destroy. solve_quiet. }
    apply wp_bind, wp_free_null, wp_free_owned; [apply Hsub; by apply elem_of_singleton|done]. }
  fold T. intros w7 [Hl7 Ho7] Hg7 Hv7. rewrite <- Ho7 in HB.
  assert (Hl37 : later w3 w7) by by eauto 6 with bitchat.
  assert (Hok3 : heap_ok w3) by by eauto with bitchat.
  assert (Hok7 : heap_ok w7) by by eauto with bitchat.
  assert (Hadv7 : advances w w7).
  { eapply advances_trans; [exact Ha1|]. eapply advances_trans; [exact Ha2|].
    eapply advances_trans; [exact Ha3|apply Hl37]. }
  assert (Hg37 : get_ffi w7 = get_ffi w3) by congruence.
  destruct Hs3 as (_ & _ & Hc3 & Hm3 & _). rewrite Hg2 in Hc3, Hm3. cbn in Hc3, Hm3.
  eapply wp_mono; [apply wp_shutdown_globals; [done|unfold queue in *; by rewrite Hg37|by rewrite Hg37, Hm3|congruence]|].
  intros o' w8 [(Ho & Ha8 & Hown8 & Hq8 & Hv8 & Hrest) Hok8]. split; [|done]. unfold shut_down.
  split_and?; try done; try congruence; try (by destruct_and! Hrest). by eapply advances_trans.
Qed.
(** ** Initialization *)

(** The library is not initialized: no message is queued, and the mutex is in
    the state its flag says.  So the program starts, and so a shutdown or a
    failed initialization leaves the library. *)
Definition closed w : Prop :=
  heap_ok w /\ queue w = [] /\ initialized (get_ffi w) = 0 /\
  if bool_decide (mutex_initialized (get_ffi w) = 0)
  then forall n, g_mutex (get_ffi w) <> MutexReady n
  else g_mutex (get_ffi w) = MutexReady 0.

Lemma shut_down_closed base v0 w0 o w : shut_down base v0 w0 o w -> heap_ok w -> closed w.
Proof.
  intros (_ & _ & _ & Hq & _ & Hi & _ & _ & Hm & Hmi) Hok. unfold closed. rewrite Hmi, Hm.
  by split_and!.
Qed.

Context (mutex_init_rc : W -> Z).

(** The mutex exists, or could not be created. *)
Lemma wp_ensure_mutex {A} (k : Z -> M W A) w Q :
  closed w ->
  (closed w -> wp (k BC_ERR) w Q) ->
  (forall w', closed w' -> mutex_initialized (get_ffi w') <> 0 -> advances w w' ->
     owned w' = owned w -> dbv (E := E) w' = dbv w -> wp (k BC_OK) w' Q) ->
  wp (rc ← ensure_mutex mutex_init_rc; k rc) w Q.
Proof.
  intros Hcl Hbad Hgood. assert (Hcl' := Hcl). destruct Hcl' as (Hok & Hq & Hi & Hm).
  apply wp_bind. unfold ensure_mutex. apply wp_bind, wp_ffi_get.
  destruct (decide (mutex_initialized (get_ffi w) = 0)) as [Hmi|Hmi].
  2: { rewrite bool_decide_eq_true_2 by done. by apply wp_ret, Hgood. }
  rewrite bool_decide_eq_true_2 in Hm by done. rewrite bool_decide_eq_false_2 by (intros H; by apply H).
  assert (Hinit : pthread_mutex_init mutex_init_rc w =
    if bool_decide (mutex_init_rc w = 0)
    then Val (0, set_ffi (set_mutex (MutexReady 0) (get_ffi w)) w) else Val (mutex_init_rc w, w)).
  { unfold pthread_mutex_init. destruct (g_mutex (get_ffi w)) as [|n|] eqn:He; [done| |done].
    by destruct (Hm n). }
  unfold wp, mbind, M_bind. rewrite Hinit. case_bool_decide as Hrc; [|rewrite bool_decide_eq_true_2 by done].
  2: by apply Hbad.
  assert (Hid : identity_wf (g_identity (get_ffi w))) by apply (heap_ffi_ok _ Hok).
  destruct (set_ffi_same (set_mutex (MutexReady 0) (get_ffi w)) w Hok eq_refl eq_refl eq_refl Hid)
    as (Ha1 & Hok1 & Ho1 & Hq1).
  set (w1 := set_ffi _ w) in *. rewrite bool_decide_eq_false_2 by (intros H; by apply H).
  assert (Hg1 : get_ffi w1 = set_mutex (MutexReady 0) (get_ffi w)) by apply get_set_ffi.
  apply (wp_set_global (set_mutex_initialized 1) (mret BC_OK)); [done|done|done|].
  intros w2 Hok2 Ha2 Ho2 Hq2 Hg2 Hv2. rewrite Hg1 in Hg2.
  apply wp_ret, Hgood.
  - unfold closed. rewrite Hg2. cbn. split_and!; [done|congruence|done|done].
  - by rewrite Hg2.
  - by eapply advances_trans.
  - congruence.
  - rewrite Hv2. apply dbv_set_ffi.
Qed.

(** A successful initialization, seen from [w0]: the two adapters exist, nothing
    else does. *)
Definition opened w0 o w : Prop :=
  initialized (get_ffi w) <> 0 /\ g_mutex (get_ffi w) = MutexReady 0 /\
  o_router o = None /\ o_discovery o = None /\
  (forall t, o_transport o = Some t -> contents t = ble_vtable) /\
  exists ctx, api_open (owned w0) (dbv w0) o ctx w /\
    ctx_ok (contents ctx) (dbv (E := E) w) /\ rows_of (E := E) w = rows_of (E := E) w0.

(** An attempt that failed: the state is [closed] again, no block is lost, and
    the engine is as before, but for a connection that [sqlite3_open_v2] on
    [path] handed out although it failed. *)
Definition not_opened (path : string) w0 o w : Prop :=
  o = no_objects /\ closed w /\ owned w = owned w0 /\
  (dbv (E := E) w = dbv w0 \/ leaked_connection (E := E) path (dbv w0) (dbv w)).

(** Leaving [bitchat_init] without success. *)
Lemma wp_init_fails path rc w0 w :
  heap_ok w -> queue w = [] -> initialized (get_ffi w) = 0 -> mutex_initialized (get_ffi w) <> 0 ->
  g_mutex (get_ffi w) = MutexReady 1 -> rc <> BC_OK -> advances w0 w ->
  (forall w', closed w' -> owned w' = owned w -> dbv (E := E) w' = dbv w ->
     not_opened path w0 no_objects w') ->
  wp (UNLOCK;; mret (rc, no_objects (W := W))) w (fun '(rc, o) w' => advances w0 w' /\
    ((rc = BC_OK /\ opened w0 o w') \/ (rc <> BC_OK /\ not_opened path w0 o w'))).
Proof.
  intros Hok Hq Hi Hmi Hm Hrc Ha HQ. eapply wp_as_update; [by apply (unlock_update 1)|].
  apply wp_set_global; [done|done|done|]. intros w1 Hok1 Ha1 Ho1 Hq1 Hg1 Hv1. apply wp_ret.
  split; [by eapply advances_trans|]. right. split; [done|]. apply HQ; [|done|done].
  unfold closed. rewrite Hg1. cbn. rewrite bool_decide_eq_false_2 by done.
  split_and!; [done|congruence|done|done].
Qed.

Context `{Hna : !Sodium}.

(** The transport is the BLE stub, when there is memory for it. *)
Lemma wp_ble_create w (Q : option (box (bc_transport W)) -> W -> Prop) :
  heap_ok w ->
  (forall r w', acquired (opt_blocks (fun t => {[addr t]}) r) w w' ->
     get_ffi w' = get_ffi w -> dbv (E := E) w' = dbv w ->
     (forall t, r = Some t -> contents t = ble_vtable) -> Q r w') ->
  wp bc_transport_ble_create w Q.
Proof.
  intros Hok HQ. unfold bc_transport_ble_create.
  apply (wp_frame (fun w => (get_ffi w, dbv (E := E) w))).
  { apply quiet_frames. solve_quiet. }
  apply wp_bind, wp_alloc; [done| |].
  - intros w1 _ Hb1. apply wp_ret. intros [= Hg Hv]. by apply HQ; [apply acquired_nil| | |].
  - intros b w1 Ha1. apply wp_ret. intros [= Hg Hv]. apply HQ; [done|done|done|].
    by intros t [= <-].
Qed.

Lemma opened_api w0 w1 w2 w3 w' st ctx tr :
  storage_open (E := E) (dbv w0) st ctx w' -> owned w1 = owned w0 ->
  acquired (storage_blocks st ctx) w1 w2 -> acquired (opt_blocks (fun t => {[addr t]}) tr) w2 w3 ->
  owned w' = owned w3 -> (forall t, tr = Some t -> contents t = ble_vtable) ->
  api_open (owned w0) (dbv w0) (mkObjects tr (Some st) None None) ctx w'.
Proof.
  intros Hso Ho1 (_ & Ho2 & Hd2 & _) (_ & Ho3 & Hd3 & _) Ho' Htr.
  rewrite Ho2 in Hd3, Ho3. rewrite Ho3 in Ho'. rewrite Ho1 in *.
  unfold api_open, object_blocks, adapter_blocks. cbn [o_storage o_transport o_router o_discovery opt_blocks].
  split; [by exists st|]. split; [intros t Ht; by rewrite (Htr t Ht)|]. split; [done|]. split; [done|].
  clear -Hd2 Hd3 Ho'. split_and!; [set_solver..|]. rewrite Ho'. set_solver.
Qed.

(** From a closed library, [bitchat_init] opens it or leaves it closed. *)
Lemma wp_init path w :
  closed w -> wp (bitchat_init (E := E) mutex_init_rc (Some path) no_objects) w (fun '(rc, o) w' =>
    advances w w' /\ ((rc = BC_OK /\ opened w o w') \/ (rc <> BC_OK /\ not_opened path w o w'))).
Proof.
  intros Hcl. unfold bitchat_init. apply wp_ensure_mutex; [done| |].
  { intros Hcl'. apply wp_ret. split; [apply advances_refl|]. right. split; [done|].
    split; [done|]. split; [done|]. split; [done|by left]. }
  intros w1 (Hok1 & Hq1 & Hi1 & Hm1) Hmi1 Ha1 Ho1 Hv1.
  rewrite bool_decide_eq_false_2 in Hm1 by done. rewrite bool_decide_eq_false_2 by (intros H; by apply H).
  eapply wp_as_update; [by apply (lock_update 0)|]. apply wp_set_global; [done|done|done|].
  intros w2 Hok2 Ha2 Ho2 Hq2 Hg2 Hv2. apply wp_bind, wp_ffi_get.
  assert (Ha02 : advances w w2) by by eapply advances_trans.
  rewrite Hg2. cbn [initialized set_mutex]. rewrite bool_decide_eq_false_2 by (intros H; by apply H).
  case_bool_decide as Hcr.
  { apply (wp_init_fails path); try done; try (rewrite Hg2; done); [congruence|].
    intros w' Hcl' Ho' Hv'. split; [done|]. split; [done|]. split; [congruence|left; congruence]. }
  apply wp_bind. apply (wp_frame get_ffi); [apply sqlite_create_ffi|].
  eapply wp_mono; [by apply (wp_sqlite_create (E := E))|]. intros [st|] w3 Hcr3 Hg3.
  2: { destruct Hcr3 as [Hb3 Hleak]. assert (Hok3 : heap_ok w3) by by eauto with bitchat.
       apply (wp_init_fails path); try done; try (rewrite Hg3, Hg2; done).
       - unfold queue in *. rewrite Hg3. congruence.
       - eapply advances_trans; [done|apply Hb3].
       - intros w' Hcl' Ho' Hv'. assert (Ho3 : owned w3 = owned w2) by apply Hb3.
         split; [done|]. split; [done|]. split; [congruence|].
         rewrite Hv', <- Hv1, <- Hv2. destruct Hleak; [by left|]. right. by exists (get_sql w2). }
  destruct (sqlite_created_open _ _ _ _ Hcr3) as (ctx & Hso & Ha3 & Hctx & Hrows).
  assert (Hok3 : heap_ok w3) by by eauto with bitchat.
  apply wp_bind, wp_ble_create; [done|]. intros tr w4 Ha4 Hg4 Hv4 Htr.
  assert (Hok4 : heap_ok w4) by by eauto with bitchat.
  apply wp_set_global; [done|done|done|]. intros w5 Hok5 Ha5 Ho5 Hq5 Hg5 Hv5.
  eapply wp_as_update; [apply (unlock_update 1); [by rewrite Hg5, Hg4, Hg3, Hg2|done]|].
  apply wp_set_global; [done|done|done|]. intros w6 Hok6 Ha6 Ho6 Hq6 Hg6 Hv6. apply wp_ret.
  split.
  { eapply advances_trans; [done|]. eapply advances_trans; [apply Ha3|].
    eapply advances_trans; [apply Ha4|]. by eapply advances_trans. }
  left. split; [done|]. split; [by rewrite Hg6, Hg5|]. split; [by rewrite Hg6|].
  split; [done|]. split; [done|]. split; [intros t Ht; by apply Htr|].
  assert (Hv36 : dbv (E := E) w6 = dbv w3) by congruence.
  assert (Hv02 : dbv (E := E) w2 = dbv w) by congruence. rewrite Hv02 in Hso.
  exists ctx. rewrite Hv36. split; [|split; [done|]].
  - eapply (opened_api w w2 w3 w4); try done; [by eapply storage_open_ext|congruence|congruence].
  - unfold rows_of in *. by rewrite Hv36, Hrows, Hv02.
Qed.
End shutdown.

(** ** The session *)

Section session.
Context {W E : Type} `{!HasOS W} `{I : !WorldInv W} `{!HasSql W E, !Sqlite E, !SqliteSpec E, !SqlFree W E}.
Context `{!HasFfi W, !FfiWorld W, !FfiSql W E} `{Hna : !Sodium} `{!SodiumSpec _}.
Context (call_user : Z -> list Z -> list Z -> Z -> M W unit) `{Huser : !UserSafe call_user}.
Context (Huser_db : forall f s p n, untouched (dbv (E := E)) (call_user f s p n)).
Implicit Types (w : W) (o : g_objects W).

(** While the library is initialized the adapter with context [c] is in use and
    the engine's handles are those of [v1]. *)
Definition engaged (c : sqlite_ctx) (v1 : db_view) : W -> Prop := Session.session (E := E) c v1 (fun _ => True).

Lemma engaged_set_os c v1 os w : engaged c v1 (set_os os w) <-> engaged c v1 w.
Proof. by apply session_set_os. Qed.

Definition in_session c v1 : WorldInv W := strengthen I (engaged c v1) (engaged_set_os c v1).

Lemma in_session_sql c v1 : @SqlWorld W E _ (in_session c v1) _ _ c.
Proof. by apply session_sql_world. Qed.

Lemma in_session_ffi c v1 : @FfiWorld W _ (in_session c v1) _.
Proof.
  split.
  - intros w [Hw _]. by apply ffi_world_ok.
  - intros g w [Hw Hu] Hg. split; [by apply ffi_world_set|].
    unfold engaged, Session.session in *. by rewrite dbv_set_ffi.
  - apply (ffi_world_held (WorldInv0 := I)).
  - apply (ffi_world_evolves (WorldInv0 := I)).
Qed.

Lemma in_session_user c v1 : @UserSafe W _ (in_session c v1) _ call_user.
Proof.
  intros f s p n w Hok Hs Hp Hn Hl. destruct (weaken_heap _ _ _ _ Hok) as [HokI Hu].
  apply (wp_frame (dbv (E := E))); [apply Huser_db|].
  eapply wp_mono; [by apply (user_safe (WorldInv0 := I))|]. intros _ w' [Hb Hg] Hv.
  split; [|done]. apply strengthen_balanced; [done|].
  unfold engaged, Session.session in *. by rewrite Hv.
Qed.

(** An opened library is ready for use. *)
Lemma opened_inv w0 o ctx w :
  heap_ok w -> opened w0 o w -> api_open (owned w0) (dbv (E := E) w0) o ctx w ->
  ctx_ok (contents ctx) (dbv (E := E) w) -> Forall row_wf (rows_of (E := E) w) ->
  @ffi_inv W _ (in_session (contents ctx) (dbv w)) _ Hna call_user 0 (adapter_blocks o ctx ∪ owned w0) o w.
Proof.
  intros Hok (Hinit & Hm & Hr & Hd & Ht & _) ((st & Hst & Hso) & _ & _ & _ & _ & Hdis & _ & Hown) Hctx Hrows.
  set (S := in_session (contents ctx) (dbv w)).
  split; [apply strengthen_heap; [done|]; by split|]. split; [done|]. split; [done|].
  split; [|split; [exact Hown|exact Hdis]].
  assert (Hcs : contents st = sqlite_storage (E := E) (addr st) ctx) by apply Hso.
  split; [split|].
  - intros t Htt. rewrite (Ht t Htt). apply ble_safe.
  - intros s. rewrite Hst, <- (inj_iff Some). intros [= <-]. rewrite Hcs.
    by apply (@sqlite_safe W E _ S _ _ _ (contents ctx) (in_session_sql _ _)).
  - rewrite Hr, Hd. by split_and!.
Qed.

(** After its use the library is open, over a database with the same handles. *)
Lemma reopened w0 o ctx w o' w' :
  api_open (owned w0) (dbv (E := E) w0) o ctx w -> same_handles (dbv (E := E) w) (dbv (E := E) w') ->
  same_adapters o o' -> (forall b, o_router o' = Some b -> addr b <> addr (dedup_table (contents b))) ->
  opt_blocks router_blocks (o_router o') ## opt_blocks disc_blocks (o_discovery o') ->
  owned w' = object_blocks o' ∪ (adapter_blocks o ctx ∪ owned w0) ->
  object_blocks o' ## adapter_blocks o ctx ∪ owned w0 ->
  exists v1, same_handles (dbv (E := E) w0) v1 /\ api_open (owned w0) v1 o' ctx w'.
Proof.
  intros ((st & Hst & Hso) & Htr & _ & _ & Hd2 & _ & Hd4 & _) Hh [Ht' Hs'] Hr Hrd Hown Hdis.
  destruct (storage_open_used _ _ _ _ _ Hso Hh) as (v1 & Hsame & Hso').
  exists v1. split; [done|]. unfold api_open, adapter_blocks. rewrite Hs', Ht'.
  split; [by exists st|]. split; [done|]. split; [done|]. split; [done|]. by split_and!.
Qed.

Lemma stays_open w0 o ctx w o' w' :
  api_open (owned w0) (dbv (E := E) w0) o ctx w ->
  @stays W _ (in_session (contents ctx) (dbv w)) _ Hna call_user (adapter_blocks o ctx ∪ owned w0) o w o' w' ->
  heap_ok w' /\ initialized (get_ffi w') <> 0 /\ g_mutex (get_ffi w') = MutexReady 0 /\
  exists v1, same_handles (dbv (E := E) w0) v1 /\ api_open (owned w0) v1 o' ctx w'.
Proof.
  intros Hao (Hi' & _ & Hsa). destruct Hi' as (Hok' & Hinit & Hm & (_ & Hr & _ & Hrd) & Hown & Hdis).
  destruct (weaken_heap _ _ _ _ Hok') as [HokI (_ & Hh & _)].
  split; [done|]. split; [done|]. split; [done|].
  eapply reopened; [done|done|done| |done|done|done]. intros b Hb. apply (Hr b Hb).
Qed.

(** The whole life of the library. *)
Definition api_session (mutex_init_rc : W -> Z) (path : string) (cs : list api_call)
    : M W (Z * g_objects W) :=
  '(rc, o) ← bitchat_init (E := E) mutex_init_rc (Some path) no_objects;
  if bool_decide (rc = BC_OK) then
    o ← run_calls call_user cs o;
    o ← bitchat_shutdown o;
    mret (BC_OK, o)
  else mret (rc, o).

(** C24: Nothing outlives the library: from the program's start, or after an
    earlier session, and over a database whose rows have the shape the adapter
    writes ([row_wf]; a shorter blob would be read out of bounds),
    [bitchat_init], any sequence of calls with NULL or well-sized buffers and
    [bitchat_shutdown] are all defined and return; afterwards every block
    allocated on the way is freed, queued messages included, every statement
    and connection of the database is closed, the callback is unregistered, the
    secret key overwritten with zeros, the mutex destroyed, and the library can
    be initialized again.  When [bitchat_init] fails the library is closed at
    once, no block is lost and the database engine is as before, unless
    [sqlite3_open_v2] on the given path itself failed and handed out a
    connection, which then stays open. *)
Theorem api_session_restores mutex_init_rc path cs w :
  closed w -> Forall row_wf (rows_of (E := E) w) -> Forall call_ok cs ->
  wp (api_session mutex_init_rc path cs) w (fun '(rc, o) w' =>
    o = no_objects /\ closed w' /\ owned w' = owned w /\
    if bool_decide (rc = BC_OK)
    then same_handles (dbv (E := E) w) (dbv (E := E) w') /\ user_callback (get_ffi w') = None /\
      secret_key (g_identity (get_ffi w')) = replicate 32 0 /\ g_mutex (get_ffi w') = MutexDestroyed
    else not_opened (E := E) path w o w').
Proof.
  intros Hcl Hrows Hcs. unfold api_session. apply wp_bind.
  eapply wp_mono; [by apply (wp_init (E := E))|]. intros [rc o] w1 (Ha1 & [[-> Hop]|[Hrc Hno]]).
  2: { rewrite bool_decide_eq_false_2 by done. apply wp_ret. rewrite bool_decide_eq_false_2 by done.
       assert (Hno' := Hno). destruct Hno' as (-> & Hcl' & Ho' & _). done. }
  rewrite bool_decide_eq_true_2 by done. assert (Hok1 : heap_ok w1) by (eapply advances_heap_ok; [done|apply Hcl]).
  assert (Hop' := Hop). destruct Hop' as (_ & _ & _ & _ & _ & ctx & Hao & Hctx & Hr1).
  assert (Hinv := opened_inv w o ctx w1 Hok1 Hop Hao Hctx ltac:(by rewrite Hr1)).
  apply wp_bind.
  eapply wp_mono; [apply (@wp_run_calls W _ _ _ (in_session_ffi (contents ctx) (dbv w1)) Hna _ call_user
    (in_session_user (contents ctx) (dbv w1)) cs (adapter_blocks o ctx ∪ owned w) o w1);
    [exact Hinv|done]|].
  intros o2 w2 Hst. destruct (stays_open w o ctx w1 o2 w2 Hao Hst) as (Hok2 & Hi2 & Hm2 & v1 & Hsame & Hao2).
  apply wp_bind. eapply wp_mono; [by apply (wp_api_shutdown (E := E) (owned w) v1 o2 ctx)|].
  intros o3 w3 [Hsd Hok3]. apply wp_ret. assert (Hcl3 := shut_down_closed _ _ _ _ _ Hsd Hok3).
  destruct Hsd as (-> & _ & Ho3 & _ & Hv3 & _ & Hc3 & Hsec & Hmx & _).
  split; [done|]. split; [done|]. split; [done|]. rewrite bool_decide_eq_true_2 by done.
  rewrite Hv3. by split_and!.
Qed.
End session.

(** ** Witnesses *)

#[local] Existing Instance toy_sodium.
#[local] Instance app_free : ExtInv app_state := app_inv (fun _ => True).
#[local] Instance app_free_ffi : FfiWorld (world app_state) := app_ffi_world _.
#[local] Instance app_free_sql : SqlFree (world app_state) db_view.
Proof. split; [by intros x w [Hq [_ Hf]]|done|intros x w; cbn; reflexivity]. Qed.
#[local] Instance app_apart : FfiSql (world app_state) db_view.
Proof. by split. Qed.
#[local] Instance quiet_app_safe : UserSafe quiet_app.
Proof. intros f s p n w Hok _ _ _ _. by apply wp_ret. Qed.

(** The program's start, and a session with every call. *)
Definition started : world app_state := demo_world 5 [] (mkApp empty_db g_state0).
Definition session_calls : list api_call :=
  [ApiGenerate (Some (replicate 32 0)) None; ApiDiscover;
   ApiSend (Some (replicate 32 4)) (Some demo_text); ApiTick;
   ApiSetCallback (Some 4096); ApiPoll (Some (replicate 10 0)) (Some 0) None].

Lemma started_closed : closed started.
Proof.
  assert (Hq : inbox_queue g_state0 = []) by reflexivity.
  split; [|split; [exact Hq|split; [done|done]]].
  apply demo_world_ok; [constructor| |unfold ext_held; cbn; unfold inbox_blocks; by rewrite Hq].
  split; [done|]. split; [split_and!; try done; lia|]. split; [done|].
  split; apply (bool_decide_unpack _); vm_compute; exact I.
Qed.

Lemma api_session_restores_witness :
  wp (api_session quiet_app (fun _ => 0) "/data/bitchat.db" session_calls) started (fun '(rc, o) w' =>
    o = no_objects /\ closed w' /\ owned w' = owned started /\
    if bool_decide (rc = BC_OK)
    then same_handles (dbv started) (dbv w') /\ user_callback (get_ffi w') = None /\
      secret_key (g_identity (get_ffi w')) = replicate 32 0 /\ g_mutex (get_ffi w') = MutexDestroyed
    else not_opened "/data/bitchat.db" started o w').
Proof.
  apply (api_session_restores quiet_app ltac:(by intros f s p n w a w' [= _ <-]) (fun _ => 0)
           "/data/bitchat.db" session_calls started).
  - exact started_closed.
  - constructor.
  - repeat constructor; try discriminate; try intros b Hb; simplify_eq;
      apply (bool_decide_unpack _); vm_compute; exact I.
Defined.

(** Such a session succeeds: it ends with [BC_OK], and nothing is live. *)
Example api_session_runs :
  match api_session quiet_app (fun _ => 0) "/data/bitchat.db"
          [ApiGenerate None None; ApiSetCallback (Some 4096)] started with
  | Val (rc, _, w) => rc = BC_OK /\ os_live (get_os w) = ∅
  | _ => False
  end.
Proof. vm_compute. by split. Qed.
