(* ===== verification/Jvm.v ===== *)
(** * Jvm: the Java virtual machine as native code sees it

    The virtual machine is code outside the repository.  [Jvm] is the part of
    the JNI that [bitchat_jni.c] calls, as operations on a machine state of
    unknown type ([None]: the call is undefined); [JvmSpec] states what the JNI
    specification says of them, on a view of that state: whether the current
    thread is attached, whether an exception is pending, the live references,
    the buffers handed out and not given back, and the calls made into Java so
    far.  With an exception pending only the functions that release or delete
    something, or that deal with the exception, may be called.  [toy_jvm] is an
    instance. *)
From stdpp Require Import strings.
From S2P Require Import Prelude Effects.

Definition JNI_OK : Z := 0.
Definition JNI_EDETACHED : Z := -2.

(** What a local reference denotes. *)
Inductive jobj : Type :=
| JBytes (l : list Z)      (* a byte[] *)
| JString (s : string)
| JObject.

Record jvm_view : Type := mkJvm {
  v_attached : bool;
  v_pending : bool;                             (* an exception is pending *)
  v_locals : gmap Z jobj;
  v_globals : gset Z;
  v_methods : gset Z;                           (* method ids *)
  v_pins : gset Z;                              (* buffers handed out *)
  v_roomy : bool;                               (* memory never runs out *)
  v_calls : list (Z * Z * list Z * list Z)      (* object, method, arguments *)
}.

Definition set_attached (b : bool) (v : jvm_view) : jvm_view :=
  mkJvm b (v_pending v) (v_locals v) (v_globals v) (v_methods v) (v_pins v) (v_roomy v) (v_calls v).
Definition set_pending (b : bool) (v : jvm_view) : jvm_view :=
  mkJvm (v_attached v) b (v_locals v) (v_globals v) (v_methods v) (v_pins v) (v_roomy v) (v_calls v).
Definition set_locals (l : gmap Z jobj) (v : jvm_view) : jvm_view :=
  mkJvm (v_attached v) (v_pending v) l (v_globals v) (v_methods v) (v_pins v) (v_roomy v) (v_calls v).
Definition set_globals (g : gset Z) (v : jvm_view) : jvm_view :=
  mkJvm (v_attached v) (v_pending v) (v_locals v) g (v_methods v) (v_pins v) (v_roomy v) (v_calls v).
Definition set_methods (m : gset Z) (v : jvm_view) : jvm_view :=
  mkJvm (v_attached v) (v_pending v) (v_locals v) (v_globals v) m (v_pins v) (v_roomy v) (v_calls v).
Definition set_pins (p : gset Z) (v : jvm_view) : jvm_view :=
  mkJvm (v_attached v) (v_pending v) (v_locals v) (v_globals v) (v_methods v) p (v_roomy v) (v_calls v).
Definition set_calls (c : list (Z * Z * list Z * list Z)) (v : jvm_view) : jvm_view :=
  mkJvm (v_attached v) (v_pending v) (v_locals v) (v_globals v) (v_methods v) (v_pins v) (v_roomy v) c.

(** What Java code cannot change about an object: its kind, and a length. *)
Inductive jshape : Type := SBytes (n : Z) | SString (s : string) | SObject.
Definition shape (x : jobj) : jshape :=
  match x with JBytes l => SBytes (zlen l) | JString s => SString s | JObject => SObject end.

(** The arrays hold bytes. *)
Definition jobj_ok (x : jobj) : Prop := match x with JBytes l => bytes_ok l | _ => True end.
Definition locals_ok (m : gmap Z jobj) : Prop := map_Forall (fun _ x => jobj_ok x) m.

(** The current thread may call any function. *)
Definition callable (v : jvm_view) : Prop := v_attached v = true /\ v_pending v = false.

Class Jvm (J : Type) : Type := {
  jv : J -> jvm_view;
  jvm_GetEnv : J -> Z;
  jvm_Attach : J -> Z * J;
  jvm_Detach : J -> option J;
  jvm_NewByteArray : Z -> J -> option (option Z * J);
  jvm_SetByteArrayRegion : Z -> Z -> Z -> list Z -> J -> option J;
  jvm_GetArrayLength : Z -> J -> option Z;
  (* the buffer and its bytes *)
  jvm_GetByteArrayElements : Z -> J -> option (option (Z * list Z) * J);
  (* with JNI_ABORT: nothing is copied back *)
  jvm_ReleaseByteArrayElements : Z -> Z -> J -> option J;
  jvm_GetStringUTFChars : Z -> J -> option (option (Z * string) * J);
  jvm_ReleaseStringUTFChars : Z -> Z -> J -> option J;
  jvm_NewGlobalRef : Z -> J -> option (option Z * J);
  jvm_DeleteGlobalRef : Z -> J -> option J;
  jvm_DeleteLocalRef : Z -> J -> option J;
  jvm_GetObjectClass : Z -> J -> option (Z * J);
  jvm_GetMethodID : Z -> string -> string -> J -> option (option Z * J);
  jvm_CallVoidMethod : Z -> Z -> Z -> Z -> J -> option J;
  jvm_ExceptionCheck : J -> bool;
  jvm_ExceptionClear : J -> J
}.

(** A Java method ran: arrays may have been written to, an exception may be
    pending, and the call is on record. *)
Definition called (g m : Z) (l1 l2 : list Z) (v v' : jvm_view) : Prop :=
  v_attached v' = v_attached v /\ v_globals v' = v_globals v /\ v_methods v' = v_methods v /\
  v_pins v' = v_pins v /\ v_roomy v' = v_roomy v /\ v_calls v' = v_calls v ++ [(g, m, l1, l2)] /\
  shape <$> v_locals v' = shape <$> v_locals v /\ (locals_ok (v_locals v) -> locals_ok (v_locals v')).

(** A buffer was handed out, or there was no memory. *)
Definition handed_out {A} (data : A) (r : option (Z * A)) (v v' : jvm_view) : Prop :=
  match r with
  | Some (p, d) => (p ∉ v_pins v) /\ d = data /\ v' = set_pins ({[p]} ∪ v_pins v) v
  | None => v_roomy v = false /\ v' = set_pending true v
  end.

Class JvmSpec (J : Type) `{!Jvm J} : Prop := {
  get_env_spec : forall j, jvm_GetEnv j = if v_attached (jv j) then JNI_OK else JNI_EDETACHED;
  attach_spec : forall j rc j', jvm_Attach j = (rc, j') -> v_attached (jv j) = false ->
    (rc = JNI_OK /\ jv j' = set_attached true (jv j)) \/ (rc <> JNI_OK /\ jv j' = jv j);
  detach_spec : forall j, v_attached (jv j) = true ->
    exists j', jvm_Detach j = Some j' /\ jv j' = set_attached false (jv j);
  new_array_spec : forall n j, callable (jv j) -> 0 <= n ->
    exists r j', jvm_NewByteArray n j = Some (r, j') /\
      match r with
      | Some a => (v_locals (jv j) !! a = None) /\
          jv j' = set_locals (<[a := JBytes (replicate (Z.to_nat n) 0)]> (v_locals (jv j))) (jv j)
      | None => v_roomy (jv j) = false /\ jv j' = set_pending true (jv j)
      end;
  set_region_spec : forall a off len data l j, callable (jv j) ->
    v_locals (jv j) !! a = Some (JBytes l) -> 0 <= off -> 0 <= len -> off + len <= zlen l -> len <= zlen data ->
    exists j', jvm_SetByteArrayRegion a off len data j = Some j' /\
      jv j' = set_locals (<[a := JBytes (take (Z.to_nat off) l ++ take (Z.to_nat len) data ++
                                         drop (Z.to_nat (off + len)) l)]> (v_locals (jv j))) (jv j);
  array_length_spec : forall a l j, callable (jv j) -> v_locals (jv j) !! a = Some (JBytes l) ->
    jvm_GetArrayLength a j = Some (zlen l);
  get_elements_spec : forall a l j, callable (jv j) -> v_locals (jv j) !! a = Some (JBytes l) ->
    exists r j', jvm_GetByteArrayElements a j = Some (r, j') /\ handed_out l r (jv j) (jv j');
  release_elements_spec : forall a p j, v_attached (jv j) = true -> p ∈ v_pins (jv j) ->
    exists j', jvm_ReleaseByteArrayElements a p j = Some j' /\
      jv j' = set_pins (v_pins (jv j) ∖ {[p]}) (jv j);
  get_chars_spec : forall a s j, callable (jv j) -> v_locals (jv j) !! a = Some (JString s) ->
    exists r j', jvm_GetStringUTFChars a j = Some (r, j') /\ handed_out s r (jv j) (jv j');
  release_chars_spec : forall a p j, v_attached (jv j) = true -> p ∈ v_pins (jv j) ->
    exists j', jvm_ReleaseStringUTFChars a p j = Some j' /\
      jv j' = set_pins (v_pins (jv j) ∖ {[p]}) (jv j);
  new_global_spec : forall a j, callable (jv j) -> is_Some (v_locals (jv j) !! a) ->
    exists r j', jvm_NewGlobalRef a j = Some (r, j') /\
      match r with
      | Some g => (g ∉ v_globals (jv j)) /\ jv j' = set_globals ({[g]} ∪ v_globals (jv j)) (jv j)
      | None => v_roomy (jv j) = false /\ exists b, jv j' = set_pending b (jv j)
      end;
  delete_global_spec : forall g j, v_attached (jv j) = true -> g ∈ v_globals (jv j) ->
    exists j', jvm_DeleteGlobalRef g j = Some j' /\ jv j' = set_globals (v_globals (jv j) ∖ {[g]}) (jv j);
  delete_local_spec : forall a j, v_attached (jv j) = true -> is_Some (v_locals (jv j) !! a) ->
    exists j', jvm_DeleteLocalRef a j = Some j' /\ jv j' = set_locals (delete a (v_locals (jv j))) (jv j);
  get_class_spec : forall a j, callable (jv j) -> is_Some (v_locals (jv j) !! a) ->
    exists c j', jvm_GetObjectClass a j = Some (c, j') /\ (v_locals (jv j) !! c = None) /\
      jv j' = set_locals (<[c := JObject]> (v_locals (jv j))) (jv j);
  get_method_spec : forall c name sig j, callable (jv j) -> is_Some (v_locals (jv j) !! c) ->
    exists r j', jvm_GetMethodID c name sig j = Some (r, j') /\
      match r with
      | Some m => jv j' = set_methods ({[m]} ∪ v_methods (jv j)) (jv j)
      | None => jv j' = set_pending true (jv j)
      end;
  call_void_spec : forall g m a1 a2 l1 l2 j, callable (jv j) -> g ∈ v_globals (jv j) ->
    m ∈ v_methods (jv j) -> v_locals (jv j) !! a1 = Some (JBytes l1) ->
    v_locals (jv j) !! a2 = Some (JBytes l2) ->
    exists j', jvm_CallVoidMethod g m a1 a2 j = Some j' /\ called g m l1 l2 (jv j) (jv j');
  exception_check_spec : forall j, jvm_ExceptionCheck j = v_pending (jv j);
  exception_clear_spec : forall j, jv (jvm_ExceptionClear j) = set_pending false (jv j);
  (* not to be called while an exception is pending *)
  pending_undefined : forall j, v_pending (jv j) = true ->
    (forall n, jvm_NewByteArray n j = None) /\ (forall a, jvm_GetByteArrayElements a j = None)
}.

(** ** An instance *)

(** The state is its view; a new reference is the least number not in use.  A
    machine that is not roomy fails every allocation, and [throws] says whether
    the listener throws. *)
Section toy.
Context (throws : bool).

Definition guard {A} (P : Prop) `{!Decision P} (x : A) : option A := if bool_decide P then Some x else None.

#[local] Instance callable_dec v : Decision (callable v).
Proof. unfold callable. apply _. Defined.

Definition pin {A} (data : A) (v : jvm_view) : option (Z * A) * jvm_view :=
  if v_roomy v then let p := fresh (v_pins v) in (Some (p, data), set_pins ({[p]} ∪ v_pins v) v)
  else (None, set_pending true v).

Definition toy_jvm : Jvm jvm_view := {|
  jv v := v;
  jvm_GetEnv v := if v_attached v then JNI_OK else JNI_EDETACHED;
  jvm_Attach v := (JNI_OK, set_attached true v);
  jvm_Detach v := guard (v_attached v = true) (set_attached false v);
  jvm_NewByteArray n v := guard (callable v /\ 0 <= n)
    (if v_roomy v then let a := fresh (dom (v_locals v)) in
       (Some a, set_locals (<[a := JBytes (replicate (Z.to_nat n) 0)]> (v_locals v)) v)
     else (None, set_pending true v));
  jvm_SetByteArrayRegion a off len data v :=
    match v_locals v !! a with
    | Some (JBytes l) => guard (callable v /\ 0 <= off /\ 0 <= len /\ off + len <= zlen l /\ len <= zlen data)
        (set_locals (<[a := JBytes (take (Z.to_nat off) l ++ take (Z.to_nat len) data ++
                                    drop (Z.to_nat (off + len)) l)]> (v_locals v)) v)
    | _ => None
    end;
  jvm_GetArrayLength a v :=
    match v_locals v !! a with Some (JBytes l) => guard (callable v) (zlen l) | _ => None end;
  jvm_GetByteArrayElements a v :=
    match v_locals v !! a with Some (JBytes l) => guard (callable v) (pin l v) | _ => None end;
  jvm_ReleaseByteArrayElements a p v :=
    guard (v_attached v = true /\ p ∈ v_pins v) (set_pins (v_pins v ∖ {[p]}) v);
  jvm_GetStringUTFChars a v :=
    match v_locals v !! a with Some (JString s) => guard (callable v) (pin s v) | _ => None end;
  jvm_ReleaseStringUTFChars a p v :=
    guard (v_attached v = true /\ p ∈ v_pins v) (set_pins (v_pins v ∖ {[p]}) v);
  jvm_NewGlobalRef a v := guard (callable v /\ is_Some (v_locals v !! a))
    (if v_roomy v then let g := fresh (v_globals v) in (Some g, set_globals ({[g]} ∪ v_globals v) v)
     else (None, v));
  jvm_DeleteGlobalRef g v :=
    guard (v_attached v = true /\ g ∈ v_globals v) (set_globals (v_globals v ∖ {[g]}) v);
  jvm_DeleteLocalRef a v :=
    guard (v_attached v = true /\ is_Some (v_locals v !! a)) (set_locals (delete a (v_locals v)) v);
  jvm_GetObjectClass a v := guard (callable v /\ is_Some (v_locals v !! a))
    (let c := fresh (dom (v_locals v)) in (c, set_locals (<[c := JObject]> (v_locals v)) v));
  jvm_GetMethodID c name sig v := guard (callable v /\ is_Some (v_locals v !! c))
    (if bool_decide (name = "onMessageReceived" /\ sig = "([B[B)V")
     then (Some 1, set_methods ({[1]} ∪ v_methods v) v) else (None, set_pending true v));
  jvm_CallVoidMethod g m a1 a2 v :=
    match v_locals v !! a1, v_locals v !! a2 with
    | Some (JBytes l1), Some (JBytes l2) =>
        guard (callable v /\ g ∈ v_globals v /\ m ∈ v_methods v)
          (set_pending throws (set_calls (v_calls v ++ [(g, m, l1, l2)]) v))
    | _, _ => None
    end;
  jvm_ExceptionCheck v := v_pending v;
  jvm_ExceptionClear v := set_pending false v
|}.

Lemma guard_true {A} (P : Prop) `{!Decision P} (x : A) : P -> guard P x = Some x.
Proof. intros H. unfold guard. by rewrite bool_decide_eq_true_2. Qed.

Lemma pin_spec {A} (data : A) v : let '(r, v') := pin data v in handed_out data r v v'.
Proof.
  unfold pin. destruct (v_roomy v) eqn:Hr; [|done]. split; [apply is_fresh|done].
Qed.

Lemma fresh_local v : v_locals v !! fresh (dom (v_locals v)) = None.
Proof. apply not_elem_of_dom, is_fresh. Qed.

Lemma toy_jvm_spec : @JvmSpec jvm_view toy_jvm.
Proof.
  split; cbn; intros.
  - done.
  - simplify_eq. by left.
  - rewrite guard_true by done. eauto.
  - rewrite guard_true by done. destruct (v_roomy j) eqn:Hr; do 2 eexists; split; try done.
    split; [apply fresh_local|done].
  - rewrite H0, guard_true by done. eauto.
  - by rewrite H0, guard_true.
  - rewrite H0, guard_true by done. assert (Hp := pin_spec l j). destruct (pin l j). eauto.
  - rewrite guard_true by done. eauto.
  - rewrite H0, guard_true by done. assert (Hp := pin_spec s j). destruct (pin s j). eauto.
  - rewrite guard_true by done. eauto.
  - rewrite guard_true by done. destruct (v_roomy j) eqn:Hr; do 2 eexists; split; try done.
    + split; [apply is_fresh|done].
    + split; [done|]. exists false. destruct j, H as [_ H]. cbn in H. by subst.
  - rewrite guard_true by done. eauto.
  - rewrite guard_true by done. eauto.
  - rewrite guard_true by done. do 2 eexists. split; [done|]. split; [apply fresh_local|done].
  - rewrite guard_true by done. case_bool_decide; do 2 eexists; split; done.
  - rewrite H2, H3, guard_true by done. eexists. split; [done|]. by unfold called; cbn.
  - done.
  - done.
  - assert (Hn : ~ callable j) by (intros [_ Hp]; congruence). unfold guard.
    split; [intros n; by rewrite bool_decide_eq_false_2 by tauto|].
    intros a. destruct (v_locals j !! a) as [[]|]; [|done|done|done]. by rewrite bool_decide_eq_false_2.
Qed.
End toy.
