(* ===== verification/Jni.v ===== *)
(** * Jni: the Android bridge

    Models [src/bridge/bitchat_jni.c].  Its static variables and the virtual
    machine are one state ([jni_state]).  The code that only talks to the
    machine (the delivery callback, the handling of the listener, the load and
    unload hooks) is a computation on that state; the native methods combine
    such computations, run in the world ([on_jni]), with the functions of the C
    API.

    [g_listener_mutex] is a default mutex: a thread that locks it twice
    deadlocks or worse, so locking it while it is held is undefined, as is
    unlocking it while it is free.  Each native method runs to its end before
    the next one starts; Java code that runs inside [CallVoidMethod] does not
    call native methods, as the header of the C API demands of callbacks. *)
From stdpp Require Import strings.
From S2P Require Import Prelude Effects Errors Sodium Message Peer Ports Identity CryptoManager.
From S2P Require Import Discovery Sqlite SqliteStorage Dedup Router Ffi Jvm.

Definition JNI_VERSION_1_6 : Z := 65542.

(** The static variables, and the machine. *)
Record jni_state (J : Type) : Type := mkJni {
  g_jvm : bool;                        (* is the JavaVM pointer set? *)
  g_listener_mutex : bool;             (* is it held? *)
  g_listener_ref : option Z;
  g_on_message_method : option Z;
  jvm : J
}.
Arguments mkJni {J}.
Arguments g_jvm {J}.
Arguments g_listener_mutex {J}.
Arguments g_listener_ref {J}.
Arguments g_on_message_method {J}.
Arguments jvm {J}.

Section globals.
Context {J : Type}.

Definition set_g_jvm (b : bool) (s : jni_state J) : jni_state J :=
  mkJni b (g_listener_mutex s) (g_listener_ref s) (g_on_message_method s) (jvm s).
Definition set_listener_mutex (b : bool) (s : jni_state J) : jni_state J :=
  mkJni (g_jvm s) b (g_listener_ref s) (g_on_message_method s) (jvm s).
Definition set_listener_ref (r : option Z) (s : jni_state J) : jni_state J :=
  mkJni (g_jvm s) (g_listener_mutex s) r (g_on_message_method s) (jvm s).
Definition set_method (m : option Z) (s : jni_state J) : jni_state J :=
  mkJni (g_jvm s) (g_listener_mutex s) (g_listener_ref s) m (jvm s).
Definition set_jvm (j : J) (s : jni_state J) : jni_state J :=
  mkJni (g_jvm s) (g_listener_mutex s) (g_listener_ref s) (g_on_message_method s) j.
End globals.

(** ** Code that talks to the machine *)

Section machine.
Context {J : Type} `{!Jvm J}.

Definition jni_get : M (jni_state J) (jni_state J) := fun s => Val (s, s).
Definition jni_set (f : jni_state J -> jni_state J) : M (jni_state J) unit := fun s => Val (tt, f s).

(** A call of the machine. *)
Definition jni {A} (f : J -> option (A * J)) : M (jni_state J) A := fun s =>
  match f (jvm s) with Some (a, j) => Val (a, set_jvm j s) | None => UB end.
Definition jni_ (f : J -> option J) : M (jni_state J) unit := jni (fun j => (fun j' => (tt, j')) <$> f j).

Definition lock_listener : M (jni_state J) unit := fun s =>
  if g_listener_mutex s then UB else Val (tt, set_listener_mutex true s).
Definition unlock_listener : M (jni_state J) unit := fun s =>
  if g_listener_mutex s then Val (tt, set_listener_mutex false s) else UB.

Definition JNI_OnLoad : M (jni_state J) Z := jni_set (set_g_jvm true);; mret JNI_VERSION_1_6.

Definition JNI_OnUnload : M (jni_state J) unit :=
  lock_listener;;
  s ← jni_get;
  match g_listener_ref s with
  | Some r =>
      (if bool_decide (jvm_GetEnv (jvm s) = JNI_OK) then jni_ (jvm_DeleteGlobalRef r) else mret tt);;
      jni_set (set_listener_ref None)
  | None => mret tt
  end;;
  jni_set (set_method None);;
  unlock_listener;;
  jni_set (set_g_jvm false).

(** [ExceptionCheck], and [ExceptionClear] if there is one. *)
Definition clear_exception : M (jni_state J) unit :=
  s ← jni_get;
  if jvm_ExceptionCheck (jvm s) then jni_ (fun j => Some (jvm_ExceptionClear j)) else mret tt.

Definition delete_local (a : option Z) : M (jni_state J) unit :=
  match a with Some a => jni_ (jvm_DeleteLocalRef a) | None => mret tt end.

(** The part of the callback that runs with an environment: hand the message to
    the listener. *)
Definition notify (listener method : Z) (sender payload : list Z) (len : Z) (did_attach : bool)
    : M (jni_state J) unit :=
  j_sender ← jni (jvm_NewByteArray 32);
  j_payload ← jni (jvm_NewByteArray (to_i32 len));
  match j_sender, j_payload with
  | Some a, Some b =>
      jni_ (jvm_SetByteArrayRegion a 0 32 sender);;
      jni_ (jvm_SetByteArrayRegion b 0 (to_i32 len) payload);;
      jni_ (jvm_CallVoidMethod listener method a b);;
      clear_exception
  | _, _ => mret tt
  end;;
  delete_local j_sender;;
  delete_local j_payload;;
  unlock_listener;;
  if did_attach then jni_ jvm_Detach else mret tt.

Definition jni_on_message_callback (sender payload : list Z) (len : Z) : M (jni_state J) unit :=
  s ← jni_get;
  if negb (g_jvm s) then mret tt else
  lock_listener;;
  s ← jni_get;
  match g_listener_ref s, g_on_message_method s with
  | Some listener, Some method =>
      let get_rc := jvm_GetEnv (jvm s) in
      if bool_decide (get_rc = JNI_EDETACHED) then
        rc ← jni (fun j => Some (jvm_Attach j));
        if bool_decide (rc <> JNI_OK) then unlock_listener
        else notify listener method sender payload len true
      else if bool_decide (get_rc <> JNI_OK) then unlock_listener
      else notify listener method sender payload len false
  | _, _ => unlock_listener
  end.

(** Releasing the registered listener, if there is one. *)
Definition release_listener : M (jni_state J) unit :=
  s ← jni_get;
  match g_listener_ref s with
  | Some r =>
      jni_ (jvm_DeleteGlobalRef r);;
      jni_set (set_listener_ref None);;
      jni_set (set_method None)
  | None => mret tt
  end.

(** The locked part of [nativeSetOnMessageCallback]; [Some rc]: the method
    returns [rc] at once. *)
Definition set_listener (listener : option Z) : M (jni_state J) (option Z) :=
  lock_listener;;
  release_listener;;
  match listener with
  | None => unlock_listener;; mret None
  | Some l =>
      r ← jni (jvm_NewGlobalRef l);
      jni_set (set_listener_ref r);;
      match r with
      | None => unlock_listener;; mret (Some BC_ERR_NOMEM)
      | Some r =>
          cls ← jni (jvm_GetObjectClass l);
          method ← jni (jvm_GetMethodID cls "onMessageReceived" "([B[B)V");
          jni_set (set_method method);;
          jni_ (jvm_DeleteLocalRef cls);;
          match method with
          | None =>
              jni_ (jvm_DeleteGlobalRef r);;
              jni_set (set_listener_ref None);;
              clear_exception;;
              unlock_listener;;
              mret (Some BC_ERR_INVALID)
          | Some _ => unlock_listener;; mret None
          end
      end
  end.

(** A new array holding the concatenation of the two buffers' first bytes. *)
Definition new_array2 (first second : list Z) (n : Z) : M (jni_state J) (option Z) :=
  result ← jni (jvm_NewByteArray (to_i32 (32 + n)));
  match result with
  | None => mret None
  | Some a =>
      jni_ (jvm_SetByteArrayRegion a 0 32 first);;
      jni_ (jvm_SetByteArrayRegion a 32 (to_i32 n) second);;
      mret (Some a)
  end.

Definition release_elements (a : Z) (p : option (Z * list Z)) : M (jni_state J) unit :=
  match p with Some (p, _) => jni_ (jvm_ReleaseByteArrayElements a p) | None => mret tt end.
End machine.

(** ** The world *)

(** A world with the bridge's state. *)
Class HasJni (W J : Type) `{!HasOS W, !HasFfi W} : Type := {
  get_jni : W -> jni_state J;
  set_jni : jni_state J -> W -> W;
  get_set_jni : forall s w, get_jni (set_jni s w) = s;
  set_set_jni : forall s s' w, set_jni s (set_jni s' w) = set_jni s w;
  set_get_jni : forall w, set_jni (get_jni w) w = w;
  get_os_set_jni : forall s w, get_os (set_jni s w) = get_os w;
  get_jni_set_os : forall o w, get_jni (set_os o w) = get_jni w;
  get_ffi_set_jni : forall s w, get_ffi (set_jni s w) = get_ffi w;
  get_jni_set_ffi : forall g w, get_jni (set_ffi g w) = get_jni w;
  inbound_set_jni : forall s w, inbound (set_jni s w) = inbound w
}.

Section natives.
Context {W J E : Type} `{!HasOS W, !HasSql W E, !Sqlite E, !Sodium, !HasFfi W, !Jvm J, !HasJni W J}.

Definition on_jni {A} (m : M (jni_state J) A) : M W A := fun w =>
  match m (get_jni w) with
  | Val (a, s) => Val (a, set_jni s w)
  | UB => UB
  | NoFuel => NoFuel
  end.

(** The C API calls the registered function, and the bridge registers no other
    than its callback. *)
Definition jni_call_user (f : Z) (sender payload : list Z) (len : Z) : M W unit :=
  on_jni (jni_on_message_callback sender payload len).
End natives.

(** ** The native methods of [com.bitchat.core.BitChatCore] *)

Module BitChatCore.
Section methods.
Context {W J E : Type} `{!HasOS W, !HasSql W E, !Sqlite E, Hna : !Sodium, !HasFfi W, !Jvm J, !HasJni W J}.
Context (mutex_init_rc : W -> Z) (callback_address : Z).

Definition init (storage_path : option Z) (o : g_objects W) : M W (Z * g_objects W) :=
  match storage_path with
  | None => mret (BC_ERR_INVALID, o)
  | Some s =>
      path ← on_jni (jni (jvm_GetStringUTFChars s));
      match path with
      | None => mret (BC_ERR_INVALID, o)
      | Some (p, path) =>
          '(rc, o) ← bitchat_init mutex_init_rc (Some path) o;
          on_jni (jni_ (jvm_ReleaseStringUTFChars s p));;
          mret (rc, o)
      end
  end.

Definition generateIdentity (o : g_objects W) : M W (option Z * g_objects W) :=
  pubkey ← stack_buffer 32;
  secret ← stack_buffer 32;
  '(rc, (pubkey, secret), o) ← bitchat_generate_identity jni_call_user (Some pubkey) (Some secret) o;
  if bool_decide (rc <> 0) then mret (None, o) else
  result ← on_jni (new_array2 (default [] pubkey) (default [] secret) 32);
  lift (mem_write (default [] secret) 0 (replicate 32 0));;      (* sodium_memzero *)
  mret (result, o).

Definition loadIdentity (identity_data : option Z) (o : g_objects W) : M W (Z * g_objects W) :=
  match identity_data with
  | None => mret (BC_ERR_INVALID, o)
  | Some a =>
      len ← on_jni (jni (fun j => (fun n => (n, j)) <$> jvm_GetArrayLength a j));
      if bool_decide (len < 64) then mret (BC_ERR_INVALID, o) else
      data ← on_jni (jni (jvm_GetByteArrayElements a));
      match data with
      | None => mret (BC_ERR_INVALID, o)
      | Some (p, bytes) =>
          '(rc, o) ← bitchat_load_identity jni_call_user (Some bytes) len o;
          on_jni (release_elements a data);;
          mret (rc, o)
      end
  end.

Definition sendMessage (recipient plaintext : option Z) (o : g_objects W) : M W (Z * g_objects W) :=
  match recipient, plaintext with
  | Some r, Some t =>
      rcpt_len ← on_jni (jni (fun j => (fun n => (n, j)) <$> jvm_GetArrayLength r j));
      pt_len ← on_jni (jni (fun j => (fun n => (n, j)) <$> jvm_GetArrayLength t j));
      if bool_decide (rcpt_len <> 32 \/ pt_len <= 0) then mret (BC_ERR_INVALID, o) else
      rcpt ← on_jni (jni (jvm_GetByteArrayElements r));
      pt ← on_jni (jni (jvm_GetByteArrayElements t));
      match rcpt, pt with
      | Some (_, rb), Some (_, pb) =>
          '(rc, o) ← bitchat_send_message (Some rb) (Some pb) pt_len o;
          on_jni (release_elements r rcpt);;
          on_jni (release_elements t pt);;
          mret (rc, o)
      | _, _ =>
          on_jni (release_elements r rcpt);;
          on_jni (release_elements t pt);;
          mret (BC_ERR_INVALID, o)
      end
  | _, _ => mret (BC_ERR_INVALID, o)
  end.

Definition pollMessages : M W (option Z) :=
  buf ← stack_buffer 4096;
  sender ← stack_buffer 32;
  '(rc, (buf, msg_len, sender)) ← bitchat_poll_messages (Some buf) 4096 (Some 0) (Some sender);
  let buf := default [] buf in
  let msg_len := default 0 msg_len in
  if bool_decide (rc <> 0 \/ msg_len = 0) then mret None else
  result ← on_jni (new_array2 (default [] sender) buf msg_len);
  lift (mem_write buf 0 (replicate (Z.to_nat msg_len) 0));;      (* sodium_memzero *)
  mret result.

Definition startDiscovery (o : g_objects W) : M W (Z * g_objects W) := bitchat_start_discovery o.

Definition tick (fuel : nat) (o : g_objects W) : M W (g_objects W) := bitchat_tick fuel o.

Definition nativeSetOnMessageCallback (listener : option Z) : M W Z :=
  r ← on_jni (set_listener listener);
  match r with
  | Some rc => mret rc
  | None =>
      bitchat_set_on_message_callback
        (match listener with Some _ => Some callback_address | None => None end)
  end.

Definition shutdown (o : g_objects W) : M W (g_objects W) :=
  on_jni lock_listener;;
  on_jni release_listener;;
  on_jni unlock_listener;;
  bitchat_shutdown o.
End methods.
End BitChatCore.
