(* ===== verification/JniSpec.v ===== *)
(** * JniSpec: what the bridge keeps true of the virtual machine

    [jni_ok]: between two calls of native code the listener's mutex is free, no
    exception is pending, and the registered listener is a live global
    reference.  [frame_of] is what the delivery callback leaves alone: the
    static variables, the references (for arrays: their lengths), the buffers
    handed out.  The callback keeps both, so it is a callback the C API may call
    at any time; the rules for the other pieces of the bridge say exactly what
    they change. *)
From stdpp Require Import strings.
From S2P Require Import Prelude Effects Errors Sodium Message Peer Ports Identity CryptoManager.
From S2P Require Import Discovery Dedup Router RouterSpec Session Ffi FfiSpec FfiApi Jvm Jni.

Section machine.
Context {J : Type} `{!Jvm J, !JvmSpec J}.
Implicit Types s : jni_state J.

Definition jview s : jvm_view := jv (jvm s).

(** The registered listener can be called. *)
Definition listener_ok s : Prop :=
  (forall r, g_listener_ref s = Some r -> r ∈ v_globals (jview s)) /\
  (forall m, g_on_message_method s = Some m -> m ∈ v_methods (jview s)).

(** The state of the machine is in order: its memory does not run out (what
    happens otherwise is the subject of two theorems of its own), no exception
    is pending, and the arrays hold bytes. *)
Definition jvm_ok (v : jvm_view) : Prop :=
  v_roomy v = true /\ v_pending v = false /\ locals_ok (v_locals v).

Definition jni_ok s : Prop := g_listener_mutex s = false /\ jvm_ok (jview s) /\ listener_ok s.

Record frame : Type := mkFrame {
  f_jvm : bool;
  f_listener : option Z;
  f_method : option Z;
  f_attached : bool;
  f_locals : gmap Z jshape;
  f_globals : gset Z;
  f_methods : gset Z;
  f_pins : gset Z
}.

Definition frame_of s : frame :=
  mkFrame (g_jvm s) (g_listener_ref s) (g_on_message_method s) (v_attached (jview s))
    (shape <$> v_locals (jview s)) (v_globals (jview s)) (v_methods (jview s)) (v_pins (jview s)).

(** ** Lemmas: the machine *)

Lemma wp_jni {A} (f : J -> option (A * J)) s a j (Q : A -> jni_state J -> Prop) :
  f (jvm s) = Some (a, j) -> Q a (set_jvm j s) -> wp (jni f) s Q.
Proof. intros Hf HQ. unfold wp, jni. by rewrite Hf. Qed.

Lemma wp_jni_unit (f : J -> option J) s j (Q : unit -> jni_state J -> Prop) :
  f (jvm s) = Some j -> Q tt (set_jvm j s) -> wp (jni_ f) s Q.
Proof. intros Hf HQ. eapply wp_jni; [by rewrite Hf|done]. Qed.

Lemma wp_jni_get s (Q : jni_state J -> jni_state J -> Prop) : Q s s -> wp jni_get s Q.
Proof. done. Qed.

Lemma wp_jni_set f s (Q : unit -> jni_state J -> Prop) : Q tt (f s) -> wp (jni_set f) s Q.
Proof. done. Qed.

Lemma wp_lock_listener s (Q : unit -> jni_state J -> Prop) :
  g_listener_mutex s = false -> Q tt (set_listener_mutex true s) -> wp lock_listener s Q.
Proof. intros Hm HQ. unfold wp, lock_listener. by rewrite Hm. Qed.

Lemma wp_unlock_listener s (Q : unit -> jni_state J -> Prop) :
  g_listener_mutex s = true -> Q tt (set_listener_mutex false s) -> wp unlock_listener s Q.
Proof. intros Hm HQ. unfold wp, unlock_listener. by rewrite Hm. Qed.

Lemma set_pending_id v : v_pending v = false -> set_pending false v = v.
Proof. destruct v. cbn. by intros ->. Qed.

Lemma wp_clear_exception s (Q : unit -> jni_state J -> Prop) :
  (forall j, jv j = set_pending false (jview s) -> Q tt (set_jvm j s)) -> wp clear_exception s Q.
Proof.
  intros HQ. unfold clear_exception. apply wp_bind, wp_jni_get. rewrite exception_check_spec.
  destruct (v_pending (jv (jvm s))) eqn:Hp.
  - eapply wp_jni_unit; [done|]. apply HQ, exception_clear_spec.
  - apply wp_ret. assert (H := HQ (jvm s)). destruct s. apply H. symmetry. by apply set_pending_id.
Qed.

Lemma shape_lookup (m m' : gmap Z jobj) a :
  shape <$> m' = shape <$> m -> is_Some (m !! a) -> is_Some (m' !! a).
Proof.
  intros Hs [x Hx]. assert (H : (shape <$> m') !! a = Some (shape x)) by by rewrite Hs, lookup_fmap, Hx.
  rewrite lookup_fmap in H. destruct (m' !! a); [by eexists|done].
Qed.

Lemma new_array_ok n j :
  callable (jv j) -> v_roomy (jv j) = true -> 0 <= n -> exists a j',
    jvm_NewByteArray n j = Some (Some a, j') /\ v_locals (jv j) !! a = None /\
    jv j' = set_locals (<[a := JBytes (replicate (Z.to_nat n) 0)]> (v_locals (jv j))) (jv j).
Proof.
  intros Hc Hr Hn. destruct (new_array_spec n j Hc Hn) as ([a|] & j' & He & H); [|naive_solver congruence].
  destruct H. by exists a, j'.
Qed.

(** Writing a whole array. *)
Lemma set_region_full a data l j :
  callable (jv j) -> v_locals (jv j) !! a = Some (JBytes l) -> zlen l = zlen data -> exists j',
    jvm_SetByteArrayRegion a 0 (zlen data) data j = Some j' /\
    jv j' = set_locals (<[a := JBytes data]> (v_locals (jv j))) (jv j).
Proof.
  intros Hc Ha Hl. assert (Hn := zlen_nonneg data).
  destruct (set_region_spec a 0 (zlen data) data l j Hc Ha) as (j' & He & Hv); [lia..|].
  exists j'. split; [done|]. rewrite Hv. do 3 f_equal. rewrite Z.add_0_l. unfold zlen in *.
  rewrite Nat2Z.id, firstn_all. rewrite (drop_ge l) by lia. by rewrite take_0, app_nil_r.
Qed.

(** A listener was called with [sender] and [payload], in between everything
    stayed as it was. *)
Definition told (sender payload : list Z) (l m : Z) (v v' : jvm_view) : Prop :=
  v_roomy v' = v_roomy v /\ v_pending v' = false /\ locals_ok (v_locals v') /\
  v_attached v' = v_attached v /\ shape <$> v_locals v' = shape <$> v_locals v /\
  v_globals v' = v_globals v /\ v_methods v' = v_methods v /\ v_pins v' = v_pins v /\
  v_calls v' = v_calls v ++ [(l, m, sender, payload)].

(** The two arrays of a delivery, filled. *)
Definition with_args (a b : Z) (l1 l2 : list Z) (v : jvm_view) : jvm_view :=
  set_locals (<[b := JBytes l2]> (<[a := JBytes l1]> (v_locals v))) v.

Lemma wp_new_args {A} (k : option Z -> option Z -> M (jni_state J) A) n n' s Q :
  jvm_ok (jview s) -> v_attached (jview s) = true -> 0 <= n -> 0 <= n' ->
  (forall a b j, v_locals (jview s) !! a = None -> v_locals (jview s) !! b = None -> a <> b ->
     jv j = with_args a b (replicate (Z.to_nat n) 0) (replicate (Z.to_nat n') 0) (jview s) ->
     wp (k (Some a) (Some b)) (set_jvm j s) Q) ->
  wp (x ← jni (jvm_NewByteArray n); y ← jni (jvm_NewByteArray n'); k x y) s Q.
Proof.
  intros (Hr & Hp & Hlo) Hatt Hn Hn' HQ. destruct s as [gj mx lr mt j].
  unfold jview in *. cbn [jvm set_jvm] in *.
  destruct (new_array_ok n j ltac:(done) Hr Hn) as (a & j1 & He1 & Hf1 & Hv1).
  apply wp_bind. eapply wp_jni; [exact He1|]. cbn [set_jvm jvm].
  destruct (new_array_ok n' j1) as (b & j2 & He2 & Hf2 & Hv2); [by rewrite Hv1..|done|].
  apply wp_bind. eapply wp_jni; [exact He2|]. rewrite Hv1 in Hf2, Hv2. cbn in Hf2, Hv2.
  apply lookup_insert_None in Hf2 as [Hf2 Hab]. by apply (HQ a b).
Qed.

Lemma wp_fill_args {A} a b l1 l2 z1 z2 v (k : M (jni_state J) A) s Q :
  jview s = with_args a b z1 z2 v -> callable v -> a <> b -> zlen z1 = zlen l1 -> zlen z2 = zlen l2 ->
  (forall j, jv j = with_args a b l1 l2 v -> wp k (set_jvm j s) Q) ->
  wp (jni_ (jvm_SetByteArrayRegion a 0 (zlen l1) l1);;
      jni_ (jvm_SetByteArrayRegion b 0 (zlen l2) l2);; k) s Q.
Proof.
  intros Hs Hc Hab Hl1 Hl2 HQ. destruct s as [gj mx lr mt j]. unfold jview in *. cbn [jvm set_jvm] in *.
  destruct (set_region_full a l1 z1 j) as (j3 & He3 & Hv3);
    [by rewrite Hs|rewrite Hs; cbn; rewrite lookup_insert_ne by done; apply lookup_insert_eq|done|].
  apply wp_bind. eapply wp_jni_unit; [exact He3|]. rewrite Hs in Hv3. cbn in Hv3. apply wp_bind.
  destruct (set_region_full b l2 z2 j3) as (j4 & He4 & Hv4);
    [by rewrite Hv3|rewrite Hv3; cbn; rewrite lookup_insert_ne by done; apply lookup_insert_eq|done|].
  eapply wp_jni_unit; [exact He4|]. apply HQ. rewrite Hv4, Hv3.
  unfold with_args, set_locals. cbn. f_equal. rewrite (insert_insert_ne _ a b) by done.
  by rewrite !insert_insert_eq.
Qed.

(** Deleting them again. *)
Lemma wp_delete_args {A} a b (k : M (jni_state J) A) s Q :
  v_attached (jview s) = true -> is_Some (v_locals (jview s) !! a) -> is_Some (v_locals (jview s) !! b) ->
  a <> b ->
  (forall j, jv j = set_locals (delete b (delete a (v_locals (jview s)))) (jview s) ->
     wp k (set_jvm j s) Q) ->
  wp (delete_local (Some a);; delete_local (Some b);; k) s Q.
Proof.
  intros Hatt Ha Hb Hab HQ. destruct s as [gj mx lr mt j]. unfold jview in *. cbn [jvm set_jvm] in *.
  destruct (delete_local_spec a j Hatt Ha) as (j1 & He1 & Hv1).
  apply wp_bind. eapply wp_jni_unit; [exact He1|].
  destruct (delete_local_spec b j1) as (j2 & He2 & Hv2);
    [by rewrite Hv1|rewrite Hv1; cbn; by rewrite lookup_delete_ne|].
  apply wp_bind. eapply wp_jni_unit; [exact He2|]. apply HQ. by rewrite Hv2, Hv1.
Qed.

Lemma told_called l m sender payload a b v v5 :
  v_locals v !! a = None -> v_locals v !! b = None -> a <> b -> bytes_ok sender -> bytes_ok payload ->
  locals_ok (v_locals v) -> called l m sender payload (with_args a b sender payload v) v5 ->
  told sender payload l m v
    (set_locals (delete b (delete a (v_locals v5))) (set_pending false v5)).
Proof.
  intros Ha Hb Hab Hs Hp Hlo (H1 & H2 & H3 & H4 & H5 & H6 & H7 & H8). unfold told. cbn in *.
  split_and!; try done.
  - unfold locals_ok in *. do 2 apply map_Forall_delete. apply H8. by repeat apply map_Forall_insert_2.
  - rewrite !fmap_delete, H7, !fmap_insert. rewrite (delete_insert_ne _ a b) by done.
    rewrite (delete_insert_id _ a) by by rewrite lookup_fmap, Ha.
    by rewrite delete_insert_id by by rewrite lookup_fmap, Hb.
Qed.

Lemma wp_notify_listener l m sender payload did_attach s (Q : unit -> jni_state J -> Prop) :
  jvm_ok (jview s) -> v_attached (jview s) = true -> l ∈ v_globals (jview s) -> m ∈ v_methods (jview s) ->
  g_listener_mutex s = true -> bytes_n 32 sender -> bytes_ok payload -> zlen payload < 2 ^ 31 ->
  (forall v' j, told sender payload l m (jview s) v' -> jv j = set_attached (negb did_attach) v' ->
     Q tt (set_listener_mutex false (set_jvm j s))) ->
  wp (notify l m sender payload (zlen payload) did_attach) s Q.
Proof.
  intros Hok Hatt Hl Hm Hmx [Hsl Hsb] Hpb H31 HQ. unfold notify. assert (Hn := zlen_nonneg payload).
  rewrite to_i32_id by lia. assert (Hsz : zlen sender = 32) by zlen_lia.
  assert (Hc : callable (jview s)) by (split; [done|apply Hok]).
  apply wp_new_args; [done|done|lia|lia|]. intros a b j2 Ha Hb Hab Hv2.
  apply wp_bind. rewrite <- Hsz at 1.
  eapply (wp_fill_args a b); [exact Hv2|done|done|unfold zlen in *; rewrite length_replicate; lia..|].
  intros j4 Hv4. apply wp_bind.
  destruct (call_void_spec l m a b sender payload j4) as (j5 & He5 & Hcall); [rewrite Hv4; cbn..|].
  { done. } { done. } { done. }
  { rewrite lookup_insert_ne by done. apply lookup_insert_eq. } { apply lookup_insert_eq. }
  eapply wp_jni_unit; [exact He5|]. rewrite Hv4 in Hcall.
  apply wp_clear_exception. intros j6 Hv6. unfold jview in Hv6. cbn [jvm set_jvm] in Hv6.
  assert (Hsome : forall i, is_Some (v_locals (with_args a b sender payload (jview s)) !! i) ->
    is_Some (v_locals (jv j6) !! i)).
  { intros i Hi. rewrite Hv6. cbn. eapply shape_lookup; [apply Hcall|done]. }
  assert (Hatt6 : v_attached (jv j6) = true) by (rewrite Hv6; destruct Hcall as (H1 & _); cbn; by rewrite H1).
  apply wp_delete_args; unfold jview; cbn [jvm set_jvm]; [done| | |done|].
  { apply Hsome. cbn. rewrite lookup_insert_ne by done. rewrite lookup_insert_eq. by eexists. }
  { apply Hsome. cbn. rewrite lookup_insert_eq. by eexists. }
  intros j7 Hv7. rewrite Hv6 in Hv7. cbn in Hv7. apply wp_bind, wp_unlock_listener; [done|].
  assert (Htold := told_called l m sender payload a b _ _ Ha Hb Hab Hsb Hpb (proj2 (proj2 Hok)) Hcall).
  destruct did_attach.
  - destruct (detach_spec j7) as (j8 & He8 & Hv8); [rewrite Hv7; by rewrite Hv6 in Hatt6|].
    eapply wp_jni_unit; [exact He8|]. eapply (HQ _ j8); [exact Htold|]. by rewrite Hv8, Hv7.
  - apply wp_ret. eapply (HQ _ j7); [exact Htold|]. rewrite Hv7. rewrite Hv6 in Hatt6. cbn in Hatt6.
    unfold set_attached, set_locals, set_pending. cbn. by rewrite Hatt6.
Qed.
(** ** Lemmas: the delivery callback *)

(** The call a delivery makes: to the registered listener, if the library is
    loaded and there is one. *)
Definition deliveries (sender payload : list Z) s : list (Z * Z * list Z * list Z) :=
  match g_jvm s, g_listener_ref s, g_on_message_method s with
  | true, Some l, Some m => [(l, m, sender, payload)]
  | _, _, _ => []
  end.

(** The thread is one of the machine's, or the machine lets it attach itself. *)
Definition enters s : bool :=
  v_attached (jview s) || bool_decide (fst (jvm_Attach (jvm s)) = JNI_OK).

Definition listener_told (sender payload : list Z) s s' : Prop :=
  v_calls (jview s') = v_calls (jview s) ++ if enters s then deliveries sender payload s else [].

(** The state after the callback ran. *)
Definition unchanged s s' : Prop := jni_ok s' /\ frame_of s' = frame_of s.

(** Locking and unlocking changes nothing. *)
Lemma unchanged_relock s j :
  jni_ok s -> jv j = jview s -> unchanged s (set_listener_mutex false (set_jvm j (set_listener_mutex true s))).
Proof.
  intros (Hm & Hv & Hl) Hj. destruct s as [gj mx lr mt j0]. unfold unchanged, frame_of, jni_ok, listener_ok, jview in *.
  cbn in *. rewrite Hj. split; [|done]. split; [done|]. by split.
Qed.

Lemma unchanged_told sender payload l m s v' j :
  jni_ok s -> told sender payload l m (jview s) v' ->
  jv j = set_attached (v_attached (jview s)) v' -> unchanged s (set_listener_mutex false (set_jvm j s)).
Proof.
  intros (Hm & (Hr & Hp & Hlo) & Hl1 & Hl2) (H1 & H2 & H3 & H4 & H5 & H6 & H7 & H8 & H9) Hj.
  unfold unchanged, frame_of, jni_ok, jvm_ok, listener_ok, jview in *. cbn in *. rewrite Hj. cbn.
  rewrite H1, H5, H6, H7, H8. split; [|done]. split; [done|]. by split_and!.
Qed.

Lemma wp_callback sender payload s :
  jni_ok s -> bytes_n 32 sender -> bytes_ok payload -> zlen payload < 2 ^ 31 ->
  wp (jni_on_message_callback sender payload (zlen payload)) s (fun _ s' =>
    unchanged s s' /\ listener_told sender payload s s').
Proof.
  intros Hok Hs Hp H31. assert (Hok' := Hok). destruct Hok' as (Hm & Hv & Hl1 & Hl2).
  unfold jni_on_message_callback. apply wp_bind, wp_jni_get.
  unfold listener_told, deliveries. destruct (g_jvm s) eqn:Hj; cbn [negb].
  2: { apply wp_ret. split; [done|]. by destruct (enters s); rewrite app_nil_r. }
  apply wp_bind, wp_lock_listener; [done|]. apply wp_bind, wp_jni_get.
  set (s1 := set_listener_mutex true s). change (g_listener_ref s1) with (g_listener_ref s).
  change (g_on_message_method s1) with (g_on_message_method s). change (jvm s1) with (jvm s).
  assert (Hnone : wp unlock_listener s1 (fun _ s' => unchanged s s' /\ v_calls (jview s') = v_calls (jview s))).
  { apply wp_unlock_listener; [done|]. split; [|done].
    assert (H := unchanged_relock s (jvm s) Hok eq_refl). by destruct s. }
  destruct (g_listener_ref s) as [l|] eqn:Hlr.
  2: { eapply wp_mono; [exact Hnone|]. intros _ s' [Hu Hc]. split; [done|]. by destruct (enters s); rewrite app_nil_r. }
  destruct (g_on_message_method s) as [m|] eqn:Hmt.
  2: { eapply wp_mono; [exact Hnone|]. intros _ s' [Hu Hc]. split; [done|]. by destruct (enters s); rewrite app_nil_r. }
  rewrite get_env_spec. unfold enters. fold (jview s). destruct (v_attached (jview s)) eqn:Hatt.
  - rewrite bool_decide_eq_false_2 by done. rewrite bool_decide_eq_false_2 by (intros H; by apply H).
    apply wp_notify_listener; try done; [by apply Hl1|by apply Hl2|].
    intros v' j Ht Hjv. split.
    + assert (H := unchanged_told sender payload l m s v' j Hok Ht). rewrite Hatt in H. specialize (H Hjv).
      by destruct s.
    + unfold jview at 1. cbn. rewrite Hjv. apply Ht.
  - rewrite bool_decide_eq_true_2 by done. apply wp_bind.
    destruct (jvm_Attach (jvm s)) as [rc j1] eqn:Hat. cbn [fst orb].
    eapply wp_jni; [change (jvm s1) with (jvm s); by rewrite Hat|].
    destruct (attach_spec _ _ _ Hat Hatt) as [[-> Hj1]|[Hrc Hj1]].
    + rewrite bool_decide_eq_false_2 by (intros H; by apply H).
      apply wp_notify_listener; try done; unfold jview; cbn [jvm set_jvm]; try (rewrite Hj1; try done; try apply Hv);
        [by apply Hl1|by apply Hl2|].
      intros v' j Ht Hjv. split.
      * assert (Ht' : told sender payload l m (jview s) (set_attached false v')).
        { destruct Ht as (H1 & H2 & H3 & H4 & H5 & H6 & H7 & H8 & H9). unfold told. cbn. by split_and!. }
        assert (H := unchanged_told sender payload l m s _ j Hok Ht'). rewrite Hatt in H.
        specialize (H Hjv). by destruct s.
      * cbn. rewrite Hjv. apply Ht.
    + rewrite bool_decide_eq_true_2 by done. apply wp_unlock_listener; [done|]. split.
      * by apply unchanged_relock.
      * rewrite bool_decide_eq_false_2 by done. unfold jview at 1. cbn. by rewrite Hj1, app_nil_r.
Qed.
(** ** Lemmas: the listener *)

(** The global reference the bridge holds, and those of others. *)
Definition own s : gset Z := match g_listener_ref s with Some r => {[r]} | None => ∅ end.
Definition others s : gset Z := v_globals (jview s) ∖ own s.

(** The listener changed, and nothing else. *)
Definition rewired s s' : Prop :=
  jni_ok s' /\ g_jvm s' = g_jvm s /\ others s' = others s /\
  v_attached (jview s') = v_attached (jview s) /\ v_locals (jview s') = v_locals (jview s) /\
  v_pins (jview s') = v_pins (jview s) /\ v_calls (jview s') = v_calls (jview s).

Lemma set_globals_id v : set_globals (v_globals v ∖ ∅) v = v.
Proof. destruct v. unfold set_globals. cbn. by rewrite difference_empty_L. Qed.

Lemma wp_release_listener {A} (k : M (jni_state J) A) s Q :
  v_attached (jview s) = true -> listener_ok s ->
  (forall mt j, (forall m, mt = Some m -> m ∈ v_methods (jview s)) ->
     jv j = set_globals (others s) (jview s) ->
     wp k (mkJni (g_jvm s) (g_listener_mutex s) None mt j) Q) ->
  wp (release_listener;; k) s Q.
Proof.
  intros Hatt [Hl1 Hl2] HQ. destruct s as [gj mx lr mt j]. unfold others, own, jview in *. cbn in *.
  apply wp_bind. unfold release_listener. apply wp_bind, wp_jni_get. cbn [g_listener_ref].
  destruct lr as [r|].
  - destruct (delete_global_spec r j Hatt) as (j1 & He & Hv); [by apply Hl1|].
    apply wp_bind. eapply wp_jni_unit; [exact He|]. by apply wp_bind, wp_jni_set, wp_jni_set, HQ.
  - apply wp_ret, HQ; [done|]. by rewrite set_globals_id.
Qed.

Lemma rewired_intro s lr mt j :
  jni_ok s -> jvm_ok (jv j) ->
  (forall r, lr = Some r -> r ∈ v_globals (jv j)) -> (forall m, mt = Some m -> m ∈ v_methods (jv j)) ->
  v_globals (jv j) ∖ (match lr with Some r => {[r]} | None => ∅ end) = others s ->
  v_attached (jv j) = v_attached (jview s) -> v_locals (jv j) = v_locals (jview s) ->
  v_pins (jv j) = v_pins (jview s) -> v_calls (jv j) = v_calls (jview s) ->
  rewired s (mkJni (g_jvm s) false lr mt j).
Proof. intros. split; [split; [done|]; by split|]. by split_and!. Qed.

(** Results of registering a listener: registered, or not one. *)
Definition registered (listener : option Z) s (r : option Z) s' : Prop :=
  match listener with
  | None => r = None /\ g_listener_ref s' = None
  | Some _ =>
      (r = None /\ exists g m, g_listener_ref s' = Some g /\ (g ∉ others s) /\ g_on_message_method s' = Some m) \/
      (r = Some BC_ERR_INVALID /\ g_listener_ref s' = None)
  end.

Lemma wp_set_listener listener s :
  jni_ok s -> v_attached (jview s) = true ->
  (forall l, listener = Some l -> is_Some (v_locals (jview s) !! l)) ->
  wp (set_listener listener) s (fun r s' => rewired s s' /\ registered listener s r s').
Proof.
  intros Hok Hatt Hl. assert (Hok' := Hok). destruct Hok' as (Hm & (Hr & Hp & Hlo) & Hlok). unfold set_listener.
  apply wp_bind, wp_lock_listener; [done|]. apply wp_release_listener; [done|done|].
  intros mt j1 Hmt Hv1. change (others (set_listener_mutex true s)) with (others s) in Hv1.
  change (jview (set_listener_mutex true s)) with (jview s) in *. cbn [g_jvm set_listener_mutex g_listener_mutex].
  destruct listener as [l|].
  2: { apply wp_bind, wp_unlock_listener; [done|]. apply wp_ret.
       split; [|done]. apply (rewired_intro s None mt j1); rewrite ?Hv1; try done. apply difference_empty_L. }
  specialize (Hl l eq_refl).
  destruct (new_global_spec l j1) as ([g|] & j2 & He2 & Hg); [by rewrite Hv1|by rewrite Hv1|..].
  2: { exfalso. rewrite Hv1 in Hg. cbn in Hg. destruct Hg. congruence. }
  destruct Hg as [Hfresh Hv2]. rewrite Hv1 in Hfresh, Hv2. cbn in Hfresh, Hv2.
  apply wp_bind. eapply wp_jni; [exact He2|]. apply wp_bind, wp_jni_set.
  destruct (get_class_spec l j2) as (c & j3 & He3 & Hc & Hv3); [by rewrite Hv2|by rewrite Hv2|].
  apply wp_bind. eapply wp_jni; [exact He3|]. rewrite Hv2 in Hc, Hv3. cbn in Hc, Hv3.
  destruct (get_method_spec c "onMessageReceived" "([B[B)V" j3) as (m & j4 & He4 & Hv4);
    [by rewrite Hv3|rewrite Hv3; cbn; rewrite lookup_insert_eq; by eexists|].
  apply wp_bind. eapply wp_jni; [exact He4|]. apply wp_bind, wp_jni_set.
  assert (Hv4' : v_attached (jv j4) = true /\ v_locals (jv j4) = <[c:=JObject]> (v_locals (jview s)) /\
    v_globals (jv j4) = {[g]} ∪ others s /\ v_pins (jv j4) = v_pins (jview s) /\
    v_roomy (jv j4) = true /\ v_calls (jv j4) = v_calls (jview s))
    by (destruct m as [m|]; rewrite Hv4, Hv3; cbn; by split_and!).
  destruct Hv4' as (Hat4 & Hlo4 & Hg4 & Hp4 & Hr4 & Hca4).
  destruct (delete_local_spec c j4 Hat4) as (j5 & He5 & Hv5);
    [rewrite Hlo4, lookup_insert_eq; by eexists|].
  apply wp_bind. eapply wp_jni_unit; [exact He5|].
  rewrite Hlo4, delete_insert_id in Hv5 by done.
  assert (Hot : ({[g]} ∪ others s) ∖ {[g]} = others s) by (clear -Hfresh; set_solver).
  destruct m as [m|].
  - apply wp_bind, wp_unlock_listener; [done|]. apply wp_ret. split.
    + apply (rewired_intro s (Some g) (Some m) j5); rewrite ?Hv5; cbn; rewrite ?Hg4; try done.
      * split; [done|]. split; [by rewrite Hv4, Hv3|done].
      * intros ? [= <-]. clear. set_solver.
      * intros ? [= <-]. rewrite Hv4. cbn. clear. set_solver.
      * congruence.
    + left. split; [done|]. by exists g, m.
  - apply wp_bind. destruct (delete_global_spec g j5) as (j6 & He6 & Hv6);
      [by rewrite Hv5|rewrite Hv5; cbn; rewrite Hg4; clear; set_solver|].
    eapply wp_jni_unit; [exact He6|]. apply wp_bind, wp_jni_set. apply wp_bind, wp_clear_exception.
    intros j7 Hv7. unfold jview in Hv7. cbn in Hv7. rewrite Hv6, Hv5 in Hv7. cbn in Hv7. rewrite Hg4, Hot in Hv7.
    apply wp_bind, wp_unlock_listener; [done|]. apply wp_ret. split; [|by right].
    apply (rewired_intro s None None j7); rewrite ?Hv7; cbn; try done; [apply difference_empty_L|congruence].
Qed.
(** ** Lemmas: arrays *)

Lemma wp_array_length a l s (Q : Z -> jni_state J -> Prop) :
  callable (jview s) -> v_locals (jview s) !! a = Some (JBytes l) -> Q (zlen l) s ->
  wp (jni (fun j => (fun n => (n, j)) <$> jvm_GetArrayLength a j)) s Q.
Proof.
  intros Hc Ha HQ. eapply wp_jni; [by rewrite (array_length_spec a l)|]. by destruct s.
Qed.

Lemma wp_get_elements a l s (Q : option (Z * list Z) -> jni_state J -> Prop) :
  v_roomy (jview s) = true -> callable (jview s) -> v_locals (jview s) !! a = Some (JBytes l) ->
  (forall p j, p ∉ v_pins (jview s) -> jv j = set_pins ({[p]} ∪ v_pins (jview s)) (jview s) ->
     Q (Some (p, l)) (set_jvm j s)) -> wp (jni (jvm_GetByteArrayElements a)) s Q.
Proof.
  intros Hr Hc Ha HQ. destruct (get_elements_spec a l (jvm s) Hc Ha) as ([[p d]|] & j & He & H); cbn in H.
  - destruct H as (Hp & -> & Hv). eapply wp_jni; [exact He|]. by apply HQ.
  - destruct H as [H _]. unfold jview in Hr. congruence.
Qed.

Lemma wp_release_elements a p l s (Q : unit -> jni_state J -> Prop) :
  v_attached (jview s) = true -> p ∈ v_pins (jview s) ->
  (forall j, jv j = set_pins (v_pins (jview s) ∖ {[p]}) (jview s) -> Q tt (set_jvm j s)) ->
  wp (release_elements a (Some (p, l))) s Q.
Proof.
  intros Hatt Hp HQ. destruct (release_elements_spec a p (jvm s) Hatt Hp) as (j & He & Hv).
  eapply wp_jni_unit; [exact He|]. by apply HQ.
Qed.

(** A new array with two parts. *)
Lemma wp_new_array2 l1 l2 n s (Q : option Z -> jni_state J -> Prop) :
  jvm_ok (jview s) -> v_attached (jview s) = true -> zlen l1 = 32 -> 0 <= n <= zlen l2 -> 32 + n < 2 ^ 31 ->
  (forall a j, v_locals (jview s) !! a = None ->
     jv j = set_locals (<[a := JBytes (l1 ++ take (Z.to_nat n) l2)]> (v_locals (jview s))) (jview s) ->
     Q (Some a) (set_jvm j s)) -> wp (new_array2 l1 l2 n) s Q.
Proof.
  intros (Hr & Hp & _) Hatt Hl1 Hn H31 HQ. unfold new_array2. rewrite !to_i32_id by lia.
  destruct s as [gj mx lr mt j]. unfold jview in *. cbn [jvm set_jvm] in *.
  destruct (new_array_ok (32 + n) j ltac:(done) Hr ltac:(lia)) as (a & j1 & He1 & Hf1 & Hv1).
  apply wp_bind. eapply wp_jni; [exact He1|].
  destruct (set_region_spec a 0 32 l1 (replicate (Z.to_nat (32 + n)) 0) j1) as (j2 & He2 & Hv2);
    [by rewrite Hv1|rewrite Hv1; apply lookup_insert_eq|lia|lia|unfold zlen; rewrite length_replicate; lia|lia|].
  apply wp_bind. eapply wp_jni_unit; [exact He2|]. rewrite Hv1 in Hv2. cbn [v_locals set_locals] in Hv2.
  rewrite insert_insert_eq in Hv2.
  assert (Ht : take (Z.to_nat 32) l1 = l1) by (apply take_ge; zlen_lia). rewrite Ht in Hv2.
  set (z := take (Z.to_nat 0) _ ++ l1 ++ _) in Hv2.
  assert (Hz : z = l1 ++ replicate (Z.to_nat n) 0).
  { unfold z. change (Z.to_nat 0) with 0%nat. rewrite take_0. cbn [app]. f_equal.
    rewrite drop_replicate. f_equal. lia. }
  destruct (set_region_spec a 32 n l2 z j2) as (j3 & He3 & Hv3);
    [by rewrite Hv2|rewrite Hv2; apply lookup_insert_eq|lia|lia|
     rewrite Hz, zlen_app, Hl1; unfold zlen; rewrite length_replicate; lia|lia|].
  apply wp_bind. eapply wp_jni_unit; [exact He3|]. apply wp_ret, HQ; [done|]. rewrite Hv3, Hv2.
  unfold set_locals. cbn. rewrite insert_insert_eq. do 3 f_equal. rewrite Hz.
  assert (Hl : length l1 = 32%nat) by zlen_lia.
  rewrite (take_app_length' l1) by lia. f_equal. rewrite drop_ge; [apply app_nil_r|].
  rewrite length_app, length_replicate. lia.
Qed.
End machine.
