(* ===== verification/JniApi.v ===== *)
(** * JniApi: the native methods keep the bridge's invariant

    While a native method runs the C API, the delivery callback may be called;
    it leaves [frame_of] alone, so for every frame [f] the worlds at that frame
    ([at_frame f]) are worlds in which the rules of the C API hold.  A native
    method moves from frame to frame: it takes and gives back buffers, adds the
    array it returns, replaces the listener. *)
From stdpp Require Import strings.
From S2P Require Import Prelude Effects Errors Sodium Message Peer Ports Identity CryptoManager.
From S2P Require Import Sqlite SqliteStorage SqliteStorageSpec SqliteLifecycle.
From S2P Require Import Sealing Discovery Dedup Router RouterSpec Session Ffi FfiSpec FfiApi Jvm Jni JniSpec.

(** The world's invariant does not depend on the bridge's state. *)
Class JniFree (W J : Type) `{!HasOS W, !WorldInv W, !HasFfi W, !HasJni W J} : Prop :=
  world_ok_set_jni : forall s w, world_ok w -> world_ok (set_jni (J := J) s w).

Section frames.
Context {W J : Type} `{!HasOS W} `{I : !WorldInv W} `{!HasFfi W, !FfiWorld W, !Jvm J, !JvmSpec J}.
Context `{!HasJni W J, !JniFree W J} `{Hna : !Sodium}.
Implicit Types (w : W) (o : g_objects W) (s : jni_state J).

(** The bridge's state is in order and at frame [f]. *)
Definition bridge_at (f : frame) w : Prop :=
  jni_ok (get_jni (J := J) w) /\ frame_of (get_jni w) = f.

Lemma bridge_at_set_os f os w : bridge_at f (set_os os w) <-> bridge_at f w.
Proof. unfold bridge_at. by rewrite get_jni_set_os. Qed.

Definition at_frame (f : frame) : WorldInv W := strengthen I (bridge_at f) (bridge_at_set_os f).

Lemma at_frame_ffi f : @FfiWorld W _ (at_frame f) _.
Proof.
  split.
  - intros w [Hw _]. by apply ffi_world_ok.
  - intros g w [Hw Hb] Hg. split; [by apply ffi_world_set|].
    unfold bridge_at in *. by rewrite get_jni_set_ffi.
  - apply (ffi_world_held (WorldInv0 := I)).
  - apply (ffi_world_evolves (WorldInv0 := I)).
Qed.

Lemma set_jni_balanced s w : balanced w (set_jni s w).
Proof.
  assert (Hh : held (set_jni s w) = held w) by by rewrite !ffi_world_held, get_ffi_set_jni.
  split; [split|].
  - unfold advances, heap_shape. rewrite Hh, get_os_set_jni, inbound_set_jni. split_and!; try done.
    apply world_ok_set_jni.
  - apply ffi_world_evolves. by rewrite get_ffi_set_jni.
  - unfold owned. by rewrite Hh, get_os_set_jni.
Qed.

Lemma set_jni_at s w :
  heap_ok w -> jni_ok s -> @heap_ok W _ (at_frame (frame_of s)) (set_jni s w).
Proof.
  intros Hok Hs. apply strengthen_heap.
  - eapply balanced_heap_ok; [apply set_jni_balanced|done].
  - unfold bridge_at. by rewrite get_set_jni.
Qed.

(** Running code of the bridge in the world. *)
Lemma wp_on_jni {A} (m : M (jni_state J) A) w (Q : A -> W -> Prop) :
  wp m (get_jni w) (fun a s => Q a (set_jni s w)) -> wp (on_jni m) w Q.
Proof. unfold wp, on_jni. by destruct (m (get_jni w)) as [[a s]| |]. Qed.

(** The callback is one that the C API may call. *)
Lemma at_frame_user f : @UserSafe W _ (at_frame f) _ (jni_call_user (J := J)).
Proof.
  intros a sender payload n w Hok Hs Hp -> H31. destruct (weaken_heap _ _ _ _ Hok) as [HokI [Hj Hf]].
  apply wp_on_jni. eapply wp_mono; [by apply wp_callback|]. intros _ s' [[Hok' Hf'] _].
  split; [|apply get_ffi_set_jni]. apply strengthen_balanced; [apply set_jni_balanced|].
  unfold bridge_at. rewrite get_set_jni. split; [done|congruence].
Qed.

(** The adapters keep their contracts whatever the frame. *)
Definition adapters_steady o : Prop := forall f, @adapters_safe W _ (at_frame f) o.

(** The invariant of the C API, in a world whose bridge is in order. *)
Definition bridge_inv (base : gset blk) o w : Prop :=
  @ffi_inv W _ (at_frame (frame_of (get_jni w))) _ Hna (jni_call_user (J := J)) 0 base o w /\
  adapters_steady o /\ v_attached (jview (get_jni (J := J) w)) = true.

(** Moving to another frame. *)
Lemma inv_set_jni base o f s w :
  @ffi_inv W _ (at_frame f) _ Hna (jni_call_user (J := J)) 0 base o w -> adapters_steady o -> jni_ok s ->
  @ffi_inv W _ (at_frame (frame_of s)) _ Hna (jni_call_user (J := J)) 0 base o (set_jni s w).
Proof.
  intros (Hok & Hi & Hm & (_ & Hobj) & Hown & Hd) Hst Hs.
  destruct (weaken_heap _ _ _ _ Hok) as [HokI _].
  split; [by apply set_jni_at|]. rewrite get_ffi_set_jni. split; [done|]. split; [done|].
  split; [by split|]. split; [|done]. rewrite <- Hown. apply (set_jni_balanced s w).
Qed.

(** What a function of the C API leaves. *)
Lemma stays_bridge base o f w o' w' :
  @stays W _ (at_frame f) _ Hna (jni_call_user (J := J)) base o w o' w' -> adapters_steady o ->
  bridge_at f w' /\ adapters_steady o' /\
  @ffi_inv W _ (at_frame f) _ Hna (jni_call_user (J := J)) 0 base o' w'.
Proof.
  intros (Hi & _ & Ht & Hs) Hst. assert (Hok := inv_heap_ok _ _ _ _ _ Hi).
  destruct (weaken_heap _ _ _ _ Hok) as [_ Hb]. split; [done|]. split; [|done].
  intros f'. destruct (Hst f') as [H1 H2]. split; [by rewrite Ht|by rewrite Hs].
Qed.

Lemma bridge_inv_at base o f w :
  bridge_at f w -> f_attached f = true -> adapters_steady o ->
  @ffi_inv W _ (at_frame f) _ Hna (jni_call_user (J := J)) 0 base o w -> bridge_inv base o w.
Proof. intros [Hj <-] Hatt Hst Hi. by split. Qed.

(** Changing the frame by [s], seen as a step of the invariant. *)
Lemma bridge_inv_set base o f s w :
  @ffi_inv W _ (at_frame f) _ Hna (jni_call_user (J := J)) 0 base o w -> adapters_steady o ->
  jni_ok s -> v_attached (jview s) = true -> bridge_inv base o (set_jni s w).
Proof.
  intros Hi Hst Hs Hatt. split; [|by rewrite get_set_jni].
  rewrite get_set_jni. by eapply inv_set_jni.
Qed.

Lemma bridge_parts base o w :
  bridge_inv base o w ->
  heap_ok w /\ jni_ok (get_jni (J := J) w) /\ adapters_steady o /\
  v_attached (jview (get_jni (J := J) w)) = true.
Proof.
  intros (Hi & Hst & Hatt). assert (Hok := inv_heap_ok _ _ _ _ _ Hi).
  destruct (weaken_heap _ _ _ _ Hok) as [HokI [Hj _]]. done.
Qed.
End frames.

(** ** Frames *)

Definition f_others (f : frame) : gset Z :=
  f_globals f ∖ match f_listener f with Some r => {[r]} | None => ∅ end.

(** From one call of a native method to the next: the buffers handed out and
    the global references of others are the same, and no local reference is
    lost. *)
Definition frame_grows (f f' : frame) : Prop :=
  f_jvm f' = f_jvm f /\ f_attached f' = f_attached f /\ f_pins f' = f_pins f /\
  f_others f' = f_others f /\ f_locals f ⊆ f_locals f'.

#[export] Instance frame_grows_preorder : PreOrder frame_grows.
Proof.
  split; [by intros f|]. intros f1 f2 f3 (H1 & H2 & H3 & H4 & H5) (H1' & H2' & H3' & H4' & H5').
  unfold frame_grows. split_and!; try congruence. by etrans.
Qed.

Definition with_pins (p : gset Z) (f : frame) : frame :=
  mkFrame (f_jvm f) (f_listener f) (f_method f) (f_attached f) (f_locals f) (f_globals f) (f_methods f) p.

Section pins.
Context {J : Type} `{!Jvm J}.
Implicit Types s : jni_state J.

(** Taking or giving back a buffer. *)
Lemma repinned p j s :
  jni_ok s -> jv j = set_pins p (jview s) ->
  jni_ok (set_jvm j s) /\ frame_of (set_jvm j s) = with_pins p (frame_of s).
Proof.
  intros (Hm & (H1 & H2 & H3) & H4 & H5) Hj.
  unfold jni_ok, jvm_ok, listener_ok, frame_of, with_pins, jview in *. cbn. rewrite Hj. cbn.
  split; [|done]. by split_and!.
Qed.

(** A new array. *)
Lemma relocated a l j s :
  jni_ok s -> v_locals (jview s) !! a = None -> bytes_ok l ->
  jv j = set_locals (<[a := JBytes l]> (v_locals (jview s))) (jview s) ->
  jni_ok (set_jvm j s) /\ frame_grows (frame_of s) (frame_of (set_jvm j s)) /\
  v_locals (jview (set_jvm j s)) = <[a := JBytes l]> (v_locals (jview s)).
Proof.
  intros (Hm & (H1 & H2 & H3) & H4 & H5) Ha Hl Hj.
  unfold jni_ok, jvm_ok, listener_ok, frame_of, frame_grows, f_others, jview in *. cbn. rewrite Hj. cbn.
  split; [|split; [|done]].
  - split; [done|]. split; [|done]. split; [done|]. split; [done|]. by apply map_Forall_insert_2.
  - split_and!; try done. rewrite fmap_insert. apply insert_subseteq. by rewrite lookup_fmap, Ha.
Qed.

(** A change of the listener. *)
Lemma rewired_grows s s' : rewired s s' -> frame_grows (frame_of s) (frame_of s').
Proof.
  intros (_ & H1 & H2 & H3 & H4 & H5 & _). unfold frame_grows, f_others, frame_of. cbn.
  unfold others, own in H2. rewrite H1, H3, H4, H5. by split_and!.
Qed.
End pins.

(** ** The native methods *)

Section methods.
Context {W J : Type} `{!HasOS W} `{I : !WorldInv W} `{!HasFfi W, !FfiWorld W, !Jvm J, !JvmSpec J}.
Context `{!HasJni W J, !JniFree W J} `{Hna : !Sodium} `{!SodiumSpec _}.
Implicit Types (w : W) (o : g_objects W) (s : jni_state J).

Abbreviation cb := (jni_call_user (J := J)).
Abbreviation frame_in w := (frame_of (get_jni (J := J) w)).

(** What every native method leaves. *)
Definition bridge_stays (base : gset blk) o w o' w' : Prop :=
  bridge_inv (J := J) base o' w' /\ frame_grows (frame_in w) (frame_in w') /\
  same_adapters o o' /\ advances w w'.

Lemma bridge_stays_refl base o w : bridge_inv (J := J) base o w -> bridge_stays base o w o w.
Proof. intros Hi. split; [done|]. split; [reflexivity|]. split; [done|apply advances_refl]. Qed.

Lemma bridge_stays_trans base o1 w1 o2 w2 o3 w3 :
  bridge_stays base o1 w1 o2 w2 -> bridge_stays base o2 w2 o3 w3 -> bridge_stays base o1 w1 o3 w3.
Proof.
  intros (_ & Hf & (Ht & Hs) & Ha) (Hi & Hf' & (Ht' & Hs') & Ha'). split; [done|].
  split; [by etrans|]. split; [split; congruence|]. by eapply advances_trans.
Qed.

(** A call of the C API at the current frame. *)
Lemma bridge_call base o w o' w' :
  bridge_inv (J := J) base o w ->
  @stays W _ (at_frame (frame_in w)) _ Hna cb base o w o' w' ->
  bridge_stays base o w o' w' /\ frame_in w' = frame_in w.
Proof.
  intros (Hi & Hst & Hatt) Hs. assert (Hok := inv_heap_ok _ _ _ _ _ Hi).
  destruct (stays_bridge _ _ _ _ _ _ Hs Hst) as (Hb & Hst' & Hi').
  assert (Hf : frame_in w' = frame_in w) by apply Hb. split; [|done]. split; [|split; [by rewrite Hf|]].
  - by eapply bridge_inv_at.
  - destruct Hs as (_ & Ha & Hsa). split; [done|]. by eapply weaken_advances.
Qed.

(** Moving the frame. *)
Lemma bridge_move base o s w :
  bridge_inv base o w -> jni_ok s -> frame_grows (frame_in w) (frame_of s) ->
  bridge_stays base o w o (set_jni s w).
Proof.
  intros (Hi & Hst & Hatt) Hs Hf. split; [|split; [|split; [done|apply set_jni_balanced]]].
  - eapply bridge_inv_set; [done|done|done|]. destruct Hf as (_ & Ha & _). cbn in Ha. congruence.
  - by rewrite get_set_jni.
Qed.

(** Nothing but the set of borrowed buffers changed. *)
Definition pins_only w w' : Prop :=
  exists j P, w' = set_jni (set_jvm j (get_jni (J := J) w)) w /\ jv j = set_pins P (jview (get_jni (J := J) w)).

Lemma pins_only_trans w1 w2 w3 : pins_only w1 w2 -> pins_only w2 w3 -> pins_only w1 w3.
Proof.
  intros (j & P & -> & Hj) (j' & P' & -> & Hj'). exists j', P'. rewrite get_set_jni in *.
  rewrite set_set_jni. split; [by destruct (get_jni w1)|]. unfold jview at 1 in Hj'. cbn in Hj'.
  by rewrite Hj', Hj.
Qed.

(** Borrowing the bytes of an array, and giving them back. *)
Lemma wp_borrow {A} a l (k : option (Z * list Z) -> M W A) base o w Q :
  bridge_inv (J := J) base o w -> v_locals (jview (get_jni (J := J) w)) !! a = Some (JBytes l) ->
  (forall p w1, p ∉ f_pins (frame_in w) -> bridge_inv (J := J) base o w1 ->
     frame_in w1 = with_pins ({[p]} ∪ f_pins (frame_in w)) (frame_in w) ->
     v_locals (jview (get_jni (J := J) w1)) = v_locals (jview (get_jni (J := J) w)) ->
     advances w w1 -> get_ffi w1 = get_ffi w -> pins_only w w1 -> wp (k (Some (p, l))) w1 Q) ->
  wp (x ← on_jni (jni (jvm_GetByteArrayElements a)); k x) w Q.
Proof.
  intros Hi Ha HQ. destruct (bridge_parts _ _ _ Hi) as (Hok & Hj & Hst & Hatt).
  apply wp_bind, wp_on_jni. apply (wp_get_elements a l); [apply Hj|split; [done|apply Hj]|done|].
  intros p j Hp Hv. destruct (repinned _ _ _ Hj Hv) as [Hj' Hf'].
  apply (HQ p); [done| | | |apply set_jni_balanced|apply get_ffi_set_jni|by eexists j, _].
  - eapply bridge_inv_set; [apply Hi|done|done|]. unfold jview. cbn. by rewrite Hv.
  - by rewrite get_set_jni.
  - rewrite get_set_jni. unfold jview at 1. cbn. by rewrite Hv.
Qed.

Lemma wp_give_back {A} a p l (k : M W A) base o w Q :
  bridge_inv (J := J) base o w -> p ∈ f_pins (frame_in w) ->
  (forall w1, bridge_inv (J := J) base o w1 ->
     frame_in w1 = with_pins (f_pins (frame_in w) ∖ {[p]}) (frame_in w) ->
     advances w w1 -> get_ffi w1 = get_ffi w -> pins_only w w1 -> wp k w1 Q) ->
  wp (on_jni (J := J) (release_elements a (Some (p, l)));; k) w Q.
Proof.
  intros Hi Hp HQ. destruct (bridge_parts _ _ _ Hi) as (Hok & Hj & Hst & Hatt).
  apply wp_bind, wp_on_jni. apply wp_release_elements; [done|done|]. intros j Hv.
  destruct (repinned _ _ _ Hj Hv) as [Hj' Hf'].
  apply HQ; [|by rewrite get_set_jni|apply set_jni_balanced|apply get_ffi_set_jni|by eexists j, _].
  eapply bridge_inv_set; [apply Hi|done|done|]. unfold jview. cbn. by rewrite Hv.
Qed.

Lemma wp_length {A} a l (k : Z -> M W A) base o w Q :
  bridge_inv (J := J) base o w -> v_locals (jview (get_jni (J := J) w)) !! a = Some (JBytes l) ->
  wp (k (zlen l)) w Q ->
  wp (n ← on_jni (J := J) (jni (fun j => (fun n => (n, j)) <$> jvm_GetArrayLength a j)); k n) w Q.
Proof.
  intros Hi Ha HQ. destruct (bridge_parts _ _ _ Hi) as (Hok & Hj & Hst & Hatt).
  apply wp_bind, wp_on_jni. apply (wp_array_length a l); [split; [done|apply Hj]|done|].
  by rewrite set_get_jni.
Qed.

Lemma with_pins_id P f : P = f_pins f -> with_pins P f = f.
Proof. intros ->. by destruct f. Qed.

(** Two buffers were borrowed, the text [pb] was sent to [rb] as
    [bitchat_send_message] does, or refused for want of a router, and the
    buffers were given back; nothing else happened. *)
Definition jni_sent o o' (rb pb : list Z) w (rc : Z) w' : Prop :=
  exists w1 w2, pins_only w w1 /\ pins_only w2 w' /\
    match o_router o with
    | None => rc = BC_ERR_INVALID /\ o' = o /\ w2 = w1
    | Some _ => @send_result W _ (at_frame (frame_in w1)) _ Hna o (g_identity (get_ffi w)) rb pb w1 rc o' w2
    end.

Lemma wp_jni_send base o w r t rb pb :
  bridge_inv (J := J) base o w ->
  v_locals (jview (get_jni (J := J) w)) !! r = Some (JBytes rb) ->
  v_locals (jview (get_jni (J := J) w)) !! t = Some (JBytes pb) ->
  zlen pb + BC_NONCE_SIZE + BC_TAG_SIZE < 2 ^ 31 ->
  wp (BitChatCore.sendMessage (J := J) (Some r) (Some t) o) w (fun '(rc, o') w' =>
    bridge_stays base o w o' w' /\ frame_in w' = frame_in w /\
    if bool_decide (zlen rb = 32 /\ 0 < zlen pb) then jni_sent o o' rb pb w rc w'
    else rc = BC_ERR_INVALID /\ o' = o /\ w' = w).
Proof.
  intros Hi Hr Ht Hlen. unfold BitChatCore.sendMessage.
  apply (wp_length r rb _ base o); [done|done|]. apply (wp_length t pb _ base o); [done|done|].
  case_bool_decide as Hbad.
  { apply wp_ret. rewrite bool_decide_eq_false_2 by lia. split; [by apply bridge_stays_refl|done]. }
  rewrite (bool_decide_eq_true_2 (_ /\ _)) by lia.
  assert (Hbytes : bytes_ok rb /\ bytes_ok pb).
  { destruct (bridge_parts _ _ _ Hi) as (_ & (_ & (_ & _ & Hlo) & _) & _).
    split; [apply (Hlo _ _ Hr)|apply (Hlo _ _ Ht)]. }
  destruct Hbytes as [Hrb Hpb].
  apply (wp_borrow r rb _ base o); [done|done|]. intros p1 w1 Hp1 Hi1 Hf1 Hl1 Ha1 Hg1 Hb1.
  apply (wp_borrow t pb _ base o); [done|by rewrite Hl1|]. intros p2 w2 Hp2 Hi2 Hf2 Hl2 Ha2 Hg2 Hb2.
  apply wp_bind. eapply (wp_mono _ _ (fun '(rc, o') w' =>
    @stays W _ (at_frame (frame_in w2)) _ Hna cb base o w2 o' w' /\
    match o_router o with
    | None => rc = BC_ERR_INVALID /\ o' = o /\ w' = w2
    | Some _ => @send_result W _ (at_frame (frame_in w2)) _ Hna o (g_identity (get_ffi w)) rb pb w2 rc o' w'
    end)).
  { destruct (o_router o) as [b|] eqn:Hb.
    - eapply wp_mono; [apply (@wp_send W _ _ _ (at_frame_ffi (frame_in w2)) Hna _ cb (at_frame_user (frame_in w2)) base o b);
        [apply Hi2|done|split; [zlen_lia|done]|done|done]|].
      intros [rc o'] w3 (Hs & _ & _ & Hres). split; [done|]. by rewrite Hg2, Hg1 in Hres.
    - eapply wp_mono; [apply (@wp_send_refused W _ _ _ (at_frame_ffi (frame_in w2)) Hna cb base o); [apply Hi2|by left]|].
      intros [rc o'] w3 (Hs & -> & -> & ->). done. }
  intros [rc o'] w3 [Hs Hres]. destruct (bridge_call _ _ _ _ _ Hi2 Hs) as [(Hi3 & _ & Hsa & Ha3) Hf3].
  rewrite Hf1 in Hp2. cbn in Hp2.
  apply (wp_give_back r p1 _ _ base o'); [done|rewrite Hf3, Hf2, Hf1; cbn; clear; set_solver|].
  intros w4 Hi4 Hf4 Ha4 Hg4 Hb4. rewrite Hf3, Hf2, Hf1 in Hf4. cbn in Hf4.
  apply (wp_give_back t p2 _ _ base o'); [done|rewrite Hf4; cbn; clear -Hp2; set_solver|].
  intros w5 Hi5 Hf5 Ha5 Hg5 Hb5. rewrite Hf4 in Hf5. cbn in Hf5. apply wp_ret.
  assert (Hf : frame_in w5 = frame_in w).
  { etrans; [exact Hf5|]. apply (with_pins_id _ (frame_in w)). clear -Hp1 Hp2. cbn in *. set_solver. }
  split; [|split; [done|]].
  - split; [done|]. split; [by rewrite Hf|]. split; [done|].
    do 4 (eapply advances_trans; [eassumption|]). done.
  - exists w2, w3. split; [by eapply pins_only_trans|]. split; [by eapply pins_only_trans|done].
Qed.

(** A buffer on the stack. *)
Lemma wp_scratch {A} n (k : list Z -> M W A) base o w Q :
  bridge_inv (J := J) base o w ->
  (forall l w1, bytes_n (Z.to_nat n) l -> bridge_inv (J := J) base o w1 ->
     get_jni (J := J) w1 = get_jni w -> get_ffi w1 = get_ffi w -> advances w w1 -> wp (k l) w1 Q) ->
  wp (x ← stack_buffer n; k x) w Q.
Proof.
  intros (Hi & Hst & Hatt) HQ. apply wp_bind. apply wp_quiet; [apply quiet_stack|].
  apply (@wp_indeterminate W _ (at_frame (frame_in w))). intros l w1 Hl Hb [os Hos].
  assert (Hj : get_jni (J := J) w1 = get_jni w) by (rewrite Hos; apply get_jni_set_os).
  apply (HQ l); [done| |done|rewrite Hos; apply get_ffi_set_os|].
  - split; [|split; [done|congruence]]. rewrite Hj.
    by eapply (@inv_balanced W _ _ _ (at_frame_ffi (frame_in w))).
  - eapply weaken_advances; [by eapply inv_heap_ok|apply Hb].
Qed.

Lemma wp_jni_load base o w a l :
  bridge_inv (J := J) base o w -> v_locals (jview (get_jni (J := J) w)) !! a = Some (JBytes l) ->
  wp (BitChatCore.loadIdentity (J := J) (Some a) o) w (fun '(rc, o') w' =>
    bridge_stays base o w o' w' /\ frame_in w' = frame_in w /\
    if bool_decide (64 <= zlen l)
    then pubkey (g_identity (get_ffi w')) = take 32 l /\
      secret_key (g_identity (get_ffi w')) = take 32 (drop 32 l) /\
      (rc = BC_OK \/ (rc = BC_ERR_NOMEM /\ ~ never_oom w))
    else rc = BC_ERR_INVALID /\ o' = o /\ w' = w).
Proof.
  intros Hi Ha. unfold BitChatCore.loadIdentity.
  apply (wp_length a l _ base o); [done|done|]. case_bool_decide as Hshort.
  { apply wp_ret. rewrite bool_decide_eq_false_2 by lia. split; [by apply bridge_stays_refl|done]. }
  rewrite (bool_decide_eq_true_2 (64 <= _)) by lia.
  assert (Hl : bytes_ok l) by (destruct (bridge_parts _ _ _ Hi) as (_ & (_ & (_ & _ & Hlo) & _) & _); apply (Hlo _ _ Ha)).
  apply (wp_borrow a l _ base o); [done|done|]. intros p w1 Hp Hi1 Hf1 Hl1 Ha1 Hg1 _.
  apply wp_bind.
  eapply wp_mono; [apply (@wp_load W _ _ _ (at_frame_ffi (frame_in w1)) Hna _ cb (at_frame_user (frame_in w1)) base o);
    [apply Hi1|by intros d [= <-]]|].
  intros [rc o'] w2 (Hs & _ & Hres). rewrite bool_decide_eq_false_2 in Hres by lia.
  destruct Hres as (Hpk & Hsk & Hrc).
  destruct (bridge_call _ _ _ _ _ Hi1 Hs) as [(Hi2 & _ & Hsa & Ha2) Hf2].
  apply (wp_give_back a p _ _ base o'); [done|rewrite Hf2, Hf1; cbn; clear; set_solver|].
  intros w3 Hi3 Hf3 Ha3 Hg3 _. rewrite Hf2, Hf1 in Hf3. apply wp_ret.
  assert (Hf : frame_in w3 = frame_in w).
  { etrans; [exact Hf3|]. apply (with_pins_id _ (frame_in w)). clear -Hp. cbn in *. set_solver. }
  split; [split; [done|split; [by rewrite Hf|split; [done|]]]|split; [done|]].
  - do 2 (eapply advances_trans; [eassumption|]). done.
  - rewrite Hg3. split; [done|]. split; [done|].
    destruct Hrc as [[-> _]|[-> Hoom]]; [by left|right]. split; [done|]. intros Hno. apply Hoom.
    by eapply advances_never_oom.
Qed.

(** The array a method returns. *)
Definition new_bytes (a : Z) (l : list Z) w w' : Prop :=
  v_locals (jview (get_jni (J := J) w)) !! a = None /\
  v_locals (jview (get_jni (J := J) w')) !! a = Some (JBytes l).

Lemma wp_return_array {A} l1 l2 n (k : option Z -> M W A) base o w Q :
  bridge_inv (J := J) base o w -> bytes_n 32 l1 -> bytes_ok l2 -> 0 <= n <= zlen l2 -> 32 + n < 2 ^ 31 ->
  (forall a w1, new_bytes a (l1 ++ take (Z.to_nat n) l2) w w1 -> bridge_stays base o w o w1 ->
     get_ffi w1 = get_ffi w -> wp (k (Some a)) w1 Q) ->
  wp (x ← on_jni (J := J) (new_array2 l1 l2 n); k x) w Q.
Proof.
  intros Hi [Hl1 Hb1] Hb2 Hn H31 HQ. destruct (bridge_parts _ _ _ Hi) as (Hok & Hj & Hst & Hatt).
  apply wp_bind, wp_on_jni, wp_new_array2; [apply Hj|done|zlen_lia|done|done|].
  intros a j Ha Hv. assert (Hb : bytes_ok (l1 ++ take (Z.to_nat n) l2))
    by (apply bytes_ok_app; split; [done|by apply Forall_take]).
  destruct (relocated a _ j (get_jni w) Hj Ha Hb Hv) as (Hj' & Hf & Hl).
  apply (HQ a).
  - split; [done|]. rewrite get_set_jni, Hl. apply lookup_insert_eq.
  - by apply bridge_move.
  - apply get_ffi_set_jni.
Qed.
(** A reference that is new now was not there before. *)
Lemma new_bytes_before base o o' a l w w1 w2 :
  bridge_stays base o w o' w1 -> new_bytes a l w1 w2 -> new_bytes a l w w2.
Proof.
  intros Hst [Hnew Hat]. split; [|done].
  assert (Hsub : f_locals (frame_in w) ⊆ f_locals (frame_in w1)) by apply Hst.
  destruct (v_locals (jview (get_jni w)) !! a) as [x|] eqn:Hx; [|done]. exfalso.
  assert (Hsx : f_locals (frame_in w) !! a = Some (shape x)) by (cbn; by rewrite lookup_fmap, Hx).
  assert (H3 := lookup_weaken _ _ _ _ Hsx Hsub). cbn in H3. by rewrite lookup_fmap, Hnew in H3.
Qed.

Lemma wp_jni_generate base o w :
  bridge_inv (J := J) base o w ->
  wp (BitChatCore.generateIdentity (J := J) o) w (fun '(r, o') w' =>
    bridge_stays base o w o' w' /\
    let id := g_identity (get_ffi w') in generated (pubkey id) (secret_key id) /\
    match r with
    | Some a => new_bytes a (pubkey id ++ secret_key id) w w' /\
        exists b, o_router o' = Some b /\ local_pubkey (contents b) = pubkey id
    | None => ~ never_oom w
    end).
Proof.
  intros Hi. unfold BitChatCore.generateIdentity.
  apply (wp_scratch 32 _ base o); [done|]. intros pk0 w1 Hpk0 Hi1 Hj1 Hg1 Ha1.
  apply (wp_scratch 32 _ base o); [done|]. intros sk0 w2 Hsk0 Hi2 Hj2 Hg2 Ha2.
  apply wp_bind.
  eapply wp_mono; [apply (@wp_generate W _ _ _ (at_frame_ffi (frame_in w2)) Hna _ cb (at_frame_user (frame_in w2)) base o);
    [apply Hi2|intros b [= <-]; destruct Hpk0; zlen_lia|intros b [= <-]; destruct Hsk0; zlen_lia]|].
  intros [[rc [pk sk]] o'] w3 (Hs & _ & [Hwp Hws] & Hgen & Hpk & Hsk & Hrc).
  destruct (bridge_call _ _ _ _ _ Hi2 Hs) as [Hst3 Hf3]. assert (Hi3 := proj1 Hst3).
  assert (Hst : bridge_stays base o w o' w3).
  { destruct Hst3 as (H1 & H2 & H3 & H4). rewrite Hj2, Hj1 in H2. split; [done|]. split; [done|].
    split; [done|]. do 2 (eapply advances_trans; [eassumption|]). done. }
  set (id := g_identity (get_ffi w3)) in *. unfold filled in Hpk, Hsk. cbn in Hpk, Hsk. subst pk sk.
  rewrite (drop_ge pk0), (drop_ge sk0), !app_nil_r by (destruct Hpk0, Hsk0, Hwp, Hws; lia).
  destruct Hrc as [(-> & b & Hb & Hlp)|(-> & Hoom)].
  2: { rewrite bool_decide_eq_true_2 by done. apply wp_ret. split; [done|]. split; [done|]. intros Hno.
       apply Hoom. eapply advances_never_oom; [exact Ha2|]. by eapply advances_never_oom. }
  rewrite bool_decide_eq_false_2 by (intros H; by apply H). cbn [from_option Datatypes.id].
  assert (Hz : zlen (secret_key id) = 32) by (apply (zlen_bytes_n 32), Hws).
  apply (wp_return_array _ _ 32 _ base o'); [done|done|apply Hws|lia|done|].
  intros a w4 Hnew Hst4 Hg4. apply wp_bind. eapply wp_lift.
  { apply mem_write_ok; [lia|]. unfold zlen in *. rewrite length_replicate. lia. }
  apply wp_ret. rewrite Hg4. fold id. split; [by eapply bridge_stays_trans|]. split; [done|].
  assert (Htk : take (Z.to_nat 32) (secret_key id) = secret_key id) by (apply take_ge; zlen_lia).
  rewrite Htk in Hnew. split; [by eapply new_bytes_before|by exists b].
Qed.
(** What [pollMessages] makes of the oldest message [m]. *)
Definition jni_polled (id : bc_identity) (m : bc_message) (r : option Z) w w' : Prop :=
  match r with
  | Some a => exists pt, opens (secret_key id) (sender_pubkey m) (msg_payload m) pt /\
      0 < zlen pt <= 4096 /\ new_bytes a (sender_pubkey m ++ pt) w w'
  | None => forall pt, opens (secret_key id) (sender_pubkey m) (msg_payload m) pt ->
      zlen pt = 0 \/ 4096 < zlen pt
  end.

(** The answer of the C API, for a buffer of 4096 bytes, is one of two. *)
Lemma poll_answer_jni id m buf sender rc out k sender' :
  bytes_n 32 (secret_key id) -> message_wf m -> zlen buf = 4096 -> zlen sender = 32 ->
  poll_answer id m 4096 buf (Some sender) rc out k sender' ->
  (bool_decide (rc <> 0 \/ k = 0) = true /\
   forall pt, opens (secret_key id) (sender_pubkey m) (msg_payload m) pt -> zlen pt = 0 \/ 4096 < zlen pt) \/
  (rc = 0 /\ exists pt, k = zlen pt /\ 0 < zlen pt <= 4096 /\ bytes_ok pt /\
     opens (secret_key id) (sender_pubkey m) (msg_payload m) pt /\
     out = pt ++ drop (length pt) buf /\ sender' = Some (sender_pubkey m)).
Proof.
  intros Hsk Hm Hbuf Hsnd Ha.
  assert (Hpl : payload_len m = zlen (msg_payload m)) by apply Hm.
  assert (Hpb : bytes_ok (msg_payload m)) by apply Hm.
  assert (Hs : bytes_n 32 (sender_pubkey m)) by apply Hm.
  destruct Ha as [Hsh|_ Hk|Hk Hsm|pt s' Hop Hle Hf|buf' Hno _].
  - left. split; [by apply bool_decide_eq_true_2; right|]. intros pt [H _]. lia.
  - left. split; [by apply bool_decide_eq_true_2; left|]. intros pt (_ & key & Hk' & _). by rewrite Hk' in Hk.
  - left. split; [by apply bool_decide_eq_true_2; left|]. intros pt Hop.
    destruct (opens_size _ _ _ _ Hsk Hs Hpb Hop) as [Hz _]. right. lia.
  - destruct (opens_size _ _ _ _ Hsk Hs Hpb Hop) as [Hz Hptb]. assert (Hn := zlen_nonneg pt).
    destruct (decide (zlen pt = 0)) as [H0|H0].
    + left. split; [by apply bool_decide_eq_true_2; right|]. intros pt' Hop'. left.
      by rewrite (opens_unique _ _ _ _ _ Hop' Hop).
    + right. split; [done|]. exists pt. split; [done|]. split; [lia|]. split; [done|]. split; [done|].
      split; [done|]. rewrite Hf. cbn. rewrite drop_ge by (destruct Hs; zlen_lia). by rewrite app_nil_r.
  - left. split; [by apply bool_decide_eq_true_2; left|]. intros pt Hop. by destruct (Hno pt).
Qed.

Lemma wp_jni_poll base o w :
  bridge_inv (J := J) base o w ->
  wp (BitChatCore.pollMessages (J := J)) w (fun r w' =>
    bridge_stays base o w o w' /\
    match queue w with
    | [] => r = None /\ queue w' = [] /\ frame_in w' = frame_in w
    | b :: q => queue w' = q /\ jni_polled (g_identity (get_ffi w)) (contents b) r w w'
    end).
Proof.
  intros Hi. unfold BitChatCore.pollMessages.
  apply (wp_scratch 4096 _ base o); [done|]. intros buf w1 [Hbl Hbb] Hi1 Hj1 Hg1 Ha1.
  apply (wp_scratch 32 _ base o); [done|]. intros snd w2 [Hsl Hsb] Hi2 Hj2 Hg2 Ha2.
  assert (Hb4 : zlen buf = 4096) by zlen_lia.
  apply wp_bind. rewrite <- Hb4 at 1.
  eapply wp_mono; [apply (@wp_poll_messages W _ _ _ (at_frame_ffi (frame_in w2)) Hna _ cb base o);
    [apply Hi2|intros b [= <-]; zlen_lia]|].
  intros [rc [[buf' n] snd']] w3 (Hs & _ & Hres).
  destruct (bridge_call _ _ _ _ _ Hi2 Hs) as [Hst3 Hf3]. assert (Hi3 := proj1 Hst3).
  assert (Hst : bridge_stays base o w o w3).
  { destruct Hst3 as (H1 & H2 & H3 & H4). rewrite Hj2, Hj1 in H2. split; [done|]. split; [done|].
    split; [done|]. do 2 (eapply advances_trans; [eassumption|]). done. }
  assert (Hq2 : queue w2 = queue w) by (unfold queue; congruence). rewrite Hq2 in Hres.
  destruct (queue w) as [|b q] eqn:Hq.
  { destruct Hres as (Hq3 & -> & -> & -> & ->). cbv zeta. cbn [from_option Datatypes.id].
    rewrite bool_decide_eq_true_2 by by right. apply wp_ret. split; [done|]. split; [done|]. split; [done|].
    congruence. }
  destruct Hres as (Hq3 & out & k & -> & -> & Hans). cbv zeta. cbn [from_option Datatypes.id].
  destruct (bridge_parts _ _ _ Hi) as (Hok & _).
  destruct (heap_ffi_ok _ Hok) as (_ & Hsep & _ & Hsk). fold (queue w) in Hsep. rewrite Hq in Hsep.
  destruct Hsep as (Hm & _). rewrite Hg2, Hg1, Hb4 in Hans.
  assert (Hs32 : zlen snd = 32) by (unfold zlen; by rewrite Hsl).
  destruct (poll_answer_jni _ _ _ _ _ _ _ _ Hsk Hm Hb4 Hs32 Hans)
    as [[Hb Hno]|(-> & pt & -> & Hpt & Hptb & Hop & -> & ->)].
  { rewrite Hb. apply wp_ret. by split. }
  rewrite bool_decide_eq_false_2 by (intros [H|H]; [by apply H|lia]). cbn [from_option Datatypes.id].
  apply (wp_return_array _ _ (zlen pt) _ base o); [done|apply Hm| |rewrite zlen_app; split; [lia|zlen_lia]|lia|].
  { apply bytes_ok_app. split; [done|]. by apply Forall_drop. }
  intros a w4 Hnew Hst4 Hg4. apply wp_bind. eapply wp_lift.
  { apply mem_write_ok; [lia|]. unfold zlen in *. rewrite length_replicate, length_app. lia. }
  apply wp_ret. split; [by eapply bridge_stays_trans|]. split; [unfold queue in *; by rewrite Hg4|].
  exists pt. split; [done|]. split; [done|].
  assert (Htk : take (Z.to_nat (zlen pt)) (pt ++ drop (length pt) buf) = pt)
    by (apply take_app_length'; zlen_lia).
  rewrite Htk in Hnew. by eapply new_bytes_before.
Qed.
(** What registering a listener answers, and the callback of the C API. *)
Definition jni_registered (listener : option Z) (address : Z) w (rc : Z) w' : Prop :=
  match listener with
  | None => rc = BC_OK /\ f_listener (frame_in w') = None /\ user_callback (get_ffi w') = None
  | Some _ =>
      (rc = BC_OK /\ user_callback (get_ffi w') = Some address /\
       exists g m, f_listener (frame_in w') = Some g /\ f_method (frame_in w') = Some m) \/
      (rc = BC_ERR_INVALID /\ f_listener (frame_in w') = None /\
       user_callback (get_ffi w') = user_callback (get_ffi w))
  end.

Lemma wp_jni_set_callback address base o w listener :
  bridge_inv (J := J) base o w ->
  (forall l, listener = Some l -> is_Some (f_locals (frame_in w) !! l)) ->
  wp (BitChatCore.nativeSetOnMessageCallback (J := J) address listener) w (fun rc w' =>
    bridge_stays base o w o w' /\ jni_registered listener address w rc w').
Proof.
  intros Hi Hl. destruct (bridge_parts _ _ _ Hi) as (Hok & Hj & Hst & Hatt).
  unfold BitChatCore.nativeSetOnMessageCallback. apply wp_bind, wp_on_jni.
  eapply wp_mono; [apply wp_set_listener; [done|done|]|].
  { intros l Hls. specialize (Hl l Hls). cbn in Hl. rewrite lookup_fmap in Hl. by apply fmap_is_Some in Hl. }
  intros r s1 [Hrew Hreg]. assert (Hst1 := bridge_move base o s1 w Hi (proj1 Hrew) (rewired_grows _ _ Hrew)).
  set (w1 := set_jni s1 w) in *. assert (Hs1 : get_jni w1 = s1) by apply get_set_jni.
  assert (Hg1 : get_ffi w1 = get_ffi w) by apply get_ffi_set_jni.
  assert (Hcall : forall f, wp (bitchat_set_on_message_callback f) w1 (fun rc w' =>
    bridge_stays base o w o w' /\ rc = BC_OK /\ user_callback (get_ffi w') = f /\ frame_in w' = frame_of s1)).
  { intros f. eapply wp_mono; [apply (@wp_set_callback W _ _ _ (at_frame_ffi (frame_in w1)) Hna cb base o); apply Hst1|].
    intros rc w2 (Hs & -> & Huc & _). destruct (bridge_call _ _ _ _ _ (proj1 Hst1) Hs) as [Hst2 Hf2].
    split; [by eapply bridge_stays_trans|]. split; [done|]. split; [done|]. by rewrite Hf2, Hs1. }
  unfold registered in Hreg. unfold jni_registered. destruct listener as [l|].
  - destruct Hreg as [(-> & g & m & Hg & _ & Hm)|(-> & Hg)].
    + eapply wp_mono; [apply Hcall|]. intros rc w2 (Hst2 & -> & Huc & Hf2). split; [done|]. left.
      split; [done|]. split; [done|]. exists g, m. by rewrite Hf2.
    + apply wp_ret. split; [done|]. right. rewrite Hg1, Hs1. by split_and!.
  - destruct Hreg as [-> Hg]. eapply wp_mono; [apply Hcall|]. intros rc w2 (Hst2 & -> & Huc & Hf2).
    split; [done|]. split; [done|]. by rewrite Hf2.
Qed.

Lemma wp_jni_discovery base o w :
  bridge_inv (J := J) base o w ->
  wp (BitChatCore.startDiscovery o) w (fun '(rc, o') w' =>
    bridge_stays base o w o' w' /\ frame_in w' = frame_in w).
Proof.
  intros Hi. eapply wp_mono.
  { apply (@wp_start_discovery W _ _ _ (at_frame_ffi (frame_in w)) Hna cb base o). apply Hi. }
  intros [rc o'] w' (Hs & _). by apply bridge_call.
Qed.

Lemma wp_jni_tick fuel base o w :
  bridge_inv (J := J) base o w -> (inbound w < fuel)%nat ->
  wp (BitChatCore.tick fuel o) w (fun o' w' =>
    bridge_stays base o w o' w' /\ frame_in w' = frame_in w /\ exists new, queue w' = queue w ++ new).
Proof.
  intros Hi Hf. eapply wp_mono.
  { apply (@wp_bridge_tick W _ _ _ (at_frame_ffi (frame_in w)) Hna _ cb (at_frame_user (frame_in w)) fuel base o);
      [apply Hi|done]. }
  intros o' w' (Hs & _ & Hq & _). destruct (bridge_call _ _ _ _ _ Hi Hs). done.
Qed.

(** ** Delivery *)

Lemma inbox_push_jni m : untouched (get_jni (J := J)) (inbox_push (W := W) m).
Proof.
  assert (Hput : forall g, untouched (get_jni (J := J)) (ffi_put (W := W) g))
    by (intros g w a w' [= _ <-]; apply get_jni_set_ffi).
  assert (Hget : untouched (get_jni (J := J)) (ffi_get (W := W))) by by intros w a w' [= _ <-].
  assert (Hq : forall A (n : M W A), quiet n -> untouched (get_jni (J := J)) n)
    by (intros A n; apply quiet_untouched, get_jni_set_os).
  unfold inbox_push.
  repeat first [apply Hput|apply Hget|apply untouched_ret|apply untouched_lift|apply Hq, quiet_create
    |apply untouched_bind; [|intros]|case_match|progress cbv zeta].
Qed.

(** The bridge's callback ran, in the middle of code that only uses the
    run-time. *)
Lemma handed_told f m w w' :
  @heap_ok W _ (at_frame f) w -> message_wf m -> payload_len m < 2 ^ 31 ->
  @handed W _ _ Hna cb m w w' ->
  (exists a pt, user_callback (get_ffi w) = Some a /\
     opens (secret_key (g_identity (get_ffi w))) (sender_pubkey m) (msg_payload m) pt /\
     listener_told (sender_pubkey m) pt (get_jni (J := J) w) (get_jni w')) \/
  (get_jni (J := J) w' = get_jni w /\
   (user_callback (get_ffi w) = None \/ ~ never_oom w \/
    forall pt, ~ opens (secret_key (g_identity (get_ffi w))) (sender_pubkey m) (msg_payload m) pt)).
Proof.
  intros Hok Hm H31 [(a & pt & w1 & w2 & Huc & Hop & Hrun & [os1 ->] & [os2 ->])|[[os ->] Hno]].
  2: { right. by rewrite get_jni_set_os. }
  left. exists a, pt. split; [done|]. split; [done|]. rewrite get_jni_set_os.
  destruct (weaken_heap _ _ _ _ Hok) as [HokI [Hj _]].
  destruct (heap_ffi_ok _ HokI) as (_ & _ & _ & Hsk).
  assert (Hpl : payload_len m = zlen (msg_payload m)) by apply Hm.
  assert (Hs : bytes_n 32 (sender_pubkey m)) by apply Hm.
  assert (Hpb : bytes_ok (msg_payload m)) by apply Hm.
  destruct (opens_size _ _ _ _ Hsk Hs Hpb Hop) as [Hz Hptb].
  assert (Hcb := wp_callback (sender_pubkey m) pt (get_jni w) Hj Hs Hptb
    ltac:(unfold BC_NONCE_SIZE, BC_TAG_SIZE in *; lia)).
  unfold jni_call_user, on_jni in Hrun. rewrite get_jni_set_os in Hrun. unfold wp in Hcb.
  destruct (jni_on_message_callback _ _ _ _) as [[[] s']| |]; [|done|done].
  injection Hrun as <-. rewrite get_set_jni. apply Hcb.
Qed.
End methods.

(** ** The database *)

(** The bridge's state and the database do not overlap. *)
Class JniSql (W J E : Type) `{!HasOS W, !HasFfi W, !HasSql W E, !HasJni W J} : Prop := {
  get_jni_set_sql : forall x w, get_jni (J := J) (set_sql x w) = get_jni w;
  get_sql_set_jni : forall s w, get_sql (set_jni (J := J) s w) = get_sql w
}.

Section database.
Context {W J E : Type} `{!HasOS W} `{I : !WorldInv W} `{!HasFfi W, !HasSql W E, !Sqlite E, !Jvm J}.
Context `{!HasJni W J, !JniSql W J E}.

Lemma at_frame_sql c f : @SqlWorld W E _ I _ _ c -> @SqlWorld W E _ (at_frame (J := J) f) _ _ c.
Proof.
  intros Hc. split.
  - intros w [Hw _]. by apply (@sql_world_ok W E _ I _ _ c Hc).
  - intros w x [Hw Hb] Hx. split; [by apply (@sql_world_set W E _ I _ _ c Hc)|].
    unfold bridge_at in *. by rewrite get_jni_set_sql.
  - apply (@sql_world_held W E _ I _ _ c Hc).
  - apply (@sql_world_evolves W E _ I _ _ c Hc).
Qed.

Lemma at_frame_sql_free f : @SqlFree W E _ I _ -> @SqlFree W E _ (at_frame (J := J) f) _.
Proof.
  intros Hc. split.
  - intros x w [Hw Hb]. split; [by apply (world_ok_set_sql (WorldInv0 := I))|].
    unfold bridge_at in *. by rewrite get_jni_set_sql.
  - apply (held_set_sql (WorldInv0 := I)).
  - apply (evolves_set_sql (WorldInv0 := I)).
Qed.
End database.
