(* ===== verification/JniDemo.v ===== *)
(** * JniDemo: a concrete world for the Android bridge

    The application of [FfiDemo] with the bridge on top: a virtual machine
    ([toy_jvm]) whose listener throws an exception whenever it is called, a
    registered listener, a few Java objects, and one queued message.  It shows
    that the classes the bridge's theorems assume can be met together. *)
From stdpp Require Import strings.
From S2P Require Import Prelude Effects Errors Sodium Message Peer Ports Sockets World.
From S2P Require Import StubTransports Identity CryptoManager Sealing Discovery Sqlite SqliteStorage.
From S2P Require Import SqliteStorageSpec SqliteStorageProps SqliteLifecycle Dedup Router RouterSpec Session.
From S2P Require Import Ffi FfiSpec FfiApi FfiDemo FfiProps FfiLifecycle Jvm Jni JniSpec JniApi.

#[export] Instance demo_jvm : Jvm jvm_view := toy_jvm true.
#[export] Instance demo_jvm_spec : JvmSpec jvm_view := toy_jvm_spec true.

Record droid : Type := mkDroid { d_app : app_state; d_jni : jni_state jvm_view }.

#[export] Program Instance droid_HasSql : HasSql (world droid) db_view :=
  {| get_sql w := x_db (d_app (w_ext w));
     set_sql x w := mkWorld (w_os w) (w_net w)
       (mkDroid (mkApp x (x_ffi (d_app (w_ext w)))) (d_jni (w_ext w))) |}.
Solve All Obligations with done.

#[export] Program Instance droid_HasFfi : HasFfi (world droid) :=
  {| get_ffi w := x_ffi (d_app (w_ext w));
     set_ffi g w := mkWorld (w_os w) (w_net w)
       (mkDroid (mkApp (x_db (d_app (w_ext w))) g) (d_jni (w_ext w))) |}.
Solve All Obligations with (intros; repeat match goal with w : world droid |- _ => destruct w as [? ? [[] ?]] end; done).

#[export] Program Instance droid_HasJni : HasJni (world droid) jvm_view :=
  {| get_jni w := d_jni (w_ext w);
     set_jni s w := mkWorld (w_os w) (w_net w) (mkDroid (d_app (w_ext w)) s) |}.
Solve All Obligations with (intros; repeat match goal with w : world droid |- _ => destruct w as [? ? []] end; done).

#[export] Instance droid_apart : JniSql (world droid) jvm_view db_view.
Proof. by split. Qed.

#[export] Instance droid_ffi_sql : FfiSql (world droid) db_view.
Proof. by split. Qed.

(** The database keeps [P], the globals keep theirs. *)
Program Definition droid_inv (P : db_view -> Prop) : ExtInv droid :=
  {| ext_ok x := P (x_db (d_app x)) /\ ffi_ok (x_ffi (d_app x));
     ext_held x := inbox_blocks (x_ffi (d_app x));
     ext_evolves x y := ffi_grows (x_ffi (d_app x)) (x_ffi (d_app y)) |}.
Next Obligation.
  intros P. split; [intros x; reflexivity|intros x y z H1 H2; by etrans].
Qed.

Lemma droid_ffi_world P : @FfiWorld _ _ (@world_inv _ (droid_inv P)) _.
Proof.
  split.
  - by intros w [_ [_ Hx]].
  - intros g w [Hq [Hd _]] Hg. by split.
  - done.
  - done.
Qed.

Lemma droid_jni_free P : @JniFree _ jvm_view _ (@world_inv _ (droid_inv P)) _ _.
Proof. by intros s w Hw. Qed.

(** ** While the adapter [demo_sql_ctx] is in use *)

Module Droid.
#[export] Instance droid_in_use : ExtInv droid := droid_inv (sqlite_ok demo_sql_ctx).
#[export] Instance droid_ffi : FfiWorld (world droid) := droid_ffi_world _.
#[export] Instance droid_jni : JniFree (world droid) jvm_view := droid_jni_free _.

#[export] Instance droid_sql : SqlWorld (W := world droid) demo_sql_ctx.
Proof.
  split.
  - by intros w [_ [Hx _]].
  - intros w x [Hq [_ Hf]] [Hx _]. by split.
  - done.
  - intros x w. cbn. reflexivity.
Qed.
End Droid.
Import Droid.

(** Two keys, a text, a listener. *)
Definition droid_vm : jvm_view :=
  mkJvm true false
    (<[1 := JBytes (replicate 32 4)]> (<[2 := JBytes demo_text]> (<[3 := JObject]>
      (<[4 := JBytes (replicate 64 1)]> ∅)))) {[7]} {[1]} ∅ true [].
Definition droid_bridge : jni_state jvm_view := mkJni true false (Some 7) (Some 1) droid_vm.

Definition droid_ble : box (bc_transport (world droid)) := Box 0%nat ble_vtable.

Definition droid_objects : g_objects (world droid) :=
  mkObjects (Some droid_ble) (Some (Box 1%nat (sqlite_storage 1%nat (Box 2%nat demo_sql_ctx))))
    (Some (Box 3%nat (mkRouter (Some ble_vtable)
      (Some (sqlite_storage 1%nat (Box 2%nat demo_sql_ctx))) (mkConfig 3 4 600) (pubkey demo_self)
      (Box 4%nat (replicate 4 zero_entry)) 4 (replicate 64 zero_peer) 0
      (Some (on_message_received (H := toy_sodium) (jni_call_user (J := jvm_view)))) 0 0)))
    (Some (Box 5%nat (mkDiscovery (Some ble_vtable) (replicate 64 zero_peer) 0 None 0))).

Definition droid_session : world droid :=
  mkWorld (w_os demo_session) (demo_net []) (mkDroid (w_ext demo_session) droid_bridge).

Lemma droid_bridge_ok : jni_ok droid_bridge.
Proof.
  split; [done|]. split; [split; [done|split; [done|]]|split].
  - unfold locals_ok. cbn. repeat apply map_Forall_insert_2;
      first [apply map_Forall_empty|done|apply (bool_decide_unpack _); vm_compute; exact I].
  - intros r [= <-]. cbn. set_solver.
  - intros m [= <-]. cbn. set_solver.
Qed.

Lemma droid_heap_ok : heap_ok droid_session.
Proof. exact demo_heap_ok. Qed.

Lemma droid_steady : adapters_steady (J := jvm_view) droid_objects.
Proof.
  intros f. split; intros ? [= <-]; [apply ble_safe|].
  by apply (@sqlite_safe _ _ _ _ _ _ _ demo_sql_ctx (at_frame_sql demo_sql_ctx f droid_sql)).
Qed.

Lemma droid_inv_holds :
  bridge_inv (J := jvm_view) (Hna := toy_sodium) demo_base droid_objects droid_session.
Proof.
  split; [|split; [exact droid_steady|done]].
  split; [apply strengthen_heap; [exact droid_heap_ok|split; [exact droid_bridge_ok|done]]|].
  do 2 (split; [done|]). split.
  - split; [apply droid_steady|]. split; [|split].
    + intros b [= <-]. split; [apply (bool_decide_unpack _); vm_compute; exact I|done].
    + intros d [= <-]. split; [apply (bool_decide_unpack _); vm_compute; exact I|done].
    + cbn. unfold router_blocks, disc_blocks. cbn. set_solver.
  - assert (Ho : object_blocks droid_objects = {[3%nat; 4%nat; 5%nat]})
      by (unfold object_blocks, router_blocks, disc_blocks; cbn; set_solver).
    rewrite Ho. unfold demo_base. split; [|set_solver].
    change (owned droid_session) with ((list_to_set (seq 0 8) : gset nat) ∖ inbox_blocks demo_globals).
    rewrite demo_held. apply (bool_decide_unpack _). vm_compute. exact I.
Qed.
