(* ===== verification/JniProps.v ===== *)
(** * JniProps: what the Android bridge guarantees

    While the virtual machine has memory, and whatever native methods Java code
    calls, every call is defined, gives back the buffers it borrows, and keeps at
    most one global reference ([jni_methods_safe]); what the listener is told, what [sendMessage] accepts
    and what [pollMessages] returns; unloading; and two places where a failed
    allocation in the virtual machine makes the bridge go wrong. *)
From stdpp Require Import strings.
From S2P Require Import Prelude Effects Errors Sodium Message Peer Ports Sockets World.
From S2P Require Import StubTransports Identity CryptoManager Sealing Discovery Sqlite SqliteStorage.
From S2P Require Import SqliteStorageSpec SqliteStorageProps Dedup Router RouterSpec Session Ffi FfiSpec FfiApi.
From S2P Require Import FfiDemo FfiProps Jvm Jni JniSpec JniApi JniDemo.

(** ** Sequences of calls *)

(** A call of a native method; [None] is null, references are local ones. *)
Inductive native_call : Type :=
| NGenerate
| NLoad (data : option Z)
| NSend (recipient plaintext : option Z)
| NPoll
| NDiscover
| NTick
| NSetCallback (listener : option Z).

(** The reference denotes an array of at most [n] bytes. *)
Definition array_in (f : frame) (n : Z) (a : Z) : Prop := exists k, f_locals f !! a = Some (SBytes k) /\ k <= n.

(** What the Java declarations of the methods allow: null, or live references
    to objects of the right class. *)
Definition native_ok (f : frame) (c : native_call) : Prop :=
  match c with
  | NLoad data => forall a, data = Some a -> array_in f (2 ^ 31 - 1) a
  | NSend r t =>
      (forall a, r = Some a -> array_in f (2 ^ 31 - 1) a) /\
      (forall a, t = Some a -> array_in f (2 ^ 31 - 41) a)
  | NSetCallback l => forall a, l = Some a -> is_Some (f_locals f !! a)
  | _ => True
  end.

Lemma array_in_grows f f' n a : frame_grows f f' -> array_in f n a -> array_in f' n a.
Proof.
  intros (_ & _ & _ & _ & Hsub) (k & Hk & Hle). exists k. split; [by eapply lookup_weaken|done].
Qed.

Lemma native_ok_grows f f' c : frame_grows f f' -> native_ok f c -> native_ok f' c.
Proof.
  intros Hf. destruct c as [|data|r t| | | |l]; cbn; try done.
  - intros H a Ha. eapply array_in_grows; eauto.
  - intros [H1 H2]. split; intros a Ha; eapply array_in_grows; eauto.
  - intros H a Ha. destruct (H a Ha) as [x Hx]. exists x. eapply lookup_weaken; [done|apply Hf].
Qed.

Section calls.
Context {W J : Type} `{!HasOS W, !HasFfi W, Hna : !Sodium, !Jvm J, !HasJni W J}.
Context (callback_address : Z).

Definition run_native (c : native_call) (o : g_objects W) : M W (g_objects W) :=
  match c with
  | NGenerate => '(_, o) ← BitChatCore.generateIdentity (J := J) o; mret o
  | NLoad data => '(_, o) ← BitChatCore.loadIdentity (J := J) data o; mret o
  | NSend r t => '(_, o) ← BitChatCore.sendMessage (J := J) r t o; mret o
  | NPoll => BitChatCore.pollMessages (J := J);; mret o
  | NDiscover => '(_, o) ← BitChatCore.startDiscovery o; mret o
  | NTick => fun w => BitChatCore.tick (S (inbound w)) o w
  | NSetCallback l => BitChatCore.nativeSetOnMessageCallback (J := J) callback_address l;; mret o
  end.

Fixpoint run_natives (cs : list native_call) (o : g_objects W) : M W (g_objects W) :=
  match cs with
  | [] => mret o
  | c :: cs' => o ← run_native c o; run_natives cs' o
  end.
End calls.

Section properties.
Context {W J : Type} `{!HasOS W} `{I : !WorldInv W} `{!HasFfi W, !FfiWorld W, !Jvm J, !JvmSpec J}.
Context `{!HasJni W J, !JniFree W J} `{Hna : !Sodium} `{!SodiumSpec _}.
Implicit Types (w : W) (o : g_objects W) (s : jni_state J).

Abbreviation frame_in w := (frame_of (get_jni (J := J) w)).

Lemma array_in_bytes n a w :
  array_in (frame_in w) n a ->
  exists l, v_locals (jview (get_jni (J := J) w)) !! a = Some (JBytes l) /\ zlen l <= n.
Proof.
  intros (k & Hk & Hle). cbn in Hk. rewrite lookup_fmap in Hk.
  destruct (v_locals _ !! a) as [[l|s|]|]; try done. injection Hk as <-. by exists l.
Qed.

Lemma wp_run_native address c base o w :
  bridge_inv (J := J) base o w -> native_ok (frame_in w) c ->
  wp (run_native (J := J) address c o) w (fun o' w' => bridge_stays (J := J) base o w o' w').
Proof.
  intros Hi Hc. destruct c as [|data|r t| | | |l]; cbn [run_native].
  - apply wp_bind. eapply wp_mono; [by apply wp_jni_generate|]. by intros [r o'] w' [Hst _].
  - apply wp_bind. destruct data as [a|].
    + destruct (array_in_bytes _ _ _ (Hc a eq_refl)) as (l & Hl & _).
      eapply wp_mono; [by apply wp_jni_load|]. by intros [rc o'] w' [Hst _].
    + apply wp_ret. by apply bridge_stays_refl.
  - apply wp_bind. destruct Hc as [Hr Ht]. destruct r as [r|]; [|by apply wp_ret, bridge_stays_refl].
    destruct t as [t|]; [|by apply wp_ret, bridge_stays_refl].
    destruct (array_in_bytes _ _ _ (Hr r eq_refl)) as (rb & Hrb & _).
    destruct (array_in_bytes _ _ _ (Ht t eq_refl)) as (tb & Htb & Hle).
    eapply wp_mono; [apply (wp_jni_send base o w r t rb tb); try done;
      unfold BC_NONCE_SIZE, BC_TAG_SIZE; lia|]. by intros [rc o'] w' [Hst _].
  - apply wp_bind. eapply wp_mono; [by apply (wp_jni_poll base o)|]. by intros r w' [Hst _].
  - apply wp_bind. eapply wp_mono; [by apply wp_jni_discovery|]. by intros [rc o'] w' [Hst _].
  - unfold wp. assert (Ht := wp_jni_tick (S (inbound w)) base o w Hi ltac:(lia)). unfold wp in Ht.
    destruct (BitChatCore.tick _ _ _) as [[o' w']| |]; [|done|done]. apply Ht.
  - apply wp_bind. eapply wp_mono; [by apply (wp_jni_set_callback address base o)|]. by intros rc w' [Hst _].
Qed.

Lemma wp_run_natives address cs base o w :
  bridge_inv (J := J) base o w -> Forall (native_ok (frame_in w)) cs ->
  wp (run_natives (J := J) address cs o) w (fun o' w' => bridge_stays (J := J) base o w o' w').
Proof.
  revert o w. induction cs as [|c cs IH]; intros o w Hi Hcs; [by apply wp_ret, bridge_stays_refl|].
  inversion Hcs as [|? ? Hc Hcs']; subst. apply wp_bind.
  eapply wp_mono; [by apply (wp_run_native address c base)|]. intros o1 w1 Hst.
  eapply wp_mono; [apply IH; [apply Hst|]|].
  - eapply Forall_impl; [exact Hcs'|]. intros c' Hc'. eapply native_ok_grows; [apply Hst|done].
  - intros o2 w2 Hst2. by eapply bridge_stays_trans.
Qed.

(** The bridge is safe under any use: whatever native methods Java code
    calls, with null or live references, and while messages are delivered to
    the registered listener, whatever it throws: every call is defined and
    returns, the C API's invariant holds, no exception is pending, the
    listener's mutex is free, every borrowed buffer has been given back, the
    bridge holds no global reference but the current listener's, and no
    reference of Java's is lost. *)
Theorem jni_methods_safe address cs base o w :
  bridge_inv (J := J) base o w -> Forall (native_ok (frame_in w)) cs ->
  wp (run_natives (J := J) address cs o) w (fun o' w' => bridge_stays (J := J) base o w o' w').
Proof. apply wp_run_natives. Qed.

(** C23: from the mesh to the listener.  Suppose a listener with its method is
    registered and the virtual machine has memory for the two arrays.  When the C
    API delivers a message of less than 2^31 bytes of payload that opens under
    this node's identity, the listener is called exactly once, with the sender's
    key and the plaintext, if the thread is one of the machine's or the machine
    lets it attach itself; otherwise it is not called.  It is also not called
    when the allocator refuses the buffer for the plaintext, nor for a message
    that does not open.  In every case the bridge's references, buffers and
    variables are as before, and a thread that was not attached is detached
    again. *)
Theorem jni_delivery_reaches_listener m u w f a pt g mt :
  @heap_ok W _ (at_frame (J := J) f) w -> message_wf m -> payload_len m < 2 ^ 31 ->
  user_callback (get_ffi w) = Some a -> g_jvm (get_jni (J := J) w) = true ->
  g_listener_ref (get_jni (J := J) w) = Some g -> g_on_message_method (get_jni (J := J) w) = Some mt ->
  wp (on_message_received (jni_call_user (J := J)) m u) w (fun _ w' =>
    let calls := v_calls (jview (get_jni (J := J) w)) in
    let calls' := v_calls (jview (get_jni (J := J) w')) in
    frame_in w' = f /\ jni_ok (get_jni (J := J) w') /\
    (opens (secret_key (g_identity (get_ffi w))) (sender_pubkey m) (msg_payload m) pt ->
     calls' = calls ++ (if enters (get_jni (J := J) w) then [(g, mt, sender_pubkey m, pt)] else []) \/
     (~ never_oom w /\ calls' = calls)) /\
    ((forall pt', ~ opens (secret_key (g_identity (get_ffi w))) (sender_pubkey m) (msg_payload m) pt') ->
     calls' = calls)).
Proof.
  intros Hok Hm H31 Huc Hjv Hg Hmt. apply wp_bind.
  apply (wp_frame (get_jni (J := J))); [apply inbox_push_jni|].
  eapply wp_mono; [by apply (@wp_inbox_push W _ _ _ (at_frame_ffi f))|].
  intros _ w1 (Hb1 & _ & Hc1 & Hi1) Hj1.
  assert (Hok1 : @heap_ok W _ (at_frame (J := J) f) w1) by (eapply balanced_heap_ok; [exact Hb1|done]).
  eapply wp_mono; [by apply (@wp_push_deliver W _ _ _ (at_frame_ffi f) Hna _ _ (at_frame_user f))|].
  intros _ w2 (Hb2 & _ & Hh).
  assert (Hok2 : @heap_ok W _ (at_frame (J := J) f) w2) by (eapply balanced_heap_ok; [exact Hb2|done]).
  destruct (weaken_heap _ _ _ _ Hok2) as [_ [Hjo Hf]]. split; [done|]. split; [done|].
  destruct (handed_told f m w1 w2 Hok1 Hm H31 Hh) as [(a' & pt' & _ & Hop & Hn)|[Hsame Hwhy]];
    rewrite Hi1 in *; rewrite Hj1 in *.
  - unfold listener_told, deliveries in Hn. rewrite Hjv, Hg, Hmt in Hn. split.
    + intros Hop'. left. by rewrite (opens_unique _ _ _ _ _ Hop' Hop).
    + intros Hnone. by destruct (Hnone pt').
  - rewrite Hsame. split; [|done]. intros Hop. right. split; [|done].
    destruct Hwhy as [Hx|[Hx|Hx]]; [congruence| |by destruct (Hx pt)]. intros Hno. apply Hx.
    intros n. destruct Hb1 as [[(_ & Hgr & _) _] _]. rewrite Hgr. apply Hno.
Qed.

(** C35: [sendMessage] accepts a 32-byte key and a non-empty text, and nothing
    else: with other lengths it answers [BC_ERR_INVALID] and changes nothing.
    With these, and memory in the virtual machine, it borrows the two arrays,
    which changes nothing but the set of borrowed buffers; sends exactly these
    bytes to exactly this key as [bitchat_send_message] does ([send_result]: the
    text sealed under a nonce drawn during the call, the message recorded,
    forwarded once and stored once, or a failure of key agreement or of memory
    without any of that), with the same answer; and gives the buffers back.
    Without an identity the answer is [BC_ERR_INVALID] and nothing happens
    between borrowing and giving back. *)
Theorem jni_send_exact base o w r t rb pb :
  bridge_inv (J := J) base o w ->
  v_locals (jview (get_jni (J := J) w)) !! r = Some (JBytes rb) ->
  v_locals (jview (get_jni (J := J) w)) !! t = Some (JBytes pb) ->
  zlen pb + BC_NONCE_SIZE + BC_TAG_SIZE < 2 ^ 31 ->
  wp (BitChatCore.sendMessage (J := J) (Some r) (Some t) o) w (fun '(rc, o') w' =>
    bridge_stays (J := J) base o w o' w' /\ frame_in w' = frame_in w /\
    if bool_decide (zlen rb = 32 /\ 0 < zlen pb) then jni_sent (J := J) o o' rb pb w rc w'
    else rc = BC_ERR_INVALID /\ o' = o /\ w' = w).
Proof. apply wp_jni_send. Qed.

(** C34: [pollMessages], when the virtual machine has memory for the array,
    returns the oldest message as sender's key and plaintext in a new array when
    the plaintext has between 1 and 4096 bytes; in every
    other case it returns null, and the message is gone from the queue as well:
    a longer message can never be read this way. *)
Theorem jni_poll_exact base o w :
  bridge_inv (J := J) base o w ->
  wp (BitChatCore.pollMessages (J := J)) w (fun r w' =>
    bridge_stays (J := J) base o w o w' /\
    match queue w with
    | [] => r = None /\ queue w' = [] /\ frame_in w' = frame_in w
    | b :: q => queue w' = q /\ jni_polled (J := J) (g_identity (get_ffi w)) (contents b) r w w'
    end).
Proof. apply wp_jni_poll. Qed.
End properties.

Section machine.
Context {J : Type} `{!Jvm J, !JvmSpec J}.
Implicit Types s : jni_state J.

(** Unloading the library on a thread of the machine gives back the
    listener's reference and forgets the machine; a later delivery does
    nothing. *)
Theorem unload_releases_listener s sender payload n :
  jni_ok s -> v_attached (jview s) = true ->
  wp JNI_OnUnload s (fun _ s' =>
    jni_ok s' /\ g_jvm s' = false /\ g_listener_ref s' = None /\
    v_globals (jview s') = others s /\ v_locals (jview s') = v_locals (jview s) /\
    v_pins (jview s') = v_pins (jview s) /\
    jni_on_message_callback sender payload n s' = Val (tt, s')).
Proof.
  intros (Hm & (Hr & Hp & Hlo) & Hl1 & Hl2) Hatt. destruct s as [gj mx lr mt j].
  unfold others, own, jview in *. cbn in *. subst mx. unfold JNI_OnUnload.
  apply wp_bind, wp_lock_listener; [done|]. apply wp_bind, wp_jni_get. cbn [g_listener_ref set_listener_mutex jvm].
  rewrite get_env_spec, Hatt. destruct lr as [r|].
  - rewrite bool_decide_eq_true_2 by done.
    destruct (delete_global_spec r j Hatt) as (j1 & He & Hv); [by apply Hl1|].
    apply wp_bind, wp_bind. eapply wp_jni_unit; [exact He|]. apply wp_jni_set, wp_bind, wp_jni_set.
    apply wp_bind, wp_unlock_listener; [done|]. apply wp_jni_set. unfold jni_ok, jvm_ok, listener_ok, jview.
    cbn. rewrite Hv. cbn. split; [by split_and!|]. by split_and!.
  - apply wp_bind, wp_ret. apply wp_bind, wp_jni_set. apply wp_bind, wp_unlock_listener; [done|].
    apply wp_jni_set. unfold jni_ok, jvm_ok, listener_ok, jview. cbn. rewrite difference_empty_L.
    split; [by split_and!|]. by split_and!.
Qed.

(** The callback is not safe when the machine runs out of memory: if the
    first array cannot be allocated, an exception is pending, and the callback
    goes on to allocate the second one, which is undefined while an exception
    is pending. *)
Theorem callback_out_of_memory s l m j1 sender payload n :
  g_jvm s = true -> g_listener_mutex s = false -> g_listener_ref s = Some l ->
  g_on_message_method s = Some m -> callable (jview s) ->
  jvm_NewByteArray 32 (jvm s) = Some (None, j1) ->
  jni_on_message_callback sender payload n s = UB.
Proof.
  intros Hj Hmx Hl Hm Hc He. destruct s as [gj mx lr mt j]. cbn in *. subst.
  destruct (new_array_spec 32 j Hc ltac:(lia)) as (r & j' & He' & Hr). unfold jview in Hc. cbn in Hc.
  rewrite He in He'. injection He' as <- <-. destruct Hr as [_ Hv].
  destruct (pending_undefined j1) as [Hu _]; [by rewrite Hv|].
  assert (Hn : notify l m sender payload n false (mkJni true true (Some l) (Some m) j) = UB)
    by (unfold notify, mbind, M_bind, jni; cbn; by rewrite He; cbn; rewrite Hu).
  unfold jni_on_message_callback, mbind, M_bind, jni_get, lock_listener. cbn [g_jvm negb g_listener_mutex].
  cbn [set_listener_mutex g_jvm g_listener_ref g_on_message_method jvm].
  by rewrite get_env_spec, (proj1 Hc), bool_decide_eq_false_2, bool_decide_eq_false_2 by (by intros H || done).
Qed.
End machine.

Section borrowing.
Context {W J : Type} `{!HasOS W, !HasFfi W, Hna : !Sodium, !Jvm J, !JvmSpec J, !HasJni W J}.

(** A listener cannot replace or remove itself: the callback runs it with the
    listener's mutex held, which is not recursive, so registering and shutting
    down lock a mutex the thread already holds. *)
Theorem listener_cannot_reregister addr listener o (w : W) :
  g_listener_mutex (get_jni w) = true ->
  BitChatCore.nativeSetOnMessageCallback addr listener w = UB /\ BitChatCore.shutdown o w = UB.
Proof.
  intros Hm. unfold BitChatCore.nativeSetOnMessageCallback, set_listener, BitChatCore.shutdown,
    on_jni, mbind, M_bind, lock_listener. by rewrite Hm.
Qed.

(** Likewise [sendMessage]: if the recipient's bytes cannot be borrowed for
    lack of memory, an exception is pending, and the method goes on to borrow
    the text's, which is undefined. *)
Theorem send_out_of_memory (w : W) o r t rb pb j1 :
  callable (jview (get_jni (J := J) w)) ->
  v_locals (jview (get_jni (J := J) w)) !! r = Some (JBytes rb) ->
  v_locals (jview (get_jni (J := J) w)) !! t = Some (JBytes pb) ->
  zlen rb = 32 -> 0 < zlen pb ->
  jvm_GetByteArrayElements r (jvm (get_jni (J := J) w)) = Some (None, j1) ->
  BitChatCore.sendMessage (J := J) (Some r) (Some t) o w = UB.
Proof.
  intros Hc Hr Ht Hrl Hpl He.
  destruct (get_elements_spec r rb _ Hc Hr) as (x & j' & He' & Hx). rewrite He in He'.
  injection He' as <- <-. destruct Hx as [_ Hv].
  destruct (pending_undefined j1) as [_ Hu]; [by rewrite Hv|].
  unfold BitChatCore.sendMessage, mbind, M_bind, on_jni, jni.
  rewrite (array_length_spec r rb) by done. cbn. rewrite get_set_jni. cbn.
  rewrite (array_length_spec t pb) by done. cbn. rewrite bool_decide_eq_false_2 by lia.
  rewrite get_set_jni. cbn. rewrite He. cbn. rewrite get_set_jni. cbn. by rewrite Hu.
Qed.
End borrowing.

(** ** Witnesses *)

Import JniDemo.Droid.
#[local] Existing Instance toy_sodium.

(** Every method, the listener replaced on the way. *)
Definition droid_calls : list native_call :=
  [NPoll; NSend (Some 1) (Some 2); NSend None (Some 2); NTick; NSetCallback (Some 3); NTick;
   NDiscover; NGenerate; NLoad (Some 4); NLoad (Some 2); NSetCallback None].

Lemma jni_methods_safe_witness :
  wp (run_natives (J := jvm_view) 4096 droid_calls droid_objects) droid_session (fun o' w' =>
    bridge_stays (J := jvm_view) demo_base droid_objects droid_session o' w').
Proof.
  apply (jni_methods_safe (J := jvm_view) 4096 droid_calls demo_base droid_objects droid_session).
  - exact droid_inv_holds.
  - repeat constructor; try intros ? [= <-]; first [by eexists|eexists; split; [vm_compute; reflexivity|vm_compute; congruence]].
Defined.

(** The queued message of [FfiDemo], delivered again. *)
Lemma jni_delivery_reaches_listener_witness :
  let m := contents demo_inbound in
  wp (on_message_received (jni_call_user (J := jvm_view)) m 0) droid_session (fun _ w' =>
    let calls := v_calls (jview (get_jni (J := jvm_view) droid_session)) in
    let calls' := v_calls (jview (get_jni (J := jvm_view) w')) in
    frame_of (get_jni (J := jvm_view) w') = frame_of droid_bridge /\ jni_ok (get_jni (J := jvm_view) w') /\
    (opens (secret_key (g_identity (get_ffi droid_session))) (sender_pubkey m) (msg_payload m) demo_text ->
     calls' = calls ++ (if enters (get_jni (J := jvm_view) droid_session)
                        then [(7, 1, sender_pubkey m, demo_text)] else []) \/
     (~ never_oom droid_session /\ calls' = calls)) /\
    ((forall pt', ~ opens (secret_key (g_identity (get_ffi droid_session))) (sender_pubkey m) (msg_payload m) pt') ->
     calls' = calls)).
Proof.
  intros m.
  apply (jni_delivery_reaches_listener (J := jvm_view) m 0 droid_session
           (frame_of droid_bridge) 4096 demo_text 7 1).
  - apply droid_inv_holds.
  - apply (bool_decide_unpack _). vm_compute. exact I.
  - reflexivity.
  - reflexivity.
  - reflexivity.
  - reflexivity.
  - reflexivity.
Defined.

(** The same from a thread the machine does not know. *)
Example detached_delivery :
  match on_message_received (jni_call_user (J := jvm_view)) (contents demo_inbound) 0
          (set_jni (set_jvm (set_attached false droid_vm) droid_bridge) droid_session) with
  | Val (_, w) => v_calls (jview (get_jni (J := jvm_view) w)) =
                    [(7, 1, sender_pubkey (contents demo_inbound), demo_text)] /\
                  v_attached (jview (get_jni (J := jvm_view) w)) = false
  | _ => False
  end.
Proof. vm_compute. split; reflexivity. Qed.

Lemma jni_send_exact_witness :
  wp (BitChatCore.sendMessage (J := jvm_view) (Some 1) (Some 2) droid_objects) droid_session
    (fun '(rc, o') w' =>
    bridge_stays (J := jvm_view) demo_base droid_objects droid_session o' w' /\
    frame_of (get_jni (J := jvm_view) w') = frame_of (get_jni (J := jvm_view) droid_session) /\
    if bool_decide (zlen (replicate 32 4) = 32 /\ 0 < zlen demo_text)
    then jni_sent (J := jvm_view) droid_objects o' (replicate 32 4) demo_text droid_session rc w'
    else rc = BC_ERR_INVALID /\ o' = droid_objects /\ w' = droid_session).
Proof.
  apply (jni_send_exact (J := jvm_view) demo_base droid_objects droid_session 1 2 (replicate 32 4) demo_text).
  - exact droid_inv_holds.
  - vm_compute. reflexivity.
  - vm_compute. reflexivity.
  - reflexivity.
Defined.

Lemma jni_poll_exact_witness :
  wp (BitChatCore.pollMessages (J := jvm_view)) droid_session (fun r w' =>
    bridge_stays (J := jvm_view) demo_base droid_objects droid_session droid_objects w' /\
    match queue droid_session with
    | [] => r = None /\ queue w' = [] /\
        frame_of (get_jni (J := jvm_view) w') = frame_of (get_jni (J := jvm_view) droid_session)
    | b :: q => queue w' = q /\
        jni_polled (J := jvm_view) (g_identity (get_ffi droid_session)) (contents b) r droid_session w'
    end).
Proof.
  apply (jni_poll_exact (J := jvm_view) demo_base droid_objects droid_session).
  exact droid_inv_holds.
Defined.

Lemma unload_releases_listener_witness :
  wp JNI_OnUnload droid_bridge (fun _ s' =>
    jni_ok s' /\ g_jvm s' = false /\ g_listener_ref s' = None /\
    v_globals (jview s') = others droid_bridge /\ v_locals (jview s') = v_locals (jview droid_bridge) /\
    v_pins (jview s') = v_pins (jview droid_bridge) /\
    jni_on_message_callback [] [] 0 s' = Val (tt, s')).
Proof.
  apply (unload_releases_listener droid_bridge [] [] 0).
  - exact droid_bridge_ok.
  - reflexivity.
Defined.

(** A machine without memory. *)
Definition full_vm : jvm_view := mkJvm true false (v_locals droid_vm) {[7]} {[1]} ∅ false [].

Lemma callback_out_of_memory_witness :
  jni_on_message_callback (replicate 32 4) demo_text 2 (mkJni true false (Some 7) (Some 1) full_vm) = UB.
Proof.
  apply (callback_out_of_memory (mkJni true false (Some 7) (Some 1) full_vm) 7 1 (set_pending true full_vm)).
  - reflexivity.
  - reflexivity.
  - reflexivity.
  - reflexivity.
  - split; reflexivity.
  - vm_compute. reflexivity.
Defined.

Lemma send_out_of_memory_witness :
  BitChatCore.sendMessage (J := jvm_view) (Some 1) (Some 2) droid_objects
    (set_jni (mkJni true false (Some 7) (Some 1) full_vm) droid_session) = UB.
Proof.
  apply (send_out_of_memory (J := jvm_view) (set_jni (mkJni true false (Some 7) (Some 1) full_vm) droid_session)
           droid_objects 1 2 (replicate 32 4) demo_text (set_pending true full_vm)).
  - split; reflexivity.
  - vm_compute. reflexivity.
  - vm_compute. reflexivity.
  - reflexivity.
  - reflexivity.
  - vm_compute. reflexivity.
Defined.

(** Polling in the demonstration world returns the peer's key and the text. *)
Example droid_polls :
  match BitChatCore.pollMessages (J := jvm_view) droid_session with
  | Val (Some a, w) => v_locals (jview (get_jni (J := jvm_view) w)) !! a = Some (JBytes (pubkey demo_peer ++ demo_text))
  | _ => False
  end.
Proof. vm_compute. reflexivity. Qed.
