(* ===== verification/JniLifecycle.v ===== *)
(** * JniLifecycle: the Android bridge from [init] to [shutdown]

    The whole life of the library as an Android application sees it: [init]
    with a Java string, any sequence of native methods, [shutdown]. *)
From stdpp Require Import strings.
From S2P Require Import Prelude Effects Errors Sodium Message Peer Ports Sockets World StubTransports Identity.
From S2P Require Import CryptoManager Sealing Discovery Sqlite SqliteStorage SqliteStorageSpec.
From S2P Require Import SqliteStorageProps SqliteLifecycle Session Dedup Router RouterSpec.
From S2P Require Import Ffi FfiSpec FfiApi FfiDemo FfiProps FfiLifecycle Jvm Jni JniSpec JniApi JniDemo JniProps.

Section lifecycle.
Context {W J E : Type} `{!HasOS W} `{I : !WorldInv W}.
Context `{!HasSql W E, !Sqlite E, !SqliteSpec E, !SqlFree W E, !HasFfi W, !FfiWorld W, !FfiSql W E}.
Context `{!Jvm J, !JvmSpec J, !HasJni W J, !JniFree W J, !JniSql W J E}.
Context `{Hna : !Sodium} `{!SodiumSpec _}.
Implicit Types (w : W) (o : g_objects W) (s : jni_state J).

Abbreviation frame_in w := (frame_of (get_jni (J := J) w)).
Abbreviation cb := (jni_call_user (J := J)).

Lemma dbv_set_jni s w : dbv (E := E) (set_jni s w) = dbv w.
Proof. unfold dbv. by rewrite get_sql_set_jni. Qed.

Lemma owned_set_jni s w : owned (set_jni s w) = owned w.
Proof. apply set_jni_balanced. Qed.

(** Changing the bridge's state does not change what the C API holds. *)
Lemma closed_set_jni s w : closed w -> jni_ok s -> @closed W _ (at_frame (frame_of s)) _ (set_jni s w).
Proof.
  intros (Hok & Hq & Hi) Hs. unfold closed, queue in *. rewrite get_ffi_set_jni.
  split; [by apply set_jni_at|done].
Qed.

Lemma closed_weaken f w : @closed W _ (at_frame (J := J) f) _ w -> closed w.
Proof. intros (Hok & H). destruct (weaken_heap _ _ _ _ Hok) as [HokI _]. by split. Qed.

Lemma storage_open_jni v0 st ctx s w :
  storage_open (E := E) v0 st ctx w -> storage_open (E := E) v0 st ctx (set_jni s w).
Proof. apply storage_open_ext, dbv_set_jni. Qed.

Lemma api_open_jni base v0 o ctx s w :
  api_open (E := E) base v0 o ctx w -> api_open (E := E) base v0 o ctx (set_jni s w).
Proof.
  intros ((st & Hst & Hso) & H). unfold api_open. rewrite owned_set_jni. split; [|done].
  exists st. split; [done|]. by apply storage_open_jni.
Qed.

Lemma opened_jni w0 o s w : opened (E := E) w0 o w -> opened (E := E) w0 o (set_jni s w).
Proof.
  unfold opened, rows_of. rewrite get_ffi_set_jni, dbv_set_jni.
  intros (H1 & H2 & H3 & H4 & H5 & ctx & Ha & Hc). split_and!; try done. exists ctx.
  split; [by apply api_open_jni|done].
Qed.

Lemma opened_from w0 s o w : opened (E := E) (set_jni s w0) o w -> opened (E := E) w0 o w.
Proof. unfold opened, rows_of. by rewrite owned_set_jni, dbv_set_jni. Qed.

Context (mutex_init_rc : W -> Z).

(** What [init] leaves. *)
Lemma wp_jni_init a path w :
  closed w -> jni_ok (get_jni (J := J) w) -> v_attached (jview (get_jni (J := J) w)) = true ->
  v_locals (jview (get_jni (J := J) w)) !! a = Some (JString path) ->
  wp (BitChatCore.init (J := J) (E := E) mutex_init_rc (Some a) no_objects) w (fun '(rc, o) w' =>
    advances w w' /\ jni_ok (get_jni (J := J) w') /\ frame_in w' = frame_in w /\
    ((rc = BC_OK /\ opened (E := E) w o w') \/ (rc <> BC_OK /\ not_opened (E := E) path w o w'))).
Proof.
  intros Hcl Hj Hatt Ha. unfold BitChatCore.init. apply wp_bind, wp_on_jni.
  destruct (get_chars_spec a path (jvm (get_jni w))) as ([[p d]|] & j1 & He1 & H1);
    [split; [done|apply Hj]|done|..]; cbn in H1.
  2: { destruct Hj as (_ & (Hr & _) & _). unfold jview in Hr. destruct H1. congruence. }
  destruct H1 as (Hp & -> & Hv1). eapply wp_jni; [exact He1|].
  destruct (repinned _ _ _ Hj Hv1) as [Hj1 Hf1]. set (s1 := set_jvm j1 (get_jni w)) in *.
  assert (Hcl1 := closed_set_jni s1 w Hcl Hj1). set (w1 := set_jni s1 w) in *.
  apply wp_bind.
  eapply wp_mono; [apply (@wp_init W E _ (at_frame (frame_of s1)) _ _ _ (at_frame_sql_free _ _) _
    (at_frame_ffi _) _ mutex_init_rc Hna path w1 Hcl1)|].
  intros [rc o] w2 [Ha2 Hres].
  assert (Hok2 : @heap_ok W _ (at_frame (frame_of s1)) w2) by (eapply advances_heap_ok; [exact Ha2|apply Hcl1]).
  destruct (weaken_heap _ _ _ _ Hok2) as [HokI2 [Hj2 Hf2]].
  assert (Hp2 : p ∈ v_pins (jv (jvm (get_jni w2)))).
  { change (p ∈ f_pins (frame_in w2)). rewrite Hf2, Hf1. cbn. clear. set_solver. }
  destruct (release_chars_spec a p (jvm (get_jni w2))) as (j3 & He3 & Hv3); [|done|].
  { change (f_attached (frame_in w2) = true). by rewrite Hf2, Hf1. }
  apply wp_bind, wp_on_jni. eapply wp_jni_unit; [exact He3|]. apply wp_ret.
  destruct (repinned _ _ _ Hj2 Hv3) as [Hj3 Hf3]. set (s3 := set_jvm j3 (get_jni w2)) in *.
  assert (Ha02 : advances w w2).
  { eapply advances_trans; [apply (set_jni_balanced s1 w)|]. eapply weaken_advances; [apply Hcl1|exact Ha2]. }
  split; [eapply advances_trans; [exact Ha02|apply set_jni_balanced]|]. rewrite get_set_jni. split; [done|].
  split.
  { rewrite Hf3. change (v_pins (jv (jvm (get_jni w2)))) with (f_pins (frame_in w2)). rewrite Hf2, Hf1.
    apply (with_pins_id _ (frame_in w)). cbn. unfold jview. clear -Hp. set_solver. }
  destruct Hres as [[-> Hop]|[Hrc (Ho & Hc & How & Hdb)]]; [left|right]; split; try done.
  - apply opened_jni. exact (opened_from w s1 o w2 Hop).
  - split; [done|]. split; [|split].
    + apply closed_weaken in Hc. eapply closed_weaken, closed_set_jni; done.
    + rewrite owned_set_jni. etrans; [exact How|]. apply (owned_set_jni s1 w).
    + rewrite dbv_set_jni. unfold rows_of in *. unfold w1 in Hdb. by rewrite dbv_set_jni in Hdb.
Qed.
(** ** The session *)

(** While the library is open the bridge runs in worlds in which the storage
    adapter is in use. *)
Lemma in_session_jni c v1 : @JniFree W J _ (in_session (E := E) c v1) _ _.
Proof.
  intros s w [Hw He]. split; [by apply world_ok_set_jni|].
  unfold engaged, Session.session in *. by rewrite dbv_set_jni.
Qed.

Lemma opened_bridge w0 o ctx w :
  heap_ok w -> jni_ok (get_jni (J := J) w) -> v_attached (jview (get_jni (J := J) w)) = true ->
  opened (E := E) w0 o w -> api_open (owned w0) (dbv (E := E) w0) o ctx w ->
  ctx_ok (contents ctx) (dbv (E := E) w) -> Forall row_wf (rows_of (E := E) w) ->
  @bridge_inv W J _ (in_session (E := E) (contents ctx) (dbv w)) _ _ _ Hna (adapter_blocks o ctx ∪ owned w0) o w.
Proof.
  intros Hok Hj Hatt (Hinit & Hm & Hr & Hd & Ht & _) ((st & Hst & Hso) & _ & _ & _ & _ & Hdis & _ & Hown) Hctx Hrows.
  set (I' := in_session (E := E) (contents ctx) (dbv w)).
  assert (Hcs : contents st = sqlite_storage (E := E) (addr st) ctx) by apply Hso.
  assert (Hsteady : @adapters_steady W J _ I' _ _ _ o).
  { intros f. split; [intros t Htt; rewrite (Ht t Htt); apply ble_safe|].
    intros x. rewrite Hst. intros [= <-]. rewrite Hcs.
    by apply (@sqlite_safe W E _ (@at_frame W J _ I' _ _ _ f) _ _ _ (contents ctx)
      (at_frame_sql (contents ctx) f (in_session_sql _ _))). }
  split; [|by split]. split; [apply strengthen_heap; [apply strengthen_heap; [done|by split]|by split]|].
  split; [done|]. split; [done|]. split; [|split; [exact Hown|exact Hdis]].
  split; [apply Hsteady|]. rewrite Hr, Hd. by split_and!.
Qed.

(** Releasing the listener before the shutdown. *)
Lemma wp_drop_listener {A} (k : M W A) w Q :
  jni_ok (get_jni (J := J) w) -> v_attached (jview (get_jni (J := J) w)) = true ->
  (forall s, rewired (get_jni w) s -> g_listener_ref s = None -> wp k (set_jni s w) Q) ->
  wp (on_jni (J := J) lock_listener;; on_jni (J := J) release_listener;;
      on_jni (J := J) unlock_listener;; k) w Q.
Proof.
  intros Hj Hatt HQ. assert (Hj' := Hj). destruct Hj' as (Hm & (Hr & Hp & Hlo) & Hlok).
  apply wp_bind, wp_on_jni, wp_lock_listener; [done|]. apply wp_bind, wp_on_jni. rewrite get_set_jni.
  assert (Hrel : wp (release_listener;; mret tt) (set_listener_mutex true (get_jni (J := J) w)) (fun _ s =>
    exists mt j, s = mkJni (g_jvm (get_jni (J := J) w)) true None mt j /\
      (forall m, mt = Some m -> m ∈ v_methods (jview (get_jni (J := J) w))) /\
      jv j = set_globals (others (get_jni (J := J) w)) (jview (get_jni (J := J) w)))).
  { apply wp_release_listener; [done|done|]. intros mt j Hmt Hv. apply wp_ret. by exists mt, j. }
  unfold wp, mbind, M_bind in Hrel. unfold wp at 1. destruct (release_listener _) as [[[] s]| |]; [|done|done].
  destruct Hrel as (mt & j & -> & Hmt & Hv). apply wp_bind, wp_on_jni. rewrite get_set_jni.
  apply wp_unlock_listener; [done|]. rewrite !set_set_jni. apply HQ; [|done].
  apply (rewired_intro (get_jni w) None mt j); rewrite ?Hv; try done. apply difference_empty_L.
Qed.

Definition jni_session (address : Z) (path : Z) (cs : list native_call) : M W (Z * g_objects W) :=
  '(rc, o) ← BitChatCore.init (J := J) (E := E) mutex_init_rc (Some path) no_objects;
  if bool_decide (rc = BC_OK) then
    o ← run_natives (J := J) address cs o;
    o ← BitChatCore.shutdown (J := J) o;
    mret (BC_OK, o)
  else mret (rc, o).

(** C10: nothing outlives the library on Android either.  Suppose the calls come
    from a thread of the virtual machine, the machine's memory never runs out
    (otherwise [sendMessage] and the callback are undefined,
    [send_out_of_memory] and [callback_out_of_memory]), the references passed
    are null or live and of the right kind and size, and the rows of the database have the
    shape the adapter writes.  Then [init], any sequence of native methods and
    [shutdown] are all defined and return, with deliveries to the listener on the
    way; afterwards the C API is as before [init] (every block freed, every
    database handle closed, the library ready to be initialized again), no
    listener is registered, and of the virtual machine's resources nothing is
    kept: the borrowed buffers are those of before and so are the global
    references that are not the bridge's own, no exception is pending, the mutex
    is free.  When [init] fails, the same holds at once, but for the connection
    that a failed [sqlite3_open_v2] on the given path hands out. *)
Theorem jni_session_restores address a path cs w :
  closed w -> Forall row_wf (rows_of (E := E) w) ->
  jni_ok (get_jni (J := J) w) -> v_attached (jview (get_jni (J := J) w)) = true ->
  v_locals (jview (get_jni (J := J) w)) !! a = Some (JString path) ->
  Forall (native_ok (frame_in w)) cs ->
  wp (jni_session address a cs) w (fun '(rc, o) w' =>
    o = no_objects /\ closed w' /\ owned w' = owned w /\ jni_ok (get_jni (J := J) w') /\
    frame_grows (frame_in w) (frame_in w') /\
    if bool_decide (rc = BC_OK)
    then same_handles (dbv (E := E) w) (dbv (E := E) w') /\ g_listener_ref (get_jni (J := J) w') = None /\
      secret_key (g_identity (get_ffi w')) = replicate 32 0
    else not_opened (E := E) path w o w').
Proof.
  intros Hcl Hrows Hj Hatt Ha Hcs. unfold jni_session. apply wp_bind.
  eapply wp_mono; [by apply (wp_jni_init a path)|].
  intros [rc o] w1 (Ha1 & Hj1 & Hf1 & [[-> Hop]|[Hrc Hno]]).
  2: { rewrite bool_decide_eq_false_2 by done. apply wp_ret. rewrite bool_decide_eq_false_2 by done.
       assert (Hno' := Hno). destruct Hno' as (-> & Hcl' & Ho' & _). by rewrite Hf1. }
  rewrite bool_decide_eq_true_2 by done. assert (Hok1 : heap_ok w1) by (eapply advances_heap_ok; [done|apply Hcl]).
  assert (Hop' := Hop). destruct Hop' as (_ & _ & _ & _ & _ & ctx & Hao & Hctx & Hr1).
  assert (Hatt1 : v_attached (jview (get_jni (J := J) w1)) = true)
    by (change (f_attached (frame_in w1) = true); by rewrite Hf1).
  assert (Hinv := opened_bridge w o ctx w1 Hok1 Hj1 Hatt1 Hop Hao Hctx ltac:(by rewrite Hr1)).
  apply wp_bind. eapply wp_mono.
  { apply (@wp_run_natives W J _ _ _ (in_session_ffi (contents ctx) (dbv w1)) _ _ _
      (in_session_jni (contents ctx) (dbv w1)) Hna _ address cs _ o w1 Hinv). by rewrite Hf1. }
  intros o2 w2 (((Hok2 & Hi2 & Hm2 & (_ & Hr2 & _ & Hrd2) & Hown2 & Hdis2) & _ & Hatt2) & Hf2 & Hsa & _).
  destruct (weaken_heap _ _ _ _ Hok2) as [Hok2' [Hj2 _]].
  destruct (weaken_heap _ _ _ _ Hok2') as [HokI2 (_ & Hh & _)].
  destruct (reopened w o ctx w1 o2 w2 Hao Hh Hsa ltac:(intros b Hb; apply (Hr2 b Hb)) Hrd2 Hown2 Hdis2)
    as (v1 & Hsame & Hao2).
  apply wp_bind. unfold BitChatCore.shutdown. apply wp_drop_listener; [done|done|].
  intros s3 Hrew Hnone. assert (Hj3 := proj1 Hrew). assert (Hf3 := rewired_grows _ _ Hrew).
  eapply wp_mono; [apply (@wp_api_shutdown W E _ (at_frame (frame_of s3)) _ _ _ (at_frame_sql_free _ _) _
    (at_frame_ffi _) _ (owned w) v1 o2 ctx (set_jni s3 w2));
    [by apply set_jni_at|by rewrite get_ffi_set_jni|by rewrite get_ffi_set_jni|by apply api_open_jni]|].
  intros o3 w3 [Hsd Hok3]. apply wp_ret.
  assert (Hcl3 := closed_weaken _ _ (shut_down_closed _ _ _ _ _ Hsd Hok3)).
  destruct (weaken_heap _ _ _ _ Hok3) as [HokI3 [Hj4 Hf4]].
  destruct Hsd as (-> & _ & Ho3 & _ & Hv3 & _ & _ & Hsec & _).
  split; [done|]. split; [done|]. split; [exact Ho3|]. split; [done|].
  rewrite Hf4. split; [rewrite <- Hf1; by etrans|]. rewrite bool_decide_eq_true_2 by done.
  rewrite Hv3. split; [done|]. split; [|done].
  change (f_listener (frame_in w3) = None). by rewrite Hf4.
Qed.
End lifecycle.

(** ** Witnesses *)

#[local] Existing Instance toy_sodium.
#[local] Instance droid_free : ExtInv droid := droid_inv (fun _ => True).
#[local] Instance droid_free_ffi : FfiWorld (world droid) := droid_ffi_world _.
#[local] Instance droid_free_jni : JniFree (world droid) jvm_view := droid_jni_free _.
#[local] Instance droid_free_sql : SqlFree (world droid) db_view.
Proof. split; [by intros x w [Hq [_ Hf]]|done|intros x w; cbn; reflexivity]. Qed.

(** The application starts: the library is loaded, Java holds a path, a key, a
    text and an object with the listener's method. *)
Definition starting_vm : jvm_view :=
  mkJvm true false (<[5 := JString "/data/bitchat.db"]> (v_locals droid_vm)) ∅ ∅ ∅ true [].
Definition droid_started : world droid :=
  demo_world 5 [] (mkDroid (mkApp empty_db g_state0) (mkJni true false None None starting_vm)).

Definition droid_life : list native_call :=
  [NGenerate; NSetCallback (Some 3); NDiscover; NSend (Some 1) (Some 2); NTick; NPoll].

Lemma jni_session_restores_witness :
  wp (jni_session (J := jvm_view) (fun _ => 0) 4096 5 droid_life) droid_started (fun '(rc, o) w' =>
    o = no_objects /\ closed w' /\ owned w' = owned droid_started /\ jni_ok (get_jni (J := jvm_view) w') /\
    frame_grows (frame_of (get_jni (J := jvm_view) droid_started)) (frame_of (get_jni (J := jvm_view) w')) /\
    if bool_decide (rc = BC_OK)
    then same_handles (dbv droid_started) (dbv w') /\ g_listener_ref (get_jni (J := jvm_view) w') = None /\
      secret_key (g_identity (get_ffi w')) = replicate 32 0
    else not_opened "/data/bitchat.db" droid_started o w').
Proof.
  apply (jni_session_restores (J := jvm_view) (fun _ => 0) 4096 5 "/data/bitchat.db" droid_life droid_started).
  - split; [|split; [reflexivity|split; [done|done]]]. exact (proj1 started_closed).
  - constructor.
  - split; [done|]. split; [split; [done|split; [done|]]|done].
    apply map_Forall_insert_2; [done|]. apply droid_bridge_ok.
  - reflexivity.
  - reflexivity.
  - repeat constructor; try intros ? [= <-]; first [by eexists|eexists; split; [vm_compute; reflexivity|vm_compute; congruence]].
Defined.

(** Such a session succeeds, and nothing is left in use. *)
Example jni_session_runs :
  match jni_session (J := jvm_view) (fun _ => 0) 4096 5 [NGenerate; NSetCallback (Some 3)] droid_started with
  | Val (rc, _, w) => rc = BC_OK /\ os_live (get_os w) = ∅ /\
      v_globals (jview (get_jni (J := jvm_view) w)) = ∅ /\ v_pins (jview (get_jni (J := jvm_view) w)) = ∅
  | _ => False
  end.
Proof. vm_compute. by split. Qed.
