(* ===== verification/Hex.v ===== *)
(** * Hex: the hexadecimal conversions of the command-line node

    Models [bytes_to_hex] and [hex_to_bytes] of [src/cli/main.c], and the C
    strings they work on.  A [char] is its code; a C string is the list of its
    characters without the terminating NUL. *)
From stdpp Require Import strings.
From S2P Require Import Prelude.

(** ** C strings *)

(** The characters of a literal. *)
Definition str (s : string) : list Z := (fun a => Z.of_N (Ascii.N_of_ascii a)) <$> String.list_ascii_of_string s.

(** The string a [char *] to this memory denotes: the characters before the
    first NUL. *)
Fixpoint c_str (l : list Z) : list Z :=
  match l with
  | [] => []
  | c :: l' => if bool_decide (c = 0) then [] else c :: c_str l'
  end.

(** ** The conversions *)

Definition hex_chars : list Z := str "0123456789abcdef".

(** [n] bytes from index [i] on. *)
Fixpoint bytes_to_hex_loop (data : list Z) (n : nat) (i : Z) (out : list Z) : res (list Z) :=
  match n with
  | O => Val out
  | S n' =>
      d ← arr_get data i;
      hi ← arr_get hex_chars (Z.land (Z.shiftr d 4) 15);
      out ← arr_set out (i * 2) hi;
      lo ← arr_get hex_chars (Z.land d 15);
      out ← arr_set out (i * 2 + 1) lo;
      bytes_to_hex_loop data n' (i + 1) out
  end.

Definition bytes_to_hex (data : list Z) (len : Z) (out : list Z) : res (list Z) :=
  out ← bytes_to_hex_loop data (Z.to_nat len) 0 out;
  arr_set out (len * 2) 0.

(** The code's test of a character: ['0'..'9'], ['a'..'f'] or ['A'..'F']. *)
Definition is_hex (c : Z) : Prop := 48 <= c <= 57 \/ 97 <= c <= 102 \/ 65 <= c <= 70.
#[export] Instance is_hex_dec c : Decision (is_hex c).
Proof. unfold is_hex. apply _. Defined.

(** What [sscanf("%02x")] makes of two such characters. *)
Definition hex_value (c : Z) : Z :=
  if bool_decide (c <= 57) then c - 48 else if bool_decide (c <= 70) then c - 55 else c - 87.

Fixpoint hex_to_bytes_loop (hex : list Z) (n : nat) (i : Z) (out : list Z) : res (Z * list Z) :=
  match n with
  | O => Val (0, out)
  | S n' =>
      c0 ← arr_get hex (i * 2);
      c1 ← arr_get hex (i * 2 + 1);
      if bool_decide (is_hex c0 /\ is_hex c1) then
        out ← arr_set out i (to_u8 (hex_value c0 * 16 + hex_value c1));
        hex_to_bytes_loop hex n' (i + 1) out
      else Val (-1, out)
  end.

(** The code and the buffer, for a NUL-terminated [hex]. *)
Definition hex_to_bytes (hex : list Z) (out : list Z) (out_len : Z) : res (Z * list Z) :=
  if bool_decide (zlen (c_str hex) <> to_u64 (out_len * 2)) then Val (-1, out) else
  hex_to_bytes_loop hex (Z.to_nat out_len) 0 out.

(** ** Specification *)

(** The digit of a value below 16. *)
Definition hex_digit (v : Z) : Z := if bool_decide (v < 10) then v + 48 else v + 87.

Definition to_hex (l : list Z) : list Z :=
  l ≫= fun b => [hex_digit (b / 16); hex_digit (b mod 16)].

Fixpoint of_hex (s : list Z) : list Z :=
  match s with
  | c0 :: c1 :: s' => hex_value c0 * 16 + hex_value c1 :: of_hex s'
  | _ => []
  end.

(** A character in lower case. *)
Definition lower (c : Z) : Z := if bool_decide (65 <= c <= 90) then c + 32 else c.

(** ** Lemmas *)

Lemma to_hex_length l : length (to_hex l) = (2 * length l)%nat.
Proof. unfold to_hex. induction l as [|b l IH]; [done|]. cbn in *. rewrite IH. lia. Qed.

(** A NUL ends the string. *)
Lemma c_str_cut l rest : c_str (l ++ 0 :: rest) = c_str l.
Proof. induction l as [|c l IH]; cbn; [done|]. by rewrite IH. Qed.

Lemma c_str_id l : (0 ∉ l) -> c_str l = l.
Proof.
  induction l as [|c l IH]; intros Hn; cbn; [done|].
  apply not_elem_of_cons in Hn as [Hc Hn]. rewrite bool_decide_eq_false_2 by done. by rewrite IH.
Qed.

Lemma c_str_app l rest : (0 ∉ l) -> c_str (l ++ 0 :: rest) = l.
Proof. intros Hn. by rewrite c_str_cut, c_str_id. Qed.

Lemma c_str_no_nul l : 0 ∉ c_str l.
Proof.
  induction l as [|c l IH]; cbn; [apply not_elem_of_nil|].
  case_bool_decide; [apply not_elem_of_nil|]. by apply not_elem_of_cons.
Qed.

Lemma c_str_bytes l : bytes_ok l -> bytes_ok (c_str l).
Proof.
  unfold bytes_ok. induction 1 as [|c l Hc Hl IH]; cbn; [constructor|].
  case_bool_decide; [constructor|by constructor].
Qed.

Lemma c_str_length l : zlen (c_str l) <= zlen l.
Proof.
  induction l as [|c l IH]; cbn; [done|]. case_bool_decide; unfold zlen in *; cbn; lia.
Qed.

(** The table holds the digits. *)
Lemma hex_chars_digit v : 0 <= v < 16 -> arr_get hex_chars v = Val (hex_digit v).
Proof.
  intros Hv. assert (Hc : v = 0 \/ v = 1 \/ v = 2 \/ v = 3 \/ v = 4 \/ v = 5 \/ v = 6 \/ v = 7 \/
    v = 8 \/ v = 9 \/ v = 10 \/ v = 11 \/ v = 12 \/ v = 13 \/ v = 14 \/ v = 15) by lia.
  repeat destruct Hc as [->|Hc]; try subst v; reflexivity.
Qed.

Lemma hex_digit_is_hex v : 0 <= v < 16 -> is_hex (hex_digit v) /\ hex_value (hex_digit v) = v.
Proof.
  intros Hv. unfold is_hex, hex_digit, hex_value. repeat case_bool_decide; lia.
Qed.

Lemma hex_value_range c : is_hex c -> 0 <= hex_value c < 16 /\ hex_digit (hex_value c) = lower c.
Proof.
  unfold is_hex, hex_value, hex_digit, lower. intros Hc. repeat case_bool_decide; lia.
Qed.

Lemma nibbles b : is_u8 b ->
  Z.land (Z.shiftr b 4) 15 = b / 16 /\ Z.land b 15 = b mod 16 /\
  0 <= b / 16 < 16 /\ 0 <= b mod 16 < 16.
Proof.
  unfold is_u8. intros Hb. change 15 with (Z.ones 4). rewrite !Z.land_ones by lia.
  rewrite Z.shiftr_div_pow2 by lia. change (2 ^ 4) with 16.
  assert (H := Z.mod_pos_bound b 16 ltac:(lia)).
  assert (0 <= b / 16 < 16) by (split; [apply Z.div_pos; lia|apply Z.div_lt_upper_bound; lia]).
  rewrite Z.mod_small by done. done.
Qed.

Lemma to_hex_no_nul l : bytes_ok l -> 0 ∉ to_hex l.
Proof.
  intros Hl H0. apply list_elem_of_bind in H0 as (b & H0 & Hb).
  unfold bytes_ok in Hl. rewrite Forall_forall in Hl. destruct (nibbles b (Hl b Hb)) as (_ & _ & H1 & H2).
  assert (Hd : forall v, 0 <= v < 16 -> hex_digit v <> 0)
    by (intros v Hv; unfold hex_digit; case_bool_decide; lia).
  apply elem_of_cons in H0 as [H0|H0]; [by apply (Hd _ H1)|].
  apply list_elem_of_singleton in H0. by apply (Hd _ H2).
Qed.

(** The element after a prefix. *)
Lemma arr_set_at {A} (pre : list A) x z rest i :
  zlen pre = i -> arr_set (pre ++ x :: rest) i z = Val (pre ++ z :: rest).
Proof.
  intros Hi. rewrite arr_set_ok by zlen_lia. subst i. unfold zlen.
  rewrite Nat2Z.id, insert_app_r_alt, Nat.sub_diag by done. done.
Qed.

Lemma arr_get_at {A} (pre : list A) x rest i :
  zlen pre = i -> arr_get (pre ++ x :: rest) i = Val x.
Proof.
  intros <-. apply arr_get_ok; [apply zlen_nonneg|]. unfold zlen. rewrite Nat2Z.id.
  by rewrite list_lookup_middle.
Qed.

Lemma bytes_to_hex_loop_ok done_ todo pre rest :
  bytes_ok todo -> zlen pre = zlen done_ * 2 -> (2 * length todo <= length rest)%nat ->
  bytes_to_hex_loop (done_ ++ todo) (length todo) (zlen done_) (pre ++ rest) =
    Val (pre ++ to_hex todo ++ drop (2 * length todo) rest).
Proof.
  intros Ht. revert done_ pre rest. induction Ht as [|b todo Hb Ht IH]; intros dn pre rest Hp Hr; [done|].
  cbn [length bytes_to_hex_loop]. rewrite arr_get_at by done. cbn [mbind res_bind].
  destruct (nibbles b Hb) as (-> & -> & H1 & H2). rewrite !hex_chars_digit by done. cbn [mbind res_bind].
  destruct rest as [|x [|y rest]]; [cbn in Hr; lia|cbn in Hr; lia|].
  rewrite arr_set_at by done. cbn [mbind res_bind].
  change (pre ++ hex_digit (b / 16) :: y :: rest) with (pre ++ ([hex_digit (b / 16)] ++ y :: rest)).
  rewrite (assoc_L (++)), arr_set_at by zlen_lia. cbn [mbind res_bind].
  change (b :: todo) with ([b] ++ todo). rewrite (assoc_L (++) dn).
  replace (zlen dn + 1) with (zlen (dn ++ [b])) by (rewrite zlen_app; done).
  change (hex_digit (b mod 16) :: rest) with ([hex_digit (b mod 16)] ++ rest).
  rewrite (assoc_L (++) _ _ rest), IH; [|zlen_lia|cbn in Hr; lia].
  replace (2 * S (length todo))%nat with (S (S (2 * length todo))) by lia.
  by rewrite <- !(assoc_L (++)).
Qed.

(** Parsing from index [i] on: all of it, or -1 at the first other character. *)
Lemma hex_to_bytes_loop_ok (done_ todo extra pre rest : list Z) n :
  zlen done_ = zlen pre * 2 -> length todo = (2 * n)%nat -> length rest = n ->
  (Forall is_hex todo ->
   hex_to_bytes_loop (done_ ++ todo ++ extra) n (zlen pre) (pre ++ rest) = Val (0, pre ++ of_hex todo)) /\
  (~ Forall is_hex todo -> exists out,
   hex_to_bytes_loop (done_ ++ todo ++ extra) n (zlen pre) (pre ++ rest) = Val (-1, out) /\
   length out = length (pre ++ rest)).
Proof.
  revert done_ todo pre rest. induction n as [|n IH]; intros dn todo pre rest Hd Ht Hr.
  { destruct todo; [|done]. destruct rest; [|done]. split; [done|]. intros Hn. by destruct Hn. }
  destruct todo as [|c0 [|c1 todo]]; [cbn in Ht; lia|cbn in Ht; lia|].
  destruct rest as [|x rest]; [done|]. cbn [hex_to_bytes_loop].
  cbn [app]. rewrite (arr_get_at dn c0 _ _ Hd). cbn [mbind res_bind].
  assert (Hsnd : arr_get (dn ++ c0 :: c1 :: todo ++ extra) (zlen pre * 2 + 1) = Val c1).
  { rewrite (cons_middle c0), (assoc_L (++)). apply arr_get_at. zlen_lia. }
  rewrite Hsnd. cbn [mbind res_bind].
  case_bool_decide as Hc.
  2: { split; [intros Hf; destruct Hc; by inversion Hf as [|? ? ? Hf']; inversion Hf'|].
       intros _. by exists (pre ++ x :: rest). }
  destruct Hc as [H0 H1]. destruct (hex_value_range _ H0) as [Hv0 _], (hex_value_range _ H1) as [Hv1 _].
  rewrite arr_set_at by done. cbn [mbind res_bind]. rewrite to_u8_id by (unfold is_u8; lia).
  set (b := hex_value c0 * 16 + hex_value c1).
  replace (zlen pre + 1) with (zlen (pre ++ [b])) by (rewrite zlen_app; done).
  destruct (IH (dn ++ [c0; c1]) todo (pre ++ [b]) rest) as [IHy IHn].
  { zlen_lia. } { cbn in Ht. lia. } { cbn in Hr. lia. }
  rewrite <- !(assoc_L (++)) in IHy, IHn. cbn [app] in *.
  rewrite !Forall_cons. split.
  - intros (_ & _ & Hf). rewrite IHy by done. by rewrite <- (assoc_L (++)).
  - intros Hf. destruct IHn as (out & -> & Hl); [tauto|]. exists out. split; [done|].
    rewrite Hl, !length_app. done.
Qed.

Lemma of_to_hex l : bytes_ok l -> of_hex (to_hex l) = l.
Proof.
  unfold bytes_ok. induction 1 as [|b l Hb Hl IH]; [done|]. cbn in *.
  destruct (nibbles b Hb) as (_ & _ & H1 & H2).
  rewrite (proj2 (hex_digit_is_hex _ H1)), (proj2 (hex_digit_is_hex _ H2)). unfold to_hex in IH.
  rewrite IH. f_equal. rewrite (Z.div_mod b 16) at 3 by lia. lia.
Qed.

Lemma to_of_hex n s : length s = (2 * n)%nat -> Forall is_hex s -> to_hex (of_hex s) = lower <$> s.
Proof.
  revert s. induction n as [|n IH]; intros [|c0 [|c1 s]] Hl; try (cbn in Hl; lia); [done|].
  rewrite !Forall_cons. intros (H0 & H1 & Hs).
  destruct (hex_value_range _ H0) as [Hv0 Hd0], (hex_value_range _ H1) as [Hv1 Hd1].
  assert (IH' := IH s ltac:(cbn in Hl; lia) Hs). unfold to_hex in *. cbn. rewrite IH'.
  set (a := hex_value c0) in *. set (b := hex_value c1) in *.
  rewrite (Z.add_comm (a * 16)), Z.div_add, Z.mod_add by lia.
  rewrite Z.div_small, Z.mod_small, Z.add_0_l by lia. by rewrite Hd0, Hd1.
Qed.

Lemma of_hex_bytes s : Forall is_hex s -> bytes_ok (of_hex s).
Proof.
  unfold bytes_ok. revert s. fix IH 1. intros [|c0 [|c1 s]]; cbn; [constructor|constructor|].
  rewrite !Forall_cons. intros (H0 & H1 & Hs). split; [|by apply IH].
  destruct (hex_value_range _ H0) as [Hv0 _], (hex_value_range _ H1) as [Hv1 _]. unfold is_u8. lia.
Qed.

Lemma of_hex_length n s : length s = (2 * n)%nat -> length (of_hex s) = n.
Proof.
  revert s. induction n as [|n IH]; intros [|c0 [|c1 s]] Hl; try (cbn in Hl; lia); [done|].
  cbn. rewrite IH; [done|]. cbn in Hl. lia.
Qed.

(** Printing a buffer of bytes. *)
Lemma bytes_to_hex_ok data out :
  bytes_ok data -> 2 * zlen data < zlen out ->
  bytes_to_hex data (zlen data) out =
    Val (to_hex data ++ 0 :: drop (S (2 * length data)) out).
Proof.
  intros Hd Hl. unfold bytes_to_hex. replace (Z.to_nat (zlen data)) with (length data) by zlen_lia.
  assert (Hloop := bytes_to_hex_loop_ok [] data [] out Hd eq_refl).
  cbn [app] in Hloop. change (zlen []) with 0 in Hloop. rewrite Hloop by zlen_lia. cbn [mbind res_bind].
  destruct (drop (2 * length data) out) as [|x rest] eqn:He.
  { apply (f_equal length) in He. rewrite length_drop in He. cbn [length] in He. zlen_lia. }
  rewrite arr_set_at by (unfold zlen; rewrite to_hex_length; lia).
  do 3 f_equal. rewrite <- Nat.add_1_r, <- drop_drop, He. done.
Qed.

(** Parsing a NUL-terminated string, whatever follows the NUL. *)
Lemma hex_to_bytes_ok s extra out :
  (0 ∉ s) -> 2 * zlen out < 2 ^ 64 ->
  (length s = (2 * length out)%nat -> Forall is_hex s ->
     hex_to_bytes (s ++ 0 :: extra) out (zlen out) = Val (0, of_hex s)) /\
  (length s <> (2 * length out)%nat \/ ~ Forall is_hex s -> exists out',
     hex_to_bytes (s ++ 0 :: extra) out (zlen out) = Val (-1, out') /\ length out' = length out).
Proof.
  intros Hn Hb. unfold hex_to_bytes. rewrite c_str_app by done.
  rewrite to_u64_id by (unfold is_u64, zlen in *; lia).
  replace (Z.to_nat (zlen out)) with (length out) by zlen_lia.
  destruct (decide (length s = (2 * length out)%nat)) as [He|He].
  - rewrite bool_decide_eq_false_2 by (unfold zlen; lia).
    destruct (hex_to_bytes_loop_ok [] s (0 :: extra) [] out (length out)) as [Hy Hno]; try done.
    split; [by intros _|]. intros [?|Hf]; [done|by apply Hno].
  - rewrite bool_decide_eq_true_2 by (unfold zlen; lia). split; [done|]. intros _. by exists out.
Qed.
