(* ===== verification/Stdio.v ===== *)
(** * Stdio: standard streams and files

    What the command-line node uses of [stdio.h]: formatted output, line input
    and whole files.  The state keeps what was written to the two output
    streams, what is still to come on standard input, and the files.  Whether a
    call of [fopen] succeeds, for reading an existing file as for writing, how
    many bytes a file that was opened then delivers, and how many bytes the disk
    still takes, are oracles.  Output is the list of its characters' codes. *)
From stdpp Require Import strings pretty.
From S2P Require Import Prelude Effects Hex.

Record stdio : Type := mkStdio {
  io_out : list Z;                     (* written to stdout *)
  io_err : list Z;                     (* written to stderr *)
  io_in : list Z;                      (* still to be read from stdin *)
  io_files : gmap string (list Z);     (* the files and their contents *)
  io_room : nat;                       (* bytes the disk still takes *)
  io_opens : nat;                      (* calls of fopen so far *)
  io_opened : nat -> bool;             (* can the n-th fopen open its file? *)
  io_gives : nat -> nat                (* bytes that can be read from it, at most *)
}.

(** The streams and the files change; the oracles stay. *)
Definition io_streams (out err inp : list Z) (s : stdio) : stdio :=
  mkStdio out err inp (io_files s) (io_room s) (io_opens s) (io_opened s) (io_gives s).
Definition io_store (files : gmap string (list Z)) (room : nat) (s : stdio) : stdio :=
  mkStdio (io_out s) (io_err s) (io_in s) files room (io_opens s) (io_opened s) (io_gives s).
Definition io_next (s : stdio) : stdio :=
  mkStdio (io_out s) (io_err s) (io_in s) (io_files s) (io_room s) (S (io_opens s)) (io_opened s) (io_gives s).

(** A world with these streams and its laws. *)
Class HasStdio (W : Type) `{!HasOS W} : Type := {
  get_io : W -> stdio;
  set_io : stdio -> W -> W;
  get_set_io : forall s w, get_io (set_io s w) = s;
  get_os_set_io : forall s w, get_os (set_io s w) = get_os w;
  get_io_set_os : forall o w, get_io (set_os o w) = get_io w;
  inbound_set_io : forall s w, inbound (set_io s w) = inbound w
}.

(** Input and files are bytes. *)
Definition io_ok (s : stdio) : Prop :=
  bytes_ok (io_in s) /\ map_Forall (fun _ l => bytes_ok l) (io_files s).

Class IoWorld (W : Type) `{!HasOS W, !WorldInv W, !HasStdio W} : Prop := {
  io_world_ok : forall w, world_ok w -> io_ok (get_io w);
  io_world_set : forall s w, world_ok w -> io_ok s -> world_ok (set_io s w);
  io_world_held : forall s w, held (set_io s w) = held w;
  io_world_evolves : forall s w, evolves w (set_io s w)
}.

(** The characters up to and including a newline, at most [n], and the rest. *)
Fixpoint split_line (n : nat) (l : list Z) : list Z * list Z :=
  match n, l with
  | S n', c :: l' =>
      if bool_decide (c = 10) then ([c], l')
      else let '(a, b) := split_line n' l' in (c :: a, b)
  | _, _ => ([], l)
  end.

(** [%d], [%u] and [%zu]. *)
Definition fmt_d (z : Z) : list Z := str (pretty z).

Section calls.
Context {W : Type} `{!HasOS W, !HasStdio W}.

Definition io_update (f : stdio -> stdio) : M W unit := fun w => Val (tt, set_io (f (get_io w)) w).

(** [printf] and [fprintf(stderr)] of a formatted text. *)
Definition c_printf (s : list Z) : M W unit :=
  io_update (fun io => io_streams (io_out io ++ s) (io_err io) (io_in io) io).
Definition c_eprintf (s : list Z) : M W unit :=
  io_update (fun io => io_streams (io_out io) (io_err io ++ s) (io_in io) io).

(** [fgets(line, size, stdin)]: the characters stored before the final NUL, or
    NULL at the end of the input. *)
Definition c_fgets (size : Z) : M W (option (list Z)) := fun w =>
  let io := get_io w in
  match io_in io with
  | [] => Val (None, w)
  | _ => let '(line, rest) := split_line (Z.to_nat (size - 1)) (io_in io) in
         Val (Some line, set_io (io_streams (io_out io) (io_err io) rest io) w)
  end.

(** [fopen(path, "rb")], [fread(buf, 1, n)], [fclose]: [None] when there is no
    such file or it cannot be opened, else the bytes read. *)
Definition read_file (path : string) (n : Z) : M W (option (list Z)) := fun w =>
  let io := get_io w in
  Val (if io_opened io (io_opens io)
       then (fun f => take (Z.to_nat n) (take (io_gives io (io_opens io)) f)) <$> io_files io !! path
       else None,
       set_io (io_next io) w).

(** [fopen(path, "wb")], [fwrite], [fclose]: whether the file could be opened,
    which empties it.  What the disk does not take is not written. *)
Definition write_file (path : string) (data : list Z) : M W bool := fun w =>
  let io := get_io w in
  if io_opened io (io_opens io)
  then Val (true, set_io (io_next (io_store (<[path := take (io_room io) data]> (io_files io))
                                     (io_room io - length data) io)) w)
  else Val (false, set_io (io_next io) w).
End calls.

(** ** Rules *)

(** [s'] is a later state of the output streams, the rest as in [s]. *)
Definition prints (out err : list Z) (s s' : stdio) : Prop :=
  s' = io_streams (io_out s ++ out) (io_err s ++ err) (io_in s) s.

(** Standard output gained [out], and nothing else happened in the world. *)
Definition said {W} `{!HasOS W, !HasStdio W} (out : list Z) (w w' : W) : Prop :=
  exists s, prints out [] (get_io w) s /\ w' = set_io s w.

Lemma split_line_app n l : (split_line n l).1 ++ (split_line n l).2 = l.
Proof.
  revert l. induction n as [|n IH]; intros [|c l]; cbn; try done.
  case_bool_decide; [done|]. assert (Hl := IH l). destruct (split_line n l). cbn in *. by rewrite Hl.
Qed.

Lemma split_line_length n l : (length (split_line n l).1 <= n)%nat.
Proof.
  revert l. induction n as [|n IH]; intros [|c l]; cbn; try lia.
  case_bool_decide; [cbn; lia|]. assert (Hl := IH l). destruct (split_line n l). cbn in *. lia.
Qed.

Section rules.
Context {W : Type} `{!HasOS W, !WorldInv W, !HasStdio W, !IoWorld W}.
Implicit Types w : W.

Lemma set_io_balanced s w : (io_ok (get_io w) -> io_ok s) -> balanced w (set_io s w).
Proof.
  intros Hs. apply same_os_balanced; [apply get_os_set_io|by rewrite inbound_set_io|
    apply io_world_held|apply io_world_evolves|].
  intros Hw. apply io_world_set; [done|]. by apply Hs, io_world_ok.
Qed.

Lemma prints_refl (s : stdio) : prints [] [] s s.
Proof. unfold prints. rewrite !app_nil_r. by destruct s. Qed.

Lemma prints_trans o1 e1 o2 e2 s1 s2 s3 :
  prints o1 e1 s1 s2 -> prints o2 e2 s2 s3 -> prints (o1 ++ o2) (e1 ++ e2) s1 s3.
Proof. unfold prints. intros -> ->. cbn. by rewrite !app_assoc. Qed.

Lemma wp_printf s w (Q : unit -> W -> Prop) :
  (forall w', balanced w w' -> prints s [] (get_io w) (get_io w') -> Q tt w') -> wp (c_printf s) w Q.
Proof.
  intros HQ. apply HQ; [by apply set_io_balanced|]. unfold prints.
  by rewrite get_set_io, app_nil_r.
Qed.

Lemma wp_said s w (Q : unit -> W -> Prop) :
  (forall w', balanced w w' -> said s w w' -> Q tt w') -> wp (c_printf s) w Q.
Proof.
  intros HQ. apply HQ; [by apply set_io_balanced|]. eexists. split; [|done].
  unfold prints. by rewrite app_nil_r.
Qed.

Lemma wp_eprintf s w (Q : unit -> W -> Prop) :
  (forall w', balanced w w' -> prints [] s (get_io w) (get_io w') -> Q tt w') -> wp (c_eprintf s) w Q.
Proof.
  intros HQ. apply HQ; [by apply set_io_balanced|]. unfold prints.
  by rewrite get_set_io, app_nil_r.
Qed.

(** A line is read: a prefix of the input of at most [n - 1] characters. *)
Lemma wp_fgets n w (Q : option (list Z) -> W -> Prop) :
  heap_ok w ->
  (io_in (get_io w) = [] -> Q None w) ->
  (forall line w', balanced w w' -> bytes_ok line -> (zlen line <= Z.max 0 (n - 1)) ->
     io_in (get_io w) = line ++ io_in (get_io w') -> Q (Some line) w') ->
  wp (c_fgets n) w Q.
Proof.
  intros Hok HN HS. unfold wp, c_fgets. destruct (io_in (get_io w)) as [|c l] eqn:He; [by apply HN|].
  assert (Happ := split_line_app (Z.to_nat (n - 1)) (c :: l)).
  assert (Hlen := split_line_length (Z.to_nat (n - 1)) (c :: l)).
  destruct (io_world_ok w (heap_world_ok _ Hok)) as [Hin Hf].
  destruct (split_line _ _) as [line rest]. cbn [fst snd] in *. rewrite He in Hin.
  rewrite <- Happ in Hin. apply bytes_ok_app in Hin as [Hl Hr]. apply HS; [|done|zlen_lia|].
  - apply set_io_balanced. by intros [_ ?].
  - by rewrite get_set_io.
Qed.

Lemma wp_read_file path n w (Q : option (list Z) -> W -> Prop) :
  let io := get_io w in
  (forall w', balanced w w' -> get_io w' = io_next io ->
     Q (if io_opened io (io_opens io)
        then (fun f => take (Z.to_nat n) (take (io_gives io (io_opens io)) f)) <$> io_files io !! path
        else None) w') ->
  wp (read_file path n) w Q.
Proof. intros io HQ. apply HQ; [by apply set_io_balanced|apply get_set_io]. Qed.

Lemma wp_write_file path data w (Q : bool -> W -> Prop) :
  let io := get_io w in
  bytes_ok data ->
  (forall w', balanced w w' -> get_io w' = io_next io -> io_opened io (io_opens io) = false -> Q false w') ->
  (forall w', balanced w w' -> io_opened io (io_opens io) = true ->
     get_io w' = io_next (io_store (<[path := take (io_room io) data]> (io_files io))
                            (io_room io - length data) io) ->
     Q true w') ->
  wp (write_file path data) w Q.
Proof.
  intros io Hd HN HS. unfold wp, write_file. fold io. destruct (io_opened _ _) eqn:Hw.
  - apply HS; [|done|apply get_set_io]. apply set_io_balanced. intros [Hin Hf].
    split; [done|]. apply map_Forall_insert_2; [by apply bytes_ok_take|done].
  - apply HN; [by apply set_io_balanced|apply get_set_io|done].
Qed.
End rules.
