(* ===== verification/Cli.v ===== *)
(** * Cli: the command-line node

    Models [src/cli/main.c]: the message callback, the commands, start-up with
    its error paths, the two threads and the shutdown.

    The two threads share the router without a lock.  The model interleaves
    them at the granularity of one call of the router (a whole tick, a whole
    command): [main_step] is one step of the main thread, [tick_step] one of the
    background thread, [signal_handler] may come between any two, and [run]
    executes a schedule.  A step of the main thread ends before it would block
    in [fgets].  [g_identity] is written during start-up, before the router
    exists, and wiped after both are gone, so the callback and the commands
    take it as an argument. *)
From stdpp Require Import strings pretty.
From S2P Require Import Prelude Effects Errors Sodium Message Peer Ports Sockets UdpTransport.
From S2P Require Import Identity CryptoManager Discovery Sqlite SqliteStorage Dedup Router Hex Stdio.

(** A newline. *)
Definition nl : list Z := [10].

(** Leading blanks, as [isspace] has them. *)
Fixpoint skip_space (s : list Z) : list Z :=
  match s with
  | c :: s' => if bool_decide (c = 32 \/ 9 <= c <= 13) then skip_space s' else s
  | [] => []
  end.

(** The number that [s] starts with. *)
Fixpoint digits (s : list Z) (acc : Z) : Z :=
  match s with
  | c :: s' => if bool_decide (48 <= c <= 57) then digits s' (acc * 10 + (c - 48)) else acc
  | [] => acc
  end.

(** [atoi(s)]: undefined when the number is not an [int]. *)
Definition c_atoi (s : list Z) : res Z :=
  let s := skip_space s in
  let v := match s with
           | 45 :: s' => - digits s' 0
           | 43 :: s' => digits s' 0
           | _ => digits s 0
           end in
  if bool_decide (- 2 ^ 31 <= v < 2 ^ 31) then Val v else UB.

(** The loop over [argv[2..]]. *)
Fixpoint parse_ports (args : list (list Z)) : res (list Z) :=
  match args with
  | [] => Val []
  | a :: args' => v ← c_atoi a; l ← parse_ports args'; Val (to_u16 v :: l)
  end.

(** [while ( *text == ' ') text++]. *)
Fixpoint skip_blanks (s : list Z) : list Z :=
  match s with
  | c :: s' => if bool_decide (c = 32) then skip_blanks s' else s
  | [] => []
  end.

(** Where the main thread is: about to test [g_running], reading a line, in the
    loop of the headless relay, or past the loop. *)
Inductive main_pc : Type := AtTest | AtRead | AtRelay | Past.

(** The global variables of a running node. *)
Record node (W : Type) : Type := mkNode {
  g_running : Z;
  n_identity : bc_identity;
  n_transport : box (bc_transport W);
  n_storage : box (bc_storage W);
  n_router : box (bc_router W);
  n_pc : main_pc;
  n_ticking : bool                   (* the tick thread has not returned *)
}.
Arguments mkNode {W}.
Arguments g_running {W}.
Arguments n_identity {W}.
Arguments n_transport {W}.
Arguments n_storage {W}.
Arguments n_router {W}.
Arguments n_pc {W}.
Arguments n_ticking {W}.

Section setters.
Context {W : Type}.
Implicit Types s : node W.

Definition set_running (v : Z) s : node W :=
  mkNode v (n_identity s) (n_transport s) (n_storage s) (n_router s) (n_pc s) (n_ticking s).
Definition set_pc (pc : main_pc) s : node W :=
  mkNode (g_running s) (n_identity s) (n_transport s) (n_storage s) (n_router s) pc (n_ticking s).
Definition set_router (r : bc_router W) s : node W :=
  mkNode (g_running s) (n_identity s) (n_transport s) (n_storage s)
    (Box (addr (n_router s)) r) (n_pc s) (n_ticking s).
Definition set_ticking (b : bool) s : node W :=
  mkNode (g_running s) (n_identity s) (n_transport s) (n_storage s) (n_router s) (n_pc s) b.
End setters.

(** What happens next. *)
Inductive event : Type := EvMain | EvTick | EvSignal.

(** The database and the key file of a node. *)
Definition key_path (port : Z) : string := "node_" +:+ pretty port +:+ ".key".
Definition db_path (port : Z) : string := "node_" +:+ pretty port +:+ ".db".

Section cli.
Context {W E : Type} `{!HasOS W, !HasNet W, !HasSql W E, !Sqlite E, !Sodium, !HasStdio W}.

(** What [pthread_create] answers. *)
Context (pthread_create_rc : W -> Z).

(** ** The message callback *)

Definition on_message_received (id : bc_identity) (msg : bc_message) (userdata : Z) : M W unit :=
  match payload msg with
  | None => mret tt
  | Some pl =>
      if bool_decide (payload_len msg < BC_NONCE_SIZE + BC_TAG_SIZE) then mret tt else
      shared_key ← stack_buffer BC_SHARED_KEY_SIZE;
      '(rc, shared_key) ← lift (bc_crypto_derive_shared (Some (secret_key id))
                                  (Some (sender_pubkey msg)) (Some shared_key));
      if bool_decide (rc <> BC_OK) then mret tt else
      let nonce := contents pl in
      let ct := drop (Z.to_nat BC_NONCE_SIZE) (contents pl) in
      let ct_len := payload_len msg - BC_NONCE_SIZE in
      let pt_len := ct_len - BC_TAG_SIZE in
      plaintext ← c_malloc (to_u64 (pt_len + 1));
      match plaintext with
      | None => mret tt
      | Some plaintext =>
          '(rc, out) ← lift (bc_crypto_decrypt (Some ct) ct_len shared_key (Some nonce)
                               (Some (contents plaintext)));
          (if bool_decide (rc = BC_OK) then
             text ← lift (arr_set (default [] out) pt_len 0);
             sender_hex ← stack_buffer (BC_PUBKEY_SIZE * 2 + 1);
             sender_hex ← lift (bytes_to_hex (sender_pubkey msg) BC_PUBKEY_SIZE sender_hex);
             c_printf (nl ++ str "[PESAN MASUK dari " ++ c_str sender_hex ++ str "]:" ++ nl ++
                       str "  " ++ c_str text ++ nl ++ str "> ")
           else c_eprintf (str "[WARN] Decryption failed (rc=" ++ fmt_d rc ++ str ")" ++ nl));;
          c_free (Some (addr plaintext))
      end
  end.

(** ** The commands *)

Definition cmd_info (id : bc_identity) : M W unit :=
  hex ← stack_buffer (BC_PUBKEY_SIZE * 2 + 1);
  hex ← lift (bytes_to_hex (pubkey id) BC_PUBKEY_SIZE hex);
  c_printf (str "Public Key: " ++ c_str hex ++ nl).

(** [n] entries from [i] on. *)
Fixpoint peers_loop (peers : list bc_peer) (n : nat) (i : Z) : M W unit :=
  match n with
  | O => mret tt
  | S n' =>
      p ← lift (arr_get peers i);
      hex ← stack_buffer (BC_PUBKEY_SIZE * 2 + 1);
      hex ← lift (bytes_to_hex (peer_pubkey p) BC_PUBKEY_SIZE hex);
      c_printf (str "  [" ++ fmt_d i ++ str "] " ++ c_str hex ++ nl);;
      peers_loop peers n' (i + 1)
  end.

Definition cmd_peers (r : bc_router W) : M W unit :=
  if bool_decide (peer_count r = 0) then c_printf (str "(no peers)" ++ nl) else
  peers_loop (peers r) (Z.to_nat (peer_count r)) 0.

(** [args] is a C string; the result is the router. *)
Definition cmd_msg (id : bc_identity) (r : bc_router W) (args : list Z) : M W (bc_router W) :=
  if bool_decide (zlen args < BC_PUBKEY_SIZE * 2 + 2)
  then c_printf (str "Usage: /msg <64-char hex pubkey> <message text>" ++ nl);; mret r else
  hex_str ← lift (mem_read args 0 (BC_PUBKEY_SIZE * 2));
  recipient ← stack_buffer BC_PUBKEY_SIZE;
  '(rc, recipient) ← lift (hex_to_bytes (hex_str ++ [0]) recipient BC_PUBKEY_SIZE);
  if bool_decide (rc <> 0)
  then c_printf (str "Error: invalid hex public key" ++ nl);; mret r else
  let text := skip_blanks (drop (Z.to_nat (BC_PUBKEY_SIZE * 2)) args) in
  if bool_decide (text = [])
  then c_printf (str "Error: message text is empty" ++ nl);; mret r else
  let text_len := zlen text in
  shared_key ← stack_buffer BC_SHARED_KEY_SIZE;
  '(rc, shared_key) ← lift (bc_crypto_derive_shared (Some (secret_key id)) (Some recipient)
                              (Some shared_key));
  if bool_decide (rc <> BC_OK)
  then c_printf (str "Error: failed to derive shared key (rc=" ++ fmt_d rc ++ str ")" ++ nl);;
       mret r else
  let ct_len := to_u64 (text_len + BC_TAG_SIZE) in
  ciphertext ← c_malloc (to_u64 (BC_NONCE_SIZE + ct_len));
  match ciphertext with
  | None => c_printf (str "Error: out of memory" ++ nl);; mret r
  | Some buf =>
      (* nonce = ciphertext, ct = ciphertext + BC_NONCE_SIZE *)
      '(rc, (ct, nonce)) ← bc_crypto_encrypt (Some text) text_len shared_key
          (Some (drop (Z.to_nat BC_NONCE_SIZE) (contents buf)))
          (Some (take (Z.to_nat BC_NONCE_SIZE) (contents buf)));
      if bool_decide (rc <> BC_OK)
      then c_free (Some (addr buf));;
           c_printf (str "Error: encryption failed (rc=" ++ fmt_d rc ++ str ")" ++ nl);; mret r else
      msg ← bc_message_create (Some (pubkey id)) (Some recipient)
              (Some (default [] nonce ++ default [] ct)) (to_u64 (BC_NONCE_SIZE + ct_len));
      c_free (Some (addr buf));;
      match msg with
      | None => c_printf (str "Error: failed to create message" ++ nl);; mret r
      | Some msg =>
          '(rc, r') ← bc_router_broadcast (Some r) (Some (contents msg));
          bc_message_destroy (Some msg);;
          (if bool_decide (rc = BC_OK) then c_printf (str "Message sent." ++ nl)
           else c_printf (str "Error: broadcast failed (rc=" ++ fmt_d rc ++ str ")" ++ nl));;
          mret (default r r')
      end
  end.

(** ** The threads *)

(** The line that [fgets] stored, without its newline. *)
Definition strip_newline (line : list Z) : list Z :=
  let line := c_str line in
  if bool_decide (last line = Some 10) then removelast line else line.

(** The commands of the main loop. *)
Definition dispatch (line : list Z) (s : node W) : M W (node W) :=
  if bool_decide (line = []) then mret s else
  if bool_decide (line = str "/info") then cmd_info (n_identity s);; mret s else
  if bool_decide (line = str "/peers") then cmd_peers (contents (n_router s));; mret s else
  if bool_decide (take 5 line = str "/msg ") then
    r ← cmd_msg (n_identity s) (contents (n_router s)) (drop 5 line);
    mret (set_router r s)
  else if bool_decide (line = str "/quit") then mret (set_running 0 s) else
  c_printf (str "Unknown command. Type /info, /peers, /msg, or /quit." ++ nl);; mret s.

(** One step of the main thread's input loop. *)
Definition main_step (s : node W) : M W (node W) :=
  match n_pc s with
  | AtTest =>
      if bool_decide (g_running s = 0) then mret (set_pc Past s) else
      c_printf (str "> ");; mret (set_pc AtRead s)
  | AtRead =>
      line ← c_fgets 4096;
      match line with
      | None => mret (set_pc AtRelay s)
      | Some line => s ← dispatch (strip_newline line) s; mret (set_pc AtTest s)
      end
  | AtRelay =>
      if bool_decide (g_running s = 0) then mret (set_pc Past s) else mret s
  | Past => mret s
  end.

(** One iteration of [tick_thread_func]; [fuel] bounds the datagrams it
    receives. *)
Definition tick_step (fuel : nat) (s : node W) : M W (node W) :=
  if n_ticking s then
    if bool_decide (g_running s = 0) then mret (set_ticking false s) else
    r ← bc_router_tick fuel (Some (contents (n_router s)));
    mret (set_router (default (contents (n_router s)) r) s)
  else mret s.

Definition signal_handler (s : node W) : node W := set_running 0 s.

Definition step (fuel : nat) (e : event) (s : node W) : M W (node W) :=
  match e with
  | EvMain => main_step s
  | EvTick => tick_step fuel s
  | EvSignal => mret (signal_handler s)
  end.

Fixpoint run (fuel : nat) (es : list event) (s : node W) : M W (node W) :=
  match es with
  | [] => mret s
  | e :: es' => s ← step fuel e s; run fuel es' s
  end.

(** ** Start-up *)

(** The port and the array of peer ports, or the exit code. *)
Definition parse_args (argv : list (list Z)) : M W (Z + Z * option (box (list Z))) :=
  match argv with
  | prog :: arg :: args =>
      v ← lift (c_atoi arg);
      let my_port := to_u16 v in
      if bool_decide (my_port = 0)
      then c_eprintf (str "Error: invalid port '" ++ arg ++ str "'" ++ nl);; mret (inl 1) else
      match args with
      | [] => mret (inr (my_port, None))
      | _ =>
          b ← c_alloc;
          match b with
          | None => c_eprintf (str "Error: out of memory" ++ nl);; mret (inl 1)
          | Some b => ports ← lift (parse_ports args); mret (inr (my_port, Some (Box b ports)))
          end
      end
  | _ =>
      c_eprintf (str "Usage: " ++ default [] (head argv) ++
                 str " <my_port> [peer_port1 peer_port2 ...]" ++ nl);;
      mret (inl 1)
  end.

(** The secret key of the key file with its public key, or a new pair that is
    saved; [None] when the program must exit. *)
Definition load_or_generate (my_port : Z) : M W (option bc_identity) :=
  let path := key_path my_port in
  kf ← read_file path BC_SECRET_KEY_SIZE;
  match kf with
  | Some sk =>
      if bool_decide (zlen sk <> BC_SECRET_KEY_SIZE)
      then c_eprintf (str "Error: key file '" ++ str path ++ str "' is corrupted (" ++
                      fmt_d (zlen sk) ++ str " bytes)" ++ nl);; mret None else
      let '(rc, pk) := crypto_scalarmult_base sk in
      if bool_decide (rc <> 0)
      then c_eprintf (str "Error: failed to derive public key" ++ nl);; mret None else
      c_eprintf (str "Identity loaded from " ++ str path ++ nl);;
      mret (Some (mkIdentity pk sk))
  | None =>
      '(rc, id) ← bc_identity_generate
                    (Some (mkIdentity (replicate 32 0) (replicate 32 0)));
      if bool_decide (rc <> BC_OK)
      then c_eprintf (str "Error: failed to generate identity" ++ nl);; mret None else
      id ← lift (match id with Some id => Val id | None => UB end);
      ok ← write_file path (secret_key id);
      if negb ok
      then c_eprintf (str "Error: cannot write key file '" ++ str path ++ str "'" ++ nl);;
           mret None else
      c_eprintf (str "New identity saved to " ++ str path ++ nl);;
      mret (Some id)
  end.

(** A call through a function pointer. *)
Definition call_destroy (f : option (M W unit)) : M W unit :=
  match f with Some m => m | None => lift UB end.

(** [g_transport->destroy(g_transport); free(g_transport)]. *)
Definition destroy_transport (t : box (bc_transport W)) : M W unit :=
  call_destroy (t_destroy (contents t));; c_free (Some (addr t)).

(** [found] peers from index [i] on are added to the router. *)
Fixpoint add_peers (discovered : list bc_peer) (n : nat) (i : Z) (r : bc_router W)
    : M W (bc_router W) :=
  match n with
  | O => mret r
  | S n' =>
      p ← lift (arr_get discovered i);
      r' ← bc_router_add_peer (Some r) (Some p);
      add_peers discovered n' (i + 1) (default r r')
  end.

(** Step 6: the adapter's peers go into the router; the result is their number
    and the router. *)
Definition discover (t : bc_transport W) (r : bc_router W) : M W (Z * bc_router W) :=
  discovered ← stack_peers (Z.to_nat BC_MAX_PEERS);
  discover_peers ← lift (match t_discover_peers t with Some f => Val f | None => UB end);
  '(rc, (discovered, found)) ← discover_peers discovered BC_MAX_PEERS 0;
  if bool_decide (rc = BC_OK)
  then r ← add_peers discovered (Z.to_nat found) 0 r; mret (found, r)
  else mret (found, r).

(** Steps 3 to 8: storage, transport, router, peers, thread.  The result is the
    number of peers found and the node, or [None] when the program must exit. *)
Definition open_node (id : bc_identity) (my_port : Z) (ports : option (box (list Z)))
    : M W (option (Z * node W)) :=
  storage ← bc_storage_sqlite_create (Some (db_path my_port));
  match storage with
  | None =>
      c_eprintf (str "Error: failed to open database '" ++ str (db_path my_port) ++ str "'" ++ nl);;
      c_free (addr <$> ports);; mret None
  | Some storage =>
      transport ← bc_transport_udp_create my_port (contents <$> ports)
                    (match ports with Some p => zlen (contents p) | None => 0 end);
      c_free (addr <$> ports);;
      match transport with
      | None =>
          c_eprintf (str "Error: failed to bind UDP port " ++ fmt_d my_port ++ nl);;
          call_destroy (s_destroy (contents storage));; mret None
      | Some transport =>
          router ← bc_router_create (Some (contents transport)) (Some (contents storage))
                     (Some (pubkey id)) None;
          match router with
          | None =>
              c_eprintf (str "Error: failed to create router" ++ nl);;
              destroy_transport transport;;
              call_destroy (s_destroy (contents storage));; mret None
          | Some router =>
              let r := default (contents router)
                         (bc_router_set_on_message (Some (contents router))
                            (Some (on_message_received id)) 0) in
              '(found, r) ← discover (contents transport) r;
              rc ← (fun w => Val (pthread_create_rc w, w));
              if bool_decide (rc <> 0) then
                c_eprintf (str "Error: failed to create tick thread" ++ nl);;
                bc_router_destroy (Some (Box (addr router) r));;
                destroy_transport transport;;
                call_destroy (s_destroy (contents storage));; mret None
              else
                mret (Some (found, mkNode 1 id transport storage (Box (addr router) r) AtTest true))
          end
      end
  end.

Definition print_banner (id : bc_identity) (my_port found : Z) : M W unit :=
  hex ← stack_buffer (BC_PUBKEY_SIZE * 2 + 1);
  hex ← lift (bytes_to_hex (pubkey id) BC_PUBKEY_SIZE hex);
  c_printf (str "=== BitChat CLI Simulator ===" ++ nl);;
  c_printf (str "Port      : " ++ fmt_d my_port ++ nl);;
  c_printf (str "Public Key: " ++ c_str hex ++ nl);;
  c_printf (str "Key File  : " ++ str (key_path my_port) ++ nl);;
  c_printf (str "Database  : " ++ str (db_path my_port) ++ nl);;
  c_printf (str "Peers     : " ++ fmt_d found ++ nl);;
  c_printf (nl ++ str "Commands:" ++ nl);;
  c_printf (str "  /info                      Show public key" ++ nl);;
  c_printf (str "  /peers                     List connected peers" ++ nl);;
  c_printf (str "  /msg <hex_pubkey> <text>   Send encrypted message" ++ nl);;
  c_printf (str "  /quit                      Exit" ++ nl);;
  c_printf nl.

(** ** Shutdown *)

(** [pthread_join]: the tick thread sees [g_running = 0] and returns. *)
Definition shut_node_down (s : node W) : M W bc_identity :=
  c_printf (nl ++ str "Shutting down..." ++ nl);;
  let s := set_running 0 s in
  s ← tick_step 0 s;
  bc_router_destroy (Some (n_router s));;
  destroy_transport (n_transport s);;
  call_destroy (s_destroy (contents (n_storage s)));;
  let id := default (n_identity s) (bc_identity_wipe (Some (n_identity s))) in
  c_printf (str "Goodbye." ++ nl);;
  mret id.

(** The exit code under the schedule [es].  A schedule that does not bring the
    main thread past its loop has not seen the program exit ([NoFuel]). *)
Definition main (fuel : nat) (es : list event) (argv : list (list Z)) : M W Z :=
  args ← parse_args argv;
  match args with
  | inl code => mret code
  | inr (my_port, ports) =>
      if bool_decide (bc_crypto_init <> BC_OK)
      then c_eprintf (str "Error: failed to initialize libsodium" ++ nl);;
           c_free (addr <$> ports);; mret 1 else
      id ← load_or_generate my_port;
      match id with
      | None => c_free (addr <$> ports);; mret 1
      | Some id =>
          opened ← open_node id my_port ports;
          match opened with
          | None => mret 1
          | Some (found, s) =>
              print_banner id my_port found;;
              s ← run fuel es s;
              match n_pc s with
              | Past => shut_node_down s;; mret 0
              | _ => lift NoFuel
              end
          end
      end
  end.
End cli.
