(* ===== verification/CliSpec.v ===== *)
(** * CliSpec: rules for the command-line node

    What a received message shows, what the commands do, and the invariant of a
    running node with the proof that every step of either thread keeps it. *)
From stdpp Require Import strings.
From S2P Require Import Prelude Effects Errors Sodium Message Peer Ports Sockets UdpTransport.
From S2P Require Import Identity CryptoManager Sealing Discovery Sqlite SqliteStorage Dedup Outbound.
From S2P Require Import Router RouterSpec Hex Stdio Cli.

Section printing.
Context {W : Type} `{!HasOS W, !WorldInv W, !HasStdio W, !IoWorld W}.
Implicit Types w : W.

Lemma quiet_io w w' : silent w w' -> get_io w' = get_io w.
Proof. intros [o ->]. apply get_io_set_os. Qed.

(** The key as it is printed. *)
Lemma wp_hex {A} key (k : list Z -> M W A) w Q :
  bytes_n 32 key ->
  (forall hex w', balanced w w' -> get_io w' = get_io w -> c_str hex = to_hex key -> wp (k hex) w' Q) ->
  wp (hex ← stack_buffer (BC_PUBKEY_SIZE * 2 + 1);
      hex ← lift (bytes_to_hex key BC_PUBKEY_SIZE hex); k hex) w Q.
Proof.
  intros [Hl Hb] HQ. apply wp_bind. apply wp_quiet; [apply quiet_stack|]. apply wp_indeterminate.
  intros buf w1 [Hbl _] Hb1 Hq1. apply wp_bind.
  change BC_PUBKEY_SIZE with 32 in *. replace 32 with (zlen key) by zlen_lia.
  eapply wp_lift; [apply bytes_to_hex_ok; [done|]|].
  { change (Z.to_nat (32 * 2 + 1)) with 65%nat in Hbl. zlen_lia. }
  apply HQ; [done|by apply quiet_io|]. by apply c_str_app, to_hex_no_nul.
Qed.

(** A message on standard output, then the result. *)
Lemma wp_say {A} s (a : A) w (Q : A -> W -> Prop) :
  (forall w', balanced w w' -> prints s [] (get_io w) (get_io w') -> Q a w') ->
  wp (c_printf s;; mret a) w Q.
Proof. intros HQ. apply wp_bind, wp_printf. intros. by apply wp_ret, HQ. Qed.

Lemma wp_said_ret {A} s (a : A) w (Q : A -> W -> Prop) :
  (forall w', balanced w w' -> said s w w' -> Q a w') -> wp (c_printf s;; mret a) w Q.
Proof. intros HQ. apply wp_bind, wp_said. intros. by apply wp_ret, HQ. Qed.

Lemma wp_complain {A} s (a : A) w (Q : A -> W -> Prop) :
  (forall w', balanced w w' -> prints [] s (get_io w) (get_io w') -> Q a w') ->
  wp (c_eprintf s;; mret a) w Q.
Proof. intros HQ. apply wp_bind, wp_eprintf. intros. by apply wp_ret, HQ. Qed.
End printing.

(** ** The message callback *)

Section callback.
Context {W : Type} `{!HasOS W, !WorldInv W, !HasStdio W, !IoWorld W}.
Context `{Hna : !Sodium} `{!SodiumSpec _}.
Implicit Types (w : W) (m : bc_message).

(** What the terminal shows for a message from [sender] that says [pt]. *)
Definition announcement (sender pt : list Z) : list Z :=
  nl ++ str "[PESAN MASUK dari " ++ to_hex sender ++ str "]:" ++ nl ++ str "  " ++ c_str pt ++
  nl ++ str "> ".

(** What receiving [m] does to the streams: the text is shown if it decrypts
    and memory suffices; otherwise nothing is shown on standard output. *)
Definition shown (id : bc_identity) m w w' : Prop :=
  (exists pt, opens (secret_key id) (sender_pubkey m) (msg_payload m) pt /\
     prints (announcement (sender_pubkey m) pt) [] (get_io w) (get_io w')) \/
  (exists warning, prints [] warning (get_io w) (get_io w') /\
     (~ never_oom w \/
      forall pt, ~ opens (secret_key id) (sender_pubkey m) (msg_payload m) pt)).

Lemma wp_cli_message id m u w :
  heap_ok w -> message_wf m -> identity_wf id ->
  wp (on_message_received id m u) w (fun _ w' => balanced w w' /\ shown id m w w').
Proof.
  intros Hok Hm [_ Hsk]. unfold on_message_received, shown.
  assert (Hsnd : bytes_n 32 (sender_pubkey m)) by apply Hm.
  assert (Hlen : payload_len m = zlen (msg_payload m)) by apply Hm.
  assert (Hpb : bytes_ok (msg_payload m)) by apply Hm.
  assert (H63 : payload_len m < 2 ^ 63) by apply Hm.
  rewrite Hlen in *. clear Hlen. unfold msg_payload in *. destruct (payload m) as [pl|].
  2: { apply wp_ret. split; [apply balanced_refl|]. right. exists []. split; [apply prints_refl|].
       right. intros pt [Hle _]. by apply Hle. }
  cbv zeta. apply wp_open_sealed; try done.
  { intros Hle. rewrite to_u64_id; [lia|]. unfold is_u64, BC_NONCE_SIZE, BC_TAG_SIZE in *. lia. }
  - intros w1 Hb1 Hs1 Hno. split; [done|]. right. exists []. rewrite (quiet_io _ _ Hs1).
    split; [apply prints_refl|done].
  - intros out pt w1 Hout Hop Hptl Hptb Hl1 Hs1. apply quiet_io in Hs1.
    rewrite bool_decide_eq_true_2 by done. cbn [from_option Datatypes.id].
    assert (Hone : exists x, drop (length pt) out = [x]).
    { destruct Hop as [Hle _]. rewrite to_u64_id in Hout by (unfold is_u64, BC_NONCE_SIZE, BC_TAG_SIZE in *; lia).
      destruct (drop (length pt) out) as [|x [|y l]] eqn:He; [|by exists x|];
        apply (f_equal length) in He; rewrite length_drop in He; cbn [length] in He; zlen_lia. }
    destruct Hone as [x ->]. apply wp_bind. eapply wp_lift; [rewrite <- Hptl; by apply arr_set_at|].
    apply wp_hex; [done|]. intros hex w2 Hb2 Hio2 Hhex. apply wp_printf. intros w3 Hb3 Hp3.
    split; [by eauto with bitchat|]. intros w4 Hb4 Hs4. split; [done|]. left. exists pt. split; [done|].
    by rewrite (quiet_io _ _ Hs4), <- Hs1, <- Hio2; rewrite Hhex, c_str_cut in Hp3.
  - intros out w1 Hno Hl1 Hs1. rewrite bool_decide_eq_false_2 by done.
    apply wp_eprintf. intros w2 Hb2 Hp2. split; [done|]. intros w3 Hb3 Hs3. split; [done|]. right.
    eexists. rewrite (quiet_io _ _ Hs3), <- (quiet_io _ _ Hs1). split; [exact Hp2|auto].
Qed.
End callback.

(** ** The commands *)

Section commands.
Context {W : Type} `{!HasOS W, !WorldInv W, !HasNet W, !HasStdio W, !IoWorld W}.
Context `{Hna : !Sodium} `{!SodiumSpec _}.
Implicit Types (w : W) (r : bc_router W).

Lemma wp_cmd_info id w :
  identity_wf id ->
  wp (cmd_info id) w (fun _ w' => balanced w w' /\
    prints (str "Public Key: " ++ to_hex (pubkey id) ++ nl) [] (get_io w) (get_io w')).
Proof.
  intros [Hpk _]. apply wp_hex; [done|]. intros hex w1 Hb1 Hio Hhex. apply wp_printf.
  intros w2 Hb2 Hp. split; [by eauto with bitchat|]. by rewrite Hio, Hhex in Hp.
Qed.

(** The lines that [/peers] prints from index [i] on. *)
Fixpoint peer_lines (i : Z) (ps : list bc_peer) : list Z :=
  match ps with
  | [] => []
  | p :: ps' => (str "  [" ++ fmt_d i ++ str "] " ++ to_hex (peer_pubkey p) ++ nl) ++ peer_lines (i + 1) ps'
  end.

Lemma wp_peers_loop ps (done_ rest todo : list bc_peer) w :
  ps = done_ ++ todo ++ rest -> Forall peer_wf todo ->
  wp (peers_loop ps (length todo) (zlen done_)) w (fun _ w' => balanced w w' /\
    prints (peer_lines (zlen done_) todo) [] (get_io w) (get_io w')).
Proof.
  intros -> Hwf. revert done_ w. induction Hwf as [|p todo Hp Hwf IH]; intros dn w.
  { apply wp_ret. split; [apply balanced_refl|apply prints_refl]. }
  cbn [length peers_loop]. apply wp_bind. eapply wp_lift.
  { change ((p :: todo) ++ rest) with (p :: todo ++ rest). by apply arr_get_at. }
  apply wp_hex; [apply Hp|]. intros hex w1 Hb1 Hio Hhex.
  apply wp_bind, wp_printf. intros w2 Hb2 Hp2.
  replace (zlen dn + 1) with (zlen (dn ++ [p])) by zlen_lia.
  replace (dn ++ (p :: todo) ++ rest) with ((dn ++ [p]) ++ todo ++ rest)
    by by rewrite <- (assoc_L (++) dn).
  eapply wp_mono; [apply IH|]. intros _ w3 [Hb3 Hp3]. split; [by eauto with bitchat|].
  rewrite Hio, Hhex in Hp2. replace (zlen (dn ++ [p])) with (zlen dn + 1) in Hp3 by zlen_lia.
  exact (prints_trans _ _ _ _ _ _ _ Hp2 Hp3).
Qed.

Lemma wp_cmd_peers r w :
  router_wf r ->
  wp (cmd_peers r) w (fun _ w' => balanced w w' /\
    prints (if bool_decide (known_peers r = []) then str "(no peers)" ++ nl
            else peer_lines 0 (known_peers r)) [] (get_io w) (get_io w')).
Proof.
  intros (_ & _ & (Hl & Hc & Hwf & _) & _). unfold cmd_peers, known_peers, table_peers in *.
  assert (Hlen : length (take (Z.to_nat (peer_count r)) (peers r)) = Z.to_nat (peer_count r))
    by zlen_lia.
  case_bool_decide as H0.
  - rewrite H0. apply wp_printf. intros w' Hb Hp. split; [done|]. exact Hp.
  - rewrite bool_decide_eq_false_2.
    2: { intros He. rewrite He in Hlen. cbn in Hlen. lia. }
    rewrite <- Hlen at 1. apply (wp_peers_loop _ [] (drop (Z.to_nat (peer_count r)) (peers r))).
    + cbn. by rewrite take_drop.
    + by apply Forall_take.
Qed.

(** ** Sending *)

(** The recipient and the text that the arguments of [/msg] name. *)
Definition msg_recipient (args : list Z) : list Z := of_hex (take 64 args).
Definition msg_text (args : list Z) : list Z := skip_blanks (drop 64 args).

(** The arguments name a key and a text. *)
Definition msg_args_ok (args : list Z) : Prop :=
  66 <= zlen args /\ Forall is_hex (take 64 args) /\ msg_text args <> [].

(** The line that refuses other arguments. *)
Definition refusal (args : list Z) : list Z :=
  if bool_decide (zlen args < 66) then str "Usage: /msg <64-char hex pubkey> <message text>" ++ nl
  else if bool_decide (Forall is_hex (take 64 args)) then str "Error: message text is empty" ++ nl
  else str "Error: invalid hex public key" ++ nl.

(** The line for an error code. *)
Definition failure (what : string) (rc : Z) : list Z :=
  str "Error: " ++ str what ++ str " (rc=" ++ fmt_d rc ++ str ")" ++ nl.

(** What [/msg args] does: it refuses malformed arguments, or writes a message
    for the recipient, records, forwards and stores it and says so, or fails for
    want of a shared key or of memory.  Between the effects named here only the
    run-time is used. *)
Inductive messaged (id : bc_identity) r (args : list Z) w : bc_router W -> W -> Prop :=
| MsgRefused w1 w' :
    ~ msg_args_ok args -> idle w w1 -> said (refusal args) w1 w' -> messaged id r args w r w'
| MsgNoKey w1 w' :
    msg_args_ok args -> fst (crypto_box_beforenm (msg_recipient args) (secret_key id)) <> 0 ->
    idle w w1 -> said (failure "failed to derive shared key" BC_ERR_CRYPTO) w1 w' ->
    messaged id r args w r w'
| MsgNoMemory line w1 w' :
    msg_args_ok args -> ~ never_oom w ->
    line ∈ [str "Error: out of memory" ++ nl; str "Error: failed to create message" ++ nl] ->
    idle w w1 -> said line w1 w' -> messaged id r args w r w'
| MsgNotBroadcast u now t w1 w' :
    msg_args_ok args -> ~ never_oom w -> clock_read w w' now ->
    inserted (contents (dedup_table r)) (dedup_cap r) (dedup_max_age (config r)) now u t ->
    idle w w1 -> said (failure "broadcast failed" BC_ERR_NOMEM) w1 w' ->
    messaged id r args w (set_table t r) w'
| MsgSent m now t w1 frc w2 w3 w4 w' :
    msg_args_ok args ->
    written w w' (pubkey id) (secret_key id) (msg_recipient args) (msg_text args) m ->
    clock_read w w' now ->
    inserted (contents (dedup_table r)) (dedup_cap r) (dedup_max_age (config r)) now (uuid m) t ->
    idle w w1 -> forwarded r (encode (msg_packet m)) w1 frc w2 -> stored r m w2 w3 ->
    idle w3 w4 -> said (str "Message sent." ++ nl) w4 w' ->
    messaged id r args w (set_table t r) w'.

Lemma skip_blanks_suffix s : exists k, s = k ++ skip_blanks s.
Proof.
  induction s as [|c s [k Hk]]; [by exists []|]. cbn. case_bool_decide; [|by exists []].
  exists (c :: k). cbn. by rewrite <- Hk.
Qed.

Lemma msg_text_ok args : bytes_ok args -> bytes_ok (msg_text args) /\ zlen (msg_text args) <= zlen args.
Proof.
  intros Hb. unfold msg_text. destruct (skip_blanks_suffix (drop 64 args)) as [k Hk].
  assert (Hd := bytes_ok_drop 64 _ Hb). rewrite Hk in Hd. apply bytes_ok_app in Hd as [_ Hd].
  split; [done|]. apply (f_equal zlen) in Hk. zlen_lia.
Qed.

Section msg.
Context (id : bc_identity) (r : bc_router W) (args : list Z) (w : W).
Hypothesis Hok : heap_ok w.
Hypothesis Hwf : router_wf r.

(** The command's outcome, and the two ways to give up. *)
Definition msg_done (r' : bc_router W) w' : Prop :=
  balanced w w' /\ router_wf r' /\ same_wiring r r' /\ messaged id r args w r' w'.

Lemma wp_msg_refuse reason w1 :
  idle w w1 -> balanced w w1 -> ~ msg_args_ok args -> reason = refusal args ->
  wp (c_printf reason;; mret r) w1 msg_done.
Proof.
  intros Hi1 Hb1 Hre ->. apply wp_said_ret. intros w2 Hb2 Hp2.
  split_and!; [by eauto with bitchat|done|done|by eapply MsgRefused].
Qed.

Lemma wp_msg_oom line w1 :
  msg_args_ok args -> idle w w1 -> balanced w w1 -> ~ never_oom w ->
  line ∈ [str "Error: out of memory" ++ nl; str "Error: failed to create message" ++ nl] ->
  wp (c_printf line;; mret r) w1 msg_done.
Proof.
  intros Ha Hi1 Hb1 Ho Hl. apply wp_said_ret. intros w2 Hb2 Hs2.
  split_and!; [by eauto with bitchat|done|done|by eapply MsgNoMemory].
Qed.

Lemma msg_recipient_wf :
  66 <= zlen args -> Forall is_hex (take 64 args) -> bytes_n 32 (msg_recipient args).
Proof.
  intros Hl Hhex. split; [|by apply of_hex_bytes]. unfold msg_recipient.
  rewrite (of_hex_length 32); [done|]. zlen_lia.
Qed.

(** The part that sends, once the arguments are read. *)
Lemma wp_msg_send rc m r' w1 w2 :
  msg_args_ok args -> idle w w1 -> balanced w w1 -> balanced w1 w2 ->
  written w1 w2 (pubkey id) (secret_key id) (msg_recipient args) (msg_text args) m ->
  posted r m w1 rc r' w2 ->
  wp ((if bool_decide (rc = BC_OK) then c_printf (str "Message sent." ++ nl)
       else c_printf (str "Error: broadcast failed (rc=" ++ fmt_d rc ++ str ")" ++ nl));; mret r')
    w2 msg_done.
Proof.
  intros Ha Hi1 Hb1 Hb2 Hwr (now & t & -> & Hwf' & Hclk & Hins & Hcase).
  assert (Hl1 : later w w1) by apply Hb1.
  apply wp_bind. destruct Hcase as [(-> & Ho & Hs2)|(-> & v1 & frc & v2 & v3 & Hv1 & Hfw & Hst & Hv3)].
  - rewrite bool_decide_eq_false_2 by done. apply wp_said. intros w3 Hb3 Hs3. apply wp_ret.
    split_and!; [by eauto with bitchat|done|done|].
    apply (MsgNotBroadcast id r args w (uuid m) now t w2); try done; [|by eauto with bitchat..].
    intros Hno. apply Ho. by eauto with bitchat.
  - rewrite bool_decide_eq_true_2 by done. apply wp_said. intros w3 Hb3 Hs3. apply wp_ret.
    split_and!; [by eauto with bitchat|done|done|].
    apply (MsgSent id r args w m now t v1 frc v2 v3 w2); try done; [|by eauto with bitchat..].
    eapply written_within; [exact Hl1|exact Hwr|apply Hb3].
Qed.
End msg.

Lemma wp_cmd_msg id r args w :
  heap_ok w -> router_wf r -> ports_safe r -> identity_wf id -> bytes_ok args -> (0 ∉ args) ->
  zlen args < 2 ^ 16 -> wp (cmd_msg id r args) w (msg_done id r args w).
Proof.
  intros Hok Hwf Hps [Hpk Hsk] Hab Ha0 Hal. unfold cmd_msg.
  change BC_PUBKEY_SIZE with 32. change (32 * 2 + 2) with 66. change (32 * 2) with 64.
  case_bool_decide as H66.
  { apply wp_msg_refuse; [done|apply idle_refl|apply balanced_refl|intros [? _]; lia|].
    unfold refusal. by rewrite bool_decide_eq_true_2. }
  apply wp_bind. eapply wp_lift; [apply mem_read_ok; lia|]. change (Z.to_nat 0) with 0%nat. rewrite drop_0.
  change (Z.to_nat 64) with 64%nat. apply wp_bind. apply wp_quiet; [apply quiet_stack|].
  apply wp_indeterminate. intros rb w1 [Hrl _] Hb1 Hq1. assert (Hi1 : idle w w1) by by eauto with bitchat.
  assert (Hrl' : zlen rb = 32) by zlen_lia. rewrite <- Hrl'.
  destruct (hex_to_bytes_ok (take 64 args) [] rb) as [Hyes Hno]; [|lia|].
  { intros Hin. apply Ha0. rewrite <- (take_drop 64 args). by apply elem_of_app; left. }
  destruct (decide (Forall is_hex (take 64 args))) as [Hhex|Hhex].
  2: { destruct Hno as (out & Heq & _); [by right|]. apply wp_bind. eapply wp_lift; [exact Heq|].
       cbv beta iota. rewrite (bool_decide_eq_true_2 (-1 <> 0)) by lia.
       apply wp_msg_refuse; try done; [by intros (_ & ? & _)|]. unfold refusal.
       by rewrite !bool_decide_eq_false_2. }
  apply wp_bind. eapply wp_lift; [apply Hyes; [zlen_lia|done]|]. cbv beta iota.
  rewrite (bool_decide_eq_false_2 (0 <> 0)) by lia.
  fold (msg_recipient args) (msg_text args). cbv zeta.
  destruct (decide (msg_text args = [])) as [He|He].
  { rewrite bool_decide_eq_true_2 by done. apply wp_msg_refuse; try done; [by intros (_ & _ & ?)|].
    unfold refusal. by rewrite bool_decide_eq_false_2, bool_decide_eq_true_2. }
  rewrite bool_decide_eq_false_2 by done. assert (Ha : msg_args_ok args) by (split; [lia|done]).
  destruct (msg_text_ok args Hab) as [Htb Htl]. assert (Hrc := msg_recipient_wf args ltac:(lia) Hhex).
  apply wp_post; try done; [by eauto with bitchat|unfold BC_NONCE_SIZE, BC_TAG_SIZE; lia| | |].
  - intros w2 Hb2 Hs2 Hk. apply wp_said_ret. intros w3 Hb3 Hp3.
    split_and!; [by eauto with bitchat|done|done|]. eapply (MsgNoKey _ _ _ _ w2); try done. by eauto with bitchat.
  - intros w2 Hb2 Hs2 Ho. assert (Ho' : ~ never_oom w) by (intros Hn; apply Ho; by eauto with bitchat).
    split; (apply wp_msg_oom; [done|done|by eauto with bitchat|by eauto with bitchat|done|set_solver]).
  - intros m rc r' w2 Hb2 Hwr Hpo. by eapply wp_msg_send.
Qed.
End commands.

(** ** The threads *)

Section threads.
Context {W : Type} `{!HasOS W, !WorldInv W, !HasNet W, !HasStdio W, !IoWorld W}.
Context `{Hna : !Sodium} `{!SodiumSpec _}.
Implicit Types (w : W) (s : node W).

(** What holds between any two steps of a running node. *)
Definition node_inv s w : Prop :=
  heap_ok w /\ identity_wf (n_identity s) /\ router_wf (contents (n_router s)) /\
  ports_safe (contents (n_router s)) /\
  (forall t, transport (contents (n_router s)) = Some t -> TransportBenign t).

(** What a step changes: the position of the threads, [g_running] and the
    router's tables. *)
Definition node_stays s w s' w' : Prop :=
  node_inv s' w' /\ balanced w w' /\ n_identity s' = n_identity s /\
  n_transport s' = n_transport s /\ n_storage s' = n_storage s /\
  addr (n_router s') = addr (n_router s) /\
  same_wiring (contents (n_router s)) (contents (n_router s')).

(** The number of steps the main thread needs to leave its loop once
    [g_running] is 0. *)
Definition rank (pc : main_pc) : nat :=
  match pc with Past => 0 | AtTest | AtRelay => 1 | AtRead => 2 end.

Definition is_main (e : event) : nat := match e with EvMain => 1 | _ => 0 end.

(** [g_running] stays 0, and the main thread then gets closer to the end with
    each of its steps. *)
Definition winds_down (e : event) s s' : Prop :=
  g_running s = 0 -> g_running s' = 0 /\ (rank (n_pc s') <= rank (n_pc s) - is_main e)%nat.

Lemma node_stays_refl s w : node_inv s w -> node_stays s w s w.
Proof. intros Hi. split; [done|]. split; [apply balanced_refl|done]. Qed.

Lemma node_stays_trans s1 w1 s2 w2 s3 w3 :
  node_stays s1 w1 s2 w2 -> node_stays s2 w2 s3 w3 -> node_stays s1 w1 s3 w3.
Proof.
  intros (_ & Hb & ? & ? & ? & ? & Hw) (Hi & Hb' & ? & ? & ? & ? & Hw').
  split; [done|]. split; [by eauto with bitchat|]. do 4 (split; [congruence|]).
  by eapply same_wiring_trans.
Qed.

(** The same node in a later world; the position of the threads is free. *)
Lemma node_stays_move s w s' w' :
  node_inv s w -> balanced w w' -> n_identity s' = n_identity s ->
  n_transport s' = n_transport s -> n_storage s' = n_storage s -> n_router s' = n_router s ->
  node_stays s w s' w'.
Proof.
  intros (Hok & Hi) Hb Hid Ht Hs Hr. unfold node_stays, node_inv. rewrite Hid, Hr.
  split; [split; [by eauto with bitchat|done]|done].
Qed.

Lemma node_stays_router s w r w' :
  node_inv s w -> balanced w w' -> router_wf r -> same_wiring (contents (n_router s)) r ->
  node_stays s w (set_router r s) w'.
Proof.
  intros (Hok & Hid & _ & Hp & Hben) Hb Hwf Hw. split; [|by split_and!].
  split; [by eauto with bitchat|]. split; [done|]. split; [done|].
  split; [by eapply ports_safe_wiring|]. cbn. destruct Hw as [-> _]. done.
Qed.

Lemma strip_newline_ok line :
  bytes_ok line -> bytes_ok (strip_newline line) /\ (0 ∉ strip_newline line) /\
  zlen (strip_newline line) <= zlen line.
Proof.
  intros Hb. assert (Hl := c_str_length line). assert (Hn := c_str_no_nul line).
  assert (Hcb := c_str_bytes _ Hb). unfold strip_newline. cbv zeta.
  case_bool_decide as H; [|done]. destruct (c_str line) as [|x l _] using rev_ind; [done|].
  rewrite removelast_last. apply bytes_ok_app in Hcb as [Hcb _]. split_and!; [done|set_solver|zlen_lia].
Qed.

Lemma wp_dispatch line s w :
  node_inv s w -> bytes_ok line -> (0 ∉ line) -> zlen line < 2 ^ 16 ->
  wp (dispatch line s) w (fun s' w' => node_stays s w s' w' /\
    n_pc s' = n_pc s /\ (g_running s = 0 -> g_running s' = 0) /\
    (line = str "/quit" -> g_running s' = 0)).
Proof.
  intros Hi Hb H0 Hl. assert (Hi' := Hi). destruct Hi' as (Hok & Hid & Hwf & Hp & _). unfold dispatch.
  case_bool_decide as Hc; [apply wp_ret; split; [by apply node_stays_refl|by subst line]|].
  clear Hc. case_bool_decide as Hc.
  { apply wp_bind. eapply wp_mono; [by apply wp_cmd_info|]. intros _ w1 [Hb1 _]. apply wp_ret.
    split; [by apply node_stays_move|]. by subst line. }
  clear Hc. case_bool_decide as Hc.
  { apply wp_bind. eapply wp_mono; [by apply wp_cmd_peers|]. intros _ w1 [Hb1 _]. apply wp_ret.
    split; [by apply node_stays_move|]. by subst line. }
  clear Hc. case_bool_decide as Hc.
  { apply wp_bind. eapply wp_mono; [apply wp_cmd_msg; try done|].
    - by apply bytes_ok_drop.
    - intros Hin. apply H0. rewrite <- (take_drop 5 line). apply elem_of_app. by right.
    - zlen_lia.
    - intros r' w1 (Hb1 & Hwf' & Hw & _). apply wp_ret. split; [by apply node_stays_router|].
      split; [done|]. split; [done|]. intros ->. discriminate Hc. }
  clear Hc. case_bool_decide as Hc.
  { apply wp_ret. split; [apply node_stays_move; try done; apply balanced_refl|done]. }
  apply wp_say. intros w1 Hb1 _. split; [by apply node_stays_move|done].
Qed.

Lemma wp_main_step s w :
  node_inv s w ->
  wp (main_step s) w (fun s' w' => node_stays s w s' w' /\ winds_down EvMain s s').
Proof.
  intros Hi. unfold main_step, winds_down.
  assert (Hmv : forall pc w', balanced w w' -> node_stays s w (set_pc pc s) w')
    by (intros; by apply node_stays_move).
  destruct (n_pc s) eqn:Hpc; cbn [rank is_main].
  - case_bool_decide as Hr.
    + apply wp_ret. split; [apply Hmv, balanced_refl|]. done.
    + apply wp_say. intros w1 Hb1 _. split; [by apply Hmv|]. done.
  - apply wp_bind, wp_fgets; [apply Hi| |].
    { intros _. apply wp_ret. split; [apply Hmv, balanced_refl|]. cbn. intros ->. split; [done|lia]. }
    intros line w1 Hb1 Hlb Hll Hin. destruct (strip_newline_ok _ Hlb) as (Hsb & Hs0 & Hsl).
    assert (Hi1 : node_stays s w s w1) by by apply node_stays_move.
    apply wp_bind. eapply wp_mono; [apply wp_dispatch; try done; [apply Hi1|lia]|].
    intros s2 w2 (Hst & Hp2 & Hr2 & _). apply wp_ret. split.
    + eapply node_stays_trans; [exact Hi1|]. eapply node_stays_trans; [exact Hst|].
      apply node_stays_move; first [done|apply Hst|apply balanced_refl].
    + intros Hr. cbn. split; [by apply Hr2|lia].
  - case_bool_decide as Hr; apply wp_ret.
    + split; [apply Hmv, balanced_refl|]. done.
    + split; [by apply node_stays_refl|done].
  - apply wp_ret. split; [by apply node_stays_refl|]. rewrite Hpc. done.
Qed.

Lemma wp_tick_step fuel s w :
  node_inv s w -> (inbound w < fuel)%nat ->
  wp (tick_step fuel s) w (fun s' w' => node_stays s w s' w' /\ winds_down EvTick s s').
Proof.
  intros Hi Hf. unfold tick_step, winds_down. cbn [is_main].
  destruct (n_ticking s); [|apply wp_ret; split; [by apply node_stays_refl|intros ->; split; [done|lia]]].
  case_bool_decide as Hr.
  { apply wp_ret. split; [apply node_stays_move; try done; apply balanced_refl|].
    intros _. split; [done|cbn; lia]. }
  destruct Hi as (Hok & Hid & Hwf & Hp & Hben). apply wp_bind.
  eapply wp_mono; [by apply wp_tick|]. intros o w1 (r1 & -> & Hwf1 & Hw & Hb1 & _). apply wp_ret.
  split; [|done]. by apply node_stays_router.
Qed.

Lemma wp_step fuel e s w :
  node_inv s w -> (inbound w < fuel)%nat ->
  wp (step fuel e s) w (fun s' w' => node_stays s w s' w' /\ winds_down e s s').
Proof.
  intros Hi Hf. destruct e; cbn [step].
  - by apply wp_main_step.
  - by apply wp_tick_step.
  - apply wp_ret. split; [apply node_stays_move; try done; apply balanced_refl|].
    intros _. split; [done|cbn; lia].
Qed.

(** Any schedule. *)
Definition main_steps (es : list event) : nat := sum_list_with is_main es.

Lemma wp_run fuel es s w :
  node_inv s w -> (inbound w < fuel)%nat ->
  wp (run fuel es s) w (fun s' w' => node_stays s w s' w' /\
    (g_running s = 0 ->
     g_running s' = 0 /\ (rank (n_pc s') <= rank (n_pc s) - main_steps es)%nat)).
Proof.
  revert s w. induction es as [|e es IH]; intros s w Hi Hf; cbn [run].
  { apply wp_ret. split; [by apply node_stays_refl|]. intros ->. split; [done|cbn; lia]. }
  apply wp_bind. eapply wp_mono; [by apply wp_step|]. intros s1 w1 [Hst1 Hw1].
  eapply wp_mono; [apply IH; [apply Hst1|]|].
  { destruct Hst1 as (_ & [[Hadv _] _] & _). destruct Hadv as (_ & _ & _ & _ & _ & Hin & _). lia. }
  intros s2 w2 [Hst2 Hw2]. split; [by eapply node_stays_trans|]. intros Hr.
  destruct (Hw1 Hr) as [Hr1 Hk1]. destruct (Hw2 Hr1) as [Hr2 Hk2]. split; [done|].
  unfold main_steps in *. cbn [sum_list_with]. lia.
Qed.

Lemma run_app fuel es1 es2 s w :
  run fuel (es1 ++ es2) s w = (s' ← run fuel es1 s; run fuel es2 s') w.
Proof.
  revert s w. induction es1 as [|e es1 IH]; intros s w; [done|]. cbn [run app].
  unfold mbind, M_bind in *. destruct (step fuel e s w) as [[s1 w1]| |]; [|done|done]. apply IH.
Qed.

(** After a signal, two steps of the main thread end its loop. *)
Lemma wp_run_signal fuel es1 es2 s w :
  node_inv s w -> (inbound w < fuel)%nat -> (2 <= main_steps es2)%nat ->
  wp (run fuel (es1 ++ EvSignal :: es2) s) w (fun s' w' => node_stays s w s' w' /\ n_pc s' = Past).
Proof.
  intros Hi Hf Hm. unfold wp. rewrite run_app. change (wp (s' ← run fuel es1 s; run fuel (EvSignal :: es2) s') w
    (fun s' w' => node_stays s w s' w' /\ n_pc s' = Past)).
  apply wp_bind. eapply wp_mono; [by apply wp_run|]. intros s1 w1 [Hst1 _].
  cbn [run step]. apply wp_bind, wp_ret.
  assert (Hst2 : node_stays s1 w1 (signal_handler s1) w1)
    by (apply node_stays_move; first [done|apply Hst1|apply balanced_refl]).
  assert (Hin : (inbound w1 < fuel)%nat).
  { destruct Hst1 as (_ & [[Hadv _] _] & _). destruct Hadv as (_ & _ & _ & _ & _ & Hin & _). lia. }
  eapply wp_mono; [apply wp_run; [apply Hst2|done]|]. intros s3 w3 [Hst3 Hdown].
  split; [eapply node_stays_trans; [exact Hst1|]; eapply node_stays_trans; [exact Hst2|exact Hst3]|].
  destruct (Hdown eq_refl) as [_ Hr]. destruct (n_pc (signal_handler s1)), (n_pc s3); cbn in Hr; try done; lia.
Qed.
End threads.

(** ** The identity *)

Section identity.
Context {W : Type} `{!HasOS W, !WorldInv W, !HasStdio W, !IoWorld W} `{Hna : !Sodium} `{!SodiumSpec _}.
Implicit Types w : W.

(** The secret key that start-up finds in the key file, when there is one and it
    can be opened. *)
Definition key_read (port : Z) (s : stdio) : option (list Z) :=
  if io_opened s (io_opens s)
  then (fun f => take 32 (take (io_gives s (io_opens s)) f)) <$> io_files s !! key_path port
  else None.

(** How start-up gets its identity: from the key file, whose first 32 bytes are
    the secret key; or, when it cannot open one, from the generator, and the
    secret key is then saved as far as the disk takes it, unless the file cannot
    be opened for writing either. *)
Definition obtained (port : Z) w (r : option bc_identity) w' : Prop :=
  let s := get_io w in let files' := io_files (get_io w') in
  match key_read port s, r with
  | Some sk, Some id => identity_wf id /\ secret_key id = sk /\
      crypto_scalarmult_base sk = (0, pubkey id) /\ files' = io_files s
  | Some sk, None => (length sk <> 32%nat \/ fst (crypto_scalarmult_base sk) <> 0) /\ files' = io_files s
  | None, Some id => identity_wf id /\ generated (pubkey id) (secret_key id) /\
      io_opened s (S (io_opens s)) = true /\
      files' = <[key_path port := take (io_room s) (secret_key id)]> (io_files s)
  | None, None => io_opened s (S (io_opens s)) = false /\ files' = io_files s
  end.

Lemma wp_identity port w :
  heap_ok w -> wp (load_or_generate port) w (fun r w' => balanced w w' /\ obtained port w r w').
Proof.
  intros Hok. unfold load_or_generate, obtained. cbv zeta. apply wp_bind, wp_read_file.
  change BC_SECRET_KEY_SIZE with 32. change (Z.to_nat 32) with 32%nat. intros w0 Hb0 Hio0.
  destruct (io_world_ok w (heap_world_ok _ Hok)) as [_ Hfiles]. fold (key_read port (get_io w)).
  destruct (key_read port (get_io w)) as [sk|] eqn:Hk.
  - assert (Hfb : bytes_ok sk).
    { unfold key_read in Hk. destruct (io_opened _ _); [|done].
      destruct (io_files (get_io w) !! key_path port) as [f|] eqn:Hf; [|done]. injection Hk as <-.
      by apply bytes_ok_take, bytes_ok_take, (Hfiles _ _ Hf). }
    case_bool_decide as Hl.
    { apply wp_complain. intros w1 Hb1 Hp. split; [by eauto with bitchat|]. rewrite Hp, Hio0. cbn.
      split; [|done]. left. unfold zlen in Hl. lia. }
    assert (Hsk : bytes_n 32 sk) by (split; [unfold zlen in Hl; lia|done]). clear Hl.
    destruct (crypto_scalarmult_base sk) as [rc pk] eqn:Hbase.
    assert (Hpk := base_size _ _ _ Hsk Hbase). case_bool_decide as Hrc.
    { apply wp_complain. intros w1 Hb1 Hp. split; [by eauto with bitchat|]. rewrite Hp, Hio0. cbn.
      split; [by right|done]. }
    apply wp_complain. intros w' Hb Hp. split; [by eauto with bitchat|]. split; [done|]. split; [done|].
    split; [|by rewrite Hp, Hio0]. cbn. f_equal. lia.
  - apply wp_bind. unfold bc_identity_generate. apply wp_bind.
    apply wp_quiet; [unfold box_keypair; solve_quiet|].
    apply wp_box_keypair. intros seed pk sk w1 Hb1 Hseed Hkp Hpk Hsk Hq. apply quiet_io in Hq.
    rewrite Hio0 in Hq.
    apply wp_ret. cbn [fst snd]. rewrite (bool_decide_eq_false_2 (0 <> 0)) by lia.
    apply wp_bind, wp_ret, wp_bind. cbn [secret_key]. apply wp_write_file; [apply Hsk| |]; rewrite Hq; cbn.
    + intros w2 Hb2 Hio2 Hw. apply wp_complain. intros w3 Hb3 Hp3.
      split; [by eauto with bitchat|]. split; [done|]. by rewrite Hp3, Hio2.
    + intros w2 Hb2 Hw Hio2. apply wp_complain. intros w3 Hb3 Hp3.
      split; [by eauto with bitchat|]. split; [done|]. split; [by exists seed|]. split; [done|].
      by rewrite Hp3, Hio2.
Qed.
End identity.
