(* ===== verification/CliMain.v ===== *)
(** * CliMain: the whole program

    The frames and rules for start-up and shutdown of the command-line node,
    and the session between them. *)
From stdpp Require Import strings pretty.
From S2P Require Import Prelude Effects Errors Sodium Message Peer Ports Sockets World UdpTransport.
From S2P Require Import Identity CryptoManager Sealing Discovery Sqlite SqliteStorage.
From S2P Require Import SqliteStorageSpec SqliteStorageProps SqliteLifecycle Session Dedup Router RouterSpec.
From S2P Require Import Hex Stdio Cli CliSpec.

(** The parts of the world do not overlap. *)
Class Apart (W E : Type) `{!HasOS W, !HasNet W, !HasSql W E} : Prop := {
  get_sql_set_net : forall n w, get_sql (set_net n w) = get_sql w;
  get_net_set_sql : forall x w, get_net (set_sql x w) = get_net w
}.

Class ApartIo (W E : Type) `{!HasOS W, !HasNet W, !HasSql W E, !HasStdio W} : Prop := {
  get_sql_set_io : forall s w, get_sql (set_io s w) = get_sql w;
  get_net_set_io : forall s w, get_net (set_io s w) = get_net w
}.

(** ** Frames *)

Section frames.
Context {W E : Type} `{!HasOS W, !HasNet W, !HasSql W E, !Sqlite E, !Apart W E}.
Implicit Types w : W.

(** The network and the database. *)
Definition outside w : net * db_view := (get_net w, dbv (E := E) w).

Lemma outside_set_os o w : outside (set_os o w) = outside w.
Proof. unfold outside. by rewrite get_net_set_os, dbv_set_os. Qed.

Lemma dbv_set_net n w : dbv (E := E) (set_net n w) = dbv w.
Proof. unfold dbv. by rewrite get_sql_set_net. Qed.

Lemma untouched_socket : untouched (dbv (E := E)) (c_socket (W := W)).
Proof. intros w a w'. unfold c_socket. case_match; intros [= _ <-]; apply dbv_set_net. Qed.

Lemma untouched_bind_socket fd p : untouched (dbv (E := E)) (c_bind (W := W) fd p).
Proof. intros w a w'. unfold c_bind. case_match; intros [= _ <-]; apply dbv_set_net. Qed.

Lemma untouched_close fd : untouched (dbv (E := E)) (c_close (W := W) fd).
Proof. intros w a w' [= _ <-]. apply dbv_set_net. Qed.

Lemma untouched_sql {A} (f : E -> option (A * E)) : untouched get_net (sql_run (W := W) f).
Proof.
  intros w a w'. unfold sql_run. destruct (f _) as [[]|]; [|done].
  intros [= _ <-]. apply get_net_set_sql.
Qed.

Lemma untouched_io `{!HasStdio W, !ApartIo W E} f : untouched outside (io_update (W := W) f).
Proof.
  intros w a w' [= _ <-]. unfold outside, dbv. by rewrite get_net_set_io, get_sql_set_io.
Qed.

Lemma untouched_write `{!HasStdio W, !ApartIo W E} p d : untouched outside (write_file (W := W) p d).
Proof.
  intros w a w'. unfold write_file. case_match; intros [= _ <-];
    unfold outside, dbv; by rewrite get_net_set_io, get_sql_set_io.
Qed.

Lemma untouched_read `{!HasStdio W, !ApartIo W E} p n : untouched outside (read_file (W := W) p n).
Proof. intros w a w' [= _ <-]. unfold outside, dbv. by rewrite get_net_set_io, get_sql_set_io. Qed.

End frames.

#[export] Hint Resolve outside_set_os dbv_set_os get_net_set_os untouched_socket untouched_bind_socket
  untouched_close untouched_io untouched_write untouched_read untouched_sql : frame.

Section framed.
Context {W E : Type} `{!HasOS W, !HasNet W, !HasSql W E, !Sqlite E, !Apart W E}.
Implicit Types w : W.

Lemma udp_create_frame p ports n :
  untouched (dbv (E := E)) (bc_transport_udp_create (W := W) p ports n).
Proof. unfold bc_transport_udp_create, copy_ports. solve_untouched. Qed.

Lemma udp_destroy_frame ctx : untouched (dbv (E := E)) (udp_destroy (W := W) ctx).
Proof. unfold udp_destroy. solve_untouched. Qed.

Lemma sqlite_create_frame path : untouched get_net (bc_storage_sqlite_create (W := W) (E := E) path).
Proof. unfold bc_storage_sqlite_create, prepare_if, create_fails, sqlite3_finalize. solve_untouched. Qed.

Lemma sqlite_destroy_frame self ctx : untouched get_net (sqlite_destroy (W := W) (E := E) self ctx).
Proof. unfold sqlite_destroy, sqlite3_finalize. solve_untouched. Qed.
End framed.

(** ** Start-up: arguments and identity *)

Section startup.
Context {W E : Type} `{!HasOS W, !WorldInv W, !HasNet W, !HasSql W E, !Sqlite E, !Apart W E}.
Context `{!HasStdio W, !ApartIo W E, !IoWorld W} `{Hna : !Sodium} `{!SodiumSpec _}.
Implicit Types w : W.

(** Every number on the command line is an [int]. *)
Definition args_ok (argv : list (list Z)) : Prop :=
  Forall (fun a => exists v, c_atoi a = Val v) (drop 1 argv).

Definition port_list (ports : option (box (list Z))) : list Z := default [] (contents <$> ports).

Lemma parse_ports_ok args :
  Forall (fun a => exists v, c_atoi a = Val v) args ->
  exists l, parse_ports args = Val l /\ Forall (fun p => 0 <= p < 2 ^ 16) l.
Proof.
  induction 1 as [|a args [v Hv] _ (l & Hl & Hr)]; [by exists []|]. cbn. rewrite Hv. cbn. rewrite Hl.
  eexists. split; [done|]. constructor; [|done]. apply Z.mod_pos_bound. lia.
Qed.

(** The exit code, or the port and the array of peer ports. *)
Definition parsed w (r : Z + Z * option (box (list Z))) w' : Prop :=
  outside (E := E) w' = outside w /\
  match r with
  | inl code => code = 1 /\ balanced w w'
  | inr (port, ports) => acquired (ports_blocks ports) w w' /\
      Forall (fun p => 0 <= p < 2 ^ 16) (port_list ports)
  end.

Lemma wp_parse_args argv w :
  heap_ok w -> args_ok argv -> wp (parse_args argv) w (parsed w).
Proof.
  intros Hok Hargs. apply (wp_frame (outside (E := E))).
  { unfold parse_args, c_eprintf. solve_untouched. }
  assert (Hcomplain : forall s w1, balanced w w1 -> wp (c_eprintf s;; mret (inl 1)) w1
    (fun r w' => outside (E := E) w' = outside w -> parsed w r w')).
  { intros s w1 Hb1. apply wp_complain. intros w2 Hb2 _ Ho. split; [done|]. split; [done|].
    by eauto with bitchat. }
  unfold parse_args. destruct argv as [|prog [|arg args]]; [by apply Hcomplain, balanced_refl..|].
  unfold args_ok in Hargs. cbn [drop] in Hargs. inversion Hargs as [|? ? [v Hv] Hrest]; subst.
  apply wp_bind. eapply wp_lift; [exact Hv|]. cbv zeta.
  case_bool_decide; [by apply Hcomplain, balanced_refl|].
  destruct args as [|a args].
  { apply wp_ret. intros Ho. split; [done|]. split; [apply acquired_nil, balanced_refl|constructor]. }
  apply wp_bind, wp_alloc; [done| |].
  { intros w1 _ Hb1. by apply Hcomplain. }
  intros b w1 Ha1. destruct (parse_ports_ok _ Hrest) as (l & Hl & Hr).
  apply wp_bind. eapply wp_lift; [exact Hl|]. by apply wp_ret.
Qed.

Lemma wp_load_or_generate port w :
  heap_ok w ->
  wp (load_or_generate port) w (fun r w' => balanced w w' /\ outside (E := E) w' = outside w /\
    (forall id, r = Some id -> identity_wf id)).
Proof.
  intros Hok. apply (wp_frame (outside (E := E))).
  { unfold load_or_generate, c_eprintf, bc_identity_generate, box_keypair. solve_untouched. }
  eapply wp_mono; [by apply wp_identity|]. intros r w' [Hb Hr] Ho. split; [done|]. split; [done|].
  intros id ->. unfold obtained in Hr. by destruct (key_read _ _), Hr.
Qed.

Lemma wp_banner id port found w :
  identity_wf id ->
  wp (print_banner id port found) w (fun _ w' => balanced w w' /\ outside (E := E) w' = outside w).
Proof.
  intros [Hpk _]. assert (Hfr : untouched (outside (W := W) (E := E)) (print_banner id port found)).
  { unfold print_banner, c_printf. solve_untouched. }
  apply (wp_frame _ _ _ _ Hfr). apply wp_hex; [done|]. intros hex w1 Hb1 _ _.
  do 11 (apply wp_bind, wp_printf; let v := fresh "v" in let Hv := fresh "Hv" in intros v Hv _).
  apply wp_printf. intros w' Hb' _ Ho.
  split; [|done]. eapply balanced_trans; [exact Hb1|]. by do 11 (eapply balanced_trans; [eassumption|]).
Qed.
End startup.

(** ** Opening and closing the adapters *)

Section adapters.
Context {W E : Type} `{!HasOS W, !WorldInv W, !HasNet W, !HasSql W E, !Sqlite E, !SqliteSpec E}.
Context `{!Apart W E, !NetFree W, !SqlFree W E}.
Implicit Types w : W.

(** The transport [t] is the UDP adapter over [ctx], opened on top of the
    sockets [k0]. *)
Definition transport_open (k0 : gmap Z (option Z)) (t : box (bc_transport W)) (ctx : box udp_ctx) w : Prop :=
  contents t = udp_transport ctx /\ udp_ctx_wf (contents ctx) /\ 0 <= sockfd (contents ctx) /\
  (addr t ∉ udp_blocks ctx) /\ (addr ctx ∉ ports_blocks (peer_ports (contents ctx))) /\
  k0 !! sockfd (contents ctx) = None /\
  exists port, socks w = <[sockfd (contents ctx) := Some port]> k0.

Definition transport_blocks (t : box (bc_transport W)) (ctx : box udp_ctx) : gset blk :=
  {[addr t]} ∪ udp_blocks ctx.

Lemma transport_open_ext k0 t ctx w w' :
  socks w' = socks w -> transport_open k0 t ctx w -> transport_open k0 t ctx w'.
Proof. unfold transport_open. by intros ->. Qed.

Lemma wp_close_storage v0 st ctx w (Q : unit -> W -> Prop) :
  storage_open (E := E) v0 st ctx w -> storage_blocks st ctx ⊆ owned w ->
  (forall w', released (storage_blocks st ctx) w w' -> dbv (E := E) w' = v0 ->
     get_net w' = get_net w -> Q tt w') ->
  wp (call_destroy (s_destroy (contents st))) w Q.
Proof.
  intros Hs Hsub HQ. rewrite (storage_open_destroy _ _ _ _ Hs). cbn [call_destroy].
  apply (wp_frame get_net); [apply sqlite_destroy_frame|]. eapply wp_destroy_storage; [done|done|]. auto.
Qed.

Lemma wp_close_transport k0 t ctx w (Q : unit -> W -> Prop) :
  transport_open k0 t ctx w -> transport_blocks t ctx ⊆ owned w ->
  (forall w', released (transport_blocks t ctx) w w' -> socks w' = k0 ->
     dbv (E := E) w' = dbv w -> Q tt w') ->
  wp (destroy_transport t) w Q.
Proof.
  intros (Ht & _ & Hfd & Hn1 & Hn2 & Hk & p & Hs) Hsub HQ. unfold destroy_transport. rewrite Ht.
  cbn [udp_transport t_destroy call_destroy].
  apply (wp_frame (dbv (E := E))).
  { apply untouched_bind; [apply udp_destroy_frame|intros; auto with frame]. }
  apply wp_udp_destroy; [done|done|done|done|]. intros w' Hr Hs' Hv. apply HQ; [done| |done].
  by rewrite Hs', Hs, delete_insert_id.
Qed.

(** Closing both, on top of [w0]. *)
Lemma wp_close_both {A} (k : M W A) k0 v0 t tctx st sctx w0 w Q :
  transport_open k0 t tctx w -> storage_open (E := E) v0 st sctx w ->
  acquired (transport_blocks t tctx ∪ storage_blocks st sctx) w0 w ->
  transport_blocks t tctx ## storage_blocks st sctx ->
  (forall w', balanced w0 w' -> socks w' = k0 -> dbv (E := E) w' = v0 -> wp k w' Q) ->
  wp (destroy_transport t;; call_destroy (s_destroy (contents st));; k) w Q.
Proof.
  intros Ht Hs Ha Hd HQ. assert (Hown := Ha). destruct Hown as (_ & Hown & _).
  apply wp_bind. eapply (wp_close_transport k0 t tctx); [done|rewrite Hown; clear; set_solver|].
  intros w1 Hr1 Hk1 Hv1. assert (Ha1 := acquired_released _ _ _ _ _ Ha Hr1 ltac:(clear; set_solver)).
  replace ((_ ∪ _) ∖ _) with (storage_blocks st sctx) in Ha1 by (clear -Hd; set_solver).
  assert (Hown1 := Ha1). destruct Hown1 as (_ & Hown1 & _).
  apply wp_bind. eapply (wp_close_storage v0 st sctx); [by eapply storage_open_ext|rewrite Hown1; clear; set_solver|].
  intros w2 Hr2 Hv2 Hn2. assert (Ha2 := acquired_released _ _ _ _ _ Ha1 Hr2 ltac:(done)).
  rewrite difference_diag_L in Ha2. apply HQ; [by apply acquired_nil| |done].
  unfold socks at 1. by rewrite Hn2.
Qed.
End adapters.

(** ** Opening the node *)

Section opening.
Context {W E : Type} `{!HasOS W, !WorldInv W, !HasNet W, !HasSql W E, !Sqlite E, !SqliteSpec E}.
Context `{!Apart W E, !NetFree W, !SqlFree W E, !HasStdio W, !ApartIo W E, !IoWorld W}.
Context `{Hna : !Sodium} `{!SodiumSpec _}.
Implicit Types (w : W) (r : bc_router W) (s : node W).

(** Only the table of peers changed. *)
Definition repeopled r r' : Prop := exists ps n, r' = set_peers ps n r.

Lemma wp_add_peers discovered n i r w :
  router_wf r -> Forall peer_wf discovered -> 0 <= i -> i + Z.of_nat n <= zlen discovered ->
  wp (add_peers discovered n i r) w (fun r' w' =>
    balanced w w' /\ outside (E := E) w' = outside w /\ router_wf r' /\ repeopled r r').
Proof.
  revert i r w. induction n as [|n IH]; intros i r w Hwf Hd Hi Hn; cbn [add_peers].
  { apply wp_ret. split; [apply balanced_refl|]. split; [done|]. split; [done|].
    exists (peers r), (peer_count r). by destruct r. }
  destruct (arr_get_in_range discovered i) as (p & Hp & Hget); [lia|].
  apply wp_bind. eapply wp_lift; [exact Hget|].
  assert (Hpw : peer_wf p) by by eapply (Forall_lookup_1 _ _ _ _ Hd).
  apply wp_bind. eapply wp_mono; [by apply wp_add_peer|].
  intros o w1 (Hb1 & Hs1 & ps & k & now & -> & Hwf1 & _). cbn [from_option Datatypes.id].
  assert (Ho1 := silent_untouched (outside (E := E)) _ _ outside_set_os Hs1).
  eapply wp_mono; [apply IH; try done; lia|].
  intros r2 w2 (Hb2 & Ho2 & Hwf2 & ps' & k' & ->). split; [by eauto with bitchat|].
  split; [congruence|]. split; [done|]. by exists ps', k'.
Qed.

Lemma wp_discover ctx r w :
  heap_ok w -> udp_ctx_wf (contents ctx) -> router_wf r ->
  wp (discover (udp_transport ctx) r) w (fun '(found, r') w' =>
    balanced w w' /\ outside (E := E) w' = outside w /\ router_wf r' /\ repeopled r r').
Proof.
  intros Hok Hctx Hwf. unfold discover.
  apply wp_bind. apply (wp_frame (outside (E := E))).
  { apply quiet_untouched; [apply outside_set_os|apply quiet_stack_peers]. }
  eapply wp_mono; [apply wp_stack_peers|]. intros junk w1 (Hb1 & Hl & Hj) Ho1.
  apply wp_bind, (wp_lift _ _ _ (udp_discover_peers (contents ctx)) eq_refl).
  assert (Hs := udp_safe (W := W) ctx Hctx). apply wp_bind.
  apply (wp_frame (outside (E := E))); [unfold udp_discover_peers; solve_untouched|].
  assert (Hmax : BC_MAX_PEERS = zlen junk) by (unfold zlen; rewrite Hl; done).
  eapply wp_mono; [apply (discover_safe (udp_discover_peers (contents ctx)) junk BC_MAX_PEERS 0 w1);
    [done|by eauto with bitchat|done|done]|].
  intros [rc [disc found]] w2 (Hb2 & Hz & Hd & Hf) Ho2. case_bool_decide as Hrc.
  - destruct (Hf Hrc) as [Hf0 Hfm]. apply wp_bind.
    eapply wp_mono; [apply wp_add_peers; try done; lia|].
    intros r' w3 (Hb3 & Ho3 & Hwf' & Hre). apply wp_ret. split; [by eauto with bitchat|].
    split; [congruence|done].
  - apply wp_ret. split; [by eauto with bitchat|]. split; [congruence|]. split; [done|].
    exists (peers r), (peer_count r). by destruct r.
Qed.

(** The resources of an open node, on top of [w0]. *)
Definition node_blocks s (tctx : box udp_ctx) (sctx : box sqlite_ctx) : gset blk :=
  router_blocks (n_router s) ∪ (transport_blocks (n_transport s) tctx ∪ storage_blocks (n_storage s) sctx).

Definition node_open w0 s (tctx : box udp_ctx) (sctx : box sqlite_ctx) (k0 : gmap Z (option Z))
    (v0 : db_view) w : Prop :=
  transport_open k0 (n_transport s) tctx w /\ storage_open (E := E) v0 (n_storage s) sctx w /\
  acquired (node_blocks s tctx sctx) w0 w /\
  transport_blocks (n_transport s) tctx ## storage_blocks (n_storage s) sctx /\
  router_blocks (n_router s) ##
    transport_blocks (n_transport s) tctx ∪ storage_blocks (n_storage s) sctx /\
  addr (n_router s) <> addr (dedup_table (contents (n_router s))).

(** The router serves the adapters. *)
Definition node_wired s : Prop :=
  router_wf (contents (n_router s)) /\ identity_wf (n_identity s) /\
  transport (contents (n_router s)) = Some (contents (n_transport s)) /\
  storage (contents (n_router s)) = Some (contents (n_storage s)) /\
  on_message (contents (n_router s)) = Some (on_message_received (n_identity s)).

(** What [open_node] on [port] may return. *)
Definition node_opened (id : bc_identity) (port : Z) w0 (o : option (Z * node W)) w' : Prop :=
  match o with
  | None => balanced w0 w' /\ socks w' = socks w0 /\
      (dbv (E := E) w' = dbv w0 \/
       leaked_connection (E := E) (db_path port) (dbv w0) (dbv w'))
  | Some (found, s) => exists tctx sctx, node_open w0 s tctx sctx (socks w0) (dbv w0) w' /\
      ctx_ok (contents sctx) (dbv w') /\ rows_of (E := E) w' = rows_of (E := E) w0 /\
      node_wired s /\ n_identity s = id
  end.

(** [free(peer_ports)]. *)
Lemma wp_free_ports ports bs w0 w (Q : unit -> W -> Prop) :
  acquired bs w0 w -> ports_blocks ports ⊆ bs ->
  (forall w', acquired (bs ∖ ports_blocks ports) w0 w' -> outside (E := E) w' = outside w -> Q tt w') ->
  wp (c_free (addr <$> ports)) w Q.
Proof.
  intros Ha Hsub HQ. destruct ports as [b|]; cbn [fmap option_fmap option_map ports_blocks] in *.
  - apply (wp_frame (outside (E := E))); [auto with frame|].
    eapply wp_free_acquired; [exact Ha|set_solver|]. auto.
  - apply wp_free_null, HQ; [|done]. by rewrite difference_empty_L.
Qed.

Lemma wp_complain_out {A} msg (k : M W A) w Q :
  (forall w', balanced w w' -> outside (E := E) w' = outside w -> wp k w' Q) ->
  wp (c_eprintf msg;; k) w Q.
Proof.
  intros HQ. apply wp_bind. apply (wp_frame (outside (E := E))); [unfold c_eprintf; auto with frame|].
  apply wp_eprintf. intros w' Hb _ Ho. by apply HQ.
Qed.

Lemma outside_parts w w' :
  outside (E := E) w' = outside w -> get_net w' = get_net w /\ socks w' = socks w /\ dbv (E := E) w' = dbv w.
Proof. intros [= Hn Hv]. unfold socks. by rewrite Hn. Qed.

(** Start-up fails after the adapters are open. *)
Lemma wp_abandon id port msg t tctx st sctx w0 w :
  transport_open (socks w0) t tctx w -> storage_open (E := E) (dbv w0) st sctx w ->
  acquired (transport_blocks t tctx ∪ storage_blocks st sctx) w0 w ->
  transport_blocks t tctx ## storage_blocks st sctx ->
  wp (c_eprintf msg;; destroy_transport t;; call_destroy (s_destroy (contents st));; mret None) w
    (node_opened id port w0).
Proof.
  intros Ht Hs Ha Hd. apply wp_complain_out. intros w1 Hb1 Ho1.
  destruct (outside_parts _ _ Ho1) as (_ & Hk1 & Hv1).
  eapply wp_close_both; [by eapply transport_open_ext|by eapply storage_open_ext|
    by eauto with bitchat|done|].
  intros w2 Hb2 Hk2 Hv2. apply wp_ret. split; [done|]. split; [done|]. by left.
Qed.

Lemma on_message_repeopled f r r' :
  repeopled (default r (bc_router_set_on_message (Some r) (Some f) 0)) r' ->
  transport r' = transport r /\ storage r' = storage r /\ on_message r' = Some f /\
  dedup_table r' = dedup_table r.
Proof. intros (ps & n & ->). done. Qed.

Lemma router_wf_on_message f r :
  router_wf r -> router_wf (default r (bc_router_set_on_message (Some r) f 0)).
Proof. done. Qed.

Lemma quiet_router_create t st pk cfg : quiet (bc_router_create (W := W) t st pk cfg).
Proof. unfold bc_router_create. solve_quiet. Qed.

Lemma quiet_router_destroy b : quiet (bc_router_destroy (W := W) b).
Proof. unfold bc_router_destroy. solve_quiet. Qed.

Context (pthread_create_rc : W -> Z).

(** The last steps, with both adapters open. *)
Lemma wp_open_router id port t tctx st sctx w0 w :
  heap_ok w0 -> identity_wf id ->
  transport_open (socks w0) t tctx w -> storage_open (E := E) (dbv w0) st sctx w ->
  ctx_ok (contents sctx) (dbv (E := E) w) -> rows_of (E := E) w = rows_of (E := E) w0 ->
  acquired (transport_blocks t tctx ∪ storage_blocks st sctx) w0 w ->
  transport_blocks t tctx ## storage_blocks st sctx ->
  wp (router ← bc_router_create (Some (contents t)) (Some (contents st)) (Some (pubkey id)) None;
      match router with
      | None =>
          c_eprintf (str "Error: failed to create router" ++ nl);;
          destroy_transport t;; call_destroy (s_destroy (contents st));; mret None
      | Some router =>
          let r := default (contents router)
                     (bc_router_set_on_message (Some (contents router))
                        (Some (on_message_received id)) 0) in
          '(found, r) ← discover (contents t) r;
          rc ← (fun w => Val (pthread_create_rc w, w));
          if bool_decide (rc <> 0) then
            c_eprintf (str "Error: failed to create tick thread" ++ nl);;
            bc_router_destroy (Some (Box (addr router) r));;
            destroy_transport t;;
            call_destroy (s_destroy (contents st));; mret None
          else mret (Some (found, mkNode 1 id t st (Box (addr router) r) AtTest true))
      end) w (node_opened id port w0).
Proof.
  intros Hok Hid Ht Hs Hctx Hrows Ha Hd.
  assert (Hok1 : heap_ok w) by by eapply acquired_heap_ok.
  apply wp_bind. apply (wp_frame (outside (E := E))).
  { apply quiet_untouched; [apply outside_set_os|apply quiet_router_create]. }
  eapply wp_mono; [apply wp_router_create; [done|apply Hid|done]|].
  intros [b|] w1 Hc Ho1; destruct (outside_parts _ _ Ho1) as (_ & Hk1 & Hv1).
  2: { eapply wp_abandon; [by eapply transport_open_ext|by eapply storage_open_ext|
         eapply acquired_balanced; [exact Ha|apply Hc]|done]. }
  destruct Hc as (Hwf & Hne & Hab & Htr & Hst & _ & _ & _ & _). cbv zeta.
  assert (Hct : contents t = udp_transport tctx) by apply Ht. rewrite Hct at 1.
  apply wp_bind. eapply wp_mono; [apply wp_discover; [by eapply acquired_heap_ok|apply Ht|by apply router_wf_on_message]|].
  intros [found r] w2 (Hb2 & Ho2 & Hwf2 & Hre). destruct (outside_parts _ _ Ho2) as (_ & Hk2 & Hv2).
  destruct (on_message_repeopled _ _ _ Hre) as (Htr2 & Hst2 & Hom2 & Htab2).
  assert (Ha2 := acquired_balanced _ _ _ _ (acquired_union _ _ _ _ _ Ha Hab) Hb2).
  assert (Hd2 := acquired_disjoint _ _ _ _ _ Ha Hab). symmetry in Hd2.
  assert (Hrb : router_blocks (Box (addr b) r) = router_blocks b)
    by (unfold router_blocks; cbn; by rewrite Htab2).
  assert (Ht2 : transport_open (socks w0) t tctx w2) by (eapply transport_open_ext; [|exact Ht]; congruence).
  assert (Hs2 : storage_open (E := E) (dbv w0) st sctx w2) by (eapply storage_open_ext; [|exact Hs]; congruence).
  apply wp_bind. unfold wp at 1. case_bool_decide as Hrc.
  - apply wp_complain_out. intros w3 Hb3 Ho3. apply wp_bind.
    apply (wp_frame (outside (E := E))).
    { apply quiet_untouched; [apply outside_set_os|apply quiet_router_destroy]. }
    assert (Ha3 := acquired_balanced _ _ _ _ Ha2 Hb3).
    eapply wp_mono; [apply wp_router_destroy|].
    { cbn. by rewrite Htab2. }
    { rewrite Hrb. destruct Ha3 as (_ & -> & _). clear. set_solver. }
    intros [] w4 Hr4 Ho4. rewrite Hrb in Hr4.
    assert (Ha4 := acquired_released _ _ _ _ _ Ha3 Hr4 ltac:(clear; set_solver)).
    replace ((_ ∪ _) ∖ _) with (transport_blocks t tctx ∪ storage_blocks st sctx) in Ha4
      by (clear -Hd2; set_solver).
    destruct (outside_parts _ _ Ho3) as (_ & Hk3 & Hv3), (outside_parts _ _ Ho4) as (_ & Hk4 & Hv4).
    eapply wp_close_both; [eapply transport_open_ext; [|exact Ht2]; congruence|
      eapply storage_open_ext; [|exact Hs2]; congruence|exact Ha4|exact Hd|].
    intros w5 Hb5 Hk5 Hv5. apply wp_ret. split; [done|]. split; [done|]. by left.
  - apply wp_ret. exists tctx, sctx. unfold node_open, node_blocks, node_wired.
    cbn [n_router n_transport n_storage n_identity contents addr]. rewrite Hrb.
    assert (dbv (E := E) w2 = dbv w) by congruence.
    split; [split_and!; try done; by rewrite Htab2|].
    split; [congruence|]. split; [unfold rows_of in *; congruence|].
    split; [|done]. split_and!; try done; congruence.
Qed.

(** Start-up fails before any adapter is open, and with the storage open. *)
Lemma wp_no_storage id port msg ports w0 w w1 :
  acquired (ports_blocks ports) w0 w -> balanced w w1 -> outside (E := E) w = outside w0 ->
  get_net w1 = get_net w ->
  dbv (E := E) w1 = dbv w \/ leaked_connection (E := E) (db_path port) (dbv w) (dbv w1) ->
  wp (c_eprintf msg;; c_free (addr <$> ports);; mret None) w1 (node_opened id port w0).
Proof.
  intros Ha Hb1 Ho Hn1 Hleak. destruct (outside_parts _ _ Ho) as (Hn & _ & Hv).
  apply wp_complain_out. intros w2 Hb2 Ho2. destruct (outside_parts _ _ Ho2) as (Hn2 & _ & Hv2).
  apply wp_bind, (wp_free_ports ports (ports_blocks ports) w0); [by eauto with bitchat|done|].
  intros w3 Ha3 Ho3. destruct (outside_parts _ _ Ho3) as (Hn3 & _ & Hv3). apply wp_ret.
  rewrite difference_diag_L in Ha3. split; [by apply acquired_nil|].
  split; [unfold socks; congruence|]. rewrite Hv3, Hv2, <- Hv. done.
Qed.

Lemma wp_no_transport id port msg st sctx w0 w :
  acquired (storage_blocks st sctx) w0 w -> storage_open (E := E) (dbv w0) st sctx w ->
  socks w = socks w0 ->
  wp (c_eprintf msg;; call_destroy (s_destroy (contents st));; mret None) w (node_opened id port w0).
Proof.
  intros Ha Hs Hk. apply wp_complain_out. intros w1 Hb1 Ho1.
  destruct (outside_parts _ _ Ho1) as (Hn1 & Hk1 & Hv1).
  assert (Ha1 := acquired_balanced _ _ _ _ Ha Hb1).
  apply wp_bind, (wp_close_storage (dbv w0) st sctx); [by eapply storage_open_ext| |].
  { destruct Ha1 as (_ & -> & _). clear. set_solver. }
  intros w2 Hr2 Hv2 Hn2. assert (Ha2 := acquired_released _ _ _ _ _ Ha1 Hr2 ltac:(done)).
  rewrite difference_diag_L in Ha2. apply wp_ret. split; [by apply acquired_nil|].
  split; [|by left]. unfold socks at 1. rewrite Hn2. fold (socks w1). congruence.
Qed.

Lemma wp_open_node id port ports w0 w :
  heap_ok w0 -> fds_ok w0 -> identity_wf id ->
  acquired (ports_blocks ports) w0 w -> outside (E := E) w = outside w0 ->
  Forall (fun p => 0 <= p < 2 ^ 16) (port_list ports) ->
  wp (open_node (E := E) pthread_create_rc id port ports) w (node_opened id port w0).
Proof.
  intros Hok Hfds Hid Ha Ho Hports. destruct (outside_parts _ _ Ho) as (Hn & Hk & Hv).
  assert (Hok1 : heap_ok w) by by eapply acquired_heap_ok. unfold open_node.
  apply wp_bind. apply (wp_frame get_net); [apply sqlite_create_frame|].
  eapply wp_mono; [by apply wp_sqlite_create|]. intros [st|] w1 Hc Hn1.
  2: { destruct Hc as [Hb1 Hl]. eapply wp_no_storage; try done. destruct Hl; [by left|right; by exists (get_sql w)]. }
  destruct (sqlite_created_open _ _ _ _ Hc) as (sctx & Hs1 & Has & Hctx & Hrows1). clear Hc.
  rewrite Hv in Hs1. unfold rows_of in Hrows1 at 2. rewrite Hv in Hrows1. fold (rows_of (E := E) w0) in Hrows1.
  assert (Ha1 := acquired_union _ _ _ _ _ Ha Has). assert (Hd1 := acquired_disjoint _ _ _ _ _ Ha Has).
  apply wp_bind. apply (wp_frame (dbv (E := E))); [apply udp_create_frame|].
  replace (match ports with Some p => zlen (contents p) | None => 0 end) with (zlen (port_list ports))
    by by destruct ports.
  eapply wp_mono; [apply wp_udp_create; [by eauto with bitchat| |done|done]|].
  { unfold fds_ok in *. rewrite Hn1, Hn. exact Hfds. }
  assert (Hk1 : socks w1 = socks w0) by (unfold socks; congruence).
  intros r w2 Hc Hv2. destruct Hc as [(-> & Hb2 & Hk2)|(t & tctx & -> & Hwf & _ & _ & Hfd & Hat & Hn1' & Hn2' & Hfr & Hk2)].
  - apply wp_bind, (wp_free_ports ports (storage_blocks st sctx ∪ ports_blocks ports) w0);
      [by eauto with bitchat|clear; set_solver|].
    intros w3 Ha3 Ho3. destruct (outside_parts _ _ Ho3) as (_ & Hk3 & Hv3).
    replace (_ ∖ _) with (storage_blocks st sctx) in Ha3 by (clear -Hd1; set_solver).
    apply (wp_no_transport id port _ st sctx); [done| |congruence].
    eapply storage_open_ext; [|exact Hs1]. congruence.
  - assert (Ha2 := acquired_union _ _ _ _ _ Ha1 Hat). assert (Hd2 := acquired_disjoint _ _ _ _ _ Ha1 Hat).
    apply wp_bind, (wp_free_ports ports _ w0 _ _ Ha2); [clear; set_solver|].
    intros w3 Ha3 Ho3. destruct (outside_parts _ _ Ho3) as (_ & Hk3 & Hv3).
    set (tb := Box t (udp_transport tctx)). fold (transport_blocks tb tctx) in *.
    change ({[t]} ∪ udp_blocks tctx) with (transport_blocks tb tctx) in *.
    replace ((transport_blocks tb tctx ∪ (storage_blocks st sctx ∪ ports_blocks ports)) ∖ ports_blocks ports)
      with (transport_blocks tb tctx ∪ storage_blocks st sctx) in Ha3 by (clear -Hd1 Hd2; set_solver).
    apply (wp_open_router id port tb tctx st sctx w0); try done.
    + split_and!; try done; [by rewrite <- Hk1|]. exists port. by rewrite Hk3, Hk2, Hk1.
    + eapply storage_open_ext; [|exact Hs1]. congruence.
    + rewrite Hv3, Hv2. exact Hctx.
    + unfold rows_of in *. congruence.
    + apply disjoint_union_l in Hd2 as [Hd2 _]. by symmetry.
Qed.
End opening.

(** ** The session *)

Section running.
Context {W E : Type} `{!HasOS W} `{I : !WorldInv W} `{!HasNet W, !HasSql W E, !Sqlite E, !SqliteSpec E}.
Context `{!Apart W E, !NetFree W, !SqlFree W E, !HasStdio W, !ApartIo W E, !IoWorld W}.
Context `{Hna : !Sodium} `{!SodiumSpec _}.
Context (Hbenign : forall w, world_ok w -> Forall (fun pd => benign pd.2) (n_queue (get_net w))).
Implicit Types (w : W) (s : node W).

(** While the node runs, the adapter with context [c] is in use, the engine's
    handles are those of [v1] and the sockets are [k]. *)
Definition running (c : sqlite_ctx) (v1 : db_view) (k : gmap Z (option Z)) : W -> Prop :=
  session (E := E) c v1 (fun w => socks w = k).

Lemma running_set_os c v1 k o w : running c v1 k (set_os o w) <-> running c v1 k w.
Proof. apply session_set_os. intros o' w'. unfold socks. by rewrite get_net_set_os. Qed.

Definition in_use c v1 k : WorldInv W := strengthen I (running c v1 k) (running_set_os c v1 k).

Lemma use_sql c v1 k : @SqlWorld W E _ (in_use c v1 k) _ _ c.
Proof. apply session_sql_world; [done|]. intros x w. unfold socks. by rewrite get_net_set_sql. Qed.

Lemma use_net c v1 k : @NetWorld W _ (in_use c v1 k) _.
Proof.
  apply strengthen_net; [apply _|]. intros n w Hk (Hs & Hh & Hr). unfold running, session.
  rewrite dbv_set_net. split; [done|]. split; [done|]. unfold socks at 1. rewrite get_set_net. congruence.
Qed.

Lemma use_io c v1 k : @IoWorld W _ (in_use c v1 k) _.
Proof.
  split.
  - intros w [Hw _]. by apply io_world_ok.
  - intros s w [Hw (Hs & Hh & Hr)] Hio. split; [by apply io_world_set|].
    unfold running, session, dbv, socks in *. by rewrite get_sql_set_io, get_net_set_io.
  - apply (io_world_held (WorldInv0 := I)).
  - apply (io_world_evolves (WorldInv0 := I)).
Qed.

(** An open node is ready to run. *)
Lemma node_ready s tctx sctx w0 k0 v0 w :
  heap_ok w -> node_open (E := E) w0 s tctx sctx k0 v0 w -> node_wired s ->
  ctx_ok (contents sctx) (dbv (E := E) w) -> Forall row_wf (rows_of (E := E) w) ->
  @node_inv W _ (in_use (contents sctx) (dbv w) (socks w)) s w.
Proof.
  intros Hok (Ht & Hs & _) (Hwf & Hid & Htr & Hst & Hom) Hctx Hrows.
  set (c := contents sctx). set (S := in_use c (dbv (E := E) w) (socks w)).
  assert (Hct : contents (n_transport s) = udp_transport tctx) by apply Ht.
  assert (Hcs : contents (n_storage s) = sqlite_storage (E := E) (addr (n_storage s)) sctx) by apply Hs.
  split; [apply strengthen_heap; [done|]; split; [done|]; split; [done|done]|].
  split; [done|]. split; [done|]. split; [split; [|split]|].
  - intros t. rewrite Htr, Hct. intros [= <-].
    apply (@udp_safe W _ S _ (use_net c (dbv w) (socks w))). apply Ht.
  - intros st. rewrite Hst, Hcs. intros [= <-].
    by apply (@sqlite_safe W E _ S _ _ _ c (use_sql c (dbv w) (socks w))).
  - intros f. rewrite Hom. intros [= <-] m u w1 Hok1 Hm _.
    eapply wp_mono; [apply (@wp_cli_message W _ S _ (use_io c (dbv w) (socks w))); done|].
    by intros _ w2 [Hb _].
  - intros t. rewrite Htr, Hct. intros [= <-].
    apply (@udp_benign W _ S _). intros w1 [Hw1 _]. by apply Hbenign.
Qed.

(** What running leaves of an open node. *)
Lemma wp_session fuel es1 es2 s tctx sctx w0 k0 v0 w :
  (2 <= main_steps es2)%nat -> heap_ok w0 -> node_open (E := E) w0 s tctx sctx k0 v0 w -> node_wired s ->
  ctx_ok (contents sctx) (dbv (E := E) w) -> Forall row_wf (rows_of (E := E) w) ->
  (inbound w < fuel)%nat ->
  wp (run fuel (es1 ++ EvSignal :: es2) s) w (fun s' w' => n_pc s' = Past /\
    exists v1, same_handles v0 v1 /\ node_open (E := E) w0 s' tctx sctx k0 v1 w').
Proof.
  intros Hmain Hok Hop Hw Hctx Hrows Hf. assert (Hop' := Hop).
  destruct Hop' as (Ht & Hs & Ha & Hd1 & Hd2 & Hne).
  assert (Hok1 : heap_ok w) by by eapply acquired_heap_ok.
  assert (Hinv := node_ready s tctx sctx w0 k0 v0 w Hok1 Hop Hw Hctx Hrows).
  set (c := contents sctx) in *. set (S := in_use c (dbv (E := E) w) (socks w)) in *.
  eapply wp_mono; [apply (wp_run_signal (WorldInv0 := S) (IoWorld0 := use_io c (dbv w) (socks w))); done|].
  intros s' w' [(_ & Hb & _ & Htr & Hst & Hadr & Hwir) Hpast].
  destruct (weaken_balanced I _ _ w w' ltac:(apply Hinv) Hb) as [Hb' (_ & Hh & Hk)].
  split; [done|].
  destruct (storage_open_used _ _ _ _ _ Hs Hh) as (v1 & Hsame & Hs').
  exists v1. split; [done|]. unfold node_open, node_blocks. rewrite Htr, Hst.
  assert (Htab : addr (dedup_table (contents (n_router s'))) = addr (dedup_table (contents (n_router s))))
    by apply Hwir.
  assert (Hrb : router_blocks (n_router s') = router_blocks (n_router s))
    by (unfold router_blocks; by rewrite Hadr, Htab).
  rewrite Hrb, Hadr, Htab. split; [by eapply transport_open_ext|].
  split; [done|].
  split; [by eauto with bitchat|done].
Qed.

(** Shutting an open node down. *)
Lemma wp_shutdown s tctx sctx w0 k0 v1 w :
  node_open (E := E) w0 s tctx sctx k0 v1 w -> n_pc s = Past ->
  wp (shut_node_down s) w (fun id w' => balanced w0 w' /\ socks w' = k0 /\ dbv (E := E) w' = v1 /\
    secret_key id = replicate 32 0).
Proof.
  intros (Ht & Hs & Ha & Hd1 & Hd2 & Hne) _. unfold shut_node_down.
  apply wp_bind. apply (wp_frame (outside (E := E))); [unfold c_printf; auto with frame|].
  apply wp_printf. intros w1 Hb1 _ Ho1. cbv zeta.
  assert (Htick : wp (tick_step 0 (set_running 0 s)) w1 (fun s' w' => w' = w1 /\
    n_router s' = n_router s /\ n_transport s' = n_transport s /\ n_storage s' = n_storage s))
    by (unfold tick_step; destruct (n_ticking _); by apply wp_ret).
  apply wp_bind. eapply wp_mono; [exact Htick|]. intros s' w' (-> & -> & -> & ->).
  assert (Ha1 := acquired_balanced _ _ _ _ Ha Hb1). unfold node_blocks in Ha1.
  apply wp_bind. apply (wp_frame (outside (E := E))).
  { apply quiet_untouched; [apply outside_set_os|apply quiet_router_destroy]. }
  eapply wp_mono; [apply wp_router_destroy; [done|destruct Ha1 as (_ & -> & _); clear; set_solver]|].
  intros [] w2 Hr2 Ho2. assert (Ha2 := acquired_released _ _ _ _ _ Ha1 Hr2 ltac:(clear; set_solver)).
  replace ((_ ∪ _) ∖ _) with (transport_blocks (n_transport s) tctx ∪ storage_blocks (n_storage s) sctx)
    in Ha2 by (clear -Hd2; set_solver).
  destruct (outside_parts _ _ Ho1) as (_ & Hk1 & Hv1), (outside_parts _ _ Ho2) as (_ & Hk2 & Hv2).
  apply (wp_close_both _ k0 v1 _ tctx _ sctx w0);
    [eapply transport_open_ext; [|exact Ht]; congruence|eapply storage_open_ext; [|exact Hs]; congruence|
     done|done|].
  intros w3 Hb3 Hk3 Hv3. apply wp_bind.
  apply (wp_frame (outside (E := E))); [unfold c_printf; auto with frame|].
  apply wp_printf. intros w4 Hb4 _ Ho4. destruct (outside_parts _ _ Ho4) as (_ & Hk4 & Hv4).
  apply wp_ret. split; [by eauto with bitchat|]. split; [congruence|]. split; [congruence|done].
Qed.
End running.
