(* ===== verification/CliProps.v ===== *)
(** * CliProps: what the command-line node guarantees

    The whole program is safe and gives back what it took under any arguments,
    environment and schedule ([main_restores]); it stops when asked; received
    text is shown exactly, sent text is sealed for its recipient; keys survive a
    restart; and the places where input checks or error checks are missing. *)
From stdpp Require Import strings pretty.
From S2P Require Import Prelude Effects Errors Sodium Message Peer Ports Sockets World UdpTransport.
From S2P Require Import Identity CryptoManager Sealing Discovery Sqlite SqliteStorage.
From S2P Require Import SqliteStorageSpec SqliteStorageProps SqliteLifecycle Session Dedup Router RouterSpec.
From S2P Require Import Hex Stdio Cli CliSpec CliMain.

(** ** Hexadecimal *)

(** A printed key can be typed back: for 32 bytes of key, what [bytes_to_hex]
    writes (64 digits and a NUL, the rest of the buffer untouched) is accepted
    by [hex_to_bytes] with the same 32 bytes; conversely [hex_to_bytes] accepts
    exactly the strings of the right length made of hexadecimal digits, in
    either case, answers -1 otherwise, and printing its result gives the string
    back in lower case. *)
Theorem hex_round_trip key out s extra recipient :
  bytes_n 32 key -> 64 < zlen out -> (0 ∉ s) -> zlen recipient = 32 ->
  bytes_to_hex key 32 out = Val (to_hex key ++ 0 :: drop 65 out) /\
  hex_to_bytes (to_hex key ++ 0 :: drop 65 out) recipient 32 = Val (0, key) /\
  (length s = 64%nat -> Forall is_hex s ->
     exists bs, hex_to_bytes (s ++ 0 :: extra) recipient 32 = Val (0, bs) /\
       bytes_n 32 bs /\ to_hex bs = lower <$> s) /\
  (length s <> 64%nat \/ ~ Forall is_hex s ->
     exists out', hex_to_bytes (s ++ 0 :: extra) recipient 32 = Val (-1, out') /\ length out' = 32%nat).
Proof.
  intros [Hkl Hkb] Hout Hs Hr. assert (Hk : zlen key = 32) by (unfold zlen; lia).
  assert (Hrl : length recipient = 32%nat) by (unfold zlen in Hr; lia).
  assert (Hhex : Forall is_hex (to_hex key)).
  { apply Forall_forall. intros c Hc. apply list_elem_of_bind in Hc as (b & Hc & Hb).
    unfold bytes_ok in Hkb. rewrite Forall_forall in Hkb. destruct (nibbles b (Hkb b Hb)) as (_ & _ & H1 & H2).
    repeat (apply elem_of_cons in Hc as [->|Hc]; [by apply hex_digit_is_hex|]). by apply elem_of_nil in Hc. }
  assert (Hb64 : 2 * zlen recipient < 2 ^ 64) by lia.
  split_and!.
  - rewrite <- Hk at 1. rewrite bytes_to_hex_ok by (done || lia). do 4 f_equal. lia.
  - destruct (hex_to_bytes_ok (to_hex key) (drop 65 out) recipient) as [Hy _];
      [by apply to_hex_no_nul|done|]. rewrite Hr, of_to_hex in Hy by done. apply Hy; [|done].
    rewrite to_hex_length. lia.
  - intros Hl Hh. destruct (hex_to_bytes_ok s extra recipient) as [Hy _]; [done|done|].
    rewrite Hr in Hy. exists (of_hex s). split; [apply Hy; [lia|done]|].
    split; [split; [by apply of_hex_length|by apply of_hex_bytes]|by apply (to_of_hex 32)].
  - intros Hbad. destruct (hex_to_bytes_ok s extra recipient) as [_ Hn]; [done|done|].
    rewrite Hr, Hrl in Hn. apply Hn. destruct Hbad; [left; lia|by right].
Qed.

(** ** Messages and commands *)

Section properties.
Context {W : Type} `{!HasOS W, !WorldInv W, !HasNet W, !HasStdio W, !IoWorld W}.
Context `{Hna : !Sodium} `{!SodiumSpec _}.
Implicit Types (w : W) (s : node W).

(** Received text is shown exactly: for any well-formed message the callback
    is safe and leaves no block behind; when the payload decrypts, standard
    output gains exactly one announcement with the sender's key in hexadecimal
    and the text up to its first NUL, and standard error nothing; otherwise
    standard output is untouched. *)
Theorem received_text_shown id m u w :
  heap_ok w -> message_wf m -> identity_wf id ->
  wp (on_message_received id m u) w (fun _ w' => balanced w w' /\ shown id m w w').
Proof. apply wp_cli_message. Qed.

(** C29: [/msg] sends what was typed to whom was named: for any argument string
    of less than 65536 characters the command is safe, keeps the router
    well-formed and leaves no block behind.  Arguments without 64 hexadecimal
    digits and a text are refused with exactly the usage line, the line for a bad
    key or the line for an empty text, and nothing else happens.  Otherwise, if a
    key can be agreed on and memory suffices, a message is written whose payload
    is the text behind the blanks, sealed for the typed key under a nonce the
    random generator drew during the command; its id is recorded as seen, its
    encoding is forwarded once, it is offered to the storage once, and then
    exactly [Message sent.] is printed.  A failure of key agreement or of memory
    prints exactly its line and forwards and stores nothing.  Around these
    effects only the run-time is used. *)
Theorem msg_command_seals id r args w :
  heap_ok w -> router_wf r -> ports_safe r -> identity_wf id -> bytes_ok args -> (0 ∉ args) ->
  zlen args < 2 ^ 16 ->
  wp (cmd_msg id r args) w (fun r' w' =>
    balanced w w' /\ router_wf r' /\ same_wiring r r' /\ messaged id r args w r' w').
Proof. apply wp_cmd_msg. Qed.

(** The node stops when asked: after SIGINT or SIGTERM, in any interleaving of
    the two threads and with any input, two more steps of the main thread take
    it past its loop (the first may consume a line it was waiting for), and
    nothing has been lost: the adapters, the identity and the router's wiring
    are the same and the heap is balanced. *)
Theorem signal_ends_loop fuel es1 es2 s w :
  node_inv s w -> (inbound w < fuel)%nat -> (2 <= main_steps es2)%nat ->
  wp (run fuel (es1 ++ EvSignal :: es2) s) w (fun s' w' => node_stays s w s' w' /\ n_pc s' = Past).
Proof. apply wp_run_signal. Qed.
End properties.

(** ** The identity *)

Section identity.
Context {W : Type} `{!HasOS W, !WorldInv W, !HasStdio W, !IoWorld W} `{Hna : !Sodium} `{!SodiumSpec _}.
Implicit Types w : W.

(** Without a key file nothing is read. *)
Lemma key_read_none port s : io_files s !! key_path port = None -> key_read port s = None.
Proof. intros Hn. unfold key_read. rewrite Hn. by destruct (io_opened _ _). Qed.

(** C28: An identity survives a restart: when a start finds no key file and the
    disk takes 32 bytes, it either cannot open the key file for writing and gives
    up, or generates a key pair and saves it; and any later start that finds the
    file as this one left it, can open it and can read its 32 bytes loads the
    same pair, public key included, and leaves the files alone. *)
Theorem identity_persists port w :
  heap_ok w -> io_files (get_io w) !! key_path port = None -> (32 <= io_room (get_io w))%nat ->
  wp (load_or_generate port) w (fun first w1 =>
    match first with
    | None => io_opened (get_io w) (S (io_opens (get_io w))) = false
    | Some id => identity_wf id /\ generated (pubkey id) (secret_key id) /\
        forall w2, heap_ok w2 ->
          io_files (get_io w2) !! key_path port = io_files (get_io w1) !! key_path port ->
          io_opened (get_io w2) (io_opens (get_io w2)) = true ->
          (32 <= io_gives (get_io w2) (io_opens (get_io w2)))%nat ->
          wp (load_or_generate port) w2 (fun second w3 =>
            second = Some id /\ balanced w2 w3 /\ io_files (get_io w3) = io_files (get_io w2))
    end).
Proof.
  intros Hok Hnone Hroom. eapply wp_mono; [by apply wp_identity|]. intros first w1 [Hb1 Hfst].
  unfold obtained in Hfst. rewrite (key_read_none _ _ Hnone) in Hfst. destruct first as [id|]; [|apply Hfst].
  destruct Hfst as (Hid & Hgen & _ & Hfl). split; [done|]. split; [done|]. destruct Hgen as (seed & _ & Hg).
  intros w2 Hok2 Hsame Hopen Hgives. assert (Hl : length (secret_key id) = 32%nat) by apply Hid.
  rewrite Hfl, lookup_insert_eq, take_ge in Hsame by lia. assert (Hbase := keypair_base _ _ _ Hg).
  eapply wp_mono; [by apply wp_identity|]. intros second w3 [Hb3 Hsnd].
  unfold obtained, key_read in Hsnd. rewrite Hopen, Hsame in Hsnd. cbn in Hsnd.
  rewrite (take_ge (secret_key id)), take_ge, Hbase in Hsnd by lia. destruct second as [id'|].
  - destruct Hsnd as (_ & Hsk & [= Hpk] & Hfl3). split; [|done]. destruct id, id'. cbn in *. congruence.
  - destruct Hsnd as [[?|?] _]; [lia|done].
Qed.

(** A short write of the key file goes unnoticed and bricks the node: the
    result of [fwrite] is not checked, so when the disk takes fewer than 32
    bytes the first start still reports the identity as saved and runs with it,
    and every later start that can open the file refuses it as corrupted. *)
Theorem short_write_bricks port w :
  heap_ok w -> io_files (get_io w) !! key_path port = None -> (io_room (get_io w) < 32)%nat ->
  io_opened (get_io w) (S (io_opens (get_io w))) = true ->
  wp (load_or_generate port) w (fun first w1 => is_Some first /\
    forall w2, heap_ok w2 ->
      io_files (get_io w2) !! key_path port = io_files (get_io w1) !! key_path port ->
      io_opened (get_io w2) (io_opens (get_io w2)) = true ->
      wp (load_or_generate port) w2 (fun second _ => second = None)).
Proof.
  intros Hok Hnone Hroom Hwr. eapply wp_mono; [by apply wp_identity|]. intros first w1 [Hb1 Hfst].
  unfold obtained in Hfst. rewrite (key_read_none _ _ Hnone) in Hfst.
  destruct first as [id|]; [|destruct Hfst; congruence].
  destruct Hfst as (Hid & _ & _ & Hfl). split; [done|]. intros w2 Hok2 Hsame Hopen.
  eapply wp_mono; [by apply wp_identity|]. intros second w3 [_ Hsnd].
  unfold obtained, key_read in Hsnd. rewrite Hopen, Hsame, Hfl, lookup_insert_eq in Hsnd. cbn in Hsnd.
  destruct second as [id'|]; [|done]. destruct Hsnd as ((_ & Hsk) & He & _). destruct Hsk as [Hsk _].
  rewrite He, !length_take in Hsk. lia.
Qed.

(** A key file that cannot be opened for reading is taken for a missing one: a
    start that can open it for writing runs under a new identity and overwrites
    the old secret key, which is lost. *)
Theorem unreadable_key_is_replaced port f w :
  heap_ok w -> io_files (get_io w) !! key_path port = Some f ->
  io_opened (get_io w) (io_opens (get_io w)) = false ->
  io_opened (get_io w) (S (io_opens (get_io w))) = true ->
  wp (load_or_generate port) w (fun r w' =>
    exists id, r = Some id /\ generated (pubkey id) (secret_key id) /\
      io_files (get_io w') !! key_path port = Some (take (io_room (get_io w)) (secret_key id))).
Proof.
  intros Hok Hf Hrd Hwr. eapply wp_mono; [by apply wp_identity|]. intros r w' [_ Hr].
  unfold obtained, key_read in Hr. rewrite Hrd in Hr. destruct r as [id|]; [|destruct Hr; congruence].
  destruct Hr as (_ & Hg & _ & Hfl). exists id. split; [done|]. split; [done|].
  by rewrite Hfl, lookup_insert_eq.
Qed.

(** Ports wrap around silently: the port argument is cut to 16 bits before
    it is checked, so any number that is not a multiple of 65536, negative or
    too large, is accepted without a word as its remainder. *)
Theorem port_argument_wraps prog arg v w :
  c_atoi arg = Val v -> v mod 2 ^ 16 <> 0 ->
  parse_args [prog; arg] w = Val (inr (v mod 2 ^ 16, None), w).
Proof.
  intros Hv Hm. unfold parse_args, mbind, M_bind, lift. rewrite Hv. cbv zeta.
  unfold to_u16. by rewrite bool_decide_eq_false_2.
Qed.
End identity.

(** ** The whole program *)

Section program.
Context {W E : Type} `{!HasOS W, !WorldInv W, !HasNet W, !HasSql W E, !Sqlite E, !SqliteSpec E}.
Context `{!Apart W E, !NetFree W, !SqlFree W E, !HasStdio W, !ApartIo W E, !IoWorld W}.
Context `{Hna : !Sodium} `{!SodiumSpec _} (pthread_create_rc : W -> Z).
Implicit Types w : W.

(** C11: The whole program is safe and gives everything back: for any command
    line whose numbers are [int]s, any answers of the run-time, the database
    engine, the file system and [pthread_create], any input, any datagrams whose
    length field does not wrap the bounds test of the parser, and any stored rows
    that have the shape the adapter writes; and for any interleaving of the two
    threads that switches between whole steps (a line of input, a tick) in which
    a signal comes and the main thread then gets two steps: the program is
    defined throughout, exits with 0 or 1, and has by then freed every block,
    closed every socket and finalized every statement and connection it opened;
    the one exception is an exit with 1 after an [sqlite3_open_v2] on the node's
    database that failed and handed out a connection.  (The unlocked concurrent
    accesses of the two threads to the router are not covered.) *)
Theorem main_restores fuel es1 es2 argv w :
  (forall w', world_ok w' -> Forall (fun pd => benign pd.2) (n_queue (get_net w'))) ->
  heap_ok w -> fds_ok w -> Forall row_wf (rows_of (E := E) w) -> args_ok argv ->
  (inbound w < fuel)%nat -> (2 <= main_steps es2)%nat ->
  wp (main (E := E) pthread_create_rc fuel (es1 ++ EvSignal :: es2) argv) w (fun code w' =>
    (code = 0 \/ code = 1) /\ balanced w w' /\ socks w' = socks w /\
    (same_handles (dbv (E := E) w) (dbv w') \/
     (code = 1 /\ exists port, leaked_connection (E := E) (db_path port) (dbv w) (dbv w')))).
Proof.
  intros Hben Hok Hfd Hrows Hargs Hfuel Hmain. unfold main.
  apply wp_bind. eapply wp_mono; [by apply wp_parse_args|]. intros [code|[port ports]] w1 [Ho1 Hp].
  { destruct Hp as [-> Hb1]. destruct (outside_parts _ _ Ho1) as (_ & Hk1 & Hv1). apply wp_ret.
    split; [by right|]. split; [done|]. split; [done|]. left. by rewrite Hv1. }
  destruct Hp as [Ha1 Hports].
  assert (Hfail : forall w2, acquired (ports_blocks ports) w w2 -> outside (E := E) w2 = outside w ->
    wp (c_free (addr <$> ports);; mret 1) w2 (fun code w' =>
      (code = 0 \/ code = 1) /\ balanced w w' /\ socks w' = socks w /\
      (same_handles (dbv (E := E) w) (dbv w') \/
       (code = 1 /\ exists port, leaked_connection (E := E) (db_path port) (dbv w) (dbv w'))))).
  { intros w2 Ha2 Ho2. apply wp_bind, (wp_free_ports (E := E) ports _ w _ _ Ha2); [done|].
    intros w3 Ha3 Ho3. rewrite difference_diag_L in Ha3. apply wp_ret.
    destruct (outside_parts _ _ Ho2) as (_ & Hk2 & Hv2), (outside_parts _ _ Ho3) as (_ & Hk3 & Hv3).
    split; [by right|]. split; [by apply acquired_nil|]. split; [congruence|]. left. by rewrite Hv3, Hv2. }
  case_bool_decide.
  { apply (wp_complain_out (E := E)). intros w2 Hb2 Ho2. apply Hfail; [by eauto with bitchat|congruence]. }
  apply wp_bind. eapply wp_mono; [apply (wp_load_or_generate (E := E)); by eauto with bitchat|].
  intros [id|] w2 (Hb2 & Ho2 & Hid); [|apply Hfail; [by eauto with bitchat|congruence]].
  apply wp_bind. eapply wp_mono.
  { apply (wp_open_node (E := E) pthread_create_rc id port ports w); try done;
      [by apply Hid|by eauto with bitchat|congruence]. }
  intros [[found s]|] w3 Hop.
  2: { destruct Hop as (Hb3 & Hk3 & Hv3). apply wp_ret. split; [by right|]. split; [done|].
       split; [done|]. destruct Hv3 as [->|Hl]; [by left|right]. split; [done|by exists port]. }
  destruct Hop as (tctx & sctx & Hop & Hctx & Hr3 & Hw3 & Hid3).
  apply wp_bind. eapply wp_mono; [apply (wp_banner (E := E)); by apply Hid|]. intros _ w4 [Hb4 Ho4].
  destruct (outside_parts _ _ Ho4) as (_ & Hk4 & Hv4).
  assert (Hop4 : node_open (E := E) w s tctx sctx (socks w) (dbv w) w4).
  { destruct Hop as (Ht & Hs & Ha & Hrest). split; [by eapply transport_open_ext|].
    split; [by eapply storage_open_ext|]. split; [by eauto with bitchat|done]. }
  apply wp_bind. eapply wp_mono.
  { apply (wp_session (E := E) Hben fuel es1 es2 s tctx sctx w (socks w) (dbv w)); try done.
    - by rewrite Hv4.
    - unfold rows_of in *. by rewrite Hv4, Hr3.
    - destruct Hop4 as (_ & _ & (Hl & _) & _). destruct Hl as [Hadv _].
      destruct Hadv as (_ & _ & _ & _ & _ & Hin & _). lia. }
  intros s' w5 [Hpast (v1 & Hsame & Hop5)]. rewrite Hpast. apply wp_bind.
  eapply wp_mono; [by eapply wp_shutdown|]. intros id' w6 (Hb6 & Hk6 & Hv6 & _). apply wp_ret.
  split; [by left|]. split; [done|]. split; [done|]. left. by rewrite Hv6.
Qed.
End program.

(** ** Witnesses *)

(** The state beside the run-time and the network: the database and the
    streams. *)
Record term_state : Type := mkTerm { x_db : db_view; x_io : stdio }.

#[export] Program Instance term_HasSql : HasSql (world term_state) db_view :=
  {| get_sql w := x_db (w_ext w);
     set_sql x w := mkWorld (w_os w) (w_net w) (mkTerm x (x_io (w_ext w))) |}.
Solve All Obligations with done.

#[export] Program Instance term_HasStdio : HasStdio (world term_state) :=
  {| get_io w := x_io (w_ext w);
     set_io s w := mkWorld (w_os w) (w_net w) (mkTerm (x_db (w_ext w)) s) |}.
Solve All Obligations with done.

#[export] Instance term_apart : Apart (world term_state) db_view.
Proof. by split. Qed.
#[export] Instance term_apart_io : ApartIo (world term_state) db_view.
Proof. by split. Qed.

#[export] Instance term_ext : ExtInv term_state := free_inv (fun x => io_ok (x_io x)).

#[export] Instance term_io_world : IoWorld (world term_state).
Proof. split; [by intros w [_ Hx]|by intros s w [Hq _] Hs|done|done]. Qed.
#[export] Instance term_sql_free : SqlFree (world term_state) db_view.
Proof. split; [by intros x w [Hq Hx]|done|done]. Qed.

#[local] Existing Instance toy_sodium.

(** A terminal on which two commands are typed, with [room] bytes of disk. *)
Definition demo_stdio (room : nat) : stdio :=
  mkStdio [] [] (str "/info" ++ nl ++ str "/quit" ++ nl) ∅ room 0 (fun _ => true) (fun _ => 4096%nat).
Definition demo_term (room : nat) : world term_state :=
  demo_world 9 [] (mkTerm empty_db (demo_stdio room)).

Lemma demo_term_ok room :
  heap_ok (demo_term room) /\ never_oom (demo_term room) /\ fds_ok (demo_term room).
Proof.
  apply demo_world_ok; [constructor| |done]. split; [|apply map_Forall_empty].
  apply (bool_decide_unpack _). vm_compute. exact I.
Qed.

Definition demo_id : bc_identity := mkIdentity (replicate 32 3) (replicate 32 3).
Lemma demo_id_wf : identity_wf demo_id.
Proof. split; apply (bool_decide_unpack _); vm_compute; exact I. Qed.

(** A message for [demo_id] from the key of 32 fours; it says "Hi". *)
Definition demo_greeting : bc_message :=
  mkMessage (replicate 16 8) 9 (replicate 32 4) (replicate 32 3) 1700000000
    (Some (Box 7%nat (replicate 24 5 ++ [72; 105] ++ replicate 16 12))) 42.

Definition demo_term_router : bc_router (world term_state) :=
  mkRouter (Some (udp_transport (Box 1%nat demo_ctx))) None
    (mkConfig 3 4 600) (replicate 32 9) (Box 5%nat (replicate 4 zero_entry)) 4
    (synthetic_peer 9001 :: replicate 63 zero_peer) 1 (Some (on_message_received demo_id)) 0 0.

Lemma demo_term_router_ok : router_wf demo_term_router /\ ports_safe demo_term_router.
Proof.
  split; [apply (bool_decide_unpack _); vm_compute; exact I|]. split; [|split].
  - intros t [= <-]. apply udp_safe, demo_ctx_wf.
  - intros st [= ].
  - intros f [= <-] m u w Hok Hm _. eapply wp_mono; [apply wp_cli_message; try done; apply demo_id_wf|].
    by intros _ w' [Hb _].
Qed.

Definition demo_running : node (world term_state) :=
  mkNode 1 demo_id (Box 2%nat (udp_transport (Box 1%nat demo_ctx)))
    (Box 3%nat (sqlite_storage 3%nat (Box 4%nat demo_sql_ctx))) (Box 6%nat demo_term_router) AtTest true.

Lemma demo_running_inv : node_inv demo_running (demo_term 100).
Proof.
  destruct demo_term_router_ok as [Hwf Hp]. split; [apply demo_term_ok|].
  split; [apply demo_id_wf|]. split; [done|]. split; [done|]. intros t [= <-].
  apply udp_benign. by intros w [Hq _].
Qed.

(** [/msg] to the key of 32 times 0x04. *)
Definition demo_args : list Z := to_hex (replicate 32 4) ++ str " hello".

Lemma hex_round_trip_witness :
  bytes_to_hex (replicate 32 171) 32 (replicate 65 1) =
    Val (to_hex (replicate 32 171) ++ 0 :: drop 65 (replicate 65 1)) /\
  hex_to_bytes (to_hex (replicate 32 171) ++ 0 :: drop 65 (replicate 65 1)) (replicate 32 0) 32 =
    Val (0, replicate 32 171) /\
  (length (str "zz") = 64%nat -> Forall is_hex (str "zz") ->
     exists bs, hex_to_bytes (str "zz" ++ 0 :: []) (replicate 32 0) 32 = Val (0, bs) /\
       bytes_n 32 bs /\ to_hex bs = lower <$> str "zz") /\
  (length (str "zz") <> 64%nat \/ ~ Forall is_hex (str "zz") ->
     exists out', hex_to_bytes (str "zz" ++ 0 :: []) (replicate 32 0) 32 = Val (-1, out') /\
       length out' = 32%nat).
Proof.
  apply (hex_round_trip (replicate 32 171) (replicate 65 1) (str "zz") [] (replicate 32 0)).
  - apply (bool_decide_unpack _). vm_compute. exact I.
  - vm_compute. reflexivity.
  - apply (bool_decide_unpack _). vm_compute. exact I.
  - reflexivity.
Defined.

Lemma received_text_shown_witness :
  wp (on_message_received demo_id demo_greeting 0) (demo_term 100) (fun _ w' =>
    balanced (demo_term 100) w' /\ shown demo_id demo_greeting (demo_term 100) w').
Proof.
  apply (received_text_shown demo_id demo_greeting 0 (demo_term 100)).
  - apply demo_term_ok.
  - apply (bool_decide_unpack _). vm_compute. exact I.
  - exact demo_id_wf.
Defined.

Lemma msg_command_seals_witness :
  wp (cmd_msg demo_id demo_term_router demo_args) (demo_term 100) (fun r' w' =>
    balanced (demo_term 100) w' /\ router_wf r' /\ same_wiring demo_term_router r' /\
    messaged demo_id demo_term_router demo_args (demo_term 100) r' w').
Proof.
  apply (msg_command_seals demo_id demo_term_router demo_args (demo_term 100)).
  - apply demo_term_ok.
  - apply demo_term_router_ok.
  - apply demo_term_router_ok.
  - exact demo_id_wf.
  - apply (bool_decide_unpack _). vm_compute. exact I.
  - apply (bool_decide_unpack _). vm_compute. exact I.
  - vm_compute. reflexivity.
Defined.

Lemma signal_ends_loop_witness :
  wp (run 1 ([EvMain; EvTick; EvMain] ++ EvSignal :: [EvMain; EvTick; EvMain]) demo_running)
    (demo_term 100) (fun s' w' => node_stays demo_running (demo_term 100) s' w' /\ n_pc s' = Past).
Proof.
  apply (signal_ends_loop 1 [EvMain; EvTick; EvMain] [EvMain; EvTick; EvMain] demo_running (demo_term 100)).
  - exact demo_running_inv.
  - vm_compute. lia.
  - vm_compute. lia.
Defined.

Lemma identity_persists_witness :
  wp (load_or_generate 9000) (demo_term 100) (fun first w1 =>
    match first with
    | None => io_opened (get_io (demo_term 100)) (S (io_opens (get_io (demo_term 100)))) = false
    | Some id => identity_wf id /\ generated (pubkey id) (secret_key id) /\
        forall w2, heap_ok w2 ->
          io_files (get_io w2) !! key_path 9000 = io_files (get_io w1) !! key_path 9000 ->
          io_opened (get_io w2) (io_opens (get_io w2)) = true ->
          (32 <= io_gives (get_io w2) (io_opens (get_io w2)))%nat ->
          wp (load_or_generate 9000) w2 (fun second w3 =>
            second = Some id /\ balanced w2 w3 /\ io_files (get_io w3) = io_files (get_io w2))
    end).
Proof.
  apply (identity_persists 9000 (demo_term 100)).
  - apply demo_term_ok.
  - reflexivity.
  - cbn. lia.
Defined.

(** Two starts in a row: the second finds what the first saved. *)
Example second_start_loads :
  match load_or_generate 9000 (demo_term 100) with
  | Val (Some id, w1) =>
      match load_or_generate 9000 w1 with Val (second, _) => second = Some id | _ => False end
  | _ => False
  end.
Proof. vm_compute. reflexivity. Qed.

Lemma short_write_bricks_witness :
  wp (load_or_generate 9000) (demo_term 5) (fun first w1 => is_Some first /\
    forall w2, heap_ok w2 ->
      io_files (get_io w2) !! key_path 9000 = io_files (get_io w1) !! key_path 9000 ->
      io_opened (get_io w2) (io_opens (get_io w2)) = true ->
      wp (load_or_generate 9000) w2 (fun second _ => second = None)).
Proof.
  apply (short_write_bricks 9000 (demo_term 5)).
  - apply demo_term_ok.
  - reflexivity.
  - cbn. lia.
  - reflexivity.
Defined.

(** A key file that the first [fopen] cannot open. *)
Definition locked_out : world term_state :=
  demo_world 9 [] (mkTerm empty_db (mkStdio [] [] [] {[key_path 9000 := replicate 32 7]} 100 0
    (fun n => bool_decide (n <> 0%nat)) (fun _ => 4096%nat))).

Lemma unreadable_key_is_replaced_witness :
  wp (load_or_generate 9000) locked_out (fun r w' =>
    exists id, r = Some id /\ generated (pubkey id) (secret_key id) /\
      io_files (get_io w') !! key_path 9000 =
        Some (take (io_room (get_io locked_out)) (secret_key id))).
Proof.
  apply (unreadable_key_is_replaced 9000 (replicate 32 7) locked_out).
  - apply demo_world_ok; [constructor| |done]. split; [constructor|].
    apply map_Forall_insert_2; [|apply map_Forall_empty].
    apply (bool_decide_unpack _). vm_compute. exact I.
  - apply lookup_insert_eq.
  - reflexivity.
  - reflexivity.
Defined.

Lemma port_argument_wraps_witness :
  parse_args [str "bitchat_cli"; str "70000"] (demo_term 100) =
    Val (inr (70000 mod 2 ^ 16, None), demo_term 100).
Proof.
  apply (port_argument_wraps (str "bitchat_cli") (str "70000") 70000 (demo_term 100)).
  - reflexivity.
  - vm_compute. discriminate.
Defined.

Definition demo_argv : list (list Z) := [str "bitchat_cli"; str "9000"; str "9001"; str "9002"].

Lemma main_restores_witness :
  wp (main (fun _ => 0) 1 ([EvMain; EvTick; EvMain] ++ EvSignal :: [EvMain; EvTick; EvMain]) demo_argv)
    (demo_term 100) (fun code w' =>
    (code = 0 \/ code = 1) /\ balanced (demo_term 100) w' /\ socks w' = socks (demo_term 100) /\
    (same_handles (dbv (demo_term 100)) (dbv w') \/
     (code = 1 /\ exists port, leaked_connection (db_path port) (dbv (demo_term 100)) (dbv w')))).
Proof.
  apply (main_restores (fun _ => 0) 1 [EvMain; EvTick; EvMain] [EvMain; EvTick; EvMain] demo_argv
           (demo_term 100)).
  - by intros w [Hq _].
  - apply demo_term_ok.
  - apply demo_term_ok.
  - constructor.
  - repeat constructor; eexists; vm_compute; reflexivity.
  - vm_compute. lia.
  - vm_compute. lia.
Defined.
