(* ===== verification/EndToEnd.v ===== *)
(** * EndToEnd: from one terminal to another

    The front ends, the sealing of payloads and the mesh put together: a text
    that one node seals for another and broadcasts crosses the mesh along any
    route short enough for its time-to-live and is shown, unchanged, on the
    other's terminal. *)
From S2P Require Import Prelude Effects Errors Sodium Message Peer Ports Sockets World UdpTransport.
From S2P Require Import Identity CryptoManager Sealing Sqlite SqliteStorage SqliteStorageSpec SqliteStorageProps.
From S2P Require Import Dedup Router RouterSpec RouterProps Mesh MeshInv MeshProps MeshFlow MeshReach MeshDemo.
From S2P Require Import Outbound Hex Stdio Cli CliSpec CliProps.

Lemma hops_fields k p :
  pk_sender (hops k p) = pk_sender p /\ pk_payload (hops k p) = pk_payload p.
Proof. revert p. induction k as [|k IH]; intros p; [done|]. exact (IH (hop p)). Qed.

Section end_to_end.
Context {W : Type} `{!HasOS W, !WorldInv W, !HasStdio W, !IoWorld W}.
Context `{Hna : !Sodium} `{!SodiumSpec _}.
Context {E : Type} `{!Sqlite E, !SqliteSpec E, !BindsSucceed E}.
Implicit Types (n : gossip_node E) (s : mesh E) (idA idB : bc_identity).

(** A message whose payload opens is shown while there is memory. *)
Lemma wp_shows_text idB b u pt (w : W) :
  heap_ok w -> never_oom w -> identity_wf idB -> message_wf b ->
  opens (secret_key idB) (sender_pubkey b) (msg_payload b) pt ->
  wp (on_message_received idB b u) w (fun _ w' =>
    balanced w w' /\ prints (announcement (sender_pubkey b) pt) [] (get_io w) (get_io w')).
Proof.
  intros Hok Hno Hid Hb Hop. eapply wp_mono; [by apply wp_cli_message|].
  intros [] w' [Hbal [(pt' & Hop' & Hp)|(_ & _ & [Ho|Ho])]]; split; try done.
  - by rewrite (opens_unique _ _ _ _ _ Hop Hop').
  - by destruct (Ho pt).
Qed.

(** C5: what one node writes the other reads: a message that carries a text of at
    most 3963 bytes sealed by [idA] for [idB] - the messages both front ends
    build - and is broadcast by a node with a route of at most ten hops over idle
    nodes to the node of [idB] reaches that node's application, where it still opens
    to the text; and the terminal of a command-line node with the identity
    [idB] that is handed the message, and whose memory does not run out, shows
    the text (up to its first NUL, if it has one), with [idA]'s key, exactly
    once. *)
Theorem text_arrives past s a n idA idB pt m q path :
  mesh_ok past s -> nodes s !! a = Some n -> up n -> relays n ->
  generated (pubkey idA) (secret_key idA) -> generated (pubkey idB) (secret_key idB) ->
  bytes_ok pt -> zlen pt <= 3963 ->
  letter (pubkey idA) (secret_key idA) (pubkey idB) pt m ->
  q ∈ ctx_ports (contents (gn_udp n)) -> route s (uuid m) (pubkey idB) q path ->
  NoDup (a :: path) -> Z.of_nat (length path) <= BC_DEFAULT_TTL ->
  exists ls s' j nj nj' p, last path = Some j /\ Mesh.run (LBroadcast a m :: ls) s s' /\ broadcasts ls = [] /\
    nodes s !! j = Some nj /\ nodes s' !! j = Some nj' /\ gn_inbox nj' = gn_inbox nj ++ [p] /\
    opens (secret_key idB) (pk_sender p) (pk_payload p) pt /\
    forall b u (w : W), msg_packet b = p -> message_wf b -> heap_ok w -> never_oom w ->
      wp (on_message_received idB b u) w (fun _ w' => balanced w w' /\
        prints (announcement (pubkey idA) pt) [] (get_io w) (get_io w')).
Proof.
  intros Hok Hn Hup Hre HgA HgB Hpt Hl (Hm & Httl & Hs & Hr & Hseal) Hq Hro Hnd Hlen.
  destruct (generated_wf _ _ HgA) as [HpA HsA]. destruct (generated_wf _ _ HgB) as [HpB HsB].
  assert (Hsl := sealed_length _ _ _ _ HsA HpB Hpt Hseal).
  assert (Hpl : payload_len m = zlen (msg_payload m)) by apply Hm.
  rewrite <- Hr in Hro. destruct (broadcast_travels past s a n m q path) as
    (ls & s' & j & nj & nj' & Hlast & Hrun & Hb & Hj & Hj' & Hin); try done.
  { change (4096 - BC_MESSAGE_HEADER_SIZE) with 4003. change BC_NONCE_SIZE with 24 in *.
    change BC_TAG_SIZE with 16 in *. lia. }
  { by rewrite Httl. }
  exists ls, s', j, nj, nj', (hops (length path) (msg_packet m)).
  destruct (hops_fields (length path) (msg_packet m)) as [Hps Hpp]. rewrite Hps, Hpp. cbn. rewrite Hs.
  assert (Hop := sealed_opens _ _ _ _ _ _ HgA HgB Hpt Hseal). split_and!; try done.
  intros b u w Hbp Hbm Hok' Hno. assert (Hbs : sender_pubkey b = pubkey idA).
  { change (pk_sender (msg_packet b) = pubkey idA). by rewrite Hbp, Hps. }
  rewrite <- Hbs. apply wp_shows_text; try done. rewrite Hbs.
  change (msg_payload b) with (pk_payload (msg_packet b)). by rewrite Hbp, Hpp.
Qed.
End end_to_end.

(** ** A greeting from node 0 to node 2 of the line *)

#[local] Existing Instance toy_sodium.

Definition writer : bc_identity := mkIdentity (replicate 32 0) (replicate 32 0).
Definition reader : bc_identity := mkIdentity (replicate 32 2) (replicate 32 2).

(** The nonce, the text and its tag. *)
Definition greeting : bc_message :=
  mkMessage (replicate 16 7) 10 (pubkey writer) (pubkey reader) 5
    (Some (Box 9%nat (replicate 24 0 ++ [72; 105] ++ replicate 16 2))) 42.

Lemma greeting_letter : letter (pubkey writer) (secret_key writer) (pubkey reader) [72; 105] greeting.
Proof.
  split_and!; try done; [apply (bool_decide_unpack _); vm_compute; exact I|].
  exists (replicate 32 2), (replicate 24 0), ([72; 105] ++ replicate 16 2). split_and!; try done.
  split; [done|]. by apply bytes_ok_replicate.
Qed.

Lemma generated_replicate x : 0 <= x < 2 ^ 8 -> generated (replicate 32 x) (replicate 32 x).
Proof. intros Hx. exists (replicate 32 x). split; [|done]. split; [done|]. by apply bytes_ok_replicate. Qed.

Lemma text_arrives_witness :
  exists ls s' j nj nj' p, last [1%nat; 2%nat] = Some j /\ Mesh.run (LBroadcast 0 greeting :: ls) trio s' /\
    broadcasts ls = [] /\ nodes trio !! j = Some nj /\ nodes s' !! j = Some nj' /\
    gn_inbox nj' = gn_inbox nj ++ [p] /\
    opens (secret_key reader) (pk_sender p) (pk_payload p) [72; 105] /\
    forall b u (w : world term_state), msg_packet b = p -> message_wf b -> heap_ok w -> never_oom w ->
      wp (on_message_received reader b u) w (fun _ w' => balanced w w' /\
        prints (announcement (pubkey writer) [72; 105]) [] (get_io w) (get_io w')).
Proof.
  apply (text_arrives [] trio 0 (demo_gossip 1 0 [9001] None empty_table) writer reader [72; 105] greeting 9001 [1%nat; 2%nat]).
  - apply fresh_ok, trio_fresh.
  - reflexivity.
  - apply (demo_idle 0 [9001] []).
  - split; [discriminate|reflexivity].
  - apply generated_replicate. lia.
  - apply generated_replicate. lia.
  - apply (bool_decide_unpack _). vm_compute. exact I.
  - discriminate.
  - exact greeting_letter.
  - left.
  - eexists. split; [reflexivity|]. split; [apply (demo_idle 1)|]. split; [vm_compute; discriminate|].
    split; [split; [discriminate|reflexivity]|]. exists 9002. split; [right; left|].
    eexists. split; [reflexivity|]. split; [apply (demo_idle 2)|reflexivity].
  - apply (bool_decide_unpack _). vm_compute. exact I.
  - discriminate.
Defined.
